(* ===== verification/_CoqProject ===== *)
-Q . S2P
Prelude.v
EventState.v
EventOps.v
EventInv.v
GroupReg.v
EventFlow.v
EventPost.v
EventTasks.v
EventConc.v
EventMask.v
EventSteps.v
EventRegSteps.v
EventSafe.v
EventRaces.v
EventEnd.v
EventDrain.v
Vote.v
EventStill.v
EventVote.v
EventVoteSteps.v
EventDestroy.v
EventThms.v
CText.v
GroupText.v
CtrlDev.v
GroupDev.v
UserLib.v
DevText.v
UserOpen.v
IgnDev.v
DevInit.v
DevInitSpec.v
DevFiles.v
ShowFiles.v
ShowThms.v
DevThms.v
FsState.v
FsInode.v
FsSpec.v
FsFile.v
FsFrame.v
FsInodeSpec.v
FsFileSpec.v
FsLedger.v
FsSystem.v
FsTables.v
Guard.v
GuardInv.v
FsRw.v
FsRwSpec.v
FsSession.v
FsPages.v
FsModel.v
FsThms.v
GuardThms.v
Flaws.v
