(* ===== verification/Prelude.v ===== *)
(** * DazukoFS: a verification of the stacked file system with access control

    DazukoFS is a Linux kernel module.  It is a file system that lies over
    another one, and before a file is opened it asks registered user-space
    processes whether the access is allowed.

    ** The program and its model

    - [event.c], the event layer: groups of registered processes, events that are
      posted to all groups, claimed and answered.  [EventState] has its structs,
      its static data and typed heaps with explicit addresses; [EventOps] one
      definition per function, under the name it has in the source ([remove_group]
      is [__remove_group]).  A function that takes [work_mutex], [proc_mutex] or
      [assigned_mutex] is split into the segments between the points where it holds
      none; [EventTasks] interleaves the segments of any number of tasks, each of
      them a call of an entry point, with [group_count_sem] as a readers-writer lock
      and waiting as a task that is not enabled.  [group_count++] in
      [dazukofs_add_group] is two steps, a read and a write: it holds [group_count_sem],
      but [group_count--] at the close of a tracked file holds [work_mutex].
    - [event.c:dazukofs_get_groups] and [ctrl_dev.c], the list of groups and the
      commands on them: [GroupText], [CtrlDev].
    - [group_dev.c], events and answers as text: [GroupDev].
    - [ign_dev.c], processes that are not checked: [IgnDev].
    - [dev.c], [super.c:init_dazukofs_fs] and the init functions of the devices:
      [DevInit], over a list of what the kernel handed out.
    - the tables of operations of the devices and the way from a device file to its
      operations, for a group device to its group: [DevFiles].
    - [test/lib/dazukofs.c], the user-space library: [UserLib], over a record of
      system calls; [UserOpen] puts [dazukofs_open] on top of the control device.
      [test/showfiles.c], the program that uses it: [ShowFiles].
    - [inode.c]: [FsInode]; opens in [file.c], [dentry.c] and mounts in [super.c]:
      [FsFile]; the other operations of [file.c], and [mmap.c]: [FsRw]; the tables
      through which the VFS reaches all these: [FsTables].  Their state is in [FsState]
      (links to lower objects, references, mutexes, attributes, fields of VFS objects)
      and [FsRw] (positions, pages).  [FsSystem] makes a system of the operations as
      they are compiled for a kernel version, with what the VFS guarantees about its
      calls; [FsLedger] has the list of references that operations leave behind or give
      back too much.
    - Both halves meet in [dazukofs_open], which calls [dazukofs_check_access] while it
      holds references: [Guard] runs the tasks of the event layer and the operations of
      the file system together, for any kernel version.  [FsFile.open_before] is [dazukofs_open] up to the check
      and [FsFile.open_after] the rest; in between the open waits for its task.  A
      registered process opens the file of its event by [G_nested].

    C statements are computations of the monad [SM] below, which threads the state
    and gets stuck where C has no defined behaviour or would hang or crash: a use
    after free, a NULL pointer, a node that is on no list, an index out of bounds, a
    mutex taken twice.  Error codes are numbers, as in the source.  [int] and
    [unsigned long] are [Z] with [int_wrap] and [ulong_wrap] where the source lets
    them overflow (event ids, the result of a read, page indices).

    ** Orderly runs

    [dazukofs_group_release_tracking] spoils the counters of the event layer in two
    cases.  It finds the group of a file by its id, so if the group is gone and another
    one has its id, it counts down that one; and it changes [group_count] under another
    lock than [dazukofs_add_group] does, so one of two changes may be lost.
    [EventTasks.step] admits both ([EventTasks.reachable]); a run without them is orderly
    ([EventTasks.orderly_reachable], [EventVote.traced] [orderly]).  The theorems on
    interleavings of the event layer are on orderly runs, and each says so.  C20 says
    what the two steps do from any state of an orderly run; the lemma
    [EventThms.stale_close_frees_waited_group] has a run in which a group is then freed
    under a process that waits for it.

    ** The theorems

    - [GuardThms] (C1, C5): compiled for any kernel version, and whatever runs in
      between, a file that is open was allowed by the check of its own open, and an
      access that a registered process denied is refused; while opens wait, the
      references are accounted for, up to the ledger.
    - [EventThms] (C2, C3, C7-C10, C14-C20): in orderly runs, the only fault is the use
      of a claimed container that somebody else freed (C2; the lemma
      [claimed_container_freed] shows one more way to it).  The event layer implements
      an abstract vote (C3): [Vote] has ballots instead of lists, locks and tasks, and
      every orderly run of the tasks looks from outside like one of its runs, so an
      access is refused exactly if a registered process answered it with DENY, every
      answer is counted, and no group is counted twice or left out.
      Nobody sleeps without a reason (C7, C8), without new calls everything comes to
      rest after a bounded number of steps, and when the groups are deleted everything
      returns (C9); the registry is consistent and implements its abstract
      specification [GroupReg.Spec] (C10, C14); arrays suffice (C17); masking and
      ignoring are exact, also for the check a registered process causes itself (C18);
      posting, answering and closing (C15, C16, C19); races of the closing of group
      files (C20).
      The invariant is [EventConc.sys_inv]: the heap is tied to a ghost state that sums
      up what every task owes and holds ([EventInv.mem_inv]), and each task knows what
      its position tells.
    - [FsThms] (C6, C11-C13, C21-C29): compiled for any kernel version, references are
      balanced over every sequence of operations of the VFS ([FsSystem.fs_run]), up to a
      ledger that names the operations that leave some behind or give back too much;
      inodes have the operations of their kind; lookups and new names show what is in
      the lower file system; denied opens open nothing; a session on a stacked file is
      indistinguishable from one on the lower file ([FsSession]); no cached page that
      counts as up to date is stale ([FsPages]); loops end; links are followed to the
      lower text; what goes wrong on newer kernels.
    - [DevThms], [ShowThms] (C4, C30-C40): the end of the event layer frees every group
      (C4); texts printed by the kernel are parsed by the
      library and the other way round; commands run once; opening a group finds its
      device, and the device file its group; the example program answers every event,
      up to the first id its device accepts no answer to; the ignore device; start and end of the module.
    - [Flaws]: paths on which the code does not do what it means to and of which no
      theorem above speaks: error paths that put or leave too much, texts cut off.

    ** Layers of the proofs

    [wp] is the weakest precondition of a computation; each component has rules for
    its primitives, then for its functions.  The event layer has [EventInv]
    (memory), [GroupReg] (registry), [EventFlow] and [EventPost] (critical
    sections), [EventConc] to [EventSafe] (tasks, steps, states of orderly
    runs), [EventRaces] (the steps that are not orderly), [EventEnd]
    (measures on positions and loops), [EventDrain] (the end when groups go),
    [EventDestroy].  The vote has [Vote] (the abstract machine and its tallies),
    [EventStill] (classes of computations that keep lists and events as they are, with
    an instance for every primitive), [EventVote] (which box of votes a state stands
    for) and [EventVoteSteps] (one simulation lemma per step a vote notices).

    The file system has [FsSpec] (who owns which reference: [holds], [owes]), [FsLedger],
    [FsInodeSpec], [FsFileSpec], [FsRwSpec], [FsSession], [FsPages]; [FsModel] is a
    small lower file system that has the laws required of the kernel, to run the code
    on.  [FsFrame] shows, through two classes with an instance for every primitive,
    that no operation sees how many references others hold, so that an operation does the
    same beside opens that wait ([GuardInv]) and beside the references of the ledger.

    ** Parameters and what is required of them

    Code outside of the source is a parameter: [simple_strtoul], the lookup of device
    numbers ([DevFiles.lookup_law]), [igrab], the cache of inodes behind [iget5_locked],
    [fsstack_copy_*] and all operations of the lower file system are
    fields of records ([FsState.fs_kernel], [FsRw.io_kernel]).  Their laws are
    [FsSpec.kernel_laws], [FsSession.file_laws], [FsPages.page_laws] and
    [FsSpec.kinds_stable]; what the VFS guarantees about its calls is
    [FsSystem.legal].  Which allocations fail is part of the state.

    ** Fuel

    [add_group_search] tries ids until one is free: one more than the groups listed
    is enough ([GroupReg.taken_above_fuel]).  [mark_loop] runs once per page:
    [last - start + 2] is enough for every position ([FsRwSpec.mark_loop_run], C26).
    The formatting of numbers takes as much fuel as digits are needed
    ([CText.digits_fuel]).  The loop of the example program takes one round more than
    there are events that can be answered (C31).  [dazukofs_get_groups] doubles its
    buffer until the text fits (C37).

    ** Not modelled

    - Atomicity below critical sections, but for [group_count++]: the reads of
      [use_count] and [group_count] outside of locks are atomic steps.  Who sleeps in
      [poll] is not followed: [poll_wait] only touches the queue of the group.
    - Lower objects are never freed: a reference given back too much shows in the ledger,
      and C5 and C6 promise that operations run only while the ledger misses none.
    - A mount since Linux 2.6.39 leaves a root over nothing
      ([FsThms.mount_has_no_root_since_39]); the runs of the file system for such kernels
      start from a root that an older kernel has mounted ([FsSystem.fs_start]).
    - Before Linux 3.2, [inode.c] assigns to fields that [struct inode] does not have and
      does not compile; the model has the assignments that were meant.
    - Concurrency of file system operations: they run one after the other, but for
      opens, which wait for their checks while others run; the lower file system may
      change in between.  Nesting of mutexes is not checked.
    - [i_version], [a_ops] and [s_op], which are set to the only value they have, the
      contents of [iattr], and the locking inside of [iget5_locked].  [init_once] only
      zeroes memory.
    - The installation of the signal handlers and the texts of the error messages of
      [test/showfiles.c]; in C31 the close of the group device is recorded, and its
      release does not run.  [ooo/] is an empty module.

    This file: the monad, counting in maps, integers, error numbers, lists. *)

From Stdlib Require Export ZArith Lia.
From stdpp Require Export base list gmap numbers.

(** ** The state-and-failure monad of the C code

    A C statement either completes, with a value and a new state, or gets
    stuck: it touches freed memory, follows a NULL pointer, unlinks a node
    that is on no list, leaves the bounds of an array, asks itself for leave to
    open a file, takes a mutex it holds or calls without one it needs, or a
    fuelled loop of the model runs out of fuel.  Error codes are ordinary [Z]
    values, as in the source. *)

Inductive stuck : Set :=
| UseAfterFree
| NullDeref
| ListPoison
| OutOfBounds
| Recursion
| LockMisuse
| OutOfFuel.

Inductive result (S A : Type) : Type :=
| Ret (a : A) (s : S)
| Stuck (w : stuck).
Arguments Ret {S A} a s.
Arguments Stuck {S A} w.

Definition SM (S A : Type) : Type := S -> result S A.

Definition sret {S A} (a : A) : SM S A := fun s => Ret a s.
Definition sfail {S A} (w : stuck) : SM S A := fun _ => Stuck w.
Definition sbind {S A B} (m : SM S A) (k : A -> SM S B) : SM S B :=
  fun s => match m s with Ret a s' => k a s' | Stuck w => Stuck w end.
Definition sget {S A} (f : S -> A) : SM S A := fun s => Ret (f s) s.
Definition smodify {S} (f : S -> S) : SM S unit := fun s => Ret tt (f s).

Declare Scope c_scope.
Delimit Scope c_scope with c.
Notation "'let!' x ':=' m 'in' k" := (sbind m (fun x => k))
  (at level 10, x binder, m at level 200, k at level 200,
   format "'[hv' 'let!'  x  ':='  m  'in'  '/' k ']'") : c_scope.
Notation "'do!' m 'in' k" := (sbind m (fun _ => k))
  (at level 10, m at level 200, k at level 200,
   format "'[hv' 'do!'  m  'in'  '/' k ']'") : c_scope.
Open Scope c_scope.

(** Weakest precondition: [m] runs from [s] without getting stuck and its
    result satisfies [Q]. *)
Definition wp {S A} (m : SM S A) (Q : A -> S -> Prop) (s : S) : Prop :=
  match m s with Ret a s' => Q a s' | Stuck _ => False end.

Section wp.
Context {S : Type}.
Implicit Types s : S.

Lemma wp_ret {A} (a : A) Q s : Q a s -> wp (sret a) Q s.
Proof. done. Qed.

Lemma wp_get {A} (f : S -> A) Q s : Q (f s) s -> wp (sget f) Q s.
Proof. done. Qed.

Lemma wp_modify (f : S -> S) Q s : Q tt (f s) -> wp (smodify f) Q s.
Proof. done. Qed.

Lemma wp_bind {A B} (m : SM S A) (k : A -> SM S B) Q s :
  wp m (fun a s' => wp (k a) Q s') s -> wp (sbind m k) Q s.
Proof. unfold wp, sbind. by destruct (m s). Qed.

Lemma wp_mono {A} (m : SM S A) (Q Q' : A -> S -> Prop) s :
  wp m Q s -> (forall a s', Q a s' -> Q' a s') -> wp m Q' s.
Proof. unfold wp. destruct (m s); naive_solver. Qed.

Lemma wp_run {A} (m : SM S A) Q s :
  wp m Q s -> exists a s', m s = Ret a s' /\ Q a s'.
Proof. unfold wp. destruct (m s); naive_solver. Qed.

Lemma wp_of_run {A} (m : SM S A) (Q : A -> S -> Prop) s a s' :
  m s = Ret a s' -> Q a s' -> wp m Q s.
Proof. unfold wp. by intros ->. Qed.

Lemma wp_ran {A} (m : SM S A) Q s : wp m Q s -> wp m (fun a s' => Q a s' /\ m s = Ret a s') s.
Proof. unfold wp. by destruct (m s). Qed.

Lemma wp_and {A} (m : SM S A) (Q Q' : A -> S -> Prop) s :
  wp m Q s -> wp m Q' s -> wp m (fun a s' => Q a s' /\ Q' a s') s.
Proof. unfold wp. by destruct (m s). Qed.

(** What a computation may return, from any state. *)
Definition returns {A} (P : A -> Prop) (m : SM S A) : Prop := forall s a s', m s = Ret a s' -> P a.

Lemma returns_ret {A} (P : A -> Prop) a : P a -> returns P (sret a).
Proof. by intros H s a' s' [= <- _]. Qed.
Lemma returns_fail {A} (P : A -> Prop) w : returns P (sfail w).
Proof. done. Qed.
Lemma returns_bind {A B} (P : B -> Prop) (m : SM S A) (k : A -> SM S B) :
  (forall a, returns P (k a)) -> returns P (sbind m k).
Proof. intros H s b s'. unfold sbind. destruct (m s) as [a s1|]; [apply H|done]. Qed.
Lemma wp_returns {A} (P : A -> Prop) (m : SM S A) Q s : returns P m -> wp m Q s -> wp m (fun a s' => Q a s' /\ P a) s.
Proof. intros H Hw. unfold wp in *. destruct (m s) as [a s'|] eqn:E; [|done]. split; [done|by eapply H]. Qed.
End wp.

(** A sequence that has returned, taken apart. *)
Lemma run_bind_inv {S A B} (m : SM S A) (k : A -> SM S B) s b s' : sbind m k s = Ret b s' ->
  exists a s1, m s = Ret a s1 /\ k a s1 = Ret b s'.
Proof. unfold sbind. destruct (m s) as [a s1|]; [by exists a, s1|done]. Qed.

Ltac first_of E a s1 E1 := apply run_bind_inv in E as (a & s1 & E1 & E).
(** Takes a step apart into its calls. *)
Ltac run_inv E :=
  repeat match type of E with
  | sbind _ _ _ = Ret _ _ => let a := fresh "a" in let s1 := fresh "s" in let E1 := fresh "E" in
      apply run_bind_inv in E as (a & s1 & E1 & E)
  end.

(** The hints that drive [wp] goals through the monad. *)
Create HintDb cwp discriminated.
#[export] Hint Resolve wp_ret wp_get wp_modify wp_bind : cwp.

Ltac wp_pure :=
  repeat first
    [ apply wp_bind
    | apply wp_ret
    | apply wp_get
    | apply wp_modify ].

(** ** Counting the entries of a finite map *)

Section count.
Context {K} `{Countable K} {V : Type}.
Implicit Types m : gmap K V.

Definition mcount (f : V -> nat) (m : gmap K V) : nat :=
  map_fold (fun _ v n => f v + n) 0 m.

Lemma mcount_empty f : mcount f ∅ = 0.
Proof. apply map_fold_empty. Qed.

Lemma mcount_insert_fresh f m k v :
  m !! k = None -> mcount f (<[k:=v]> m) = f v + mcount f m.
Proof.
  intros. unfold mcount. rewrite map_fold_insert_L; [done| |done]. intros; lia.
Qed.

Lemma mcount_delete f m k v :
  m !! k = Some v -> mcount f m = f v + mcount f (delete k m).
Proof.
  intros Hk. rewrite <-(mcount_insert_fresh f (delete k m) k v).
  - by rewrite insert_delete_id.
  - apply lookup_delete_eq.
Qed.

Lemma mcount_insert f m k v w :
  m !! k = Some v -> mcount f (<[k:=w]> m) + f v = mcount f m + f w.
Proof.
  intros Hk. rewrite (mcount_delete f m k v Hk).
  rewrite <-insert_delete_eq, mcount_insert_fresh by apply lookup_delete_eq. lia.
Qed.

Lemma mcount_ext f g m :
  (forall k v, m !! k = Some v -> f v = g v) -> mcount f m = mcount g m.
Proof.
  induction m as [|k v m Hk IH] using map_ind; intros Hfg; [done|].
  rewrite !mcount_insert_fresh by done. f_equal.
  - eapply Hfg, lookup_insert_eq.
  - apply IH. intros k' v' Hk'. eapply (Hfg k').
    rewrite lookup_insert_ne; [done|]. intros ->. congruence.
Qed.

Lemma mcount_pos f m k v : m !! k = Some v -> f v <= mcount f m.
Proof. intros Hk. rewrite (mcount_delete f m k v Hk). lia. Qed.

Lemma mcount_witness f m : 0 < mcount f m -> exists k v, m !! k = Some v /\ 0 < f v.
Proof.
  induction m as [|k v m Hk IH] using map_ind; intros Hpos.
  - rewrite mcount_empty in Hpos. lia.
  - rewrite mcount_insert_fresh in Hpos by done.
    destruct (decide (0 < f v)) as [Hv|Hv].
    + exists k, v. by rewrite lookup_insert_eq.
    + destruct IH as (k' & v' & Hk' & Hv'); [lia|].
      exists k', v'. split; [|done].
      rewrite lookup_insert_ne; [done|]. intros ->. congruence.
Qed.

Lemma mcount_zero f m : (forall k v, m !! k = Some v -> f v = 0) -> mcount f m = 0.
Proof.
  intros Hf. destruct (decide (0 < mcount f m)) as [Hpos|]; [|lia].
  destruct (mcount_witness f m Hpos) as (k & v & Hk & Hv). specialize (Hf k v Hk). lia.
Qed.

Lemma mcount_bound f c m : (forall v, f v <= c) -> mcount f m <= c * size m.
Proof.
  intros Hf. induction m as [|k v m Hk IH] using map_ind; [rewrite mcount_empty; lia|].
  rewrite mcount_insert_fresh, map_size_insert_None by done. specialize (Hf v). lia.
Qed.

Lemma mcount_fmap f (h : V -> V) m : mcount f (h <$> m) = mcount (fun v => f (h v)) m.
Proof.
  induction m as [|k v m Hk IH] using map_ind; [by rewrite fmap_empty|].
  rewrite fmap_insert, !mcount_insert_fresh by (done || by rewrite lookup_fmap, Hk).
  by rewrite IH.
Qed.
End count.

(** ** Integers at their C width (LP64) *)

Definition int_wrap (z : Z) : Z := ((z + 2 ^ 31) mod 2 ^ 32 - 2 ^ 31)%Z.
Definition ulong_wrap (z : Z) : Z := (z mod 2 ^ 64)%Z.

Lemma int_wrap_small z : (- 2 ^ 31 <= z < 2 ^ 31)%Z -> int_wrap z = z.
Proof. intros. unfold int_wrap. rewrite Z.mod_small; lia. Qed.

Lemma ulong_wrap_small z : (0 <= z < 2 ^ 64)%Z -> ulong_wrap z = z.
Proof. intros. unfold ulong_wrap. by rewrite Z.mod_small. Qed.

(** ** Error numbers of the kernel interface *)

Definition EPERM : Z := 1.
Definition ENOENT : Z := 2.
Definition EINTR : Z := 4.
Definition EIO : Z := 5.
Definition ENOMEM : Z := 12.
Definition EFAULT : Z := 14.
Definition ENODEV : Z := 19.
Definition EINVAL : Z := 22.
Definition ENFILE : Z := 23.
Definition ENOTTY : Z := 25.
Definition ERESTARTSYS : Z := 512.

(** ** Lists *)

Section filter.
Context {A : Type} (P : A -> Prop) `{forall x, Decision (P x)}.

Lemma filter_all (l : list A) : (forall x, x ∈ l -> P x) -> filter P l = l.
Proof.
  induction l as [|x l IH]; intros Hall; [done|].
  rewrite filter_cons_True, IH by set_solver. done.
Qed.

Lemma filter_none (l : list A) : (forall x, x ∈ l -> ~ P x) -> filter P l = [].
Proof.
  induction l as [|x l IH]; intros Hall; [done|].
  rewrite filter_cons_False, IH by set_solver. done.
Qed.
End filter.

Lemma length_omap_le {A B} (f : A -> option B) (l : list A) : length (omap f l) <= length l.
Proof. induction l as [|x l IH]; csimpl; [done|]. destruct (f x); csimpl; lia. Qed.

(** Taking one element out of a list without duplicates. *)
Lemma filter_ne_perm {A} `{EqDecision A} (l : list A) a :
  NoDup l -> a ∈ l -> l ≡ₚ a :: filter (fun c => c <> a) l.
Proof.
  induction l as [|c l IH]; intros Hnd Hin; [by apply not_elem_of_nil in Hin|].
  apply list.NoDup_cons in Hnd as [Hc Hnd]. rewrite filter_cons. case_decide as Hne.
  - rewrite IH at 1 by set_solver. constructor.
  - subst. rewrite filter_all; [done|]. intros x Hx ->. done.
Qed.
