(* ===== verification/EventState.v ===== *)
(** * The state of the event layer ([event.c])

    The records are the structs of [event.c]; pointers to objects that the
    module allocates are addresses ([loc]) of typed heaps, so that the aliasing
    of one event by the containers of several groups is explicit; pointers to
    kernel objects the module never looks into (dentries, mounts, pids, files)
    are opaque numbers. *)

From S2P Require Import Prelude.
From stdpp Require Import strings.

Abbreviation loc := positive (only parsing).
Abbreviation ptr := Z (only parsing).
Abbreviation NULL := 0%Z (only parsing).

(** ** Structures *)

(** [struct dazukofs_proc]: a registered process that is opening a file. *)
Record dazukofs_proc := mk_proc {
  proc_proc_id : ptr;
  within_list : Z
}.

(** [struct dazukofs_event].  [queue] is the wait queue [EvtQ] of its address;
    [assigned_mutex] makes the updates of the last three fields atomic. *)
Record dazukofs_event := mk_event {
  event_id : Z;
  evt_dentry : ptr;
  evt_mnt : ptr;
  evt_proc_id : ptr;
  deny : Z;
  evt_deprecated : Z;
  assigned : Z
}.

(** [struct dazukofs_event_container]; the [list] node is the address. *)
Record dazukofs_event_container := mk_container {
  ec_event : option loc;
  ec_file : ptr;
  ec_fd : Z
}.

(** [struct dazukofs_group]; [name] is the C string without its terminator. *)
Record dazukofs_group := mk_group {
  name : string;
  name_length : Z;
  group_id : Z;
  todo_list : list loc;
  working_list : list loc;
  use_count : Z;
  tracking : Z;
  track_count : Z;
  grp_deprecated : Z
}.

#[export] Instance dazukofs_event_eq_dec : EqDecision dazukofs_event.
Proof. solve_decision. Defined.
#[export] Instance dazukofs_event_container_eq_dec : EqDecision dazukofs_event_container.
Proof. solve_decision. Defined.
#[export] Instance dazukofs_group_eq_dec : EqDecision dazukofs_group.
Proof. solve_decision. Defined.

(** Wait queues, named by the object they are embedded in. *)
Inductive waitq :=
| EvtQ (e : loc)
| GrpQ (g : loc)
| PollQ (g : loc).

#[export] Instance waitq_eq_dec : EqDecision waitq.
Proof. solve_decision. Defined.

(** The calls the event layer makes into the kernel, and the releases of
    events, in the order they are made. *)
Inductive kcall :=
| KWakeUp (q : waitq)
| KWakeUpAll (q : waitq)
| KPollWait (q : waitq)
| KDget (d : ptr) | KDput (d : ptr)
| KMntget (m : ptr) | KMntput (m : ptr)
| KGetPid (p : ptr) | KPutPid (p : ptr)
| KFdInstall (fd : Z) (f : ptr) | KPutUnusedFd (fd : Z) | KSysClose (fd : Z)
| KRelease (evt : loc) (decrement_assigned : bool) (d : bool).

#[export] Instance kcall_eq_dec : EqDecision kcall.
Proof. solve_decision. Defined.

(** ** The static data of [event.c] and the heap

    [oom] holds the outcomes of the coming allocations ([true]: the allocation
    fails; an empty list: it succeeds); [calls] is the trace of [kcall]s,
    latest first. *)
Record kstate := mk_kstate {
  group_list : list loc;
  group_count : Z;
  last_event_id : Z;
  proc_list : list loc;
  groups : gmap loc dazukofs_group;
  containers : gmap loc dazukofs_event_container;
  events : gmap loc dazukofs_event;
  procs : gmap loc dazukofs_proc;
  next : loc;
  oom : list bool;
  calls : list kcall
}.

Abbreviation M := (SM kstate).

Definition set_group_list (x : list loc) (s : kstate) : kstate :=
  mk_kstate x (group_count s) (last_event_id s) (proc_list s) (groups s)
    (containers s) (events s) (procs s) (next s) (oom s) (calls s).
Definition set_group_count (x : Z) (s : kstate) : kstate :=
  mk_kstate (group_list s) x (last_event_id s) (proc_list s) (groups s)
    (containers s) (events s) (procs s) (next s) (oom s) (calls s).
Definition set_last_event_id (x : Z) (s : kstate) : kstate :=
  mk_kstate (group_list s) (group_count s) x (proc_list s) (groups s)
    (containers s) (events s) (procs s) (next s) (oom s) (calls s).
Definition set_proc_list (x : list loc) (s : kstate) : kstate :=
  mk_kstate (group_list s) (group_count s) (last_event_id s) x (groups s)
    (containers s) (events s) (procs s) (next s) (oom s) (calls s).
Definition set_groups (x : gmap loc dazukofs_group) (s : kstate) : kstate :=
  mk_kstate (group_list s) (group_count s) (last_event_id s) (proc_list s) x
    (containers s) (events s) (procs s) (next s) (oom s) (calls s).
Definition set_containers (x : gmap loc dazukofs_event_container) (s : kstate) : kstate :=
  mk_kstate (group_list s) (group_count s) (last_event_id s) (proc_list s) (groups s)
    x (events s) (procs s) (next s) (oom s) (calls s).
Definition set_events (x : gmap loc dazukofs_event) (s : kstate) : kstate :=
  mk_kstate (group_list s) (group_count s) (last_event_id s) (proc_list s) (groups s)
    (containers s) x (procs s) (next s) (oom s) (calls s).
Definition set_procs (x : gmap loc dazukofs_proc) (s : kstate) : kstate :=
  mk_kstate (group_list s) (group_count s) (last_event_id s) (proc_list s) (groups s)
    (containers s) (events s) x (next s) (oom s) (calls s).
Definition set_next (x : loc) (s : kstate) : kstate :=
  mk_kstate (group_list s) (group_count s) (last_event_id s) (proc_list s) (groups s)
    (containers s) (events s) (procs s) x (oom s) (calls s).
Definition set_oom (x : list bool) (s : kstate) : kstate :=
  mk_kstate (group_list s) (group_count s) (last_event_id s) (proc_list s) (groups s)
    (containers s) (events s) (procs s) (next s) x (calls s).
Definition set_calls (x : list kcall) (s : kstate) : kstate :=
  mk_kstate (group_list s) (group_count s) (last_event_id s) (proc_list s) (groups s)
    (containers s) (events s) (procs s) (next s) (oom s) x.

(** ** Typed heaps

    One interface for the four slab caches: objects are loaded, stored,
    allocated at an address never used before, and freed; touching an address
    that holds no object is a use after free. *)
Class Heap (V : Type) := {
  hget : kstate -> gmap loc V;
  hset : gmap loc V -> kstate -> kstate;
  hget_hset : forall m s, hget (hset m s) = m
}.

#[export] Instance group_heap : Heap dazukofs_group :=
  {| hget := groups; hset := set_groups; hget_hset := fun _ _ => eq_refl |}.
#[export] Instance container_heap : Heap dazukofs_event_container :=
  {| hget := containers; hset := set_containers; hget_hset := fun _ _ => eq_refl |}.
#[export] Instance event_heap : Heap dazukofs_event :=
  {| hget := events; hset := set_events; hget_hset := fun _ _ => eq_refl |}.
#[export] Instance proc_heap : Heap dazukofs_proc :=
  {| hget := procs; hset := set_procs; hget_hset := fun _ _ => eq_refl |}.

(** Whether the next allocation fails. *)
Definition alloc_fails : M bool :=
  fun s => match oom s with b :: o => Ret b (set_oom o s) | [] => Ret false s end.

Lemma wp_alloc_fails (Q : bool -> kstate -> Prop) s :
  (forall b o, Q b (set_oom o s)) -> wp alloc_fails Q s.
Proof.
  unfold wp, alloc_fails. destruct s as [? ? ? ? ? ? ? ? ? o ?]; simpl.
  intros HQ. destruct o as [|b o]; [apply (HQ false [])|apply (HQ b o)].
Qed.

Section heap.
Context {V : Type} `{Heap V}.

Definition load (l : loc) : M V :=
  fun s => match hget s !! l with Some v => Ret v s | None => Stuck UseAfterFree end.

Definition store (l : loc) (v : V) : M unit :=
  fun s => match hget s !! l with
           | Some _ => Ret tt (hset (<[l:=v]> (hget s)) s)
           | None => Stuck UseAfterFree
           end.

(** [kmem_cache_free] *)
Definition kfree_obj (l : loc) : M unit :=
  fun s => match hget s !! l with
           | Some _ => Ret tt (hset (delete l (hget s)) s)
           | None => Stuck UseAfterFree
           end.

(** [kmem_cache_zalloc]: [None] is the NULL of a failed allocation. *)
Definition kzalloc (v0 : V) : M (option loc) :=
  let! fail := alloc_fails in
  if (fail : bool) then sret None
  else fun s => Ret (Some (next s)) (hset (<[next s:=v0]> (hget s)) (set_next (Pos.succ (next s)) s)).

Lemma wp_load l v Q s : hget s !! l = Some v -> Q v s -> wp (load l) Q s.
Proof. unfold wp, load. by intros ->. Qed.

Lemma load_inv l s v s' : load l s = Ret v s' -> hget s !! l = Some v /\ s' = s.
Proof. unfold load. destruct (hget s !! l) eqn:E; [|done]. by intros [= -> ->]. Qed.
Lemma store_inv l v s u s' : store l v s = Ret u s' -> is_Some (hget s !! l) /\ s' = hset (<[l:=v]> (hget s)) s.
Proof. unfold store. destruct (hget s !! l) eqn:E; [|done]. intros [= _ <-]. split; [by eexists|done]. Qed.

Lemma wp_store l v v' Q s :
  hget s !! l = Some v' -> Q tt (hset (<[l:=v]> (hget s)) s) -> wp (store l v) Q s.
Proof. unfold wp, store. by intros ->. Qed.

Lemma wp_kfree l v Q s :
  hget s !! l = Some v -> Q tt (hset (delete l (hget s)) s) -> wp (kfree_obj l) Q s.
Proof. unfold wp, kfree_obj. by intros ->. Qed.

Lemma wp_kzalloc v0 (Q : option loc -> kstate -> Prop) s :
  (forall o, Q None (set_oom o s)) ->
  (forall o, Q (Some (next s))
     (hset (<[next s:=v0]> (hget (set_oom o s))) (set_next (Pos.succ (next s)) (set_oom o s)))) ->
  wp (kzalloc v0) Q s.
Proof.
  intros HN HS. apply wp_bind, wp_alloc_fails. intros [] o; [apply wp_ret|]; auto.
  apply HS.
Qed.
End heap.

(** A call into the kernel is recorded. *)
Definition kcall_ (c : kcall) : M unit := smodify (fun s => set_calls (c :: calls s) s).

(** The container behind a pointer that may be NULL. *)
Definition deref {A} (o : option A) : M A :=
  match o with Some a => sret a | None => sfail NullDeref end.

(** ** Intrusive lists of containers *)

Definition group_lists (G : dazukofs_group) : list loc := todo_list G ++ working_list G.

(** All containers that are on some list of some group. *)
Definition linked_of (gs : gmap loc dazukofs_group) (l : list loc) : list loc :=
  l ≫= fun g => from_option group_lists [] (gs !! g).
Definition linked (s : kstate) : list loc := linked_of (groups s) (group_list s).

Definition with_lists (td wk : list loc) (G : dazukofs_group) : dazukofs_group :=
  mk_group (name G) (name_length G) (group_id G) td wk (use_count G) (tracking G)
    (track_count G) (grp_deprecated G).

Definition unlink (ec : loc) (G : dazukofs_group) : dazukofs_group :=
  with_lists (filter (fun c => c <> ec) (todo_list G))
    (filter (fun c => c <> ec) (working_list G)) G.

(** The containers on the lists of any group, whether or not [group_list] still
    holds the group. *)
Definition on_lists (s : kstate) : list loc := map_to_list (groups s) ≫= fun x => group_lists x.2.

(** [list_del(&ec->list)]: the node leaves whichever list it is on; a node on
    no list has poisoned pointers. *)
Definition list_del_container (ec : loc) : M unit :=
  do! (load ec : M dazukofs_event_container) in
  fun s => if decide (ec ∈ on_lists s)
           then Ret tt (set_groups (unlink ec <$> groups s) s)
           else Stuck ListPoison.

Lemma on_lists_group s g G ec : groups s !! g = Some G -> ec ∈ group_lists G -> ec ∈ on_lists s.
Proof.
  intros HG Hec. apply list_elem_of_bind. exists (g, G). split; [done|]. by apply elem_of_map_to_list.
Qed.

(** [list_add(&ec->list, head)] and [list_add_tail(&ec->list, head)] for the two
    list heads of a group. *)
Definition list_add_working (ec g : loc) : M unit :=
  let! G := load g in store g (with_lists (todo_list G) (ec :: working_list G) G).
Definition list_add_todo (ec g : loc) : M unit :=
  let! G := load g in store g (with_lists (ec :: todo_list G) (working_list G) G).
Definition list_add_tail_todo (ec g : loc) : M unit :=
  let! G := load g in store g (with_lists (todo_list G ++ [ec]) (working_list G) G).
