(* ===== verification/EventOps.v ===== *)
(** * The operations of the event layer ([event.c])

    One definition per function of [event.c].  A function that takes a mutex is
    split at the points where it holds none, into segments that run
    atomically; the function itself is the composition of its segments, and
    the concurrent model ([EventConc]) interleaves the segments of different
    tasks. *)

From S2P Require Import Prelude EventState.
From stdpp Require Import strings.

(** ** Field updates *)

Definition with_deny (d : Z) (e : dazukofs_event) : dazukofs_event :=
  mk_event (event_id e) (evt_dentry e) (evt_mnt e) (evt_proc_id e) d (evt_deprecated e) (assigned e).
Definition with_evt_deprecated (d : Z) (e : dazukofs_event) : dazukofs_event :=
  mk_event (event_id e) (evt_dentry e) (evt_mnt e) (evt_proc_id e) (deny e) d (assigned e).
Definition with_assigned (n : Z) (e : dazukofs_event) : dazukofs_event :=
  mk_event (event_id e) (evt_dentry e) (evt_mnt e) (evt_proc_id e) (deny e) (evt_deprecated e) n.
Definition with_event_id (i : Z) (e : dazukofs_event) : dazukofs_event :=
  mk_event i (evt_dentry e) (evt_mnt e) (evt_proc_id e) (deny e) (evt_deprecated e) (assigned e).
Definition with_pins (d m p : ptr) (e : dazukofs_event) : dazukofs_event :=
  mk_event (event_id e) d m p (deny e) (evt_deprecated e) (assigned e).

Definition with_use_count (n : Z) (G : dazukofs_group) : dazukofs_group :=
  mk_group (name G) (name_length G) (group_id G) (todo_list G) (working_list G) n (tracking G)
    (track_count G) (grp_deprecated G).
Definition with_tracking (n : Z) (G : dazukofs_group) : dazukofs_group :=
  mk_group (name G) (name_length G) (group_id G) (todo_list G) (working_list G) (use_count G) n
    (track_count G) (grp_deprecated G).
Definition with_track_count (n : Z) (G : dazukofs_group) : dazukofs_group :=
  mk_group (name G) (name_length G) (group_id G) (todo_list G) (working_list G) (use_count G)
    (tracking G) n (grp_deprecated G).
Definition with_grp_deprecated (n : Z) (G : dazukofs_group) : dazukofs_group :=
  mk_group (name G) (name_length G) (group_id G) (todo_list G) (working_list G) (use_count G)
    (tracking G) (track_count G) n.

(** [atomic_inc(&grp->use_count)], [atomic_dec(&grp->use_count)] *)
Definition use_inc (g : loc) : M unit :=
  let! G := load g in store g (with_use_count (use_count G + 1) G).
Definition use_dec (g : loc) : M unit :=
  let! G := load g in store g (with_use_count (use_count G - 1) G).

(** ** Events *)

(** [release_event]: the critical section of [assigned_mutex] decides whether
    the event is to be freed; freeing drops what the event pins. *)
Definition release_event (evt : loc) (decrement_assigned d : bool) : M unit :=
  do! kcall_ (KRelease evt decrement_assigned d) in
  let! e0 := load evt in
  let e := if d then with_deny (Z.lor (deny e0) 1) e0 else e0 in
  let! free_event :=
    (if decrement_assigned then
       let e' := with_assigned (assigned e - 1)%Z e in
       do! store evt e' in
       (if decide (assigned e' = 0%Z) then
          (if decide (evt_deprecated e' = 0%Z)
           then do! kcall_ (KWakeUp (EvtQ evt)) in sret false
           else sret true)
        else sret false)
     else
       (if decide (assigned e = 0%Z)
        then do! store evt e in sret true
        else do! store evt (with_evt_deprecated 1 e) in sret false)) in
  if (free_event : bool) then
    let! e'' := load evt in
    do! kcall_ (KDput (evt_dentry e'')) in
    do! kcall_ (KMntput (evt_mnt e'')) in
    do! kcall_ (KPutPid (evt_proc_id e'')) in
    kfree_obj (V := dazukofs_event) evt
  else sret tt.

(** [__clear_group_event_list], over the nodes the list holds on entry. *)
Fixpoint clear_group_event_list (event_list : list loc) : M unit :=
  match event_list with
  | [] => sret tt
  | ec :: q =>
      let! C := (load ec : M dazukofs_event_container) in
      do! list_del_container ec in
      let! evt := deref (ec_event C) in
      do! release_event evt true false in
      do! kfree_obj (V := dazukofs_event_container) ec in
      clear_group_event_list q
  end.

(** [__remove_group] *)
Definition remove_group (grp : loc) : M unit :=
  let! G := load grp in
  do! store grp (with_grp_deprecated 1 G) in
  do! smodify (fun s => set_group_count (group_count s - 1) s) in
  let! G1 := (load grp : M dazukofs_group) in
  do! clear_group_event_list (working_list G1) in
  let! G2 := (load grp : M dazukofs_group) in
  do! clear_group_event_list (todo_list G2) in
  do! kcall_ (KWakeUpAll (GrpQ grp)) in
  kcall_ (KWakeUpAll (PollQ grp)).

(** [dazukofs_destroy_events]: the loop over the groups. *)
Fixpoint destroy_groups (gl : list loc) : M unit :=
  match gl with
  | [] => sret tt
  | grp :: q =>
      do! smodify (fun s => set_group_list (filter (fun g => g <> grp) (group_list s)) s) in
      do! remove_group grp in
      do! kfree_obj (V := dazukofs_group) grp in
      destroy_groups q
  end.
Definition dazukofs_destroy_events : M unit :=
  let! gl := sget group_list in destroy_groups gl.

(** ** Groups *)

(** The loop of [__check_for_group]; the result is the pair of
    [*already_exists] and [id_available]. *)
Fixpoint check_for_group_loop (pos : list loc) (nm : string) (id : Z) (track : bool)
    : M (bool * bool) :=
  match pos with
  | [] => sret (false, true)
  | grp :: q =>
      let! G := (load grp : M dazukofs_group) in
      if decide (grp_deprecated G <> 0%Z) then
        (if decide (use_count G = 0%Z) then
           do! smodify (fun s => set_group_list (filter (fun g => g <> grp) (group_list s)) s) in
           do! kfree_obj (V := dazukofs_group) grp in
           check_for_group_loop q nm id track
         else check_for_group_loop q nm id track)
      else if decide (nm = name G) then
        (if track then
           do! store grp (with_tracking 1 G) in sret (true, true)
         else sret (true, true))
      else if decide (group_id G = id) then sret (false, false)
      else check_for_group_loop q nm id track
  end.

(** [__check_for_group]: the return value and [*already_exists]. *)
Definition check_for_group (nm : string) (id : Z) (track : bool) : M (Z * bool) :=
  let! gl := sget group_list in
  let! r := check_for_group_loop gl nm id track in
  if fst r : bool then sret (0%Z, true)
  else if snd r : bool then sret (0%Z, false)
  else sret ((-1)%Z, false).

(** [__create_group]: [None] is NULL. *)
Definition create_group (nm : string) (id : Z) (track : bool) : M (option loc) :=
  let! r := kzalloc (mk_group "" 0 0 [] [] 0 0 0 0) in
  match r with
  | None => sret None
  | Some grp =>
      (* kstrdup *)
      let! fail := alloc_fails in
      if (fail : bool) then
        do! kfree_obj (V := dazukofs_group) grp in sret None
      else
        do! store grp (mk_group nm (Z.of_nat (String.length nm)) id [] [] 0
                         (if track then 1 else 0) 0 0) in
        sret (Some grp)
  end.

Definition GROUP_COUNT : Z := 10.

(** The search loop of [dazukofs_add_group]: the smallest id that
    [__check_for_group] accepts, and [already_exists]. *)
Fixpoint add_group_search (fuel : nat) (nm : string) (available_id : Z) (track : bool)
    : M (Z * bool) :=
  match fuel with
  | O => sfail OutOfFuel
  | S fuel' =>
      let! r := check_for_group nm available_id track in
      if decide (fst r = 0%Z) then sret (available_id, snd r)
      else add_group_search fuel' nm (available_id + 1)%Z track
  end.

(** [dazukofs_add_group] in segments: the search under [work_mutex]; the
    capacity test and the allocation under [group_count_sem] alone; the
    linking under [work_mutex]; the increment of [group_count], which reads it and
    writes it without a lock that [dazukofs_group_release_tracking] takes, too. *)
Definition add_group_find (nm : string) (track : bool) : M (Z * bool) :=
  let! gl := sget group_list in
  add_group_search (S (length gl)) nm 0 track.

Definition add_group_create (nm : string) (available_id : Z) (track : bool) : M (Z + loc) :=
  let! n := sget group_count in
  if decide (n = GROUP_COUNT) then sret (inl (- EPERM)%Z)
  else
    let! r := create_group nm available_id track in
    match r with
    | None => sret (inl (- ENOMEM)%Z)
    | Some grp => sret (inr grp)
    end.

Definition add_group_link (grp : loc) : M unit :=
  smodify (fun s => set_group_list (group_list s ++ [grp]) s).

Definition add_group_count_read : M Z := sget group_count.
Definition add_group_count_write (n : Z) : M unit := smodify (set_group_count (n + 1)).

Definition dazukofs_add_group (nm : string) (track : bool) : M Z :=
  let! r := add_group_find nm track in
  if snd r : bool then sret 0%Z
  else
    let! c := add_group_create nm (fst r) track in
    match c with
    | inl err => sret err
    | inr grp =>
        do! add_group_link grp in
        let! n := add_group_count_read in
        do! add_group_count_write n in
        sret 0%Z
    end.

(** [dazukofs_remove_group] *)
Fixpoint remove_group_loop (pos : list loc) (nm : string) : M unit :=
  match pos with
  | [] => sret tt
  | grp :: q =>
      let! G := (load grp : M dazukofs_group) in
      if decide (grp_deprecated G = 0%Z /\ nm = name G) then remove_group grp
      else remove_group_loop q nm
  end.

Definition dazukofs_remove_group (nm : string) (unused : bool) : M Z :=
  let! n := sget group_count in
  if decide (n = 0%Z) then sret 0%Z
  else
    let! gl := sget group_list in
    do! remove_group_loop gl nm in
    sret 0%Z.

(** ** Masking of the registered process that opens a file *)

(** The search of [check_recursion] through [proc_list]. *)
Fixpoint check_recursion_loop (pos : list loc) (cur : ptr) : M bool :=
  match pos with
  | [] => sret false
  | p :: q =>
      let! pr := (load p : M dazukofs_proc) in
      if decide (proc_proc_id pr = cur) then
        do! smodify (fun s => set_proc_list (filter (fun x => x <> p) (proc_list s)) s) in
        do! store p (mk_proc (proc_proc_id pr) 0) in
        do! kcall_ (KPutPid (proc_proc_id pr)) in
        sret true
      else check_recursion_loop q cur
  end.

(** [check_recursion] for the current process [cur]: 0 when it was masked. *)
Definition check_recursion (cur : ptr) : M Z :=
  do! kcall_ (KGetPid cur) in
  let! pl := sget proc_list in
  let! found := check_recursion_loop pl cur in
  do! kcall_ (KPutPid cur) in
  sret (if (found : bool) then 0 else 1)%Z.

(** [mask_proc] *)
Definition mask_proc (proc : loc) (cur : ptr) : M unit :=
  do! kcall_ (KGetPid cur) in
  let! pr := (load proc : M dazukofs_proc) in
  do! smodify (fun s => set_proc_list (proc :: proc_list s) s) in
  store proc (mk_proc cur 1).

(** ** Posting an event and waiting for the groups *)

(** [event_assigned] *)
Definition event_assigned (evt : loc) : M Z :=
  let! e := load evt in sret (assigned e).

(** [check_access_precheck]; [ign] is [dazukofs_check_ignore_process]. *)
Definition check_access_precheck (ign : ptr -> Z) (cur : ptr) (grp_count : Z) : M Z :=
  if decide (grp_count = 0%Z) then sret (-1)%Z
  else
    let! r := check_recursion cur in
    if decide (r = 0%Z) then sret (-1)%Z
    else if decide (ign cur = 0%Z) then sret (-1)%Z
    else sret 0%Z.

(** The loop of [assign_event_to_groups]; reading [ec_array] beyond the
    containers that were allocated reads uninitialised stack. *)
Fixpoint assign_loop (pos : list loc) (evt : loc) (ec_array : list loc) : M unit :=
  match pos with
  | [] => sret tt
  | grp :: q =>
      let! G := (load grp : M dazukofs_group) in
      if decide (grp_deprecated G = 0%Z) then
        match ec_array with
        | [] => sfail OutOfBounds
        | ec :: ecs =>
            let! C := (load ec : M dazukofs_event_container) in
            do! store ec (mk_container (Some evt) (ec_file C) (ec_fd C)) in
            let! e := load evt in
            do! store evt (with_assigned (assigned e + 1)%Z e) in
            do! list_add_tail_todo ec grp in
            do! kcall_ (KWakeUp (GrpQ grp)) in
            do! kcall_ (KWakeUp (PollQ grp)) in
            assign_loop q evt ecs
        end
      else assign_loop q evt ec_array
  end.

(** [assign_event_to_groups] *)
Definition assign_event_to_groups (evt : loc) (ec_array : list loc) : M unit :=
  do! smodify (fun s => set_last_event_id (int_wrap (last_event_id s + 1)) s) in
  let! i := sget last_event_id in
  let! e := load evt in
  do! store evt (with_event_id (ulong_wrap i) e) in
  let! gl := sget group_list in
  assign_loop gl evt ec_array.

(** The container loop of [allocate_event_and_containers] and its unwinding:
    [None] when an allocation failed and all were freed again. *)
Fixpoint free_containers (ecs : list loc) : M unit :=
  match ecs with
  | [] => sret tt
  | ec :: q => do! kfree_obj (V := dazukofs_event_container) ec in free_containers q
  end.

Fixpoint allocate_containers (n : nat) (done_ : list loc) : M (option (list loc)) :=
  match n with
  | O => sret (Some (reverse done_))
  | S n' =>
      let! r := kzalloc (mk_container None 0 0) in
      match r with
      | None => do! free_containers done_ in sret None
      | Some ec => allocate_containers n' (ec :: done_)
      end
  end.

(** [allocate_event_and_containers] *)
Definition allocate_event_and_containers (grp_count : Z) : M (option (loc * list loc)) :=
  let! r := kzalloc (mk_event 0 0 0 0 0 0 0) in
  match r with
  | None => sret None
  | Some evt =>
      let! c := allocate_containers (Z.to_nat grp_count) [] in
      match c with
      | None => do! kfree_obj (V := dazukofs_event) evt in sret None
      | Some ecs => sret (Some (evt, ecs))
      end
  end.

(** [dazukofs_check_access] in segments: allocation; the references the event
    takes; and, when the wait is over, the verdict. *)
Definition check_access_pin (evt : loc) (dentry mnt cur : ptr) : M unit :=
  do! kcall_ (KDget dentry) in
  do! kcall_ (KMntget mnt) in
  do! kcall_ (KGetPid cur) in
  let! e := load evt in
  store evt (with_pins dentry mnt cur e).

Definition check_access_alloc (dentry mnt cur : ptr) : M (option (loc * list loc)) :=
  let! n := sget group_count in
  let! r := allocate_event_and_containers n in
  match r with
  | None => sret None
  | Some (evt, ecs) => do! check_access_pin evt dentry mnt cur in sret (Some (evt, ecs))
  end.

Definition check_access_verdict (evt : loc) : M Z :=
  let! e := load evt in
  sret (if decide (deny e = 0%Z) then 0 else - EPERM)%Z.

Definition check_access_end (evt : loc) : M Z :=
  let! err := check_access_verdict evt in
  do! release_event evt false false in
  sret err.

(** Up to the wait, without interference: [inl] is a return, [inr evt] the
    event the task waits for. *)
Definition check_access_start (ign : ptr -> Z) (cur dentry mnt : ptr) : M (Z + loc) :=
  let! n := sget group_count in
  let! r := check_access_precheck ign cur n in
  if decide (r <> 0%Z) then sret (inl 0%Z)
  else
    let! a := check_access_alloc dentry mnt cur in
    match a with
    | None => sret (inl (- ENOMEM)%Z)
    | Some (evt, ecs) => do! assign_event_to_groups evt ecs in sret (inr evt)
    end.

(** ** The operations of registered processes *)

(** The search, shared by five functions of [event.c], for the live group with
    an id. *)
Fixpoint find_group_loop (pos : list loc) (gid : Z) : M (option loc) :=
  match pos with
  | [] => sret None
  | grp :: q =>
      let! G := (load grp : M dazukofs_group) in
      if decide (grp_deprecated G = 0%Z /\ group_id G = gid) then sret (Some grp)
      else find_group_loop q gid
  end.
Definition find_group (gid : Z) : M (option loc) :=
  let! gl := sget group_list in find_group_loop gl gid.

(** [dazukofs_group_open_tracking] *)
Definition dazukofs_group_open_tracking (gid : Z) : M Z :=
  let! r := find_group gid in
  match r with
  | None => sret 0%Z
  | Some grp =>
      let! G := (load grp : M dazukofs_group) in
      if decide (tracking G <> 0%Z) then
        do! use_inc grp in
        let! G' := (load grp : M dazukofs_group) in
        do! store grp (with_track_count (track_count G' + 1) G') in
        sret 1%Z
      else sret 0%Z
  end.

(** [dazukofs_group_release_tracking] *)
Definition dazukofs_group_release_tracking (gid : Z) : M unit :=
  let! r := find_group gid in
  match r with
  | None => sret tt
  | Some grp =>
      let! G := (load grp : M dazukofs_group) in
      if decide (tracking G <> 0%Z) then
        do! use_dec grp in
        let! G' := (load grp : M dazukofs_group) in
        do! store grp (with_track_count (track_count G' - 1) G') in
        (if decide (track_count G' - 1 = 0)%Z then remove_group grp else sret tt)
      else sret tt
  end.

(** [unclaim_event]: the critical section and the wake-ups that follow it. *)
Definition unclaim_event_locked (grp ec : loc) : M unit :=
  do! list_del_container ec in list_add_todo ec grp.
Definition wake_group (grp : loc) : M unit :=
  do! kcall_ (KWakeUp (GrpQ grp)) in kcall_ (KWakeUp (PollQ grp)).
Definition unclaim_event (grp ec : loc) : M unit :=
  do! unclaim_event_locked grp ec in wake_group grp.

(** [dazukofs_response_t] *)
Inductive dazukofs_response_t := ALLOW | DENY | REPOST.
#[export] Instance response_eq_dec : EqDecision dazukofs_response_t.
Proof. solve_decision. Defined.

(** The search of [dazukofs_return_event] through the working list. *)
Fixpoint find_working (pos : list loc) (id : Z) : M (option (loc * loc)) :=
  match pos with
  | [] => sret None
  | ec :: q =>
      let! C := (load ec : M dazukofs_event_container) in
      let! evt := deref (ec_event C) in
      let! e := load evt in
      if decide (event_id e = id) then sret (Some (ec, evt))
      else find_working q id
  end.

(** The critical section of [dazukofs_return_event]: [None] when no live group
    has the id; otherwise the group, whose use count is taken, and the
    container and event that were found. *)
Definition return_event_locked (gid id : Z) (response : dazukofs_response_t)
    : M (option (loc * option (loc * loc))) :=
  let! r := find_group gid in
  match r with
  | None => sret None
  | Some grp =>
      do! use_inc grp in
      let! G := (load grp : M dazukofs_group) in
      let! f := find_working (working_list G) id in
      match f with
      | None => sret (Some (grp, None))
      | Some (ec, evt) =>
          if decide (response = REPOST) then sret (Some (grp, Some (ec, evt)))
          else
            do! list_del_container ec in
            do! kfree_obj (V := dazukofs_event_container) ec in
            sret (Some (grp, Some (ec, evt)))
      end
  end.

(** [dazukofs_return_event] *)
Definition dazukofs_return_event (gid id : Z) (response : dazukofs_response_t) : M Z :=
  let! r := return_event_locked gid id response in
  match r with
  | None => sret (- EINVAL)%Z
  | Some (grp, found) =>
      let! ret :=
        match found with
        | Some (ec, evt) =>
            do! (if decide (response = REPOST) then unclaim_event grp ec
                 else release_event evt true (bool_decide (response = DENY))) in
            sret 0%Z
        | None => sret (- EINVAL)%Z
        end in
      do! use_dec grp in
      sret ret
  end.

(** [claim_event] *)
Definition claim_event (grp : loc) : M (option loc) :=
  let! G := (load grp : M dazukofs_group) in
  match todo_list G with
  | [] => sret None
  | ec :: _ =>
      do! list_del_container ec in
      do! list_add_working ec grp in
      sret (Some ec)
  end.

(** What the kernel does while a file is opened: the descriptor
    [get_unused_fd] gives, whether [dentry_open] comes back to
    [dazukofs_check_access] in the same task, and the file or error
    [dentry_open] returns (an error is negative). *)
Record open_env := mk_open_env {
  oe_unused_fd : Z;
  oe_checks_access : bool;
  oe_dentry_open : ptr
}.

(** [open_file] up to [dentry_open]: [inl] is the error return, [inr proc] the
    stack variable [proc], masked. *)
Definition open_file_begin (ec : loc) (env : open_env) (cur : ptr) : M (Z + loc) :=
  let! C := (load ec : M dazukofs_event_container) in
  let! evt := deref (ec_event C) in
  do! store ec (mk_container (ec_event C) (ec_file C) (oe_unused_fd env)) in
  if decide (oe_unused_fd env < 0)%Z then sret (inl (oe_unused_fd env))
  else
    let! proc := (fun s => Ret (next s)
      (set_procs (<[next s:=mk_proc 0 0]> (procs s)) (set_next (Pos.succ (next s)) s))) in
    do! mask_proc proc cur in
    let! e := load evt in
    do! kcall_ (KDget (evt_dentry e)) in
    do! kcall_ (KMntget (evt_mnt e)) in
    sret (inr proc).

(** [dentry_open] re-entering [dazukofs_check_access] up to its early return;
    [true] when it did return early. *)
Definition open_file_nested (env : open_env) (ign : ptr -> Z) (cur : ptr) : M bool :=
  if oe_checks_access env then
    let! n := sget group_count in
    let! r := check_access_precheck ign cur n in
    sret (bool_decide (r <> 0%Z))
  else sret true.

(** [open_file] after [dentry_open]. *)
Definition open_file_end (ec proc : loc) (env : open_env) (cur : ptr) : M Z :=
  let! C := (load ec : M dazukofs_event_container) in
  do! store ec (mk_container (ec_event C) (oe_dentry_open env) (ec_fd C)) in
  let! pr := (load proc : M dazukofs_proc) in
  do! (if decide (within_list pr <> 0%Z) then (let! r := check_recursion cur in sret tt)
       else sret tt) in
  do! kfree_obj (V := dazukofs_proc) proc in
  if decide (oe_dentry_open env < 0)%Z then
    do! kcall_ (KPutUnusedFd (ec_fd C)) in sret (oe_dentry_open env)
  else
    do! kcall_ (KFdInstall (ec_fd C) (oe_dentry_open env)) in sret 0%Z.

(** [open_file] when the nested check returns early. *)
Definition open_file (ec : loc) (env : open_env) (ign : ptr -> Z) (cur : ptr) : M Z :=
  let! r := open_file_begin ec env cur in
  match r with
  | inl err => sret err
  | inr proc =>
      let! early := open_file_nested env ign cur in
      open_file_end ec proc env cur
  end.

(** [is_event_available] *)
Definition is_event_available (grp : loc) : M bool :=
  let! G := (load grp : M dazukofs_group) in
  sret (bool_decide (todo_list G <> [])).

Definition POLLIN : Z := 1.
Definition POLLERR : Z := 8.
Definition POLLRDNORM : Z := 64.

(** The first critical section of [dazukofs_poll] and [dazukofs_get_event]. *)
Definition find_and_use (gid : Z) : M (option loc) :=
  let! r := find_group gid in
  match r with
  | None => sret None
  | Some grp => do! use_inc grp in sret (Some grp)
  end.

(** [poll_wait(dev_file, &grp->poll_queue, wait)] *)
Definition poll_wait (grp : loc) : M unit := kcall_ (KPollWait (PollQ grp)).

(** [dazukofs_poll] *)
Definition dazukofs_poll (gid : Z) : M Z :=
  let! r := find_and_use gid in
  match r with
  | None => sret POLLERR
  | Some grp =>
      do! poll_wait grp in
      let! b := is_event_available grp in
      do! use_dec grp in
      sret (if (b : bool) then Z.lor POLLIN POLLRDNORM else 0%Z)
  end.

(** The condition [dazukofs_get_event] waits for. *)
Definition get_event_ready (grp : loc) : M bool :=
  let! b := is_event_available grp in
  let! G := (load grp : M dazukofs_group) in
  sret (b || bool_decide (grp_deprecated G <> 0%Z)).

(** What [dazukofs_get_event] reads from the claimed container; [pid_vnr] is
    the kernel's. *)
Definition get_event_fields (pid_vnr : ptr -> Z) (ec : loc) : M (Z * Z * Z) :=
  let! C := (load ec : M dazukofs_event_container) in
  let! evt := deref (ec_event C) in
  let! e := load evt in
  sret (event_id e, ec_fd C, pid_vnr (evt_proc_id e)).

(** The body of the loop of [dazukofs_get_event] once the wait is over: an
    error, the fields, or (nothing claimed) another turn. *)
Definition get_event_turn (pid_vnr : ptr -> Z) (ign : ptr -> Z) (env : open_env)
    (cur : ptr) (grp : loc) : M (option (Z * option (Z * Z * Z))) :=
  let! G := (load grp : M dazukofs_group) in
  if decide (grp_deprecated G <> 0%Z) then sret (Some ((- EINVAL)%Z, None))
  else
    let! c := claim_event grp in
    match c with
    | None => sret None
    | Some ec =>
        let! ret := open_file ec env ign cur in
        if decide (ret = 0%Z) then
          let! f := get_event_fields pid_vnr ec in sret (Some (0%Z, Some f))
        else
          do! unclaim_event grp ec in sret (Some (ret, None))
    end.

(** [dazukofs_get_event] in the absence of other tasks: [None] when it blocks. *)
Definition dazukofs_get_event (pid_vnr : ptr -> Z) (ign : ptr -> Z) (env : open_env)
    (cur : ptr) (gid : Z) : M (option (Z * option (Z * Z * Z))) :=
  let! r := find_and_use gid in
  match r with
  | None => sret (Some ((- EINVAL)%Z, None))
  | Some grp =>
      let! ready := get_event_ready grp in
      if (ready : bool) then
        let! t := get_event_turn pid_vnr ign env cur grp in
        do! use_dec grp in
        sret t
      else sret None
  end.
