(* ===== verification/EventInv.v ===== *)
(** * Memory invariant of the event layer

    What the other tasks of the system still owe or hold is summed up in a
    [ghost]; the invariant ties it to the heap: every container on a list
    refers to a live event, and the [assigned] count of an event is the number
    of containers on lists that refer to it plus the number of releases that
    are still to come. *)

From S2P Require Import Prelude EventState EventOps.
From stdpp Require Import strings.

(** What tasks hold between two critical sections:
    - [pend e]: releases of [e] that a task is about to perform;
    - [hold g]: use counts of [g] that a task will give back;
    - [tracked g]: open files that [g] tracks;
    - [own e]: accesses that wait for (or are about to post) [e];
    - [priv c]: containers allocated and not yet posted;
    - [claims (g, c)]: containers of [g] a task works on without the mutex. *)
Record ghost := mk_ghost {
  pend : loc -> nat;
  hold : loc -> nat;
  tracked : loc -> nat;
  own : loc -> nat;
  priv : loc -> nat;
  claims : loc * loc -> nat
}.

(** Two ghosts are interchangeable when they agree everywhere. *)
Definition ghost_eq (a b : ghost) : Prop :=
  (forall e, pend a e = pend b e) /\ (forall g, hold a g = hold b g) /\
  (forall g, tracked a g = tracked b g) /\
  (forall e, own a e = own b e) /\ (forall c, priv a c = priv b c) /\
  (forall x, claims a x = claims b x).

#[export] Instance ghost_eq_equiv : Equivalence ghost_eq.
Proof.
  split.
  - intros a. repeat split.
  - intros a b (?&?&?&?&?&?). repeat split; intros; symmetry; auto.
  - intros a b c (?&?&?&?&?&?) (?&?&?&?&?&?). repeat split; intros; etrans; eauto.
Qed.

Definition set_pend f (gh : ghost) :=
  mk_ghost f (hold gh) (tracked gh) (own gh) (priv gh) (claims gh).
Definition set_hold f (gh : ghost) :=
  mk_ghost (pend gh) f (tracked gh) (own gh) (priv gh) (claims gh).
Definition set_tracked f (gh : ghost) :=
  mk_ghost (pend gh) (hold gh) f (own gh) (priv gh) (claims gh).
Definition set_own f (gh : ghost) :=
  mk_ghost (pend gh) (hold gh) (tracked gh) f (priv gh) (claims gh).
Definition set_priv f (gh : ghost) :=
  mk_ghost (pend gh) (hold gh) (tracked gh) (own gh) f (claims gh).
Definition set_claims f (gh : ghost) :=
  mk_ghost (pend gh) (hold gh) (tracked gh) (own gh) (priv gh) f.

Definition fupd {A} `{EqDecision A} (f : A -> nat) (a : A) (n : nat) : A -> nat :=
  fun x => if decide (x = a) then n else f x.

Lemma fupd_eq {A} `{EqDecision A} (f : A -> nat) a n : fupd f a n a = n.
Proof. unfold fupd. by rewrite decide_True. Qed.
Lemma fupd_ne {A} `{EqDecision A} (f : A -> nat) a b n : b <> a -> fupd f a n b = f b.
Proof. intros. unfold fupd. by rewrite decide_False. Qed.

(** ** Lists of containers *)

(** [c] refers to [e]. *)
Definition refers (cs : gmap loc dazukofs_event_container) (e c : loc) : Prop :=
  cs !! c ≫= ec_event = Some e.
#[export] Instance refers_dec cs e c : Decision (refers cs e c).
Proof. unfold refers. apply _. Defined.

Definition nrefs (cs : gmap loc dazukofs_event_container) (l : list loc) (e : loc) : nat :=
  length (filter (refers cs e) l).
Definition nlinked (s : kstate) (e : loc) : nat := nrefs (containers s) (linked s) e.

Section lists.
Implicit Types (gs : gmap loc dazukofs_group) (l gl : list loc).

Lemma linked_of_elem gs gl c :
  c ∈ linked_of gs gl <-> exists g G, g ∈ gl /\ gs !! g = Some G /\ c ∈ group_lists G.
Proof.
  unfold linked_of. rewrite list_elem_of_bind. split.
  - intros (g & Hc & Hg). destruct (gs !! g) as [G|] eqn:E; simpl in Hc; [eauto|].
    by apply not_elem_of_nil in Hc.
  - intros (g & G & Hg & E & Hc). exists g. by rewrite E.
Qed.

Lemma linked_of_app gs gl gl' : linked_of gs (gl ++ gl') = linked_of gs gl ++ linked_of gs gl'.
Proof. apply bind_app. Qed.

Lemma linked_of_cons gs g gl :
  linked_of gs (g :: gl) = from_option group_lists [] (gs !! g) ++ linked_of gs gl.
Proof. done. Qed.

Lemma linked_of_ext gs gs' gl :
  (forall g, g ∈ gl -> from_option group_lists [] (gs' !! g) = from_option group_lists [] (gs !! g)) ->
  linked_of gs' gl = linked_of gs gl.
Proof.
  induction gl as [|g gl IH]; intros Hext; [done|].
  rewrite !linked_of_cons, Hext, IH; [done| |]; set_solver.
Qed.

Lemma linked_of_insert_off gs gl g G : g ∉ gl -> linked_of (<[g:=G]> gs) gl = linked_of gs gl.
Proof.
  intros Hg. apply linked_of_ext. intros g' Hg'. rewrite lookup_insert_ne; [done|]. by intros ->.
Qed.

Lemma linked_of_insert_same gs gl g G G' :
  gs !! g = Some G -> group_lists G' = group_lists G ->
  linked_of (<[g:=G']> gs) gl = linked_of gs gl.
Proof.
  intros Hg HG. apply linked_of_ext. intros g' _.
  destruct (decide (g' = g)) as [->|]; [by rewrite lookup_insert_eq, Hg|].
  by rewrite lookup_insert_ne.
Qed.

(** The containers of one group, and those of all the others. *)
Lemma linked_of_split gs gl g G :
  NoDup gl -> g ∈ gl -> gs !! g = Some G ->
  exists rest, linked_of gs gl ≡ₚ group_lists G ++ rest /\
    forall G', linked_of (<[g:=G']> gs) gl ≡ₚ group_lists G' ++ rest.
Proof.
  intros Hnd Hg HG. apply list_elem_of_split in Hg as (l1 & l2 & ->).
  apply NoDup_app in Hnd as (Hnd1 & Hdis & Hnd2). apply NoDup_cons in Hnd2 as [Hg2 _].
  assert (Hg1 : g ∉ l1) by (intros ?; eapply Hdis; [done|left]).
  exists (linked_of gs l1 ++ linked_of gs l2). split; [|intros G'];
    rewrite linked_of_app, linked_of_cons.
  - rewrite HG. simpl. rewrite !app_assoc. apply Permutation_app_tail, Permutation_app_comm.
  - rewrite lookup_insert_eq, !linked_of_insert_off by done. simpl.
    rewrite !app_assoc. apply Permutation_app_tail, Permutation_app_comm.
Qed.

Lemma linked_of_delete_empty gs gl g G :
  gs !! g = Some G -> group_lists G = [] ->
  linked_of (delete g gs) (filter (fun x => x <> g) gl) = linked_of gs gl.
Proof.
  intros Hg HG. induction gl as [|g' gl IH]; [done|].
  rewrite filter_cons. case_decide as Hne; rewrite !linked_of_cons.
  - by rewrite lookup_delete_ne, IH.
  - subst. rewrite Hg, IH. simpl. by rewrite HG.
Qed.

Lemma nrefs_perm cs l l' e : l ≡ₚ l' -> nrefs cs l e = nrefs cs l' e.
Proof. intros Hp. unfold nrefs. by rewrite Hp. Qed.

Lemma nrefs_cons cs c l e :
  nrefs cs (c :: l) e = (if decide (refers cs e c) then 1 else 0) + nrefs cs l e.
Proof. unfold nrefs. rewrite filter_cons. by case_decide. Qed.

Lemma nrefs_app cs l l' e : nrefs cs (l ++ l') e = nrefs cs l e + nrefs cs l' e.
Proof. unfold nrefs. by rewrite filter_app, length_app. Qed.

Lemma nrefs_ext cs cs' l e :
  (forall c, c ∈ l -> cs' !! c = cs !! c) -> nrefs cs' l e = nrefs cs l e.
Proof.
  induction l as [|c l IH]; intros Hext; [done|].
  rewrite !nrefs_cons, IH by set_solver. f_equal.
  assert (refers cs' e c <-> refers cs e c) by (unfold refers; by rewrite (Hext c) by left).
  repeat case_decide; tauto.
Qed.

Lemma nrefs_pos cs l e : 0 < nrefs cs l e -> exists c, c ∈ l /\ refers cs e c.
Proof.
  unfold nrefs. intros H. destruct (filter (refers cs e) l) as [|c q] eqn:E; [simpl in H; lia|].
  exists c. assert (Hc : c ∈ filter (refers cs e) l) by (rewrite E; left).
  apply list_elem_of_filter in Hc. naive_solver.
Qed.

Lemma nrefs_elem_pos cs l e c : c ∈ l -> refers cs e c -> 0 < nrefs cs l e.
Proof.
  intros Hc Hr. unfold nrefs. destruct (filter (refers cs e) l) as [|c' q] eqn:E; [|simpl; lia].
  exfalso. assert (c ∈ filter (refers cs e) l) by (by apply list_elem_of_filter).
  rewrite E in H. by apply not_elem_of_nil in H.
Qed.

Lemma unlink_not_in ec G : ec ∉ group_lists G -> unlink ec G = G.
Proof.
  unfold group_lists, unlink. intros Hn. apply not_elem_of_app in Hn as [H1 H2].
  destruct G; simpl in *. unfold with_lists; simpl.
  rewrite !filter_all; [done| |]; intros x Hx ->; done.
Qed.

Lemma group_lists_unlink ec G :
  group_lists (unlink ec G) = filter (fun c => c <> ec) (group_lists G).
Proof. unfold group_lists, unlink. simpl. by rewrite filter_app. Qed.

End lists.

(** ** The invariant *)

Definition bounded {V} (m : gmap loc V) (n : loc) : Prop :=
  forall l, is_Some (m !! l) -> (l < n)%positive.

Record mem_inv (gh : ghost) (s : kstate) : Prop := {
  m_gl_nodup : NoDup (group_list s);
  m_gl_alive : forall g, g ∈ group_list s -> is_Some (groups s !! g);
  m_off : forall g G, groups s !! g = Some G -> g ∉ group_list s -> group_lists G = [];
  m_nodup : NoDup (linked s);
  m_linked : forall c, c ∈ linked s -> exists C e,
    containers s !! c = Some C /\ ec_event C = Some e /\ is_Some (events s !! e);
  m_assigned : forall e ev, events s !! e = Some ev ->
    assigned ev = Z.of_nat (nlinked s e + pend gh e) /\ evt_deprecated ev = 0%Z;
  m_pend : forall e, 0 < pend gh e -> is_Some (events s !! e);
  m_own : forall e, 0 < own gh e -> own gh e = 1 /\ is_Some (events s !! e);
  m_priv : forall c, 0 < priv gh c -> priv gh c = 1 /\
    exists C, containers s !! c = Some C /\ ec_event C = None;
  m_claims : forall g c, 0 < claims gh (g, c) -> (c < next s)%positive /\
    (is_Some (containers s !! c) -> exists G, groups s !! g = Some G /\ c ∈ group_lists G);
  m_bounded : bounded (groups s) (next s) /\ bounded (containers s) (next s) /\
    bounded (events s) (next s);
  m_calls : forall e b d, KRelease e b d ∈ calls s -> (e < next s)%positive;
  m_deny : forall e ev, events s !! e = Some ev ->
    deny ev <> 0%Z <-> exists b, KRelease e b true ∈ calls s
}.

#[export] Instance mem_inv_proper : Proper (ghost_eq ==> eq ==> iff) mem_inv.
Proof.
  assert (Himp : forall a b s, ghost_eq a b -> mem_inv a s -> mem_inv b s).
  { intros a b s (Hp & _ & _ & Ho & Hv & Hc) []. split; auto.
    - intros e ev He. rewrite <-Hp. auto.
    - intros e. rewrite <-Hp. auto.
    - intros e. rewrite <-Ho. auto.
    - intros c. rewrite <-Hv. auto.
    - intros g c. rewrite <-Hc. auto. }
  intros a b Hab s ? <-. split; eapply Himp; [done|by symmetry].
Qed.

(** *** Consequences *)

Section mem.
Context (gh : ghost) (s : kstate) (I : mem_inv gh s).

Lemma mem_group_linked g G c :
  groups s !! g = Some G -> c ∈ group_lists G -> g ∈ group_list s /\ c ∈ linked s.
Proof.
  intros Hg Hc. assert (Hin : g ∈ group_list s).
  { destruct (decide (g ∈ group_list s)); [done|].
    rewrite (m_off _ _ I g G) in Hc by done. by apply not_elem_of_nil in Hc. }
  split; [done|]. apply linked_of_elem. eauto.
Qed.

(** A container is on the lists of one group only. *)
Lemma mem_group_unique g G g' G' c :
  groups s !! g = Some G -> groups s !! g' = Some G' ->
  c ∈ group_lists G -> c ∈ group_lists G' -> g = g'.
Proof.
  intros Hg Hg' Hc Hc'. destruct (decide (g' = g)) as [|Hne]; [done|]. exfalso.
  destruct (mem_group_linked g G c) as [Hin _]; [done..|].
  destruct (mem_group_linked g' G' c) as [Hin' _]; [done..|].
  destruct (linked_of_split (groups s) (group_list s) g G) as (rest & Hp & Hp');
    [apply (m_gl_nodup _ _ I)|done..|].
  pose proof (m_nodup _ _ I) as Hnd. unfold linked in Hnd. rewrite Hp in Hnd.
  apply NoDup_app in Hnd as (_ & Hdis & _). apply (Hdis c Hc).
  (* [c] is also linked once the lists of [g] are emptied *)
  specialize (Hp' (with_lists [] [] G)). simpl in Hp'. rewrite <-Hp'.
  apply linked_of_elem. exists g', G'. by rewrite lookup_insert_ne by congruence.
Qed.

Lemma mem_lists_nodup g G : groups s !! g = Some G -> NoDup (group_lists G).
Proof.
  intros Hg. destruct (decide (g ∈ group_list s)) as [Hin|Hin].
  - destruct (linked_of_split (groups s) (group_list s) g G) as (rest & Hp & _);
      [apply (m_gl_nodup _ _ I)|done..|].
    pose proof (m_nodup _ _ I) as Hnd. unfold linked in Hnd. rewrite Hp in Hnd.
    by apply NoDup_app in Hnd as (? & _ & _).
  - rewrite (m_off _ _ I g G) by done. constructor.
Qed.

(** Unlinking a container changes one group. *)
Lemma unlink_only g G ec :
  groups s !! g = Some G -> ec ∈ group_lists G ->
  unlink ec <$> groups s = <[g := unlink ec G]> (groups s).
Proof.
  intros Hg Hec. apply map_eq. intros g'. rewrite lookup_fmap.
  destruct (decide (g = g')) as [<-|Hne].
  - by rewrite lookup_insert_eq, Hg.
  - rewrite lookup_insert_ne by done. destruct (groups s !! g') as [G'|] eqn:E; [|done].
    simpl. f_equal. apply unlink_not_in. intros Hec'.
    apply Hne. by eapply mem_group_unique.
Qed.

Lemma run_list_del g G ec :
  groups s !! g = Some G -> ec ∈ group_lists G ->
  list_del_container ec s = Ret tt (set_groups (<[g := unlink ec G]> (groups s)) s).
Proof.
  intros Hg Hec. destruct (mem_group_linked g G ec) as [_ Hl]; [done..|].
  destruct (m_linked _ _ I ec Hl) as (C & e & HC & _).
  unfold list_del_container, sbind, load. simpl. rewrite HC.
  rewrite decide_True by (by eapply on_lists_group). by erewrite unlink_only.
Qed.

Lemma mem_container g G ec :
  groups s !! g = Some G -> ec ∈ group_lists G ->
  exists C e ev, containers s !! ec = Some C /\ ec_event C = Some e /\ events s !! e = Some ev /\
    refers (containers s) e ec.
Proof.
  intros Hg Hec. destruct (mem_group_linked g G ec) as [_ Hl]; [done..|].
  destruct (m_linked _ _ I ec Hl) as (C & e & HC & He & [ev Hev]).
  exists C, e, ev. unfold refers. by rewrite HC.
Qed.

(** *** Preservation: changes of one group *)

Lemma mem_update_group g G G' :
  groups s !! g = Some G -> group_lists G' ≡ₚ group_lists G ->
  mem_inv gh (set_groups (<[g:=G']> (groups s)) s).
Proof.
  intros Hg Hperm.
  assert (Hl : linked (set_groups (<[g:=G']> (groups s)) s) ≡ₚ linked s).
  { unfold linked; simpl. destruct (decide (g ∈ group_list s)) as [Hin|Hin].
    - destruct (linked_of_split (groups s) (group_list s) g G) as (rest & Hp & Hp');
        [apply (m_gl_nodup _ _ I)|done..|].
      by rewrite Hp', Hp, Hperm.
    - by rewrite linked_of_insert_off. }
  destruct I. split; simpl; try done.
  - intros g' Hg'. apply lookup_insert_is_Some'. auto.
  - intros g' G0. rewrite lookup_insert_Some. intros [[<- <-]|[? ?]] ?; [|by eauto].
    apply Permutation_nil_r. rewrite Hperm. by erewrite m_off0.
  - by rewrite Hl.
  - intros c. rewrite Hl. apply m_linked0.
  - intros e ev He. unfold nlinked; simpl. rewrite (nrefs_perm _ _ _ _ Hl). by apply m_assigned0.
  - intros g' c Hc. destruct (m_claims0 g' c Hc) as [? Himp]. split; [done|].
    intros Hs. destruct (Himp Hs) as (G0 & HG0 & HcG).
    destruct (decide (g = g')) as [<-|].
    + exists G'. rewrite lookup_insert_eq. split; [done|]. rewrite Hperm. congruence.
    + exists G0. by rewrite lookup_insert_ne.
  - destruct m_bounded0 as (Hb & ? & ?). split_and!; try done.
    intros l. rewrite lookup_insert_is_Some'. intros [<-|]; eauto.
Qed.
End mem.

(** ** Steps that change the event side only *)

(** A group without its containers. *)
Definition head_of (G : dazukofs_group) : dazukofs_group := with_lists [] [] G.

(** [s'] differs from [s] in events, containers, the lists of the groups, the
    trace and the allocator only. *)
Record evt_step (s s' : kstate) : Prop := {
  es_group_list : group_list s' = group_list s;
  es_heads : head_of <$> groups s' = head_of <$> groups s;
  es_count : group_count s' = group_count s;
  es_procs : procs s' = procs s;
  es_proc_list : proc_list s' = proc_list s;
  es_next : (next s <= next s')%positive
}.

#[export] Instance evt_step_preorder : PreOrder evt_step.
Proof.
  split; [intros s; by split|]. intros a b c [] []. split; (congruence || lia).
Qed.

Lemma evt_step_lookup s s' g G :
  evt_step s s' -> groups s !! g = Some G ->
  exists G', groups s' !! g = Some G' /\ head_of G' = head_of G.
Proof.
  intros [_ Hh _ _ _ _] HG. assert (E : (head_of <$> groups s') !! g = Some (head_of G))
    by (by rewrite Hh, lookup_fmap, HG).
  rewrite lookup_fmap in E. destruct (groups s' !! g) as [G'|]; [|done].
  apply (inj Some) in E. eauto.
Qed.

Lemma evt_step_lookup_back s s' g G' :
  evt_step s s' -> groups s' !! g = Some G' ->
  exists G, groups s !! g = Some G /\ head_of G' = head_of G.
Proof.
  intros [_ Hh _ _ _ _] HG. assert (E : (head_of <$> groups s) !! g = Some (head_of G'))
    by (by rewrite <-Hh, lookup_fmap, HG).
  rewrite lookup_fmap in E. destruct (groups s !! g) as [G|]; [|done].
  apply (inj Some) in E. eauto.
Qed.

Lemma head_of_eq G G' : head_of G' = head_of G -> G' = with_lists (todo_list G') (working_list G') G.
Proof. destruct G, G'; unfold head_of, with_lists; simpl. intros [= -> -> -> -> -> -> ->]. done. Qed.

Lemma heads_insert_same s g G G' :
  groups s !! g = Some G -> head_of G' = head_of G ->
  head_of <$> <[g:=G']> (groups s) = head_of <$> groups s.
Proof.
  intros HG HH. rewrite fmap_insert, HH. apply insert_id. by rewrite lookup_fmap, HG.
Qed.

Lemma evt_step_relist s g G G' :
  groups s !! g = Some G -> head_of G' = head_of G ->
  evt_step s (set_groups (<[g:=G']> (groups s)) s).
Proof. intros. split; simpl; try done. by eapply heads_insert_same. Qed.

Lemma evt_step_containers s m : evt_step s (set_containers m s).
Proof. by split. Qed.
Lemma evt_step_events s m : evt_step s (set_events m s).
Proof. by split. Qed.
Lemma evt_step_calls s m : evt_step s (set_calls m s).
Proof. by split. Qed.
Lemma evt_step_oom s m : evt_step s (set_oom m s).
Proof. by split. Qed.
#[export] Hint Resolve evt_step_relist evt_step_containers evt_step_events evt_step_calls
  evt_step_oom : evt.

(** ** Releasing an event *)

Definition released_event (d : bool) (ev : dazukofs_event) : dazukofs_event :=
  with_assigned (assigned ev - 1) (if d then with_deny (Z.lor (deny ev) 1) ev else ev).

(** The state after a registered process released the event. *)
Definition released (e : loc) (d : bool) (ev : dazukofs_event) (s : kstate) : kstate :=
  set_calls ((if decide (assigned ev = 1%Z) then [KWakeUp (EvtQ e)] else []) ++
             KRelease e true d :: calls s)
    (set_events (<[e := released_event d ev]> (events s)) s).

Lemma run_release e d ev s :
  events s !! e = Some ev -> evt_deprecated ev = 0%Z ->
  release_event e true d s = Ret tt (released e d ev s).
Proof.
  intros He Hd. destruct ev as [i dd mm pp dn dp a]; simpl in *. subst dp.
  unfold release_event, sbind, load, store, kcall_, smodify, released, sret; simpl.
  rewrite He. destruct d; simpl; rewrite He; simpl;
    destruct (decide (a - 1 = 0)%Z), (decide (a = 1)%Z); try lia; done.
Qed.

Lemma evt_step_released e d ev s : evt_step s (released e d ev s).
Proof. by split. Qed.
#[export] Hint Resolve evt_step_released : evt.

Lemma released_deny d ev : deny (released_event d ev) = if d then Z.lor (deny ev) 1 else deny ev.
Proof. by destruct d. Qed.

Lemma lor_1_nonzero z : Z.lor z 1 <> 0%Z.
Proof. intros H. apply Z.lor_eq_0_iff in H. lia. Qed.

Lemma mem_release gh s e d ev :
  mem_inv gh s -> 0 < pend gh e -> events s !! e = Some ev ->
  mem_inv (set_pend (fupd (pend gh) e (pend gh e - 1)) gh) (released e d ev s).
Proof.
  intros I Hp He. pose proof I as [].
  assert (Hc : forall e' b d', KRelease e' b d' ∈ calls (released e d ev s) <->
    (e' = e /\ b = true /\ d' = d) \/ KRelease e' b d' ∈ calls s).
  { intros. unfold released; simpl. case_decide; simpl; set_solver. }
  split; try done.
  - intros c Hc'. destruct (m_linked0 c Hc') as (C & e' & ? & ? & ?). exists C, e'.
    split_and!; [done..|]. simpl. by apply lookup_insert_is_Some'; right.
  - intros e' ev'. simpl. rewrite lookup_insert_Some. unfold nlinked; simpl.
    intros [[<- <-]|[Hne He']].
    + destruct (m_assigned0 e ev He) as [Ha Hd]. rewrite fupd_eq. unfold nlinked in Ha.
      destruct d; simpl; split; try done; unfold linked in *; simpl; lia.
    + rewrite fupd_ne by done. by apply m_assigned0.
  - intros e'. simpl. intros. apply lookup_insert_is_Some'.
    destruct (decide (e' = e)) as [->|]; [by left|right]. apply m_pend0. rewrite fupd_ne in H by done. done.
  - intros e' Ho. destruct (m_own0 e' Ho). split; [done|]. by apply lookup_insert_is_Some'; right.
  - destruct m_bounded0 as (? & ? & Hb). split_and!; try done.
    intros l. simpl. rewrite lookup_insert_is_Some'. intros [<-|]; eauto.
  - intros e' b d'. rewrite Hc. intros [(-> & -> & ->)|]; [|by eapply m_calls0].
    destruct m_bounded0 as (? & ? & Hb). by apply Hb; rewrite He.
  - intros e' ev'. simpl. rewrite lookup_insert_Some. intros [[<- <-]|[Hne He']].
    + rewrite released_deny. destruct d.
      * split; [|by intros; apply lor_1_nonzero]. intros _. exists true. rewrite Hc. by left.
      * rewrite (m_deny0 e ev He). split; intros [b Hb]; exists b; [rewrite Hc; by right|].
        apply Hc in Hb. naive_solver.
    + rewrite (m_deny0 e' ev' He'). split; intros [b Hb]; exists b; [rewrite Hc; by right|].
      apply Hc in Hb. naive_solver.
Qed.

(** ** What every step leaves alone

    An event nobody has to answer any more is not touched (but for the event
    [x] a step may own); releases in the trace are of events that exist; new
    objects are new; and when the last answer to an event is in, the task that
    waits for it is woken. *)
Record ev_frame (x : option loc) (s s' : kstate) : Prop := {
  ef_quiet : forall e ev, x <> Some e -> events s !! e = Some ev -> assigned ev = 0%Z ->
    events s' !! e = Some ev;
  ef_born : forall e, is_Some (events s' !! e) -> is_Some (events s !! e) \/ (next s <= e)%positive;
  ef_calls : exists new, calls s' = new ++ calls s /\
    (forall e b d, KRelease e b d ∈ new -> is_Some (events s !! e) \/ (next s <= e)%positive) /\
    (forall e ev, events s !! e = Some ev -> assigned ev <> 0%Z ->
       KWakeUp (EvtQ e) ∈ new \/ exists ev', events s' !! e = Some ev' /\ assigned ev' <> 0%Z);
  ef_next : (next s <= next s')%positive
}.

#[export] Instance ev_frame_preorder x : PreOrder (ev_frame x).
Proof.
  split.
  - intros s. split; eauto; [|done].
    exists []. split_and!; [done| |eauto]. intros ? ? ? H%not_elem_of_nil. done.
  - intros a b c [Q1 B1 (n1 & E1 & H1 & W1) N1] [Q2 B2 (n2 & E2 & H2 & W2) N2]. split.
    + eauto.
    + intros e He. destruct (B2 e He) as [|]; [eauto|right; lia].
    + exists (n2 ++ n1). split_and!; [by rewrite E2, E1, app_assoc| |].
      * intros e u d [Hin|Hin]%elem_of_app; [|eauto].
        destruct (H2 e u d Hin) as [|]; [eauto|right; lia].
      * intros e ev He Ha. destruct (W1 e ev He Ha) as [|(ev' & He' & Ha')]; [set_solver|].
        destruct (W2 e ev' He' Ha') as [|]; [set_solver|eauto].
    + lia.
Qed.

Lemma ev_frame_weaken x s s' : ev_frame None s s' -> ev_frame x s s'.
Proof. intros []. split; eauto. Qed.

(** The two frames together. *)
Definition quiet_step (s s' : kstate) : Prop := evt_step s s' /\ ev_frame None s s'.
#[export] Instance quiet_step_preorder : PreOrder quiet_step.
Proof.
  split; [by intros s; split|]. intros a b c [] []. split; etrans; eauto.
Qed.

Lemma ev_frame_same s s' :
  events s' = events s -> calls s' = calls s -> next s' = next s -> ev_frame None s s'.
Proof.
  intros He Hc Hn. split; rewrite ?He, ?Hc, ?Hn; eauto; [|done].
  exists []. split_and!; [done| |eauto]. intros ? ? ? H%not_elem_of_nil. done.
Qed.

Lemma ev_frame_call s c :
  (forall e b d, c <> KRelease e b d) -> ev_frame None s (set_calls (c :: calls s) s).
Proof.
  intros Hc. split; simpl; eauto; [|done].
  exists [c]. split_and!; [done| |eauto].
  intros e b d H%list_elem_of_singleton. exfalso. by eapply Hc.
Qed.

Lemma ev_frame_released gh s e d ev :
  mem_inv gh s -> 0 < pend gh e + nlinked s e -> events s !! e = Some ev ->
  ev_frame None s (released e d ev s).
Proof.
  intros I Hp He. destruct (m_assigned _ _ I e ev He) as [Ha _]. split; simpl; try done.
  - intros e' ev' _ He' Ha'. rewrite lookup_insert_ne; [done|]. intros <-. simplify_eq. lia.
  - intros e' [<-|]%lookup_insert_is_Some'; left; eauto.
  - eexists (_ ++ [_]). split_and!; [by rewrite <-app_assoc| |].
    + intros e' b d'. case_decide; simpl; intros Hin; left; set_unfold in Hin; naive_solver.
    + intros e' ev' He' Ha'. destruct (decide (e' = e)) as [->|]; simplify_eq.
      * case_decide; [left; set_solver|right].
        exists (released_event d ev). rewrite lookup_insert_eq. split; [done|].
        destruct d; simpl; lia.
      * right. exists ev'. by rewrite lookup_insert_ne.
Qed.

(** ** Dropping a container *)

(** The state once [ec], on a list of [g], is unlinked and freed. *)
Definition dropped (g : loc) (G : dazukofs_group) (ec : loc) (s : kstate) : kstate :=
  set_containers (delete ec (containers s)) (set_groups (<[g := unlink ec G]> (groups s)) s).

Lemma quiet_dropped g G ec s : groups s !! g = Some G -> quiet_step s (dropped g G ec s).
Proof.
  intros HG. split; [|by apply ev_frame_same].
  etrans; [eapply (evt_step_relist s g G (unlink ec G)); done|]. apply evt_step_containers.
Qed.

Lemma mem_drop gh s g G ec C e :
  mem_inv gh s -> groups s !! g = Some G -> ec ∈ group_lists G ->
  containers s !! ec = Some C -> ec_event C = Some e ->
  mem_inv (set_pend (fupd (pend gh) e (S (pend gh e))) gh) (dropped g G ec s).
Proof.
  intros I Hg Hec HC He. destruct (mem_group_linked _ _ I g G ec Hg Hec) as [Hin Hl].
  assert (Hperm : linked s ≡ₚ ec :: linked (dropped g G ec s)).
  { destruct (linked_of_split (groups s) (group_list s) g G) as (rest & Hp & Hp');
      [apply (m_gl_nodup _ _ I)|done..|].
    unfold linked, dropped; simpl. rewrite Hp, Hp', group_lists_unlink.
    rewrite (filter_ne_perm (group_lists G) ec) at 1; [done| |done].
    by eapply mem_lists_nodup. }
  assert (Hnd : NoDup (ec :: linked (dropped g G ec s))) by (rewrite <-Hperm; apply (m_nodup _ _ I)).
  apply NoDup_cons in Hnd as [Hnin Hnd].
  destruct I. split; simpl; try done.
  - intros g' ?. apply lookup_insert_is_Some'. auto.
  - intros g' G0. rewrite lookup_insert_Some. intros [[<- <-]|[? ?]] ?; [done|eauto].
  - intros c Hc. assert (Hc' : c ∈ linked s) by (rewrite Hperm; by right).
    destruct (m_linked0 c Hc') as (C' & e' & ? & ? & ?). exists C', e'.
    rewrite lookup_delete_ne; [done|]. by intros ->.
  - intros e' ev Hev. destruct (m_assigned0 e' ev Hev) as [Ha ?]. split; [|done]. rewrite Ha. f_equal.
    unfold nlinked in *. rewrite (nrefs_perm _ _ _ _ Hperm), nrefs_cons.
    rewrite (nrefs_ext (containers s) (containers (dropped g G ec s))).
    2: { intros c Hc. simpl. rewrite lookup_delete_ne; [done|]. by intros ->. }
    assert (Hr : refers (containers s) e' ec <-> e' = e).
    { unfold refers. rewrite HC. simpl. rewrite He. naive_solver. }
    destruct (decide (e' = e)) as [->|Hne]; [rewrite fupd_eq|rewrite fupd_ne by done];
      case_decide; tauto || lia.
  - intros e' Hpos. destruct (decide (e' = e)) as [->|Hne].
    + destruct (m_linked0 ec Hl) as (C' & e' & ? & ? & ?). congruence.
    + rewrite fupd_ne in Hpos by done. auto.
  - intros c Hc. destruct (m_priv0 c Hc) as (? & C' & HC' & ?). split; [done|]. exists C'.
    rewrite lookup_delete_ne; [done|]. intros ->. congruence.
  - intros g' c Hc. destruct (m_claims0 g' c Hc) as [? Himp]. split; [done|].
    rewrite lookup_delete_is_Some. intros [Hne Hs]. destruct (Himp Hs) as (G0 & HG0 & HcG).
    destruct (decide (g = g')) as [<-|].
    + exists (unlink ec G). rewrite lookup_insert_eq, group_lists_unlink. split; [done|].
      apply list_elem_of_filter. split; [congruence|]. congruence.
    + exists G0. by rewrite lookup_insert_ne.
  - destruct m_bounded0 as (Hb & Hb2 & ?). split_and!; try done.
    + intros l [<-|]%lookup_insert_is_Some'; eauto.
    + intros l [_ ?]%lookup_delete_is_Some. eauto.
Qed.

(** ** [__clear_group_event_list] *)

(** The state once a container of [g] is unlinked, its event released, and the
    container freed. *)
Definition cleared (g : loc) (G : dazukofs_group) (ec e : loc) (ev : dazukofs_event) (s : kstate) :=
  released e false ev (dropped g G ec s).

Lemma run_clear_cons gh s g G ec q C e ev :
  mem_inv gh s -> groups s !! g = Some G -> ec ∈ group_lists G ->
  containers s !! ec = Some C -> ec_event C = Some e -> events s !! e = Some ev ->
  clear_group_event_list (ec :: q) s = clear_group_event_list q (cleared g G ec e ev s).
Proof.
  intros I Hg Hec HC He Hev.
  destruct (m_assigned _ _ I e ev Hev) as [_ Hd].
  simpl. unfold sbind at 1. unfold load at 1. simpl. rewrite HC.
  unfold sbind at 1. erewrite run_list_del by eauto.
  unfold sbind at 1. rewrite He. simpl.
  unfold sbind at 1. erewrite run_release by eauto.
  unfold sbind at 1. unfold kfree_obj; simpl. by rewrite HC.
Qed.

Lemma mem_cleared gh s g G ec C e ev :
  mem_inv gh s -> groups s !! g = Some G -> ec ∈ group_lists G ->
  containers s !! ec = Some C -> ec_event C = Some e -> events s !! e = Some ev ->
  mem_inv gh (cleared g G ec e ev s) /\ quiet_step s (cleared g G ec e ev s).
Proof.
  intros I Hg Hec HC He Hev.
  pose proof (mem_drop _ _ _ _ _ _ _ I Hg Hec HC He) as I1. split.
  - eapply mem_inv_proper; [|reflexivity|].
    2: { eapply mem_release; [exact I1| |exact Hev]. simpl. rewrite fupd_eq. lia. }
    repeat split; try done. intros e'. simpl. rewrite !fupd_eq.
    destruct (decide (e' = e)) as [->|]; [rewrite fupd_eq; lia|by rewrite !fupd_ne].
  - etrans; [by eapply quiet_dropped|]. split; [apply evt_step_released|].
    eapply ev_frame_released; [exact I1| |done]. simpl. rewrite fupd_eq. lia.
Qed.

Definition drop_all (l : list loc) (G : dazukofs_group) : dazukofs_group :=
  with_lists (filter (fun c => c ∉ l) (todo_list G)) (filter (fun c => c ∉ l) (working_list G)) G.

Lemma drop_all_cons ec l G : drop_all l (unlink ec G) = drop_all (ec :: l) G.
Proof.
  unfold drop_all, unlink, with_lists; simpl. f_equal.
  all: rewrite list_filter_filter; apply list_filter_iff; set_solver.
Qed.

Lemma drop_all_nil G : drop_all [] G = G.
Proof.
  destruct G. unfold drop_all, with_lists; simpl.
  rewrite !filter_all; [done| |]; set_solver.
Qed.

Lemma wp_clear gh g l : forall s G,
  mem_inv gh s -> groups s !! g = Some G -> NoDup l -> l ⊆ group_lists G ->
  wp (clear_group_event_list l) (fun _ s' =>
    mem_inv gh s' /\ quiet_step s s' /\ groups s' = <[g := drop_all l G]> (groups s)) s.
Proof.
  induction l as [|ec l IH]; intros s G I Hg Hnd Hsub.
  - apply wp_ret. split_and!; [done|reflexivity|]. rewrite drop_all_nil. by rewrite insert_id.
  - apply NoDup_cons in Hnd as [Hec Hnd].
    destruct (mem_container _ _ I g G ec) as (C & e & ev & HC & He & Hev & _); [done|set_solver|].
    destruct (mem_cleared gh s g G ec C e ev) as [I' Hq]; [done..|set_solver|done|done|done|].
    pose proof (IH (cleared g G ec e ev s) (unlink ec G)) as Hwp.
    unfold wp in *. erewrite run_clear_cons by (eauto; set_solver).
    assert (Hg' : groups (cleared g G ec e ev s) !! g = Some (unlink ec G)) by apply lookup_insert_eq.
    specialize (Hwp I' Hg' Hnd).
    destruct (clear_group_event_list l _) as [[] s'|]; [|apply Hwp].
    + destruct Hwp as (I'' & Hq' & HG').
      { intros c Hc. rewrite group_lists_unlink. apply list_elem_of_filter. split; [|set_solver].
        by intros ->. }
      split_and!; [done|by etrans|].
      rewrite HG', drop_all_cons. simpl. by rewrite insert_insert_eq.
    + intros c Hc. rewrite group_lists_unlink. apply list_elem_of_filter. split; [|set_solver].
      by intros ->.
Qed.

(** ** Fields outside the memory invariant *)

Lemma mem_set_count gh s n : mem_inv gh s -> mem_inv gh (set_group_count n s).
Proof. by intros []; split. Qed.
Lemma mem_set_oom gh s o : mem_inv gh s -> mem_inv gh (set_oom o s).
Proof. by intros []; split. Qed.
Lemma mem_set_proc_list gh s o : mem_inv gh s -> mem_inv gh (set_proc_list o s).
Proof. by intros []; split. Qed.
Lemma mem_set_procs gh s o : mem_inv gh s -> mem_inv gh (set_procs o s).
Proof. by intros []; split. Qed.
Lemma mem_set_last gh s i : mem_inv gh s -> mem_inv gh (set_last_event_id i s).
Proof. by intros []; split. Qed.
Lemma mem_set_hold gh s f : mem_inv gh s -> mem_inv (set_hold f gh) s.
Proof. by intros []; split. Qed.
Lemma mem_set_tracked gh s f : mem_inv gh s -> mem_inv (set_tracked f gh) s.
Proof. by intros []; split. Qed.

Lemma mem_call gh s c :
  (forall e b d, c <> KRelease e b d) -> mem_inv gh s -> mem_inv gh (set_calls (c :: calls s) s).
Proof.
  intros Hc []. split; try done.
  - intros e b d. simpl. rewrite elem_of_cons. intros [Heq|]; [by edestruct Hc|eauto].
  - intros e ev He. rewrite (m_deny0 e ev He). simpl. split; intros [b Hb]; exists b.
    + by right.
    + apply elem_of_cons in Hb as [Heq|]; [by edestruct Hc|done].
Qed.

Lemma quiet_call s c : (forall e b d, c <> KRelease e b d) -> quiet_step s (set_calls (c :: calls s) s).
Proof. intros. split; [apply evt_step_calls|by apply ev_frame_call]. Qed.

Lemma mem_next gh s n : (next s <= n)%positive -> mem_inv gh s -> mem_inv gh (set_next n s).
Proof.
  intros Hn []. split; try done; simpl.
  - intros g c Hc. destruct (m_claims0 g c Hc). split; [lia|done].
  - destruct m_bounded0 as (H1 & H2 & H3).
    split_and!; intros l Hl; [specialize (H1 l Hl)|specialize (H2 l Hl)|specialize (H3 l Hl)]; lia.
  - intros e b d Hin. specialize (m_calls0 e b d Hin). lia.
Qed.

(** Deprecated groups have no containers. *)
Definition dep_inv (s : kstate) : Prop :=
  forall g G, groups s !! g = Some G -> grp_deprecated G <> 0%Z -> group_lists G = [].

Lemma dep_inv_insert s s' g G' :
  dep_inv s -> groups s' = <[g:=G']> (groups s) ->
  (grp_deprecated G' <> 0%Z -> group_lists G' = []) -> dep_inv s'.
Proof.
  intros D E HG' g' G0. rewrite E, lookup_insert_Some. intros [[<- <-]|[? ?]] ?; eauto.
Qed.

(** ** [__remove_group] *)

Definition retired (G : dazukofs_group) : dazukofs_group :=
  with_lists [] [] (with_grp_deprecated 1 G).

Lemma drop_all_lists G : NoDup (group_lists G) ->
  drop_all (todo_list (drop_all (working_list G) G)) (drop_all (working_list G) G) = with_lists [] [] G.
Proof.
  intros Hnd. unfold group_lists in Hnd. apply NoDup_app in Hnd as (_ & Hdis & _).
  unfold drop_all, with_lists; simpl. f_equal; rewrite list_filter_filter; apply filter_none.
  - intros x Hx [Hn Hw]. apply Hn, list_elem_of_filter. eauto.
  - intros x Hx [_ Hw]. done.
Qed.

(** Everything but the event side and one group is as before. *)
Record group_step (g : loc) (G' : dazukofs_group) (s s' : kstate) : Prop := {
  gs_groups : groups s' = <[g:=G']> (groups s);
  gs_group_list : group_list s' = group_list s;
  gs_procs : procs s' = procs s;
  gs_proc_list : proc_list s' = proc_list s;
  gs_frame : ev_frame None s s';
  gs_wake : exists new, calls s' = new ++ calls s /\ KWakeUpAll (GrpQ g) ∈ new
}.

Lemma wp_remove_group gh s g G :
  mem_inv gh s -> groups s !! g = Some G ->
  wp (remove_group g) (fun _ s' =>
    mem_inv gh s' /\ group_step g (retired G) s s' /\ group_count s' = (group_count s - 1)%Z) s.
Proof.
  intros I Hg. unfold remove_group.
  set (G0 := with_grp_deprecated 1 G). set (s0 := set_groups (<[g:=G0]> (groups s)) s).
  set (s1 := set_group_count (group_count s0 - 1) s0).
  assert (I1 : mem_inv gh s1) by (apply mem_set_count; by eapply mem_update_group).
  assert (Hg1 : groups s1 !! g = Some G0) by apply lookup_insert_eq.
  assert (Hnd : NoDup (group_lists G0)) by (by eapply mem_lists_nodup; [exact I1|]).
  apply wp_bind, wp_load with G; [done|].
  apply wp_bind, wp_store with G; [done|]. apply wp_bind, wp_modify.
  apply wp_bind, wp_load with G0; [done|]. apply wp_bind.
  eapply wp_mono.
  { eapply (wp_clear gh g); [exact I1|exact Hg1| |].
    - unfold group_lists in Hnd. by apply NoDup_app in Hnd as (_ & _ & ?).
    - unfold group_lists. set_solver. }
  intros [] s2 (I2 & Q2 & HG2). set (G2 := drop_all (working_list G0) G0) in *.
  assert (Hg2 : groups s2 !! g = Some G2) by (rewrite HG2; apply lookup_insert_eq).
  assert (Hnd2 : NoDup (group_lists G2)) by (by eapply mem_lists_nodup; [exact I2|]).
  apply wp_bind, wp_load with G2; [done|]. apply wp_bind.
  eapply wp_mono.
  { eapply (wp_clear gh g); [exact I2|exact Hg2| |].
    - unfold group_lists in Hnd2. by apply NoDup_app in Hnd2 as (? & _ & _).
    - unfold group_lists. set_solver. }
  intros [] s3 (I3 & Q3 & HG3). apply wp_bind, wp_modify, wp_modify.
  assert (Q : quiet_step s1 (set_calls (KWakeUpAll (PollQ g) :: KWakeUpAll (GrpQ g) :: calls s3) s3)).
  { etrans; [exact Q2|]. etrans; [exact Q3|].
    etrans; [by apply (quiet_call s3 (KWakeUpAll (GrpQ g)))|].
    by apply (quiet_call (set_calls (KWakeUpAll (GrpQ g) :: calls s3) s3) (KWakeUpAll (PollQ g))). }
  destruct Q as [[E1 _ E3 E4 E5 _] F]. split_and!.
  - apply (mem_call gh (set_calls (KWakeUpAll (GrpQ g) :: calls s3) s3) (KWakeUpAll (PollQ g)));
      [done|]. by apply (mem_call gh s3 (KWakeUpAll (GrpQ g))).
  - split; try done; [|etrans; [by apply (ev_frame_same s s1)|exact F]|].
    2: { destruct Q2 as [_ [_ _ (n2 & C2 & _) _]], Q3 as [_ [_ _ (n3 & C3 & _) _]].
         exists (KWakeUpAll (PollQ g) :: KWakeUpAll (GrpQ g) :: n3 ++ n2). simpl.
         split; [by rewrite C3, C2, <-app_assoc|set_solver]. }
    simpl. rewrite HG3, HG2. unfold G2. rewrite drop_all_lists by done.
    rewrite insert_insert_eq. simpl. by rewrite insert_insert_eq.
  - exact E3.
Qed.

(** ** Use counts

    A group is in use by the tasks that hold it and by the files it tracks; a
    live group counts the latter in [track_count]. *)
Record use_inv (gh : ghost) (s : kstate) : Prop := {
  u_count : forall g G, groups s !! g = Some G ->
    (Z.of_nat (hold gh g + tracked gh g) <= use_count G)%Z;
  u_alive : forall g, 0 < hold gh g + tracked gh g -> g ∈ group_list s;
  u_track : forall g G, groups s !! g = Some G -> grp_deprecated G = 0%Z ->
    track_count G = Z.of_nat (tracked gh g);
  u_tracking : forall g G, groups s !! g = Some G -> 0 < tracked gh g -> tracking G <> 0%Z
}.

#[export] Instance use_inv_proper : Proper (ghost_eq ==> eq ==> iff) use_inv.
Proof.
  assert (Himp : forall a b s, ghost_eq a b -> use_inv a s -> use_inv b s).
  { intros a b s (_ & Hh & Ht & _) []. split; intros; rewrite <-?Hh, <-?Ht in *; eauto. }
  intros a b Hab s ? <-. split; eapply Himp; [done|by symmetry].
Qed.

(** Use counts only see the heads of the groups. *)
Lemma use_evt_step gh s s' : evt_step s s' -> use_inv gh s -> use_inv gh s'.
Proof.
  intros E [C A T K]. split.
  - intros g G' HG'. destruct (evt_step_lookup_back _ _ _ _ E HG') as (G & HG & Hh).
    rewrite (head_of_eq _ _ Hh). simpl. eauto.
  - intros g Hg. rewrite (es_group_list _ _ E). eauto.
  - intros g G' HG'. destruct (evt_step_lookup_back _ _ _ _ E HG') as (G & HG & Hh).
    rewrite (head_of_eq _ _ Hh). simpl. eauto.
  - intros g G' HG'. destruct (evt_step_lookup_back _ _ _ _ E HG') as (G & HG & Hh).
    rewrite (head_of_eq _ _ Hh). simpl. eauto.
Qed.
