(* ===== verification/GroupReg.v ===== *)
(** * The group registry

    The groups of [group_list] that are not deprecated form a registry of
    names and ids.  This file gives its abstract specification and proves that
    [dazukofs_add_group] and [dazukofs_remove_group] implement it. *)

From S2P Require Import Prelude EventState EventOps EventInv.
From stdpp Require Import strings.

(** ** Abstract specification *)

Module Spec.
(** Names and ids of the groups, oldest first. *)
Abbreviation registry := (list (string * Z)) (only parsing).

Definition names (r : registry) : list string := r.*1.
Definition ids (r : registry) : list Z := r.*2.

(** Well-formed: no name and no id twice, and ids that have a device. *)
Record wf (r : registry) : Prop := {
  wf_names : NoDup (names r);
  wf_ids : NoDup (ids r);
  wf_range : Forall (fun i => 0 <= i < GROUP_COUNT)%Z (ids r)
}.

(** [id] is the least id that is not taken. *)
Definition first_free (r : registry) (id : Z) : Prop :=
  (0 <= id)%Z /\ id ∉ ids r /\ forall j, (0 <= j < id)%Z -> j ∈ ids r.

(** Adding a group: the outcomes the interface allows. *)
Inductive add (nm : string) (r : registry) : Z -> registry -> Prop :=
| add_exists : nm ∈ names r -> add nm r 0 r
| add_full : nm ∉ names r -> Z.of_nat (length r) = GROUP_COUNT -> add nm r (- EPERM) r
| add_nomem : nm ∉ names r -> Z.of_nat (length r) <> GROUP_COUNT -> add nm r (- ENOMEM) r
| add_new id : nm ∉ names r -> Z.of_nat (length r) <> GROUP_COUNT -> first_free r id ->
    add nm r 0 (r ++ [(nm, id)]).

Definition remove (nm : string) (r : registry) : registry := filter (fun x => x.1 <> nm) r.

(** A duplicate-free list of integers that contains [0 .. n-1] is that long. *)
Lemma ids_cover (l : list Z) (n : nat) :
  (forall j, (0 <= j < Z.of_nat n)%Z -> j ∈ l) -> n <= length l.
Proof.
  intros Hc. rewrite <-(length_seq n 0), <-(length_fmap Z.of_nat).
  apply submseteq_length, NoDup_submseteq.
  - apply (NoDup_fmap_2 _), NoDup_seq.
  - intros x (k & -> & Hk)%list_elem_of_fmap. apply elem_of_seq in Hk. apply Hc. lia.
Qed.

Lemma first_free_range r id :
  first_free r id -> (0 <= id <= Z.of_nat (length r))%Z.
Proof.
  intros (H0 & _ & Hc). split; [done|].
  assert (Hl : Z.to_nat id <= length (ids r)) by (apply ids_cover; intros j Hj; apply Hc; lia).
  unfold ids in Hl. rewrite length_fmap in Hl. lia.
Qed.

Lemma wf_length r : wf r -> (Z.of_nat (length r) <= GROUP_COUNT)%Z.
Proof.
  intros [_ Hnd Hr]. assert (Hl : length (ids r) <= length (Z.of_nat <$> seq 0 10)).
  { apply submseteq_length, NoDup_submseteq; [done|]. intros x Hx.
    rewrite Forall_forall in Hr. specialize (Hr x Hx). unfold GROUP_COUNT in Hr.
    apply list_elem_of_fmap. exists (Z.to_nat x). split; [lia|]. apply elem_of_seq. lia. }
  unfold ids in Hl. rewrite !length_fmap, length_seq in Hl. unfold GROUP_COUNT. lia.
Qed.

(** The specification keeps registries well-formed. *)
Lemma add_wf nm r res r' : wf r -> add nm r res r' -> wf r'.
Proof.
  intros W A. destruct A as [| | |id Hn Hlen Hf]; try done.
  pose proof (wf_length r W). pose proof (first_free_range r id Hf) as Hid.
  destruct W as [Hnm Hnd Hr]. destruct Hf as (_ & Hnin & _).
  split; unfold names, ids in *; rewrite fmap_app; simpl.
  - apply NoDup_app. split_and!; [done| |apply NoDup_singleton].
    intros x Hx ->%list_elem_of_singleton. done.
  - apply NoDup_app. split_and!; [done| |apply NoDup_singleton].
    intros x Hx ->%list_elem_of_singleton. done.
  - apply Forall_app. split; [done|]. apply Forall_singleton. unfold GROUP_COUNT in *. lia.
Qed.

Lemma remove_wf nm r : wf r -> wf (remove nm r).
Proof.
  intros [Hnm Hnd Hr]. unfold remove.
  assert (Hs : forall (l : registry), filter (fun x => x.1 <> nm) l `sublist_of` l)
    by (intros; apply sublist_filter).
  split; unfold names, ids in *.
  - eapply sublist_NoDup; [exact Hnm|apply fmap_sublist, Hs].
  - eapply sublist_NoDup; [exact Hnd|apply fmap_sublist, Hs].
  - apply Forall_forall. rewrite Forall_forall in Hr. intros x Hx. apply Hr.
    eapply sublist_subseteq; [apply fmap_sublist, Hs|done].
Qed.
End Spec.

(** ** The registry of a state *)

Definition live_of (gs : gmap loc dazukofs_group) (gl : list loc) : list (loc * string * Z) :=
  omap (fun g => G ← gs !! g;
                 if decide (grp_deprecated G = 0%Z) then Some (g, name G, group_id G) else None) gl.
Definition live_view (s : kstate) : list (loc * string * Z) := live_of (groups s) (group_list s).
Definition entry (x : loc * string * Z) : string * Z := (x.1.2, x.2).
Definition registry_of (s : kstate) : Spec.registry := entry <$> live_view s.

Section live.
Implicit Types (gs : gmap loc dazukofs_group) (gl : list loc).

Lemma live_of_elem gs gl g nm i :
  (g, nm, i) ∈ live_of gs gl <->
  g ∈ gl /\ exists G, gs !! g = Some G /\ grp_deprecated G = 0%Z /\ name G = nm /\ group_id G = i.
Proof.
  unfold live_of. rewrite list_elem_of_omap. split.
  - intros (g' & Hg' & HG). destruct (gs !! g') as [G|] eqn:E; simpl in HG; [|done].
    case_decide; [|done]. simplify_eq. eauto 10.
  - intros (Hg & G & HG & Hd & <- & <-). exists g. rewrite HG. simpl. by rewrite decide_True.
Qed.

Lemma live_of_cons gs g gl :
  live_of gs (g :: gl) =
  match gs !! g with
  | Some G => if decide (grp_deprecated G = 0%Z) then (g, name G, group_id G) :: live_of gs gl
              else live_of gs gl
  | None => live_of gs gl
  end.
Proof. unfold live_of. simpl. destruct (gs !! g) as [G|]; simpl; [case_decide|]; done. Qed.

Lemma live_of_app gs gl gl' : live_of gs (gl ++ gl') = live_of gs gl ++ live_of gs gl'.
Proof. unfold live_of. apply omap_app. Qed.

Lemma live_of_insert gs gl g G G' :
  gs !! g = Some G -> grp_deprecated G' = grp_deprecated G -> name G' = name G ->
  group_id G' = group_id G -> live_of (<[g:=G']> gs) gl = live_of gs gl.
Proof.
  intros HG Hd Hn Hi. induction gl as [|g' gl IH]; [done|]. rewrite !live_of_cons, IH.
  destruct (decide (g' = g)) as [->|]; [by rewrite lookup_insert_eq, HG, Hd, Hn, Hi|].
  by rewrite lookup_insert_ne.
Qed.

Lemma live_of_off gs gl g G : g ∉ gl -> live_of (<[g:=G]> gs) gl = live_of gs gl.
Proof.
  intros Hg. induction gl as [|g' gl IH]; [done|]. apply not_elem_of_cons in Hg as [? ?].
  rewrite !live_of_cons, IH by done. by rewrite lookup_insert_ne.
Qed.

Lemma live_of_delete_off gs gl g : g ∉ gl -> live_of (delete g gs) gl = live_of gs gl.
Proof.
  intros Hg. induction gl as [|g' gl IH]; [done|]. apply not_elem_of_cons in Hg as [? ?].
  rewrite !live_of_cons, IH by done. by rewrite lookup_delete_ne.
Qed.

Lemma live_of_delete_dead gs gl g G :
  gs !! g = Some G -> grp_deprecated G <> 0%Z ->
  live_of (delete g gs) (filter (fun x => x <> g) gl) = live_of gs gl.
Proof.
  intros HG Hd. induction gl as [|g' gl IH]; [done|]. rewrite filter_cons, live_of_cons.
  case_decide.
  - rewrite live_of_cons, IH. by rewrite lookup_delete_ne.
  - subst g'. rewrite HG, decide_False by done. done.
Qed.

(** Retiring a live group takes its entry out. *)
Lemma live_of_retire gs gl g G :
  NoDup gl -> g ∈ gl -> gs !! g = Some G -> grp_deprecated G = 0%Z ->
  exists l1 l2, live_of gs gl = l1 ++ (g, name G, group_id G) :: l2 /\
    live_of (<[g:=retired G]> gs) gl = l1 ++ l2.
Proof.
  intros Hnd Hin HG Hd. apply list_elem_of_split in Hin as (a & b & ->).
  apply NoDup_app in Hnd as (_ & Hdis & Hb). apply NoDup_cons in Hb as [Hb _].
  exists (live_of gs a), (live_of gs b).
  rewrite !live_of_app, !live_of_cons, HG, lookup_insert_eq, decide_True by done. simpl.
  rewrite !live_of_off; [done|done|]. intros Ha. eapply Hdis; [done|left].
Qed.
End live.

(** What [__check_for_group] finds on a list of live groups. *)
Fixpoint scan (nm : string) (id : Z) (l : list (loc * string * Z)) : bool * bool :=
  match l with
  | [] => (false, true)
  | (_, n, i) :: q =>
      if decide (nm = n) then (true, true)
      else if decide (i = id) then (false, false)
      else scan nm id q
  end.

Lemma scan_spec nm id l :
  match scan nm id l with
  | (true, _) => nm ∈ Spec.names (entry <$> l)
  | (false, true) => nm ∉ Spec.names (entry <$> l) /\ id ∉ Spec.ids (entry <$> l)
  | (false, false) => id ∈ Spec.ids (entry <$> l)
  end.
Proof.
  induction l as [|[[g n] i] l IH]; simpl; [split; apply not_elem_of_nil|].
  repeat case_decide; subst; simpl; [by left|by left|].
  destruct (scan nm id l) as [[] []]; simpl in *; try by right.
  rewrite !not_elem_of_cons. naive_solver.
Qed.

(** ** Steps that keep the registry *)

(** [s'] has the live groups of [s]; groups may have been freed, and set to
    track; groups that are not linked yet are untouched. *)
Record keep_live (s s' : kstate) : Prop := {
  kl_live : live_view s' = live_view s;
  kl_count : group_count s' = group_count s;
  kl_procs : procs s' = procs s;
  kl_proc_list : proc_list s' = proc_list s;
  kl_back : forall g G', groups s' !! g = Some G' -> exists G, groups s !! g = Some G /\
    (G' = G \/ G' = with_tracking 1 G);
  kl_off : forall g G, g ∉ group_list s -> groups s !! g = Some G ->
    groups s' !! g = Some G /\ g ∉ group_list s';
  kl_sub : group_list s' ⊆ group_list s;
  kl_frame : ev_frame None s s'
}.

#[export] Instance keep_live_preorder : PreOrder keep_live.
Proof.
  split.
  - intros s. split; eauto; done.
  - intros a b c [] []. split; try congruence.
    + intros g G'' HG''. destruct (kl_back1 g G'' HG'') as (G' & HG' & H1).
      destruct (kl_back0 g G' HG') as (G & HG & H2). exists G. split; [done|].
      destruct H1 as [->| ->], H2 as [->| ->]; auto.
    + intros g G Hg HG. destruct (kl_off0 g G) as [? ?]; [done..|]. eauto.
    + etrans; eauto.
    + etrans; eauto.
Qed.

(** The invariants the registry operations work under. *)
Definition grp_inv (gh : ghost) (s : kstate) : Prop :=
  mem_inv gh s /\ dep_inv s /\ use_inv gh s.

Definition freed_group (g : loc) (s : kstate) : kstate :=
  set_groups (delete g (groups s)) (set_group_list (filter (fun x => x <> g) (group_list s)) s).

Lemma grp_inv_free gh s g G :
  grp_inv gh s -> g ∈ group_list s -> groups s !! g = Some G ->
  grp_deprecated G <> 0%Z -> hold gh g + tracked gh g = 0 ->
  grp_inv gh (freed_group g s) /\ keep_live s (freed_group g s).
Proof.
  intros (I & D & U) Hin HG Hd Hu. pose proof (D g G HG Hd) as Hl. split; [split_and!|].
  - assert (El : linked (freed_group g s) = linked s) by (by eapply linked_of_delete_empty).
    pose proof I as []. split; simpl; try done.
    + by apply NoDup_filter.
    + intros g' [Hne Hg']%list_elem_of_filter. rewrite lookup_delete_ne by done. auto.
    + intros g' G' [Hne HG']%lookup_delete_Some. intros Hn. apply m_off with g'; [done|].
      intros Hg'. apply Hn, list_elem_of_filter. done.
    + by rewrite El.
    + intros c. rewrite El. auto.
    + intros e ev He. unfold nlinked. rewrite El. by apply m_assigned.
    + intros g' c Hc. destruct (m_claims g' c Hc) as [? Himp]. split; [done|]. intros Hs.
      destruct (Himp Hs) as (G0 & HG0 & Hc0). exists G0. rewrite lookup_delete_ne; [done|].
      intros <-. simplify_eq. rewrite Hl in Hc0. by apply not_elem_of_nil in Hc0.
    + destruct m_bounded as (Hb & ? & ?). split_and!; try done.
      intros l [_ ?]%lookup_delete_is_Some. auto.
  - intros g' G'. simpl. intros [_ HG']%lookup_delete_Some. eauto.
  - destruct U. split; simpl.
    + intros g' G' [_ HG']%lookup_delete_Some. eauto.
    + intros g' Hp. apply list_elem_of_filter. split; [|eauto]. intros ->. lia.
    + intros g' G' [_ HG']%lookup_delete_Some. eauto.
    + intros g' G' [_ HG']%lookup_delete_Some. eauto.
  - split; simpl; try done.
    + by eapply live_of_delete_dead.
    + intros g' G' [_ HG']%lookup_delete_Some. eauto.
    + intros g' G' Hn HG'. rewrite lookup_delete_ne by (intros ->; done). split; [done|].
      rewrite list_elem_of_filter. tauto.
    + intros x [_ ?]%list_elem_of_filter. done.
    + by apply ev_frame_same.
Qed.

Lemma grp_inv_track gh s g G :
  grp_inv gh s -> g ∈ group_list s -> groups s !! g = Some G ->
  let s' := set_groups (<[g:=with_tracking 1 G]> (groups s)) s in
  grp_inv gh s' /\ keep_live s s'.
Proof.
  intros (I & D & U) Hin HG s'. split; [split_and!|].
  - by eapply mem_update_group.
  - eapply dep_inv_insert; [exact D|done|]. by apply (D g G HG).
  - destruct U. split; simpl.
    + intros g' G'. rewrite lookup_insert_Some. intros [[<- <-]|[? ?]]; simpl; eauto.
    + done.
    + intros g' G'. rewrite lookup_insert_Some. intros [[<- <-]|[? ?]]; simpl; eauto.
    + intros g' G'. rewrite lookup_insert_Some. intros [[<- <-]|[? ?]]; simpl; eauto.
  - split; simpl; try done.
    + by eapply live_of_insert.
    + intros g' G'. rewrite lookup_insert_Some. intros [[<- <-]|[? ?]]; eauto.
    + intros g' G' Hn HG'. rewrite lookup_insert_ne; [done|]. by intros ->.
    + by apply ev_frame_same.
Qed.

(** ** [__check_for_group] *)

(** [nm] names a live group that tracks. *)
Definition tracks (nm : string) (s : kstate) : Prop :=
  exists g i G, (g, nm, i) ∈ live_view s /\ groups s !! g = Some G /\ tracking G = 1%Z.

Lemma wp_check_loop gh nm id track pos : forall s,
  grp_inv gh s -> NoDup pos -> pos ⊆ group_list s ->
  wp (check_for_group_loop pos nm id track) (fun r s' =>
    grp_inv gh s' /\ keep_live s s' /\ r = scan nm id (live_of (groups s) pos) /\
    (track = true -> fst r = true -> tracks nm s')) s.
Proof.
  induction pos as [|g q IH]; intros s I Hnd Hsub.
  { apply wp_ret. by split_and!. }
  apply NoDup_cons in Hnd as [Hg Hnd]. assert (Hin : g ∈ group_list s) by set_solver.
  assert (Hal : is_Some (groups s !! g)) by (by apply (m_gl_alive _ _ (proj1 I))).
  destruct Hal as [G HG]. rewrite live_of_cons, HG.
  cbn [check_for_group_loop]. apply wp_bind, wp_load with G; [done|].
  case_decide as Hdep.
  - rewrite (decide_False (P := grp_deprecated G = 0%Z)) by done. case_decide as Huse.
    + destruct (grp_inv_free gh s g G) as [I' K]; [done..| |].
      { destruct I as (_ & _ & [Hc _ _ _]). specialize (Hc g G HG). lia. }
      apply wp_bind, wp_modify, wp_bind. apply (wp_kfree _ G); [done|].
      change (wp (check_for_group_loop q nm id track) (fun r s' =>
        grp_inv gh s' /\ keep_live s s' /\ r = scan nm id (live_of (groups s) q) /\
        (track = true -> fst r = true -> tracks nm s')) (freed_group g s)).
      eapply wp_mono; [apply (IH (freed_group g s)); [done|done|]|].
      * intros x Hx. apply list_elem_of_filter. split; [by intros ->|set_solver].
      * intros r s' (I'' & K' & -> & Ht). split_and!; [done|by etrans| |done].
        simpl. by rewrite live_of_delete_off.
    + apply IH; [done|done|set_solver].
  - rewrite (decide_True (P := grp_deprecated G = 0%Z)) by done. simpl. case_decide as Hnm; subst.
    + destruct track; [|apply wp_ret; by split_and!].
      destruct (grp_inv_track gh s g G) as [I' K]; [done..|].
      apply wp_bind. apply (wp_store _ _ G); [done|]. apply wp_ret. split_and!; [done..|].
      intros _ _. exists g, (group_id G), (with_tracking 1 G).
      simpl. rewrite lookup_insert_eq. split_and!; [|done|done].
      apply live_of_elem. split; [done|]. exists (with_tracking 1 G). simpl. by rewrite lookup_insert_eq.
    + case_decide; [apply wp_ret; by split_and!|]. apply IH; [done|done|set_solver].
Qed.

(** ** The search of [dazukofs_add_group] *)

(** Ids at or above [k] that are taken. *)
Definition taken_above (k : Z) (r : Spec.registry) : nat :=
  length (filter (fun i => k <= i)%Z (Spec.ids r)).

Lemma taken_above_succ k r : k ∈ Spec.ids r -> taken_above (k + 1) r < taken_above k r.
Proof.
  unfold taken_above. induction (Spec.ids r) as [|i l IH]; intros Hin.
  { by apply not_elem_of_nil in Hin. }
  assert (Hle : length (filter (fun j => k + 1 <= j)%Z l) <= length (filter (fun j => k <= j)%Z l)).
  { clear. induction l as [|j l IH]; [done|]. rewrite !filter_cons.
    repeat case_decide; simpl; lia. }
  rewrite !filter_cons. apply elem_of_cons in Hin as [<-|Hin].
  - rewrite decide_False, decide_True by lia. simpl. lia.
  - specialize (IH Hin). repeat case_decide; simpl; lia.
Qed.

Lemma wp_add_search gh nm track fuel : forall k s,
  grp_inv gh s -> taken_above k (registry_of s) < fuel -> (0 <= k)%Z ->
  (forall j, (0 <= j < k)%Z -> j ∈ Spec.ids (registry_of s)) ->
  wp (add_group_search fuel nm k track) (fun r s' =>
    grp_inv gh s' /\ keep_live s s' /\
    if snd r : bool then nm ∈ Spec.names (registry_of s) /\ (track = true -> tracks nm s')
    else nm ∉ Spec.names (registry_of s) /\ Spec.first_free (registry_of s) (fst r)) s.
Proof.
  induction fuel as [|fuel IH]; intros k s I Hf Hk Hcov; [lia|].
  cbn [add_group_search]. apply wp_bind. unfold check_for_group. apply wp_bind, wp_get, wp_bind.
  eapply wp_mono; [apply (wp_check_loop gh); [done|apply (m_gl_nodup _ _ (proj1 I))|done]|].
  intros r s' (I' & K & -> & Ht). pose proof (scan_spec nm k (live_view s)) as Hs.
  unfold live_view in Hs. destruct (scan nm k (live_of (groups s) (group_list s))) as [[] []]; simpl in *.
  1,2: apply wp_ret; simpl; apply wp_ret; simpl; split_and!; auto.
  - apply wp_ret; simpl; apply wp_ret; simpl. destruct Hs as [Hn Hi]. by split_and!.
  - apply wp_ret; simpl. assert (Hr : registry_of s' = registry_of s)
      by (unfold registry_of; by rewrite (kl_live _ _ K)).
    eapply wp_mono; [apply IH|].
    + done.
    + rewrite Hr. pose proof (taken_above_succ k (registry_of s) Hs). lia.
    + lia.
    + intros j Hj. rewrite Hr. destruct (decide (j = k)) as [->|]; [done|]. apply Hcov. lia.
    + simpl. intros r s'' (I'' & K'' & Hres). split_and!; [done|by etrans|].
      by rewrite <-Hr.
Qed.

Lemma taken_above_fuel s : taken_above 0 (registry_of s) < S (length (group_list s)).
Proof.
  apply Nat.lt_succ_r. unfold taken_above. etrans; [apply length_filter|].
  unfold Spec.ids, registry_of. rewrite !length_fmap. apply length_omap_le.
Qed.

(** The search ends, within its fuel, with [__check_for_group]'s verdict for
    the least id that is not taken. *)
Lemma wp_add_find gh nm track s :
  grp_inv gh s ->
  wp (add_group_find nm track) (fun r s' =>
    grp_inv gh s' /\ keep_live s s' /\
    if snd r : bool then nm ∈ Spec.names (registry_of s) /\ (track = true -> tracks nm s')
    else nm ∉ Spec.names (registry_of s) /\ Spec.first_free (registry_of s) (fst r)) s.
Proof.
  intros I. apply wp_bind, wp_get, wp_add_search; [done|apply taken_above_fuel|lia|lia].
Qed.

(** ** [__create_group] *)

Definition new_group (nm : string) (id : Z) (track : bool) : dazukofs_group :=
  mk_group nm (Z.of_nat (String.length nm)) id [] [] 0 (if track then 1 else 0)%Z 0 0.

(** The groups change; the list, the count and the rest stay. *)
Record groups_step (m : gmap loc dazukofs_group) (s s' : kstate) : Prop := {
  gp_groups : groups s' = m;
  gp_group_list : group_list s' = group_list s;
  gp_count : group_count s' = group_count s;
  gp_procs : procs s' = procs s;
  gp_proc_list : proc_list s' = proc_list s;
  gp_frame : ev_frame None s s'
}.

Lemma grp_inv_oom gh s o : grp_inv gh s -> grp_inv gh (set_oom o s).
Proof. intros (I & D & []). split_and!; [by apply mem_set_oom|done|by split]. Qed.

Lemma fresh_group gh s : mem_inv gh s -> groups s !! next s = None /\ next s ∉ group_list s.
Proof.
  intros I. destruct (m_bounded _ _ I) as (Hb & _).
  assert (Hn : groups s !! next s = None).
  { destruct (groups s !! next s) as [G|] eqn:E; [|done]. specialize (Hb (next s)).
    rewrite E in Hb. assert (next s < next s)%positive by eauto. lia. }
  split; [done|]. intros Hin. destruct (m_gl_alive _ _ I _ Hin) as [G HG]. congruence.
Qed.

Lemma grp_inv_alloc gh s G :
  grp_inv gh s -> group_lists G = [] -> use_count G = 0%Z -> track_count G = 0%Z ->
  grp_inv gh (set_groups (<[next s:=G]> (groups s)) (set_next (Pos.succ (next s)) s)).
Proof.
  intros (I & D & U) Hl Hu Ht. destruct (fresh_group _ _ I) as [Hn Hnl].
  assert (Hnu : hold gh (next s) + tracked gh (next s) = 0).
  { destruct (decide (0 < hold gh (next s) + tracked gh (next s))) as [Hp|]; [|lia].
    by apply (u_alive _ _ U) in Hp. }
  apply (mem_next _ _ (Pos.succ (next s))) in I; [|simpl; lia].
  set (s1 := set_next (Pos.succ (next s)) s) in *.
  assert (El : linked (set_groups (<[next s:=G]> (groups s)) s1) = linked s1)
    by (by apply linked_of_insert_off).
  split_and!.
  - destruct I. split; simpl; try done.
    + intros g Hg. apply lookup_insert_is_Some'. right. by apply m_gl_alive.
    + intros g G' [[<- <-]|[? ?]]%lookup_insert_Some; [done|]. by apply m_off.
    + by rewrite El.
    + intros c. rewrite El. apply m_linked.
    + intros e ev He. unfold nlinked. rewrite El. by apply m_assigned.
    + intros g c Hc. destruct (m_claims g c Hc) as [? Himp]. split; [done|]. intros Hs.
      destruct (Himp Hs) as (G0 & HG0 & ?). exists G0. rewrite lookup_insert_ne; [done|].
      intros <-. simpl in HG0. congruence.
    + destruct m_bounded as (Hb & ? & ?). split_and!; try done.
      intros l [<-|Hs]%lookup_insert_is_Some'; [lia|]. by apply Hb.
  - eapply dep_inv_insert; [exact D|done|]. by intros.
  - destruct U. split; simpl.
    + intros g G' [[<- <-]|[? ?]]%lookup_insert_Some; [lia|eauto].
    + done.
    + intros g G' [[<- <-]|[? ?]]%lookup_insert_Some; [lia|eauto].
    + intros g G' [[<- <-]|[? ?]]%lookup_insert_Some; [lia|eauto].
Qed.

Lemma wp_create_group gh nm id track s :
  grp_inv gh s ->
  wp (create_group nm id track) (fun r s' => grp_inv gh s' /\
    match r with
    | None => groups_step (groups s) s s'
    | Some g => groups s !! g = None /\ g ∉ group_list s /\
        groups_step (<[g := new_group nm id track]> (groups s)) s s'
    end) s.
Proof.
  intros I. destruct (fresh_group _ _ (proj1 I)) as [Hn Hnl].
  assert (F : forall m n o, (next s <= n)%positive ->
    ev_frame None s (set_groups m (set_next n (set_oom o s)))).
  { intros m n o Hle. split; simpl; eauto. exists []. split_and!; [done| |eauto].
    intros ? ? ? H%not_elem_of_nil. done. }
  apply wp_bind, wp_kzalloc; intros o.
  - apply wp_ret. split; [by apply grp_inv_oom|]. split; try done. by apply ev_frame_same.
  - apply wp_bind, wp_alloc_fails. intros [] o'; simpl.
    + apply wp_bind. eapply wp_kfree; [apply lookup_insert_eq|]. simpl. apply wp_ret.
      rewrite delete_insert_id by done. split.
      * destruct I as (I & D & []). split_and!; [|done|by split].
        apply (mem_next _ _ (Pos.succ (next s))) in I; [|lia]. by destruct I; split.
      * split; try done. simpl. apply (F (groups s) (Pos.succ (next s)) o'). lia.
    + apply wp_bind. eapply wp_store; [apply lookup_insert_eq|]. simpl. rewrite insert_insert_eq.
      apply wp_ret. split.
      * apply (grp_inv_alloc gh (set_oom o' s) (new_group nm id track)); [|done..].
        by apply grp_inv_oom.
      * split_and!; [done..|]. split; try done. simpl. apply (F _ (Pos.succ (next s)) o'). lia.
Qed.

(** ** Linking a group *)

Lemma grp_inv_link gh s g G :
  grp_inv gh s -> g ∉ group_list s -> groups s !! g = Some G -> group_lists G = [] ->
  grp_inv gh (set_group_list (group_list s ++ [g]) s).
Proof.
  intros (I & D & U) Hg HG Hl. split_and!; [|done|].
  - assert (El : linked (set_group_list (group_list s ++ [g]) s) = linked s).
    { unfold linked. simpl. rewrite linked_of_app, linked_of_cons, HG. simpl. by rewrite Hl, app_nil_r. }
    destruct I. split; simpl; try done.
    + apply NoDup_app. split_and!; [done| |apply NoDup_singleton].
      intros x Hx ->%list_elem_of_singleton. done.
    + intros g' [Hg'| ->%list_elem_of_singleton]%elem_of_app; eauto.
    + intros g' G' HG' Hn. eapply m_off; [done|]. set_solver.
    + by rewrite El.
    + intros c. rewrite El. apply m_linked.
    + intros e ev He. unfold nlinked. rewrite El. by apply m_assigned.
  - destruct U. split; simpl; eauto. intros g' Hp. apply elem_of_app. left. eauto.
Qed.

Lemma live_view_link s g G :
  groups s !! g = Some G -> grp_deprecated G = 0%Z ->
  live_view (set_group_list (group_list s ++ [g]) s) = live_view s ++ [(g, name G, group_id G)].
Proof.
  intros HG Hd. unfold live_view. simpl. rewrite live_of_app, live_of_cons, HG, decide_True by done.
  done.
Qed.

(** ** The registry invariant *)

Record reg_inv (s : kstate) : Prop := {
  r_wf : Spec.wf (registry_of s);
  r_count : group_count s = Z.of_nat (length (registry_of s))
}.

Lemma grp_inv_count gh s n : grp_inv gh s -> grp_inv gh (set_group_count n s).
Proof. intros (I & D & []). split_and!; [by apply mem_set_count|done|by split]. Qed.

Lemma reg_inv_keep s s' : keep_live s s' -> reg_inv s -> reg_inv s'.
Proof.
  intros K []. unfold registry_of in *. split; unfold registry_of; rewrite (kl_live _ _ K); [done|].
  by rewrite (kl_count _ _ K).
Qed.

Lemma registry_keep s s' : keep_live s s' -> registry_of s' = registry_of s.
Proof. intros K. unfold registry_of. by rewrite (kl_live _ _ K). Qed.

(** Every group after an [add] was there before, or is the new one. *)
Definition grp_kept (nm : string) (track : bool) (s s' : kstate) : Prop :=
  forall g G', groups s' !! g = Some G' ->
    (exists G, groups s !! g = Some G /\ (G' = G \/ G' = with_tracking 1 G)) \/
    exists id, G' = new_group nm id track.

Lemma grp_kept_live nm track s s' : keep_live s s' -> grp_kept nm track s s'.
Proof. intros K g G' HG'. left. by apply (kl_back _ _ K). Qed.

Lemma grp_kept_step nm track s s1 s' g id :
  grp_kept nm track s s1 ->
  groups s' = groups s1 \/ groups s' = <[g := new_group nm id track]> (groups s1) ->
  grp_kept nm track s s'.
Proof.
  intros K [E|E] g' G'; rewrite E; [apply K|].
  intros [[<- <-]|[_ HG']]%lookup_insert_Some; [right; eauto|by apply K].
Qed.

(** The last two segments of [dazukofs_add_group]: the group is linked and
    counted. *)
Lemma wp_add_finish gh nm track id g s1 s2 :
  grp_inv gh s2 -> reg_inv s1 -> groups s1 !! g = None -> g ∉ group_list s1 ->
  groups_step (<[g := new_group nm id track]> (groups s1)) s1 s2 ->
  nm ∉ Spec.names (registry_of s1) -> Z.of_nat (length (registry_of s1)) <> GROUP_COUNT ->
  Spec.first_free (registry_of s1) id ->
  wp (do! add_group_link g in let! n := add_group_count_read in do! add_group_count_write n in sret 0%Z) (fun r s' =>
    Spec.add nm (registry_of s1) r (registry_of s') /\ grp_inv gh s' /\ reg_inv s' /\
    (track = true -> r = 0%Z -> tracks nm s') /\ groups s' = groups s2) s2.
Proof.
  intros I2 R1 Hgn Hgl P Hn Hfull Hf. set (G := new_group nm id track) in *.
  assert (HG : groups s2 !! g = Some G) by (rewrite (gp_groups _ _ _ P); apply lookup_insert_eq).
  rewrite <-(gp_group_list _ _ _ P) in Hgl.
  apply wp_bind, wp_modify, wp_bind, wp_get, wp_bind, wp_modify, wp_ret.
  set (s3 := set_group_list (group_list s2 ++ [g]) s2).
  assert (E2 : live_view s2 = live_view s1).
  { unfold live_view. rewrite (gp_groups _ _ _ P), (gp_group_list _ _ _ P) in *.
    by apply live_of_off. }
  assert (E3 : registry_of (set_group_count (group_count s3 + 1) s3) = registry_of s1 ++ [(nm, id)]).
  { change (registry_of s3 = registry_of s1 ++ [(nm, id)]). unfold registry_of.
    unfold s3. erewrite live_view_link, E2, fmap_app by done. done. }
  assert (A : Spec.add nm (registry_of s1) 0 (registry_of s1 ++ [(nm, id)])) by (by apply Spec.add_new).
  split_and!.
  - by rewrite E3.
  - by apply grp_inv_count, grp_inv_link with G.
  - split; rewrite E3; [eapply Spec.add_wf; [apply R1|exact A]|].
    simpl. rewrite (gp_count _ _ _ P), (r_count _ R1), length_app. simpl. lia.
  - intros -> _. exists g, id, G. split_and!; [|done|done].
    change ((g, nm, id) ∈ live_view s3). unfold s3. erewrite live_view_link by done.
    apply elem_of_app. right. by apply list_elem_of_singleton.
  - done.
Qed.

(** [dazukofs_add_group] never gets stuck, implements [Spec.add], and keeps the
    invariants; success with [track] leaves a group that tracks. *)
Lemma wp_add_group gh nm track s :
  grp_inv gh s -> reg_inv s ->
  wp (dazukofs_add_group nm track) (fun r s' =>
    Spec.add nm (registry_of s) r (registry_of s') /\ grp_inv gh s' /\ reg_inv s' /\
    (track = true -> r = 0%Z -> tracks nm s') /\ grp_kept nm track s s') s.
Proof.
  intros I R. apply wp_bind. eapply wp_mono; [by apply (wp_add_find gh nm track)|].
  intros [id ex] s1 (I1 & K1 & Hres). simpl in Hres. simpl.
  pose proof (reg_inv_keep _ _ K1 R) as R1. pose proof (grp_kept_live nm track _ _ K1) as Hk.
  rewrite <-(registry_keep _ _ K1) in *.
  destruct ex; [apply wp_ret; split_and!; [apply Spec.add_exists|..]; naive_solver|].
  destruct Hres as [Hn Hf]. apply wp_bind, wp_bind, wp_get. rewrite (r_count _ R1).
  case_decide as Hfull.
  { apply wp_ret. simpl. apply wp_ret. split_and!; [by apply Spec.add_full|done|done| |done].
    intros _ [=]. }
  apply wp_bind. eapply wp_mono; [by apply (wp_create_group gh nm id track)|].
  intros [g|] s2 (I2 & H2); apply wp_ret; simpl.
  - destruct H2 as (Hgn & Hgl & P).
    eapply wp_mono; [by apply (wp_add_finish gh nm track id g s1 s2)|].
    intros r s' (A & I' & R' & Ht & E). split_and!; try done.
    apply (grp_kept_step _ _ _ s1 _ g id Hk). right. by rewrite E, (gp_groups _ _ _ P).
  - apply wp_ret. assert (E2 : registry_of s2 = registry_of s1).
    { unfold registry_of, live_view. by rewrite (gp_groups _ _ _ H2), (gp_group_list _ _ _ H2). }
    rewrite E2. split_and!; [by apply Spec.add_nomem|done| |intros _ [=]|].
    + split; rewrite E2; [apply R1|]. by rewrite (gp_count _ _ _ H2), (r_count _ R1).
    + apply (grp_kept_step _ _ _ s1 _ 1%positive 0%Z Hk). left. apply H2.
Qed.

(** ** Retiring a group *)

(** [s'] is [s] with the live group [g] retired. *)
Definition retire_step (g : loc) (G : dazukofs_group) (s s' : kstate) : Prop :=
  group_step g (retired G) s s' /\ group_count s' = (group_count s - 1)%Z.

Lemma wp_retire gh s g G :
  grp_inv gh s -> groups s !! g = Some G ->
  wp (remove_group g) (fun _ s' => grp_inv gh s' /\ retire_step g G s s') s.
Proof.
  intros (I & D & U) HG. eapply wp_mono; [by apply (wp_remove_group gh)|].
  intros [] s' (I' & P & C). split; [split_and!|done].
  - done.
  - eapply dep_inv_insert; [exact D|apply (gs_groups _ _ _ _ P)|done].
  - destruct U. split; rewrite ?(gs_groups _ _ _ _ P), ?(gs_group_list _ _ _ _ P); eauto.
    + intros g' G' [[<- <-]|[? ?]]%lookup_insert_Some; simpl; eauto.
    + intros g' G' [[<- <-]|[? ?]]%lookup_insert_Some; [done|eauto].
    + intros g' G' [[<- <-]|[? ?]]%lookup_insert_Some; simpl; eauto.
Qed.

(** Its registry loses the entry of [g], and nothing else. *)
Lemma retire_registry gh s s' g G :
  grp_inv gh s -> reg_inv s -> retire_step g G s s' -> g ∈ group_list s ->
  groups s !! g = Some G -> grp_deprecated G = 0%Z ->
  registry_of s' = Spec.remove (name G) (registry_of s) /\ reg_inv s'.
Proof.
  intros I R [P C] Hin HG Hd.
  destruct (live_of_retire (groups s) (group_list s) g G) as (l1 & l2 & E1 & E2);
    [apply (m_gl_nodup _ _ (proj1 I))|done..|].
  assert (E : registry_of s = (entry <$> l1) ++ (name G, group_id G) :: (entry <$> l2))
    by (unfold registry_of, live_view; by rewrite E1, fmap_app).
  assert (E' : registry_of s' = (entry <$> l1) ++ (entry <$> l2)).
  { unfold registry_of, live_view. rewrite (gs_groups _ _ _ _ P), (gs_group_list _ _ _ _ P).
    by rewrite E2, fmap_app. }
  assert (Er : registry_of s' = Spec.remove (name G) (registry_of s)).
  { destruct (r_wf _ R) as [Hnm _ _]. rewrite E, E' in *. unfold Spec.names in Hnm.
    rewrite fmap_app in Hnm. apply NoDup_app in Hnm as (_ & Hdis & Hnm). simpl in Hnm, Hdis.
    apply NoDup_cons in Hnm as [Hn2 _]. unfold Spec.remove.
    rewrite filter_app, filter_cons. simpl. rewrite decide_False by tauto.
    rewrite !filter_all; [done| |].
    - intros [n i] Hx Heq. simpl in Heq. subst. apply Hn2, list_elem_of_fmap. by eexists (_, _).
    - intros [n i] Hx Heq. simpl in Heq. subst. apply (Hdis (name G)); [|left].
      apply list_elem_of_fmap. by eexists (_, _). }
  split; [done|]. split; [rewrite Er; by apply Spec.remove_wf, R|].
  rewrite C, (r_count _ R), E', E, !length_app. simpl. lia.
Qed.

Lemma wp_remove_loop gh nm pos : forall s,
  grp_inv gh s -> pos ⊆ group_list s ->
  wp (remove_group_loop pos nm) (fun _ s' => grp_inv gh s' /\
    ((s' = s /\ nm ∉ Spec.names (entry <$> live_of (groups s) pos)) \/
     exists g G, g ∈ pos /\ groups s !! g = Some G /\ grp_deprecated G = 0%Z /\ name G = nm /\
       retire_step g G s s')) s.
Proof.
  induction pos as [|g q IH]; intros s I Hsub.
  { apply wp_ret. split; [done|]. left. split; [done|]. apply not_elem_of_nil. }
  assert (Hal : is_Some (groups s !! g)) by (apply (m_gl_alive _ _ (proj1 I)); set_solver).
  destruct Hal as [G HG]. cbn [remove_group_loop].
  apply wp_bind, wp_load with G; [done|]. case_decide as Hd.
  - destruct Hd as [Hd ->]. eapply wp_mono; [by apply (wp_retire gh)|].
    intros [] s' [I' P]. split; [done|]. right. exists g, G. split_and!; try done. left.
  - eapply wp_mono; [apply IH; [done|set_solver]|].
    intros [] s' (I' & [[-> Hn]|(g' & G' & Hg' & ?)]); (split; [done|]).
    + left. split; [done|]. rewrite live_of_cons, HG. case_decide; [|done]. simpl.
      rewrite not_elem_of_cons. split; [|done]. intros ->. tauto.
    + right. exists g', G'. split; [by right|done].
Qed.

Lemma remove_absent nm r : nm ∉ Spec.names r -> Spec.remove nm r = r.
Proof.
  intros Hn. apply filter_all. intros [n i] Hx Heq. simpl in Heq. subst.
  apply Hn, list_elem_of_fmap. by eexists (_, _).
Qed.

(** [dazukofs_remove_group] never gets stuck, returns 0, implements
    [Spec.remove], and keeps the invariants. *)
Lemma wp_dazukofs_remove_group gh nm unused s :
  grp_inv gh s -> reg_inv s ->
  wp (dazukofs_remove_group nm unused) (fun r s' =>
    r = 0%Z /\ registry_of s' = Spec.remove nm (registry_of s) /\ grp_inv gh s' /\ reg_inv s') s.
Proof.
  intros I R. apply wp_bind, wp_get. case_decide as Hz.
  - apply wp_ret. rewrite (r_count _ R) in Hz.
    assert (E : registry_of s = []) by (apply length_zero_iff_nil; lia). by rewrite E.
  - apply wp_bind, wp_get, wp_bind.
    eapply wp_mono; [by apply (wp_remove_loop gh)|].
    intros [] s' [I' [[-> Hn]|(g & G & Hg & HG & Hd & <- & P)]]; apply wp_ret.
    + by rewrite remove_absent.
    + destruct (retire_registry gh s s' g G) as [E R']; [done..|]. by split_and!.
Qed.
