(* ===== verification/EventFlow.v ===== *)
(** * The life of an event: posting, claiming, answering

    The effect of each critical section of [event.c] on the invariants, as a
    change of the ghost that says what the running task owes or holds. *)

From S2P Require Import Prelude EventState EventOps EventInv GroupReg.
From stdpp Require Import strings.

(** ** What the event operations leave alone *)

(** The identity of a group: what the registry knows of it. *)
Definition ident (G : dazukofs_group) : string * Z * Z := (name G, group_id G, grp_deprecated G).

(** A registered process that finds the group so goes to sleep. *)
Definition idle (G : dazukofs_group) : Prop := todo_list G = [] /\ grp_deprecated G = 0%Z.

Definition woken (q : waitq) (new : list kcall) : Prop := KWakeUp q ∈ new \/ KWakeUpAll q ∈ new.

(** A group that stops being idle wakes its processes. *)
Definition grp_wakes (s s' : kstate) : Prop :=
  exists new, calls s' = new ++ calls s /\
    forall g G, groups s !! g = Some G -> idle G ->
      woken (GrpQ g) new \/ exists G', groups s' !! g = Some G' /\ idle G'.

#[export] Instance grp_wakes_preorder : PreOrder grp_wakes.
Proof.
  split.
  - intros s. exists []. split; [done|eauto].
  - intros a b c (n1 & E1 & W1) (n2 & E2 & W2). exists (n2 ++ n1).
    split; [by rewrite E2, E1, app_assoc|]. intros g G HG Hi. unfold woken in *.
    destruct (W1 g G HG Hi) as [[|]|(G' & HG' & Hi')]; [set_solver..|].
    destruct (W2 g G' HG' Hi') as [[|]|?]; [set_solver..|eauto].
Qed.

(** The registry, the masked processes and the events but [x] are kept. *)
Record op_keep (x : option loc) (s s' : kstate) : Prop := {
  ok_list : group_list s' = group_list s;
  ok_ident : ident <$> groups s' = ident <$> groups s;
  ok_count : group_count s' = group_count s;
  ok_procs : procs s' = procs s;
  ok_proc_list : proc_list s' = proc_list s;
  ok_ev : ev_frame x s s'
}.
Definition op_frame (x : option loc) (s s' : kstate) : Prop := op_keep x s s' /\ grp_wakes s s'.

#[export] Instance op_keep_preorder x : PreOrder (op_keep x).
Proof.
  split; [intros s; by split|].
  intros a b c [] []. split; try congruence. by etrans.
Qed.
#[export] Instance op_frame_preorder x : PreOrder (op_frame x).
Proof. split; [by intros s; split|]. intros a b c [] []. split; by etrans. Qed.

Lemma op_keep_weaken x s s' : op_keep None s s' -> op_keep x s s'.
Proof. intros []. split; try done. by apply ev_frame_weaken. Qed.

Lemma op_keep_live x s s' : op_keep x s s' -> live_view s' = live_view s.
Proof.
  intros [Hl Hi _ _ _ _]. unfold live_view. rewrite Hl. clear Hl.
  induction (group_list s) as [|g gl IH]; [done|]. rewrite !live_of_cons, IH.
  assert (E : (ident <$> groups s') !! g = (ident <$> groups s) !! g) by (by rewrite Hi).
  rewrite !lookup_fmap in E.
  destruct (groups s' !! g) as [G'|], (groups s !! g) as [G|]; try done.
  simpl in E. unfold ident in E. injection E as E1 E2 E3. by rewrite E1, E2, E3.
Qed.

Lemma evt_step_ident s s' : evt_step s s' -> ident <$> groups s' = ident <$> groups s.
Proof.
  intros E. apply map_eq. intros g. rewrite !lookup_fmap.
  destruct (groups s' !! g) as [G'|] eqn:HG'.
  - destruct (evt_step_lookup_back _ _ _ _ E HG') as (G & HG & Hh). rewrite HG. simpl.
    by rewrite (head_of_eq _ _ Hh).
  - destruct (groups s !! g) as [G|] eqn:HG; [|done].
    destruct (evt_step_lookup _ _ _ _ E HG) as (G' & ? & _). congruence.
Qed.

Lemma evt_step_keep x s s' : evt_step s s' -> ev_frame x s s' -> op_keep x s s'.
Proof. intros E F. pose proof (evt_step_ident _ _ E). by destruct E; split. Qed.

(** Changing one group, not its identity. *)
Lemma op_keep_group s g G G' :
  groups s !! g = Some G -> ident G' = ident G ->
  op_keep None s (set_groups (<[g:=G']> (groups s)) s).
Proof.
  intros HG Hi. split; try done; [|by apply ev_frame_same]. simpl.
  rewrite fmap_insert, Hi. apply insert_id. by rewrite lookup_fmap, HG.
Qed.

Lemma grp_wakes_group s g G G' :
  groups s !! g = Some G -> (idle G -> idle G') ->
  grp_wakes s (set_groups (<[g:=G']> (groups s)) s).
Proof.
  intros HG Hi. exists []. split; [done|]. intros g0 G0 HG0 Hi0. right. simpl.
  destruct (decide (g = g0)) as [<-|].
  - exists G'. rewrite lookup_insert_eq. simplify_eq. auto.
  - exists G0. by rewrite lookup_insert_ne.
Qed.

Lemma op_frame_group s g G G' :
  groups s !! g = Some G -> ident G' = ident G -> (idle G -> idle G') ->
  op_frame None s (set_groups (<[g:=G']> (groups s)) s).
Proof. intros. split; [by eapply op_keep_group|by eapply grp_wakes_group]. Qed.

Lemma grp_wakes_same s s' new :
  groups s' = groups s -> calls s' = new ++ calls s -> grp_wakes s s'.
Proof. intros Hg Hc. exists new. split; [done|]. intros g G HG Hi. right. rewrite Hg. eauto. Qed.

Lemma op_frame_call s c :
  (forall e b d, c <> KRelease e b d) -> op_frame None s (set_calls (c :: calls s) s).
Proof.
  intros Hc. split; [split; try done; by apply ev_frame_call|].
  by apply (grp_wakes_same s _ [c]).
Qed.

Lemma grp_inv_call gh s c :
  (forall e b d, c <> KRelease e b d) -> grp_inv gh s -> grp_inv gh (set_calls (c :: calls s) s).
Proof. intros Hc (I & D & []). split_and!; [by apply mem_call|done|by split]. Qed.

(** Several calls at once. *)
Lemma set_calls_cons s c cs :
  set_calls (c :: cs ++ calls s) s =
  set_calls (c :: calls (set_calls (cs ++ calls s) s)) (set_calls (cs ++ calls s) s).
Proof. done. Qed.

Lemma op_frame_calls s cs :
  (forall e b d, KRelease e b d ∉ cs) -> op_frame None s (set_calls (cs ++ calls s) s).
Proof.
  induction cs as [|c cs IH]; intros Hc; [by destruct s|].
  rewrite <-app_comm_cons, set_calls_cons. etrans; [apply IH; set_solver|].
  apply op_frame_call. intros e b d ->. by apply (Hc e b d), list_elem_of_here.
Qed.

Lemma grp_inv_calls gh s cs :
  (forall e b d, KRelease e b d ∉ cs) -> grp_inv gh s -> grp_inv gh (set_calls (cs ++ calls s) s).
Proof.
  intros Hc I. induction cs as [|c cs IH]; [by destruct s|].
  rewrite <-app_comm_cons, set_calls_cons. apply grp_inv_call; [|apply IH; set_solver].
  intros e b d ->. by apply (Hc e b d), list_elem_of_here.
Qed.

Lemma grp_inv_proper_l gh gh' s : ghost_eq gh gh' -> grp_inv gh s -> grp_inv gh' s.
Proof. intros E (I & D & U). unfold grp_inv. by rewrite <-E. Qed.

(** ** Finding a group *)

Lemma wp_find_group_loop gid pos s :
  (forall g, g ∈ pos -> is_Some (groups s !! g)) ->
  wp (find_group_loop pos gid) (fun r s' => s' = s /\
    match r with
    | Some g => g ∈ pos /\ exists G, groups s !! g = Some G /\ grp_deprecated G = 0%Z /\ group_id G = gid
    | None => forall g nm, (g, nm, gid) ∉ live_of (groups s) pos
    end) s.
Proof.
  induction pos as [|g q IH]; intros Hal.
  { apply wp_ret. split; [done|]. intros. apply not_elem_of_nil. }
  destruct (Hal g) as [G HG]; [left|]. cbn [find_group_loop].
  apply wp_bind, wp_load with G; [done|]. case_decide as Hd.
  - apply wp_ret. split; [done|]. split; [left|]. destruct Hd. eauto.
  - eapply wp_mono; [apply IH; intros; apply Hal; by right|].
    intros [g'|] s' [-> Hr]; (split; [done|]).
    + destruct Hr. split; [by right|done].
    + intros g' nm. rewrite live_of_cons, HG. case_decide; [|done].
      rewrite not_elem_of_cons. split; [|done]. intros ?. simplify_eq. tauto.
Qed.

Lemma wp_find_group gh gid s :
  mem_inv gh s ->
  wp (find_group gid) (fun r s' => s' = s /\
    match r with
    | Some g => g ∈ group_list s /\
        exists G, groups s !! g = Some G /\ grp_deprecated G = 0%Z /\ group_id G = gid
    | None => forall g nm, (g, nm, gid) ∉ live_view s
    end) s.
Proof. intros I. apply wp_bind, wp_get, wp_find_group_loop, I. Qed.

(** ** Use counts *)

Definition inc (f : loc -> nat) (l : loc) : loc -> nat := fupd f l (S (f l)).
Definition dec (f : loc -> nat) (l : loc) : loc -> nat := fupd f l (f l - 1).

Lemma inc_at f l : inc f l l = S (f l).
Proof. apply fupd_eq. Qed.
Lemma dec_at f l : dec f l l = f l - 1.
Proof. apply fupd_eq. Qed.
Lemma dec_inc f l x : dec (inc f l) l x = f x.
Proof.
  unfold dec, inc. rewrite fupd_eq. unfold fupd. case_decide; subst; lia.
Qed.

Lemma grp_inv_use gh s g G f n :
  grp_inv gh s -> g ∈ group_list s -> groups s !! g = Some G ->
  (forall g', g' <> g -> f g' = hold gh g') ->
  (Z.of_nat (f g + tracked gh g) <= n)%Z ->
  grp_inv (set_hold f gh) (set_groups (<[g:=with_use_count n G]> (groups s)) s).
Proof.
  intros (I & D & U) Hin HG Hf Hn. split_and!.
  - by eapply mem_set_hold, mem_update_group.
  - eapply dep_inv_insert; [exact D|done|]. by apply (D g G HG).
  - destruct U. split; simpl.
    + intros g' G' [[<- <-]|[? ?]]%lookup_insert_Some; [done|]. rewrite Hf by done. eauto.
    + intros g'. destruct (decide (g' = g)) as [->|]; [done|]. rewrite Hf by done. eauto.
    + intros g' G' [[<- <-]|[? ?]]%lookup_insert_Some; simpl; eauto.
    + intros g' G' [[<- <-]|[? ?]]%lookup_insert_Some; simpl; eauto.
Qed.

Lemma wp_use_inc gh s g G :
  grp_inv gh s -> g ∈ group_list s -> groups s !! g = Some G ->
  wp (use_inc g) (fun _ s' => grp_inv (set_hold (inc (hold gh) g) gh) s' /\
    s' = set_groups (<[g:=with_use_count (use_count G + 1) G]> (groups s)) s /\
    op_frame None s s') s.
Proof.
  intros I Hin HG. apply wp_bind, wp_load with G; [done|]. eapply wp_store; [done|].
  split_and!; [|done|by eapply op_frame_group].
  apply grp_inv_use; [done..| |].
  - intros. by apply fupd_ne.
  - rewrite inc_at. pose proof (u_count _ _ (proj2 (proj2 I)) g G HG). lia.
Qed.

Lemma wp_use_dec gh s g :
  grp_inv gh s -> 0 < hold gh g ->
  wp (use_dec g) (fun _ s' => grp_inv (set_hold (dec (hold gh) g) gh) s' /\ op_frame None s s') s.
Proof.
  intros I Hp. pose proof I as (Im & _ & U).
  assert (Hin : g ∈ group_list s) by (apply (u_alive _ _ U); lia).
  destruct (m_gl_alive _ _ Im g Hin) as [G HG].
  apply wp_bind, wp_load with G; [done|]. eapply wp_store; [done|].
  split; [|by eapply op_frame_group]. apply grp_inv_use; [done..| |].
  - intros. by apply fupd_ne.
  - rewrite dec_at. pose proof (u_count _ _ U g G HG). lia.
Qed.

(** ** Answering an event *)

Lemma grp_inv_evt gh gh' s s' :
  evt_step s s' -> (forall g, hold gh' g = hold gh g) -> (forall g, tracked gh' g = tracked gh g) ->
  grp_inv gh s -> mem_inv gh' s' -> dep_inv s' -> grp_inv gh' s'.
Proof.
  intros E Hh Ht (_ & _ & U) I' D'. split_and!; [done..|].
  apply (use_evt_step _ _ _ E) in U. destruct U. split; intros; rewrite ?Hh, ?Ht in *; eauto.
Qed.

Lemma wp_release_dec gh s e d :
  grp_inv gh s -> 0 < pend gh e ->
  wp (release_event e true d) (fun _ s' => grp_inv (set_pend (dec (pend gh) e) gh) s' /\
    op_frame None s s' /\ groups s' = groups s /\ (d = true -> KRelease e true true ∈ calls s')) s.
Proof.
  intros I Hp. pose proof I as (Im & D & _). destruct (m_pend _ _ Im e Hp) as [ev He].
  eapply wp_of_run; [apply run_release; [done|by eapply m_assigned]|].
  assert (F : ev_frame None s (released e d ev s)) by (eapply ev_frame_released; [done|lia|done]).
  split_and!.
  - eapply (grp_inv_evt gh _ s); [apply evt_step_released|done|done|done|by apply mem_release|exact D].
  - split; [apply evt_step_keep; [apply evt_step_released|done]|].
    eapply (grp_wakes_same _ _ (_ ++ [_])); [done|]. simpl. by rewrite <-app_assoc.
  - done.
  - intros ->. simpl. case_decide; set_solver.
Qed.

Lemma grp_inv_dropped gh s g G ec C e :
  grp_inv gh s -> groups s !! g = Some G -> ec ∈ group_lists G ->
  containers s !! ec = Some C -> ec_event C = Some e ->
  grp_inv (set_pend (inc (pend gh) e) gh) (dropped g G ec s) /\ op_frame None s (dropped g G ec s).
Proof.
  intros I HG Hec HC He. pose proof I as (Im & D & _). destruct (quiet_dropped g G ec s HG) as [E F].
  split; [|split].
  - eapply (grp_inv_evt gh _ s); [exact E|done|done|done|by eapply mem_drop|].
    eapply dep_inv_insert; [exact D|done|]. simpl. rewrite group_lists_unlink.
    intros Hd. by rewrite (D g G HG Hd).
  - by apply evt_step_keep.
  - exists []. split; [done|]. intros g' G' HG' [Ht Hd]. right. simpl.
    destruct (decide (g = g')) as [<-|]; [|exists G'; by rewrite lookup_insert_ne].
    simplify_eq. exists (unlink ec G). rewrite lookup_insert_eq. split; [done|].
    unfold idle; simpl. by rewrite Ht.
Qed.

Lemma wp_find_working gh s g G id pos :
  mem_inv gh s -> groups s !! g = Some G -> pos ⊆ group_lists G ->
  wp (find_working pos id) (fun r s' => s' = s /\
    match r with
    | Some (ec, evt) => ec ∈ pos /\ exists C e, containers s !! ec = Some C /\ ec_event C = Some evt /\
        events s !! evt = Some e /\ event_id e = id
    | None => forall ec C evt e, ec ∈ pos -> containers s !! ec = Some C -> ec_event C = Some evt ->
        events s !! evt = Some e -> event_id e <> id
    end) s.
Proof.
  intros I HG. induction pos as [|ec q IH]; intros Hsub.
  { apply wp_ret. split; [done|]. intros ? ? ? ? H%not_elem_of_nil. done. }
  destruct (mem_container _ _ I g G ec) as (C & e & ev & HC & He & Hev & _); [done|set_solver|].
  cbn [find_working]. apply wp_bind, wp_load with C; [done|]. rewrite He. apply wp_bind, wp_ret.
  apply wp_bind, wp_load with ev; [done|]. case_decide as Hid.
  - apply wp_ret. split; [done|]. split; [left|eauto 10].
  - eapply wp_mono; [apply IH; set_solver|]. intros [[ec' evt]|] s' [-> Hr]; (split; [done|]).
    + destruct Hr. split; [by right|done].
    + intros ec' C' evt e' [->|Hin]%elem_of_cons HC' He' Hev'; simplify_eq; eauto.
Qed.

Definition claim_of (f : loc * loc -> nat) (x : loc * loc) : loc * loc -> nat := fupd f x (S (f x)).
Definition unclaim_of (f : loc * loc -> nat) (x : loc * loc) : loc * loc -> nat := fupd f x (f x - 1).

Lemma mem_claim gh s g G ec :
  mem_inv gh s -> groups s !! g = Some G -> ec ∈ group_lists G ->
  mem_inv (set_claims (claim_of (claims gh) (g, ec)) gh) s.
Proof.
  intros I HG Hec. destruct (mem_container _ _ I g G ec HG Hec) as (C & _ & _ & HC & _).
  pose proof I as []. split; try done. simpl. intros g' c Hp. unfold claim_of, fupd in Hp.
  case_decide; [|eauto]. simplify_eq. destruct m_bounded as (_ & Hb & _). split; [|eauto].
  apply Hb. by rewrite HC.
Qed.

Lemma grp_inv_claim gh s g G ec :
  grp_inv gh s -> groups s !! g = Some G -> ec ∈ group_lists G ->
  grp_inv (set_claims (claim_of (claims gh) (g, ec)) gh) s.
Proof. intros (I & D & []) ? ?. split_and!; [by eapply mem_claim|done|by split]. Qed.

(** Giving up a claim is always possible. *)
Lemma grp_inv_unclaim gh s x : grp_inv gh s -> grp_inv (set_claims (unclaim_of (claims gh) x) gh) s.
Proof.
  intros (I & D & []). split_and!; [|done|by split]. destruct I. split; try done. simpl.
  intros g c Hp. apply m_claims. unfold unclaim_of, fupd in Hp. case_decide; simplify_eq; lia.
Qed.

(** The critical section of [dazukofs_return_event]. *)
Definition in_use (g : loc) (G : dazukofs_group) (s : kstate) : kstate :=
  set_groups (<[g := with_use_count (use_count G + 1) G]> (groups s)) s.
Definition return_post gh s (gid id : Z) (response : dazukofs_response_t)
    (r : option (loc * option (loc * loc))) (s' : kstate) : Prop :=
  op_frame None s s' /\
  match r with
  | None => s' = s /\ grp_inv gh s /\ forall g nm, (g, nm, gid) ∉ live_view s
  | Some (g, found) => exists G, g ∈ group_list s /\ groups s !! g = Some G /\
      grp_deprecated G = 0%Z /\ group_id G = gid /\
      match found with
      | None => s' = in_use g G s /\ grp_inv (set_hold (inc (hold gh) g) gh) s' /\
          forall ec C evt e, ec ∈ working_list G -> containers s !! ec = Some C ->
            ec_event C = Some evt -> events s !! evt = Some e -> event_id e <> id
      | Some (ec, evt) =>
          ec ∈ working_list G /\
          (exists C e, containers s !! ec = Some C /\ ec_event C = Some evt /\
             events s !! evt = Some e /\ event_id e = id) /\
          if decide (response = REPOST)
          then s' = in_use g G s /\
            grp_inv (set_claims (claim_of (claims gh) (g, ec)) (set_hold (inc (hold gh) g) gh)) s'
          else s' = dropped g (with_use_count (use_count G + 1) G) ec (in_use g G s) /\
            grp_inv (set_pend (inc (pend gh) evt) (set_hold (inc (hold gh) g) gh)) s'
      end
  end.

Lemma wp_return_event_locked gh s gid id response :
  grp_inv gh s ->
  wp (return_event_locked gid id response) (return_post gh s gid id response) s.
Proof.
  intros I. apply wp_bind. eapply wp_mono; [by eapply wp_find_group, I|].
  intros [g|] s0 [-> Hf]; [|by apply wp_ret]. destruct Hf as (Hin & G & HG & Hd & Hid).
  apply wp_bind. eapply wp_mono; [by eapply (wp_use_inc gh s g G)|].
  intros [] s1 (I1 & E1 & O1). set (G1 := with_use_count (use_count G + 1) G) in *.
  assert (HG1 : groups s1 !! g = Some G1) by (rewrite E1; apply lookup_insert_eq).
  apply wp_bind, wp_load with G1; [done|]. apply wp_bind.
  eapply wp_mono; [eapply (wp_find_working _ s1 g G1); [apply I1|done|set_solver]|].
  intros [[ec evt]|] s1' [-> Hw].
  - destruct Hw as (Hw & C & e & HC & He & Hev & Hi).
    assert (Hec : ec ∈ group_lists G1) by (apply elem_of_app; by right).
    case_decide as Hr.
    + apply wp_ret. split; [done|]. exists G. split_and!; try done; [subst s1; eauto 10|].
      rewrite decide_True by done. split; [done|]. by eapply (grp_inv_claim (set_hold _ gh)).
    + apply wp_bind. eapply wp_of_run; [by eapply run_list_del; [apply I1|..]|].
      apply wp_bind. eapply wp_kfree; [exact HC|]. apply wp_ret.
      change (hset _ _) with (dropped g G1 ec s1).
      destruct (grp_inv_dropped _ s1 g G1 ec C evt I1 HG1 Hec HC He) as [I2 O2].
      split; [by etrans|]. exists G. split_and!; try done; [subst s1; eauto 10|].
      rewrite decide_False by done. split; [by rewrite E1|done].
  - apply wp_ret. split; [done|]. exists G. split_and!; try done. subst s1. exact Hw.
Qed.

(** ** Claiming an event and giving it back *)

(** [ec] moved to the head of the working list, or of the todo list. *)
Definition to_working (ec : loc) (G : dazukofs_group) : dazukofs_group :=
  with_lists (todo_list (unlink ec G)) (ec :: working_list (unlink ec G)) G.
Definition to_todo (ec : loc) (G : dazukofs_group) : dazukofs_group :=
  with_lists (ec :: todo_list (unlink ec G)) (working_list (unlink ec G)) G.

Lemma to_working_perm ec G : NoDup (group_lists G) -> ec ∈ group_lists G ->
  group_lists (to_working ec G) ≡ₚ group_lists G.
Proof.
  intros Hnd Hec. rewrite (filter_ne_perm (group_lists G) ec) by done.
  unfold group_lists. rewrite filter_app. simpl. by rewrite <-Permutation_middle.
Qed.
Lemma to_todo_perm ec G : NoDup (group_lists G) -> ec ∈ group_lists G ->
  group_lists (to_todo ec G) ≡ₚ group_lists G.
Proof.
  intros Hnd Hec. rewrite (filter_ne_perm (group_lists G) ec) by done.
  unfold group_lists. by rewrite filter_app.
Qed.

(** Reordering the containers of a group. *)
Lemma grp_inv_relist gh s g G G' :
  grp_inv gh s -> groups s !! g = Some G -> head_of G' = head_of G ->
  group_lists G' ≡ₚ group_lists G ->
  grp_inv gh (set_groups (<[g:=G']> (groups s)) s).
Proof.
  intros I HG Hh Hp. pose proof I as (Im & D & _).
  eapply (grp_inv_evt gh _ s); [by eapply evt_step_relist|done|done|done|by eapply mem_update_group|].
  eapply dep_inv_insert; [exact D|done|]. rewrite (head_of_eq _ _ Hh). simpl. intros Hd.
  apply Permutation_nil_r. change (with_lists _ _ _) with
    (with_lists (todo_list G') (working_list G') G) in *.
  rewrite <-(head_of_eq _ _ Hh), Hp. by rewrite (D g G).
Qed.

Lemma wp_claim_event gh s g G :
  grp_inv gh s -> g ∈ group_list s -> groups s !! g = Some G ->
  wp (claim_event g) (fun r s' =>
    op_frame None s s' /\
    match r with
    | None => todo_list G = [] /\ s' = s
    | Some ec => exists t, todo_list G = ec :: t /\
        s' = set_groups (<[g := to_working ec G]> (groups s)) s /\
        grp_inv (set_claims (claim_of (claims gh) (g, ec)) gh) s'
    end) s.
Proof.
  intros I Hin HG. apply wp_bind, wp_load with G; [done|].
  destruct (todo_list G) as [|ec t] eqn:Ht; [by apply wp_ret|].
  assert (Hec : ec ∈ group_lists G) by (unfold group_lists; rewrite Ht; left).
  assert (Hnd : NoDup (group_lists G)) by (by eapply mem_lists_nodup; [apply I|]).
  apply wp_bind. eapply wp_of_run; [by eapply run_list_del; [apply I|..]|].
  apply wp_bind, wp_bind. eapply wp_load; [apply lookup_insert_eq|]. simpl.
  eapply wp_store; [apply lookup_insert_eq|]. simpl. rewrite insert_insert_eq. apply wp_ret.
  change (with_lists _ _ _) with (to_working ec G).
  assert (I2 : grp_inv gh (set_groups (<[g:=to_working ec G]> (groups s)) s))
    by (eapply grp_inv_relist; [done..|by apply to_working_perm]).
  split; [|exists t; split_and!; [done..|]].
  - change (op_frame None s (set_groups (<[g:=to_working ec G]> (groups s)) s)).
    eapply op_frame_group; [done..|]. intros [Ht' _]. congruence.
  - eapply grp_inv_claim; [exact I2|apply lookup_insert_eq|]. by rewrite to_working_perm.
Qed.

Lemma wp_unclaim_locked gh s g ec :
  grp_inv gh s -> 0 < claims gh (g, ec) -> is_Some (containers s !! ec) ->
  wp (unclaim_event_locked g ec) (fun _ s' => exists G,
    groups s !! g = Some G /\ ec ∈ group_lists G /\
    s' = set_groups (<[g := to_todo ec G]> (groups s)) s /\
    op_keep None s s' /\ grp_inv (set_claims (unclaim_of (claims gh) (g, ec)) gh) s') s.
Proof.
  intros I Hc Hs. destruct (m_claims _ _ (proj1 I) g ec Hc) as [_ Himp].
  destruct (Himp Hs) as (G & HG & Hec).
  assert (Hnd : NoDup (group_lists G)) by (by eapply mem_lists_nodup; [apply I|]).
  apply wp_bind. eapply wp_of_run; [by eapply run_list_del; [apply I|..]|].
  apply wp_bind. eapply wp_load; [apply lookup_insert_eq|]. simpl.
  eapply wp_store; [apply lookup_insert_eq|]. simpl. rewrite insert_insert_eq.
  exists G. split_and!; [done..| |].
  - by apply (op_keep_group s g G (to_todo ec G)).
  - apply grp_inv_unclaim.
    apply (grp_inv_relist gh s g G (to_todo ec G)); [done..|by apply to_todo_perm].
Qed.

(** Working on a container that was freed in the meantime is detected. *)
Lemma unclaim_freed g ec s : containers s !! ec = None ->
  unclaim_event_locked g ec s = Stuck UseAfterFree.
Proof.
  intros Hn. unfold unclaim_event_locked, list_del_container, sbind, load. simpl. by rewrite Hn.
Qed.

Lemma wp_wake_group gh s g :
  grp_inv gh s ->
  wp (wake_group g) (fun _ s' => grp_inv gh s' /\ op_frame None s s' /\
    calls s' = KWakeUp (PollQ g) :: KWakeUp (GrpQ g) :: calls s /\ groups s' = groups s) s.
Proof.
  intros I. apply wp_bind, wp_modify, wp_modify. split_and!; [| |done..].
  - apply (grp_inv_calls gh s [KWakeUp (PollQ g); KWakeUp (GrpQ g)]); [|done]. set_solver.
  - apply (op_frame_calls s [KWakeUp (PollQ g); KWakeUp (GrpQ g)]). set_solver.
Qed.

(** ** Tracking *)

Definition tracked_head (d : Z) (G : dazukofs_group) : dazukofs_group :=
  with_track_count (track_count G + d) (with_use_count (use_count G + d) G).

Lemma grp_inv_track_count gh s g G d f :
  grp_inv gh s -> g ∈ group_list s -> groups s !! g = Some G -> tracking G <> 0%Z ->
  (forall g', g' <> g -> f g' = tracked gh g') ->
  (Z.of_nat (f g) = Z.of_nat (tracked gh g) + d)%Z ->
  grp_inv (set_tracked f gh) (set_groups (<[g:=tracked_head d G]> (groups s)) s).
Proof.
  intros (I & D & U) Hin HG Ht Hf Hn. split_and!.
  - by eapply mem_set_tracked, mem_update_group.
  - eapply dep_inv_insert; [exact D|done|]. by apply (D g G HG).
  - destruct U. split; simpl.
    + intros g' G' [[<- <-]|[? ?]]%lookup_insert_Some.
      * specialize (u_count g G HG). simpl. lia.
      * rewrite Hf by done. eauto.
    + intros g'. destruct (decide (g' = g)) as [->|]; [done|]. rewrite Hf by done. eauto.
    + intros g' G' [[<- <-]|[? ?]]%lookup_insert_Some.
      * simpl. intros Hd. rewrite (u_track g G HG Hd). lia.
      * rewrite Hf by done. eauto.
    + intros g' G' [[<- <-]|[? ?]]%lookup_insert_Some; [done|]. rewrite Hf by done. eauto.
Qed.

Lemma wp_open_tracking gh gid s :
  grp_inv gh s ->
  wp (dazukofs_group_open_tracking gid) (fun r s' => op_frame None s s' /\
    ((r = 0%Z /\ s' = s) \/
     (r = 1%Z /\ exists g G, g ∈ group_list s /\ groups s !! g = Some G /\
        grp_deprecated G = 0%Z /\ group_id G = gid /\
        grp_inv (set_tracked (inc (tracked gh) g) gh) s'))) s.
Proof.
  intros I. apply wp_bind. eapply wp_mono; [by eapply wp_find_group, I|].
  intros [g|] s0 [-> Hf]; [|apply wp_ret; split; [done|by left]].
  destruct Hf as (Hin & G & HG & Hd & Hid).
  apply wp_bind, wp_load with G; [done|]. case_decide as Ht; [|apply wp_ret; split; [done|by left]].
  apply wp_bind, wp_bind, wp_load with G; [done|]. eapply wp_store; [done|]. simpl.
  apply wp_bind. eapply wp_load; [apply lookup_insert_eq|]. simpl.
  apply wp_bind. eapply wp_store; [apply lookup_insert_eq|]. simpl. rewrite insert_insert_eq.
  apply wp_ret. split.
  - by apply (op_frame_group s g G (tracked_head 1 G)).
  - right. split; [done|]. exists g, G. split_and!; [done..|].
    apply (grp_inv_track_count gh s g G 1); [done..| |].
    + intros. by apply fupd_ne.
    + rewrite inc_at. lia.
Qed.

(** Releasing a file that [g0] tracks: it goes to [g0] or, when [g0] has been
    deleted, to nobody.  The last one retires the group. *)
Lemma wp_release_tracking gh gid s g0 G0 :
  grp_inv gh s -> groups s !! g0 = Some G0 -> group_id G0 = gid -> 0 < tracked gh g0 ->
  (forall g G, g ∈ group_list s -> groups s !! g = Some G -> grp_deprecated G = 0%Z ->
     group_id G = gid -> g = g0) ->
  wp (dazukofs_group_release_tracking gid) (fun _ s' =>
    grp_inv (set_tracked (dec (tracked gh) g0) gh) s' /\
    if decide (grp_deprecated G0 = 0%Z) then
      if decide (tracked gh g0 = 1) then
        exists s1, s1 = set_groups (<[g0:=tracked_head (-1) G0]> (groups s)) s /\
          grp_inv (set_tracked (dec (tracked gh) g0) gh) s1 /\ op_frame None s s1 /\
          retire_step g0 (tracked_head (-1) G0) s1 s'
      else op_frame None s s'
    else s' = s) s.
Proof.
  intros I HG0 Hid0 Hp Huniq. pose proof I as (Im & D & U).
  assert (Hin0 : g0 ∈ group_list s) by (apply (u_alive _ _ U); lia).
  apply wp_bind. eapply wp_mono; [by eapply wp_find_group, I|].
  intros [g|] s0 [-> Hf].
  - destruct Hf as (Hin & G & HG & Hd & Hid). assert (g = g0) as -> by eauto. simplify_eq.
    destruct (decide (grp_deprecated G0 = 0%Z)) as [_|]; [|done].
    assert (Ht : tracking G0 <> 0%Z) by (by eapply (u_tracking _ _ U)).
    apply wp_bind, wp_load with G0; [done|]. rewrite decide_True by done.
    apply wp_bind, wp_bind, wp_load with G0; [done|]. eapply wp_store; [done|]. simpl.
    apply wp_bind. eapply wp_load; [apply lookup_insert_eq|]. simpl.
    apply wp_bind. eapply wp_store; [apply lookup_insert_eq|]. simpl. rewrite insert_insert_eq.
    set (s1 := set_groups (<[g0:=tracked_head (-1) G0]> (groups s)) s).
    assert (I1 : grp_inv (set_tracked (dec (tracked gh) g0) gh) s1).
    { apply grp_inv_track_count; [done..| |].
      - intros. by apply fupd_ne.
      - rewrite dec_at. lia. }
    assert (O1 : op_frame None s s1) by (by eapply op_frame_group).
    pose proof (u_track _ _ U g0 G0 HG0 Hd) as Htc.
    destruct (decide (tracked gh g0 = 1)) as [H1|H1].
    + rewrite decide_True by lia.
      change (wp (remove_group g0) (fun _ s' => grp_inv (set_tracked (dec (tracked gh) g0) gh) s' /\
        exists s2, s2 = s1 /\ grp_inv (set_tracked (dec (tracked gh) g0) gh) s2 /\ op_frame None s s2 /\
          retire_step g0 (tracked_head (-1) G0) s2 s') s1).
      eapply wp_mono; [eapply (wp_retire _ s1 g0); [done|apply lookup_insert_eq]|].
      intros [] s' [I' P]. split; [done|]. exists s1. by split_and!.
    + rewrite decide_False by lia. by apply wp_ret.
  - destruct (decide (grp_deprecated G0 = 0%Z)) as [Hd|Hd].
    { exfalso. apply (Hf g0 (name G0)), live_of_elem. eauto 10. }
    apply wp_ret. split; [|done]. split_and!; [by apply mem_set_tracked|done|].
    assert (Hle : forall g, dec (tracked gh) g0 g <= tracked gh g)
      by (intros g; unfold dec, fupd; case_decide; subst; lia).
    destruct U. split; simpl.
    + intros g G HG. specialize (u_count g G HG). specialize (Hle g). lia.
    + intros g Hg. apply u_alive. specialize (Hle g). lia.
    + intros g G HG Hdg. unfold dec. rewrite fupd_ne by congruence. eauto.
    + intros g G HG Hg. eapply u_tracking; [done|]. specialize (Hle g). lia.
Qed.
