(* ===== verification/EventPost.v ===== *)
(** * Posting an event and collecting its verdict

    The segments of [dazukofs_check_access]: allocation, posting to the todo
    list of every live group, and, once nobody has to answer any more, reading
    and freeing. *)

From S2P Require Import Prelude EventState EventOps EventInv GroupReg EventFlow.
From stdpp Require Import strings.

(** ** Allocation *)

(** Private to the running task: one more for every element of [l]. *)
Definition plus_in (f : loc -> nat) (l : list loc) : loc -> nat :=
  fun c => f c + (if decide (c ∈ l) then 1 else 0).

(** Only the containers, the allocator and its luck change. *)
Record alloc_step (s s' : kstate) : Prop := {
  al_groups : groups s' = groups s;
  al_group_list : group_list s' = group_list s;
  al_count : group_count s' = group_count s;
  al_procs : procs s' = procs s;
  al_proc_list : proc_list s' = proc_list s;
  al_events : events s' = events s;
  al_calls : calls s' = calls s;
  al_next : (next s <= next s')%positive
}.

#[export] Instance alloc_step_preorder : PreOrder alloc_step.
Proof. split; [intros s; by split|]. intros a b c [] []. split; (congruence || lia). Qed.

Lemma alloc_step_frame s s' : alloc_step s s' -> op_frame None s s'.
Proof.
  intros []. split; [split; try done; [by rewrite al_groups0|split]|].
  - intros e ev _. by rewrite al_events0.
  - intros e. rewrite al_events0. by left.
  - exists []. split_and!; [done| |].
    + intros ? ? ? H%not_elem_of_nil. done.
    + intros e ev He Ha. right. rewrite al_events0. eauto.
  - done.
  - by apply (grp_wakes_same _ _ []).
Qed.

Lemma fresh_container gh s : mem_inv gh s ->
  containers s !! next s = None /\ next s ∉ linked s /\ priv gh (next s) = 0 /\
  forall g, claims gh (g, next s) = 0.
Proof.
  intros I. destruct (m_bounded _ _ I) as (_ & Hb & _).
  assert (Hn : containers s !! next s = None).
  { destruct (containers s !! next s) as [C|] eqn:E; [|done].
    assert (next s < next s)%positive by (apply Hb; by rewrite E). lia. }
  split_and!; [done| | |].
  - intros Hl. destruct (m_linked _ _ I _ Hl) as (C & e & HC & _). congruence.
  - destruct (decide (0 < priv gh (next s))) as [Hp|]; [|lia].
    destruct (m_priv _ _ I _ Hp) as (_ & C & HC & _). congruence.
  - intros g. destruct (decide (0 < claims gh (g, next s))) as [Hp|]; [|lia].
    destruct (m_claims _ _ I _ _ Hp) as [? _]. lia.
Qed.

Lemma refers_insert_off cs c C l e :
  c ∉ l -> nrefs (<[c:=C]> cs) l e = nrefs cs l e.
Proof. intros Hc. apply nrefs_ext. intros x Hx. rewrite lookup_insert_ne; [done|]. by intros ->. Qed.

Lemma mem_alloc_container gh s :
  mem_inv gh s ->
  mem_inv (set_priv (inc (priv gh) (next s)) gh)
    (set_containers (<[next s := mk_container None 0 0]> (containers s))
       (set_next (Pos.succ (next s)) s)).
Proof.
  intros I. destruct (fresh_container _ _ I) as (Hn & Hl & Hp & Hcl).
  apply (mem_next _ _ (Pos.succ (next s))) in I; [|lia]. destruct I. split; simpl; try done.
  - intros c Hc. destruct (m_linked c Hc) as (C & e & ? & ? & ?). exists C, e.
    rewrite lookup_insert_ne; [done|]. intros <-. done.
  - intros e ev He. destruct (m_assigned e ev He) as [Ha ?]. split; [|done]. rewrite Ha.
    unfold nlinked. simpl. by rewrite (refers_insert_off (containers s)).
  - intros c Hc. destruct (decide (c = next s)) as [->|Hne].
    + rewrite inc_at, Hp. split; [done|]. eexists. by rewrite lookup_insert_eq.
    + unfold inc in *. rewrite fupd_ne in * by done. destruct (m_priv c Hc) as (? & C & HC & ?).
      split; [done|]. exists C. by rewrite lookup_insert_ne.
  - intros g c Hc. destruct (m_claims g c Hc) as [? Himp]. split; [done|].
    intros [<-|Hs]%lookup_insert_is_Some'; [|auto]. specialize (Hcl g). lia.
  - destruct m_bounded as (Hb & Hb2 & ?). split_and!; try done.
    intros l [<-|Hs]%lookup_insert_is_Some'; [lia|]. by apply Hb2.
Qed.

Lemma mem_free_private gh s c f :
  mem_inv gh s -> 0 < priv gh c -> f c = 0 -> (forall c', c' <> c -> f c' = priv gh c') ->
  mem_inv (set_priv f gh) (set_containers (delete c (containers s)) s).
Proof.
  intros I Hp Hfc Hf. destruct (m_priv _ _ I c Hp) as (_ & C & HC & HCe).
  assert (Hl : c ∉ linked s).
  { intros Hl. destruct (m_linked _ _ I c Hl) as (C' & e & ? & ? & _). congruence. }
  destruct I. split; simpl; try done.
  - intros x Hx. destruct (m_linked x Hx) as (X & e & ? & ? & ?). exists X, e.
    rewrite lookup_delete_ne; [done|]. intros <-. done.
  - intros e ev He. destruct (m_assigned e ev He) as [Ha ?]. split; [|done]. rewrite Ha.
    unfold nlinked. simpl. do 2 f_equal. symmetry. apply nrefs_ext. intros x Hx.
    rewrite lookup_delete_ne; [done|]. intros <-. done.
  - intros x Hx. destruct (decide (x = c)) as [->|Hne]; [lia|]. rewrite Hf in * by done.
    destruct (m_priv x Hx) as (? & X & HX & ?). split; [done|]. exists X. by rewrite lookup_delete_ne.
  - intros g x Hx. destruct (m_claims g x Hx) as [? Himp]. split; [done|].
    intros [_ Hs]%lookup_delete_is_Some. auto.
  - destruct m_bounded as (? & Hb & ?). split_and!; try done.
    intros l [_ Hs]%lookup_delete_is_Some. auto.
Qed.

Lemma plus_in_nil f c : plus_in f [] c = f c.
Proof. unfold plus_in. rewrite decide_False; [lia|]. apply not_elem_of_nil. Qed.

Lemma wp_free_containers gh f l : forall s,
  mem_inv (set_priv (plus_in f l) gh) s -> NoDup l -> (forall c, c ∈ l -> f c = 0) ->
  wp (free_containers l) (fun _ s' => mem_inv (set_priv f gh) s' /\ alloc_step s s') s.
Proof.
  induction l as [|c l IH]; intros s I Hnd Hf.
  - apply wp_ret. split; [|done]. eapply mem_inv_proper; [|done|exact I].
    repeat split. intros c. simpl. by rewrite plus_in_nil.
  - apply NoDup_cons in Hnd as [Hc Hnd].
    assert (Hp : 0 < priv (set_priv (plus_in f (c :: l)) gh) c)
      by (simpl; unfold plus_in; rewrite decide_True by left; lia).
    destruct (m_priv _ _ I c Hp) as (_ & C & HC & _).
    apply wp_bind. eapply wp_kfree; [exact HC|]. eapply wp_mono; [apply IH; [|done|]|].
    + eapply (mem_free_private _ s c (plus_in f l)) in I; [exact I|done| |].
      * unfold plus_in. rewrite decide_False by done. rewrite Hf by left. lia.
      * intros c' Hne. simpl. unfold plus_in. f_equal. repeat case_decide; set_solver.
    + intros c' Hc'. apply Hf. by right.
    + intros [] s' [I' A]. split; [done|]. etrans; [|exact A]. by split.
Qed.

Lemma wp_allocate_containers gh n : forall done_ s,
  mem_inv (set_priv (plus_in (priv gh) done_) gh) s -> NoDup done_ ->
  (forall c, c ∈ done_ -> priv gh c = 0) ->
  wp (allocate_containers n done_) (fun r s' => alloc_step s s' /\
    match r with
    | None => mem_inv gh s'
    | Some ecs => NoDup ecs /\ length ecs = length done_ + n /\
        (forall c, c ∈ ecs -> priv gh c = 0) /\ mem_inv (set_priv (plus_in (priv gh) ecs) gh) s'
    end) s.
Proof.
  induction n as [|n IH]; intros dn s I Hnd Hz.
  - apply wp_ret. split; [done|]. split_and!.
    + by rewrite reverse_Permutation.
    + rewrite length_reverse. lia.
    + intros c Hc. rewrite elem_of_reverse in Hc. auto.
    + eapply mem_inv_proper; [|done|exact I]. repeat split. intros c. simpl.
      unfold plus_in. f_equal. pose proof (elem_of_reverse c dn). repeat case_decide; tauto.
  - cbn [allocate_containers]. apply wp_bind, wp_kzalloc; intros o.
    + apply wp_bind. eapply wp_mono; [apply (wp_free_containers gh (priv gh) dn)|].
      * by apply mem_set_oom.
      * done.
      * done.
      * intros [] s' [I' A]. apply wp_ret. split; [etrans; [|exact A]; by split|].
        by eapply mem_inv_proper; [|done|exact I'].
    + pose proof (mem_alloc_container _ _ (mem_set_oom _ _ o I)) as I1. simpl in I1.
      set (s1 := set_containers _ _) in I1.
      destruct (fresh_container _ _ I) as (HN & _ & HP & _).
      assert (Hnew : next s ∉ dn).
      { intros Hin. simpl in HP. unfold plus_in in HP. rewrite decide_True in HP by done. lia. }
      assert (Hp0 : priv gh (next s) = 0) by (simpl in HP; unfold plus_in in HP; lia).
      change (hset _ _) with s1. eapply wp_mono; [apply (IH (next s :: dn) s1)|].
      * eapply mem_inv_proper; [|done|exact I1]. repeat split. intros c. simpl.
        unfold inc, fupd, plus_in. repeat case_decide; subst; set_unfold; try tauto; lia.
      * by constructor.
      * intros c [->|Hc]%elem_of_cons; auto.
      * intros [ecs|] s' [A Hr]; (split; [etrans; [|exact A]; split; simpl; try done; lia|]).
        -- destruct Hr as (? & Hlen & ?). split_and!; [done|simpl in Hlen; lia|tauto..].
        -- done.
Qed.

(** ** The event *)

Lemma fresh_event gh s : mem_inv gh s ->
  events s !! next s = None /\ pend gh (next s) = 0 /\ own gh (next s) = 0 /\
  nlinked s (next s) = 0 /\ forall b d, KRelease (next s) b d ∉ calls s.
Proof.
  intros I. destruct (m_bounded _ _ I) as (_ & _ & Hb).
  assert (Hn : events s !! next s = None).
  { destruct (events s !! next s) as [C|] eqn:E; [|done].
    assert (next s < next s)%positive by (apply Hb; by rewrite E). lia. }
  split_and!; [done| | | |].
  - destruct (decide (0 < pend gh (next s))) as [Hp|]; [|lia].
    destruct (m_pend _ _ I _ Hp). congruence.
  - destruct (decide (0 < own gh (next s))) as [Hp|]; [|lia].
    destruct (m_own _ _ I _ Hp) as [_ [? ?]]. congruence.
  - destruct (decide (0 < nlinked s (next s))) as [Hp|]; [|lia].
    destruct (nrefs_pos _ _ _ Hp) as (c & Hc & Hr).
    destruct (m_linked _ _ I c Hc) as (C & e & HC & He & [ev Hev]). unfold refers in Hr.
    rewrite HC in Hr. simpl in Hr. congruence.
  - intros b d Hin. apply (m_calls _ _ I) in Hin. lia.
Qed.

Lemma mem_alloc_event gh s ev :
  mem_inv gh s -> assigned ev = 0%Z -> evt_deprecated ev = 0%Z -> deny ev = 0%Z ->
  mem_inv (set_own (inc (own gh) (next s)) gh)
    (set_events (<[next s := ev]> (events s)) (set_next (Pos.succ (next s)) s)).
Proof.
  intros I Ha Hd Hy. destruct (fresh_event _ _ I) as (Hn & Hp & Ho & Hl & Hc).
  apply (mem_next _ _ (Pos.succ (next s))) in I; [|lia]. destruct I. split; simpl; try done.
  - intros c Hc'. destruct (m_linked c Hc') as (C & e & ? & ? & ?). exists C, e.
    split_and!; [done..|]. apply lookup_insert_is_Some'. by right.
  - intros e ev' [[<- <-]|[? ?]]%lookup_insert_Some; [|by apply m_assigned].
    split; [|done]. unfold nlinked in *. simpl. unfold linked in *. simpl in *. lia.
  - intros e He. apply lookup_insert_is_Some'. right. by apply m_pend.
  - intros e He. destruct (decide (e = next s)) as [->|Hne].
    + rewrite inc_at, Ho. split; [done|]. by rewrite lookup_insert_eq.
    + unfold inc in *. rewrite fupd_ne in * by done. destruct (m_own e He).
      split; [done|]. by rewrite lookup_insert_ne.
  - destruct m_bounded as (? & ? & Hb). split_and!; try done.
    intros l [<-|Hs]%lookup_insert_is_Some'; [lia|]. by apply Hb.
  - intros e ev' [[<- <-]|[? ?]]%lookup_insert_Some; [|by apply m_deny].
    split; [done|]. intros [b Hb]. by apply Hc in Hb.
Qed.

(** An event nobody has to answer can be freed by its owner. *)
Lemma mem_free_event gh s e ev f :
  mem_inv gh s -> 0 < own gh e -> events s !! e = Some ev -> assigned ev = 0%Z ->
  f e = 0 -> (forall e', e' <> e -> f e' = own gh e') ->
  mem_inv (set_own f gh) (set_events (delete e (events s)) s).
Proof.
  intros I Ho He Ha Hfe Hf. destruct (m_assigned _ _ I e ev He) as [Has _].
  destruct I. split; simpl; try done.
  - intros c Hc. destruct (m_linked c Hc) as (C & e' & HC & HCe & Hs). exists C, e'.
    split_and!; [done..|]. rewrite lookup_delete_ne; [done|]. intros <-.
    assert (0 < nlinked s e); [|lia]. apply nrefs_elem_pos with c; [done|].
    unfold refers. by rewrite HC.
  - intros e' ev' [? ?]%lookup_delete_Some. by apply m_assigned.
  - intros e' Hp. rewrite lookup_delete_ne; [auto|]. intros <-. lia.
  - intros e' Hp. destruct (decide (e' = e)) as [->|Hne]; [lia|]. rewrite Hf in * by done.
    rewrite lookup_delete_ne by done. auto.
  - destruct m_bounded as (? & ? & Hb). split_and!; try done.
    intros l [_ Hs]%lookup_delete_is_Some. auto.
  - intros e' ev' [? ?]%lookup_delete_Some. by apply m_deny.
Qed.

(** What the invariant knows of an event is its counters. *)
Lemma mem_update_event gh s e ev ev' :
  mem_inv gh s -> events s !! e = Some ev -> assigned ev' = assigned ev ->
  evt_deprecated ev' = evt_deprecated ev -> deny ev' = deny ev ->
  mem_inv gh (set_events (<[e := ev']> (events s)) s).
Proof.
  intros I He Ha Hd Hy. destruct I. split; simpl; try done.
  - intros c Hc. destruct (m_linked c Hc) as (C & e' & ? & ? & ?). exists C, e'.
    split_and!; [done..|]. apply lookup_insert_is_Some'. by right.
  - intros e' ev0 [[<- <-]|[? ?]]%lookup_insert_Some; [|by apply m_assigned].
    rewrite Ha, Hd. by apply m_assigned.
  - intros e' ?. apply lookup_insert_is_Some'. right. by apply m_pend.
  - intros e' ?. destruct (m_own e') as [? ?]; [done|]. split; [done|].
    apply lookup_insert_is_Some'. by right.
  - destruct m_bounded as (? & ? & Hb). split_and!; try done.
    intros l [<-|Hs]%lookup_insert_is_Some'; [|by apply Hb]. apply Hb. by rewrite He.
  - intros e' ev0 [[<- <-]|[? ?]]%lookup_insert_Some; [|by apply m_deny].
    rewrite Hy. by apply m_deny.
Qed.

Lemma op_frame_update_event s e ev ev' :
  events s !! e = Some ev -> assigned ev' = assigned ev ->
  op_frame (Some e) s (set_events (<[e := ev']> (events s)) s).
Proof.
  intros He Ha. split; [split; try done; split; simpl|by apply (grp_wakes_same _ _ [])]; try done.
  - intros e' ev0 Hne He' _. rewrite lookup_insert_ne; [done|]. congruence.
  - intros e' [<-|Hs]%lookup_insert_is_Some'; left; eauto.
  - exists []. split_and!; [done| |].
    + intros ? ? ? H%not_elem_of_nil. done.
    + intros e' ev0 He' Ha'. right. destruct (decide (e' = e)) as [->|].
      * exists ev'. rewrite lookup_insert_eq. split; [done|]. congruence.
      * exists ev0. by rewrite lookup_insert_ne.
Qed.

(** A step on an event that did not exist before disturbs no event. *)
Lemma op_frame_fresh e s s' : op_frame (Some e) s s' -> events s !! e = None -> op_frame None s s'.
Proof.
  intros [[? ? ? ? ? []] W] Hn. split; [split; try done; split; try done|done].
  intros e' ev _ He' Ha. apply ef_quiet; [|done..]. congruence.
Qed.

Lemma op_frame_weaken x s s' : op_frame None s s' -> op_frame x s s'.
Proof. intros [K W]. split; [by apply op_keep_weaken|done]. Qed.

Lemma grp_inv_events gh gh' s m :
  grp_inv gh s -> (forall g, hold gh' g = hold gh g) -> (forall g, tracked gh' g = tracked gh g) ->
  mem_inv gh' (set_events m s) -> grp_inv gh' (set_events m s).
Proof.
  intros I Hh Ht Im. eapply (grp_inv_evt gh gh' s); [apply evt_step_events|done..|apply I].
Qed.

Lemma grp_inv_alloc_step gh gh' s s' :
  alloc_step s s' -> grp_inv gh s -> (forall g, hold gh' g = hold gh g) ->
  (forall g, tracked gh' g = tracked gh g) -> mem_inv gh' s' -> grp_inv gh' s'.
Proof.
  intros A I Hh Ht Im. pose proof I as (_ & D & _).
  eapply (grp_inv_evt gh gh' s); [destruct A; by split; congruence|done..|].
  unfold dep_inv. rewrite (al_groups _ _ A). exact D.
Qed.

Definition zero_event : dazukofs_event := mk_event 0 0 0 0 0 0 0.

(** [kmem_cache_zalloc] of an event. *)
Lemma wp_zalloc_event gh s :
  grp_inv gh s ->
  wp (kzalloc zero_event) (fun r s' =>
    match r with
    | None => alloc_step s s' /\ grp_inv gh s'
    | Some evt => (next s <= evt)%positive /\ events s !! evt = None /\ own gh evt = 0 /\
        events s' = <[evt := zero_event]> (events s) /\
        group_count s' = group_count s /\ calls s' = calls s /\ (forall b d, KRelease evt b d ∉ calls s) /\
        op_frame (Some evt) s s' /\ grp_inv (set_own (inc (own gh) evt) gh) s'
    end) s.
Proof.
  intros I. pose proof I as (Im & D & U). apply wp_kzalloc; intros o.
  { split; [by split|by apply grp_inv_oom]. }
  pose proof (fresh_event _ _ Im) as (Hn & Hp & Ho & _ & Hc). split_and!; try done.
  - split; [split; try done; split; simpl|by apply (grp_wakes_same _ _ [])]; try lia.
    + intros e ev Hne He _. rewrite lookup_insert_ne by congruence. done.
    + intros e [<-|]%lookup_insert_is_Some'; [right; lia|by left].
    + exists []. split_and!; [done| |].
      * intros ? ? ? H%not_elem_of_nil. done.
      * intros e ev He Ha. right. exists ev. rewrite lookup_insert_ne; [done|]. intros <-. congruence.
  - split_and!; [|done|destruct U; by split].
    by apply (mem_alloc_event gh (set_oom o s) zero_event (mem_set_oom _ _ o Im)).
Qed.

(** [allocate_event_and_containers] *)
Lemma wp_allocate gh n s :
  grp_inv gh s ->
  wp (allocate_event_and_containers n) (fun r s' =>
    match r with
    | None => op_frame None s s' /\ grp_inv gh s'
    | Some (evt, ecs) => (next s <= evt)%positive /\ events s !! evt = None /\ own gh evt = 0 /\
        op_frame (Some evt) s s' /\ events s' !! evt = Some zero_event /\
        NoDup ecs /\ length ecs = Z.to_nat n /\ (forall c, c ∈ ecs -> priv gh c = 0) /\
        (forall b d, KRelease evt b d ∉ calls s') /\
        grp_inv (set_priv (plus_in (priv gh) ecs) (set_own (inc (own gh) evt) gh)) s'
    end) s.
Proof.
  intros I. apply wp_bind. eapply wp_mono; [by apply (wp_zalloc_event gh)|].
  intros [evt|] s1 H1; [|apply wp_ret; destruct H1; split; [by apply alloc_step_frame|done]].
  destruct H1 as (Hle & Hn & Ho & Ee & Ec & Ek & Hc & O1 & I1).
  apply wp_bind. eapply wp_mono.
  { apply (wp_allocate_containers (set_own (inc (own gh) evt) gh) (Z.to_nat n) [] s1).
    - eapply mem_inv_proper; [|done|apply I1]. repeat split. intros c. simpl. apply plus_in_nil.
    - constructor.
    - intros c Hc'%not_elem_of_nil. done. }
  assert (Hevt : forall s2, alloc_step s1 s2 -> events s2 !! evt = Some zero_event)
    by (intros s2 A; rewrite (al_events _ _ A), Ee; apply lookup_insert_eq).
  intros [ecs|] s2 [A Hr]; specialize (Hevt s2 A).
  - destruct Hr as (Hnd & Hlen & Hz & I2). apply wp_ret. split_and!; try done.
    + etrans; [exact O1|]. by apply op_frame_weaken, alloc_step_frame.
    + intros b d. rewrite (al_calls _ _ A), Ek. apply Hc.
    + by eapply (grp_inv_alloc_step _ _ s1).
  - apply wp_bind. eapply wp_kfree; [exact Hevt|]. apply wp_ret.
    assert (I2 : grp_inv (set_own (inc (own gh) evt) gh) s2) by (by eapply (grp_inv_alloc_step _ _ s1)).
    assert (If : mem_inv gh (set_events (delete evt (events s2)) s2)).
    { eapply mem_inv_proper;
        [|done|eapply (mem_free_event _ s2 evt zero_event (own gh)); [exact Hr|..]]; try done.
      - simpl. rewrite inc_at. lia.
      - intros e' Hne. simpl. unfold inc. by rewrite fupd_ne. }
    split; [|by eapply (grp_inv_events _ gh)].
    eapply (op_frame_fresh evt); [|done]. etrans; [exact O1|].
    etrans; [by apply op_frame_weaken, alloc_step_frame|].
    split; [split; try done; split; simpl|by apply (grp_wakes_same _ _ [])]; try done.
    + intros e ev Hne He _. rewrite lookup_delete_ne; [done|]. congruence.
    + intros e [? ?]%lookup_delete_is_Some. by left.
    + exists []. split_and!; [done| |].
      * intros ? ? ? H%not_elem_of_nil. done.
      * intros e ev He Ha. right. exists ev. rewrite lookup_delete_ne; [done|].
        intros <-. simplify_eq.
Qed.

Lemma wp_check_access_alloc gh dentry mnt cur s :
  grp_inv gh s ->
  wp (check_access_alloc dentry mnt cur) (fun r s' => op_frame None s s' /\
    match r with
    | None => grp_inv gh s'
    | Some (evt, ecs) => (next s <= evt)%positive /\ own gh evt = 0 /\
        events s' !! evt = Some (mk_event 0 dentry mnt cur 0 0 0) /\
        NoDup ecs /\ length ecs = Z.to_nat (group_count s) /\
        (forall c, c ∈ ecs -> priv gh c = 0) /\ (forall b d, KRelease evt b d ∉ calls s') /\
        grp_inv (set_priv (plus_in (priv gh) ecs) (set_own (inc (own gh) evt) gh)) s'
    end) s.
Proof.
  intros I. apply wp_bind, wp_get, wp_bind. eapply wp_mono; [by apply (wp_allocate gh)|].
  intros [[evt ecs]|] s1 H1; [|by apply wp_ret]. destruct H1 as (Hle & Hn & Ho & O1 & He & H1).
  destruct H1 as (Hnd & Hlen & Hz & Hc & I1).
  apply wp_bind. do 3 apply wp_bind, wp_modify. apply wp_bind.
  eapply wp_load; [exact He|]. eapply wp_store; [exact He|]. apply wp_ret.
  set (s2 := set_calls (KGetPid cur :: KMntget mnt :: KDget dentry :: calls s1) s1).
  assert (Q2 : op_frame None s1 s2 /\
    grp_inv (set_priv (plus_in (priv gh) ecs) (set_own (inc (own gh) evt) gh)) s2).
  { split; [apply (op_frame_calls s1 [KGetPid cur; KMntget mnt; KDget dentry])|
            apply (grp_inv_calls _ s1 [KGetPid cur; KMntget mnt; KDget dentry])]; set_solver. }
  destruct Q2 as [O2 I2]. split.
  - eapply (op_frame_fresh evt); [|done]. etrans; [exact O1|].
    etrans; [by apply op_frame_weaken|]. by eapply (op_frame_update_event s2).
  - split_and!; try done; [apply lookup_insert_eq| |].
    + intros b d. simpl. rewrite !not_elem_of_cons. naive_solver.
    + eapply (grp_inv_events _ _ s2); [exact I2|done..|].
      eapply (mem_update_event _ s2); [apply I2|done..].
Qed.

(** ** Posting *)

Definition append_todo (ec : loc) (G : dazukofs_group) : dazukofs_group :=
  with_lists (todo_list G ++ [ec]) (working_list G) G.

(** The state once [ec] carries [evt] and is on the todo list of [g]. *)
Definition posted (g : loc) (G : dazukofs_group) (ec : loc) (C : dazukofs_event_container)
    (evt : loc) (ev : dazukofs_event) (s : kstate) : kstate :=
  set_groups (<[g := append_todo ec G]> (groups s))
    (set_events (<[evt := with_assigned (assigned ev + 1) ev]> (events s))
       (set_containers (<[ec := mk_container (Some evt) (ec_file C) (ec_fd C)]> (containers s)) s)).

Lemma posted_linked gh s g G ec C evt ev :
  mem_inv gh s -> g ∈ group_list s -> groups s !! g = Some G ->
  linked (posted g G ec C evt ev s) ≡ₚ ec :: linked s.
Proof.
  intros I Hin HG. destruct (linked_of_split (groups s) (group_list s) g G) as (rest & Hp & Hp');
    [apply (m_gl_nodup _ _ I)|done..|].
  unfold linked, posted; simpl. rewrite Hp, Hp'. unfold group_lists. simpl.
  rewrite <-!app_assoc. simpl. by rewrite <-Permutation_middle.
Qed.

Lemma mem_posted gh s g G ec C evt ev :
  mem_inv gh s -> g ∈ group_list s -> groups s !! g = Some G -> 0 < priv gh ec ->
  containers s !! ec = Some C -> events s !! evt = Some ev ->
  mem_inv (set_priv (fupd (priv gh) ec 0) gh) (posted g G ec C evt ev s).
Proof.
  intros I Hin HG Hp HC He. pose proof (posted_linked _ _ _ _ ec C evt ev I Hin HG) as Hl.
  destruct (m_priv _ _ I ec Hp) as (_ & C' & HC' & HCe). simplify_eq.
  assert (Hec : ec ∉ linked s).
  { intros Hin'. destruct (m_linked _ _ I ec Hin') as (C' & e & ? & ? & _). congruence. }
  assert (Hn : forall e, nrefs (containers (posted g G ec C evt ev s)) (linked s) e = nlinked s e)
    by (intros e; by apply refers_insert_off).
  destruct I. split; simpl; try done.
  - intros g' Hg'. apply lookup_insert_is_Some'. right. by apply m_gl_alive.
  - intros g' G' [[<- <-]|[? ?]]%lookup_insert_Some Hg'; [done|by eapply m_off].
  - rewrite Hl. by constructor.
  - intros c. rewrite Hl. intros [->|Hc]%elem_of_cons.
    + eexists _, evt. rewrite lookup_insert_eq. split_and!; [done..|].
      apply lookup_insert_is_Some'. by left.
    + destruct (m_linked c Hc) as (X & e & ? & ? & ?). exists X, e.
      rewrite lookup_insert_ne by (intros <-; done). split_and!; [done..|].
      apply lookup_insert_is_Some'. by right.
  - intros e ev'. unfold nlinked. rewrite (nrefs_perm _ _ _ _ Hl), nrefs_cons, Hn.
    assert (Hr : refers (containers (posted g G ec C evt ev s)) e ec <-> e = evt).
    { unfold refers. simpl. rewrite lookup_insert_eq. simpl. naive_solver. }
    intros [[<- <-]|[? ?]]%lookup_insert_Some.
    + destruct (m_assigned evt ev He) as [Ha ?]. split; [|done]. simpl. rewrite Ha.
      case_decide; tauto || lia.
    + destruct (m_assigned e ev') as [Ha ?]; [done|]. split; [|done]. rewrite Ha.
      case_decide; naive_solver lia.
  - intros e ?. apply lookup_insert_is_Some'. right. by apply m_pend.
  - intros e ?. destruct (m_own e) as [? ?]; [done|]. split; [done|].
    apply lookup_insert_is_Some'. by right.
  - intros c Hc. destruct (decide (c = ec)) as [->|Hne]; [rewrite fupd_eq in Hc; lia|].
    rewrite fupd_ne in * by done. destruct (m_priv c Hc) as (? & X & HX & ?).
    split; [done|]. exists X. by rewrite lookup_insert_ne.
  - intros g' c Hc. destruct (m_claims g' c Hc) as [? Himp]. split; [done|]. intros Hs.
    assert (Hs' : is_Some (containers s !! c)) by (apply lookup_insert_is_Some' in Hs as [<-|]; eauto).
    destruct (Himp Hs') as (G0 & HG0 & Hc0). destruct (decide (g = g')) as [<-|].
    + exists (append_todo ec G). rewrite lookup_insert_eq. split; [done|].
      simplify_eq. unfold group_lists in *. simpl. set_solver.
    + exists G0. by rewrite lookup_insert_ne.
  - destruct m_bounded as (Hb1 & Hb2 & Hb3).
    split_and!; intros l [<-|?]%lookup_insert_is_Some'; eauto.
  - intros e ev' [[<- <-]|[? ?]]%lookup_insert_Some; [|by apply m_deny]. by apply (m_deny evt ev).
Qed.

(** A group that gets an event is woken. *)
Definition posted_woken g G ec C evt ev s : kstate :=
  set_calls ([KWakeUp (PollQ g); KWakeUp (GrpQ g)] ++ calls s) (posted g G ec C evt ev s).

Lemma grp_inv_posted gh s g G ec C evt ev :
  grp_inv gh s -> g ∈ group_list s -> groups s !! g = Some G -> grp_deprecated G = 0%Z ->
  0 < priv gh ec -> containers s !! ec = Some C -> events s !! evt = Some ev ->
  (0 <= assigned ev)%Z ->
  grp_inv (set_priv (fupd (priv gh) ec 0) gh) (posted_woken g G ec C evt ev s) /\
  op_frame (Some evt) s (posted_woken g G ec C evt ev s).
Proof.
  intros I Hin HG Hd Hp HC He Ha. pose proof I as (Im & D & _).
  assert (E : evt_step s (posted g G ec C evt ev s)) by (split; simpl; try done; by eapply heads_insert_same).
  assert (I' : grp_inv (set_priv (fupd (priv gh) ec 0) gh) (posted g G ec C evt ev s)).
  { eapply (grp_inv_evt gh _ s); [exact E|done..|by apply mem_posted|].
    eapply dep_inv_insert; [exact D|done|]. done. }
  split.
  - apply (grp_inv_calls _ (posted g G ec C evt ev s)); [set_solver|done].
  - split; [split; try apply E|].
    + simpl. rewrite fmap_insert. apply insert_id. by rewrite lookup_fmap, HG.
    + split; simpl; try done.
      * intros e' ev0 Hne He' _. rewrite lookup_insert_ne; [done|]. congruence.
      * intros e' [<-|Hs]%lookup_insert_is_Some'; left; eauto.
      * exists [KWakeUp (PollQ g); KWakeUp (GrpQ g)]. split_and!; [done|set_solver|].
        intros e' ev0 He' Ha'. right. destruct (decide (e' = evt)) as [->|].
        -- eexists. rewrite lookup_insert_eq. split; [done|]. simpl. lia.
        -- exists ev0. by rewrite lookup_insert_ne.
    + exists [KWakeUp (PollQ g); KWakeUp (GrpQ g)]. split; [done|]. intros g' G' HG' Hi. simpl.
      destruct (decide (g = g')) as [<-|]; [left; left; set_solver|].
      right. exists G'. by rewrite lookup_insert_ne.
Qed.

(** The number of live groups among [pos]. *)
Definition nlive (s : kstate) (pos : list loc) : nat := length (live_of (groups s) pos).

Lemma nlive_keep x s s' pos : op_keep x s s' -> nlive s' pos = nlive s pos.
Proof.
  intros K. pose proof (ok_ident _ _ _ K) as Hi. unfold nlive. f_equal.
  induction pos as [|g gl IH]; [done|]. rewrite !live_of_cons, IH.
  assert (E : (ident <$> groups s') !! g = (ident <$> groups s) !! g) by (by rewrite Hi).
  rewrite !lookup_fmap in E.
  destruct (groups s' !! g) as [G'|], (groups s !! g) as [G|]; try done.
  simpl in E. unfold ident in E. injection E as E1 E2 E3. by rewrite E1, E2, E3.
Qed.

(** Giving private containers up. *)
Definition minus_in (f : loc -> nat) (l : list loc) : loc -> nat :=
  fun c => if decide (c ∈ l) then 0 else f c.

Lemma grp_inv_minus gh s l : grp_inv gh s -> grp_inv (set_priv (minus_in (priv gh) l) gh) s.
Proof.
  intros (I & D & []). split_and!; [|done|by split]. destruct I. split; try done. simpl.
  intros c. unfold minus_in. case_decide; [lia|]. apply m_priv.
Qed.

Lemma wp_assign_loop gh evt pos : forall ecs s ev,
  grp_inv gh s -> pos ⊆ group_list s -> NoDup ecs -> (forall c, c ∈ ecs -> 0 < priv gh c) ->
  events s !! evt = Some ev -> nlive s pos <= length ecs ->
  wp (assign_loop pos evt ecs) (fun _ s' =>
    grp_inv (set_priv (minus_in (priv gh) ecs) gh) s' /\ op_frame (Some evt) s s' /\
    exists ev', events s' !! evt = Some ev' /\
      assigned ev' = (assigned ev + Z.of_nat (nlive s pos))%Z /\
      event_id ev' = event_id ev /\ deny ev' = deny ev) s.
Proof.
  revert gh. induction pos as [|g q IH]; intros gh ecs s ev I Hsub Hnd Hp He Hlen.
  { apply wp_ret. split_and!; [by apply grp_inv_minus|done|]. exists ev. split_and!; try done.
    unfold nlive. simpl. lia. }
  assert (Hin : g ∈ group_list s) by set_solver.
  destruct (m_gl_alive _ _ (proj1 I) g Hin) as [G HG].
  cbn [assign_loop]. apply wp_bind, wp_load with G; [done|].
  assert (Hlive : nlive s (g :: q) =
    (if decide (grp_deprecated G = 0%Z) then 1 else 0) + nlive s q).
  { unfold nlive. rewrite live_of_cons, HG. by case_decide. }
  rewrite Hlive in *. case_decide as Hd; [|apply IH; try done; set_solver].
  destruct ecs as [|ec ecs]; [simpl in Hlen; lia|]. apply NoDup_cons in Hnd as [Hec Hnd].
  destruct (m_priv _ _ (proj1 I) ec (Hp ec (list_elem_of_here _ _))) as (_ & C & HC & _).
  destruct (m_assigned _ _ (proj1 I) evt ev He) as [Ha _].
  apply wp_bind, wp_load with C; [done|]. apply wp_bind, wp_store with C; [done|].
  apply wp_bind, wp_load with ev; [done|]. apply wp_bind, wp_store with ev; [done|].
  apply wp_bind, wp_bind, wp_load with G; [done|]. apply wp_store with G; [done|].
  apply wp_bind, wp_modify, wp_bind, wp_modify.
  change (set_calls _ _) with (posted_woken g G ec C evt ev s).
  set (s1 := posted_woken g G ec C evt ev s).
  destruct (grp_inv_posted gh s g G ec C evt ev) as [I1 O1]; try done; [by apply Hp; left|lia|].
  fold s1 in I1, O1.
  eapply wp_mono.
  { apply (IH (set_priv (fupd (priv gh) ec 0) gh) ecs s1 (with_assigned (assigned ev + 1) ev)).
    - exact I1.
    - simpl. set_solver.
    - done.
    - intros c Hc. simpl. rewrite fupd_ne by (intros ->; done). apply Hp. by right.
    - simpl. by rewrite lookup_insert_eq.
    - rewrite (nlive_keep _ _ _ q (proj1 O1)). simpl in Hlen. lia. }
  intros [] s' (I' & O' & ev' & He' & Ha' & Hid' & Hdy'). split_and!.
  - eapply grp_inv_proper_l; [|exact I']. repeat split. intros c. simpl.
    unfold minus_in, fupd. repeat case_decide; set_solver.
  - by etrans.
  - exists ev'. split_and!; try done. rewrite Ha', (nlive_keep _ _ _ q (proj1 O1)). simpl. lia.
Qed.

Lemma wp_assign gh evt ecs s ev :
  grp_inv gh s -> NoDup ecs -> (forall c, c ∈ ecs -> 0 < priv gh c) ->
  events s !! evt = Some ev -> assigned ev = 0%Z -> length (live_view s) <= length ecs ->
  wp (assign_event_to_groups evt ecs) (fun _ s' =>
    grp_inv (set_priv (minus_in (priv gh) ecs) gh) s' /\ op_frame (Some evt) s s' /\
    exists ev', events s' !! evt = Some ev' /\
      assigned ev' = Z.of_nat (length (live_view s)) /\
      event_id ev' = ulong_wrap (int_wrap (last_event_id s + 1)) /\ deny ev' = deny ev) s.
Proof.
  intros I Hnd Hp He Ha Hlen. apply wp_bind, wp_modify, wp_bind, wp_get, wp_bind.
  set (s1 := set_last_event_id (int_wrap (last_event_id s + 1)) s).
  assert (I1 : grp_inv gh s1) by (destruct I as (I & D & []); split_and!; [by destruct I|done|by split]).
  assert (O1 : op_frame None s s1) by (split; [split; try done; by apply ev_frame_same|by apply (grp_wakes_same _ _ [])]).
  eapply wp_load; [exact He|]. apply wp_bind. eapply wp_store; [exact He|].
  simpl. set (ev2 := with_event_id (ulong_wrap (int_wrap (last_event_id s + 1))) ev).
  change (hset _ _) with (set_events (<[evt:=ev2]> (events s1)) s1).
  set (s2 := set_events (<[evt:=ev2]> (events s1)) s1).
  assert (I2 : grp_inv gh s2).
  { eapply (grp_inv_events _ _ s1); [exact I1|done..|]. by eapply (mem_update_event _ s1); [apply I1|..]. }
  assert (O2 : op_frame (Some evt) s1 s2) by (by eapply (op_frame_update_event s1)).
  apply wp_bind, wp_get. eapply wp_mono.
  { apply (wp_assign_loop gh evt (group_list s2) ecs s2 ev2); try done. apply lookup_insert_eq. }
  intros [] s' (I' & O' & ev' & He' & Ha' & Hid & Hy). split_and!; [done| |].
  - etrans; [by apply op_frame_weaken|]. by etrans.
  - exists ev'. split_and!; try done. rewrite Ha'. simpl. rewrite Ha.
    unfold nlive, live_view. simpl. lia.
Qed.

(** ** The verdict *)

(** The task that waited for the event frees it. *)
Definition freed_event (e : loc) (ev : dazukofs_event) (s : kstate) : kstate :=
  set_calls ([KPutPid (evt_proc_id ev); KMntput (evt_mnt ev); KDput (evt_dentry ev)] ++
             KRelease e false false :: calls s)
    (set_events (delete e (events s)) s).

Lemma run_release_owner e ev s :
  events s !! e = Some ev -> assigned ev = 0%Z ->
  release_event e false false s = Ret tt (freed_event e ev s).
Proof.
  intros He Ha. unfold release_event, sbind, load, store, kcall_, smodify, kfree_obj, sret, freed_event.
  simpl. rewrite He. rewrite decide_True by done. simpl. rewrite He. simpl.
  rewrite lookup_insert_eq. simpl. by rewrite lookup_insert_eq, delete_insert_eq.
Qed.

Lemma mem_call_release gh s e b :
  is_Some (events s !! e) -> mem_inv gh s ->
  mem_inv gh (set_calls (KRelease e b false :: calls s) s).
Proof.
  intros He []. split; try done.
  - intros e' b' d. simpl. rewrite elem_of_cons. intros [[= -> -> ->]|]; [|eauto].
    destruct m_bounded as (_ & _ & Hb). by apply Hb.
  - intros e' ev He'. rewrite (m_deny e' ev He'). simpl. split; intros [b' Hb]; exists b'.
    + by right.
    + apply elem_of_cons in Hb as [Heq|]; [done|done].
Qed.

Lemma ev_frame_freed gh s e ev :
  mem_inv gh s -> events s !! e = Some ev -> assigned ev = 0%Z ->
  ev_frame (Some e) s (freed_event e ev s).
Proof.
  intros I He Ha. split; simpl; try done.
  - intros e' ev' Hne He' _. rewrite lookup_delete_ne; [done|]. congruence.
  - intros e' [_ Hs]%lookup_delete_is_Some. by left.
  - exists [KPutPid (evt_proc_id ev); KMntput (evt_mnt ev); KDput (evt_dentry ev);
            KRelease e false false]. split_and!; [done| |].
    + intros e' b d Hin. set_unfold in Hin. destruct_or!; simplify_eq; left; eauto.
    + intros e' ev' He' Ha'. right. exists ev'. rewrite lookup_delete_ne; [done|]. congruence.
Qed.

Lemma wp_release_owner gh s e ev :
  grp_inv gh s -> 0 < own gh e -> events s !! e = Some ev -> assigned ev = 0%Z ->
  wp (release_event e false false) (fun _ s' =>
    grp_inv (set_own (dec (own gh) e) gh) s' /\ op_frame (Some e) s s' /\ s' = freed_event e ev s) s.
Proof.
  intros I Ho He Ha. eapply wp_of_run; [by apply run_release_owner|].
  destruct (m_own _ _ (proj1 I) e Ho) as [Ho1 _]. split_and!; [| |done].
  - set (s1 := set_calls (KRelease e false false :: calls s) s).
    assert (I1 : grp_inv gh s1).
    { destruct I as (Im & D & []). split_and!; [by apply mem_call_release|done|by split]. }
    set (s2 := set_events (delete e (events s1)) s1).
    assert (I2 : grp_inv (set_own (dec (own gh) e) gh) s2).
    { apply (grp_inv_events gh _ s1); [done..|].
      eapply (mem_free_event gh s1); [apply I1|done..| |].
      - rewrite dec_at. lia.
      - intros e' Hne. unfold dec. by rewrite fupd_ne. }
    apply (grp_inv_calls _ s2 [KPutPid (evt_proc_id ev); KMntput (evt_mnt ev); KDput (evt_dentry ev)]);
      [set_solver|done].
  - split; [split; try done|].
    + by eapply ev_frame_freed; [apply I|..].
    + by eapply (grp_wakes_same s _ (_ :: _ :: _ :: _ :: [])).
Qed.

(** The verdict: an access is refused exactly if some answer to its event was a
    denial. *)
Lemma wp_check_access_end gh s e ev :
  grp_inv gh s -> 0 < own gh e -> events s !! e = Some ev -> assigned ev = 0%Z ->
  wp (check_access_end e) (fun r s' =>
    grp_inv (set_own (dec (own gh) e) gh) s' /\ op_frame (Some e) s s' /\ s' = freed_event e ev s /\
    ((r = - EPERM)%Z /\ (exists b, KRelease e b true ∈ calls s) \/
     (r = 0)%Z /\ forall b, KRelease e b true ∉ calls s)) s.
Proof.
  intros I Ho He Ha. apply wp_bind, wp_bind, wp_load with ev; [done|]. apply wp_ret, wp_bind.
  eapply wp_mono; [by eapply wp_release_owner|]. intros [] s' (I' & O' & E'). apply wp_ret.
  split_and!; [done..|]. pose proof (m_deny _ _ (proj1 I) e ev He) as Hd. case_decide as Hy.
  - right. split; [done|]. intros b Hb. apply Hd; eauto.
  - left. split; [done|]. by apply Hd.
Qed.
