(* ===== verification/EventTasks.v ===== *)
(** * Tasks: the event layer under concurrency

    Each call of an entry point of [event.c] is a task.  A task runs the
    critical sections of its entry point one by one; between two of them any
    other task may run.  [work_mutex], [proc_mutex] and [assigned_mutex] are
    never held between two segments, so they need no state; [group_count_sem]
    is, and is modelled by the segments that hold it ([reads], [writes]).
    [wait_event] queues the task before it tests the condition, so testing and
    falling asleep are one step; a wake-up makes every sleeper of the queue
    test again. *)

From S2P Require Import Prelude EventState EventOps EventInv GroupReg EventFlow.
From stdpp Require Import strings.

(** What the surroundings decide for one step of a task. *)
Record env := mk_env {
  e_oom : list bool;
  e_ign : ptr -> Z;
  e_open : open_env;
  e_pid_vnr : ptr -> Z;
  e_signal : bool
}.

(** Where a task is.  [Tracked gid g] is an open device file that [g] tracks. *)
Inductive pc :=
| CA_enter (dentry mnt : ptr)
| CA_alloc (dentry mnt : ptr)
| CA_assign (evt : loc) (ecs : list loc)
| CA_wait (evt : loc)
| CA_sleep (evt : loc)
| CA_verdict (evt : loc)
| CA_release (evt : loc) (err : Z)
| AG_enter (nm : string) (track : bool)
| AG_create (nm : string) (id : Z) (track : bool)
| AG_link (g : loc)
| AG_count
| AG_counted (n : Z)
| RG_enter (nm : string)
| RG_loop (nm : string)
| RE_enter (gid id : Z) (response : dazukofs_response_t)
| RE_release (g evt : loc) (d : bool)
| RE_repost (g ec : loc)
| RE_wake (g : loc)
| RE_dec (g : loc) (ret : Z)
| GE_enter (gid : Z)
| GE_wait (g : loc)
| GE_sleep (g : loc)
| GE_check (g : loc)
| GE_claim (g : loc)
| GE_open (g ec : loc)
| GE_nested (g ec proc : loc) (oe : open_env)
| GE_end (g ec proc : loc) (oe : open_env)
| GE_fields (g ec : loc)
| GE_unclaim (g ec : loc) (ret : Z)
| GE_wake (g : loc) (ret : Z)
| GE_dec (g : loc) (ret : Z) (fields : option (Z * Z * Z))
| PO_enter (gid : Z)
| PO_check (g : loc)
| PO_dec (g : loc) (mask : Z)
| OT_enter (gid : Z)
| Tracked (gid : Z) (g : loc)
| Done (ret : Z) (fields : option (Z * Z * Z)).

#[export] Instance open_env_eq_dec : EqDecision open_env.
Proof. solve_decision. Defined.
#[export] Instance pc_eq_dec : EqDecision pc.
Proof. solve_decision. Defined.

(** Where [group_count_sem] is held for reading and for writing. *)
Definition reads (p : pc) : bool :=
  match p with CA_alloc _ _ | CA_assign _ _ => true | _ => false end.
Definition writes (p : pc) : bool :=
  match p with AG_create _ _ _ | AG_link _ | AG_count | AG_counted _ | RG_loop _ => true | _ => false end.

(** The steps that take it. *)
Definition down_read (p : pc) : bool :=
  match p with CA_enter _ _ | GE_nested _ _ _ _ => true | _ => false end.
Definition down_write (p : pc) : bool :=
  match p with AG_enter _ _ | RG_enter _ => true | _ => false end.

(** A call has returned; a tracked file is not executing. *)
Definition running (p : pc) : bool :=
  match p with Done _ _ | Tracked _ _ => false | _ => true end.

(** A task: the process that executes it and its position. *)
Abbreviation task := (ptr * pc)%type.
Abbreviation pool := (gmap positive task).

Definition free_to_read (T : pool) : Prop := map_Forall (fun _ x => writes x.2 = false) T.
Definition free_to_write (T : pool) : Prop :=
  map_Forall (fun _ x => writes x.2 = false /\ reads x.2 = false) T.

(** Whether the step of a task at [p] can be taken now. *)
Definition enabled (T : pool) (p : pc) (env : env) : Prop :=
  match p with
  | CA_sleep _ | Done _ _ => False
  | GE_sleep _ => e_signal env = true
  | _ => (down_read p = true -> free_to_read T) /\ (down_write p = true -> free_to_write T)
  end.
#[export] Instance enabled_dec T p env : Decision (enabled T p env).
Proof. unfold enabled, free_to_read, free_to_write. destruct p; apply _. Defined.

(** ** The next segment of a task *)

Definition ret (r : Z) : pc := Done r None.

(** [dazukofs_check_access] *)
Definition check_access_step (cur : ptr) (env : env) (p : pc) : M pc :=
  match p with
  | CA_enter dentry mnt =>
      let! n := sget group_count in
      let! r := check_access_precheck (e_ign env) cur n in
      sret (if decide (r <> 0%Z) then ret 0 else CA_alloc dentry mnt)
  | CA_alloc dentry mnt =>
      let! a := check_access_alloc dentry mnt cur in
      sret (match a with None => ret (- ENOMEM) | Some (evt, ecs) => CA_assign evt ecs end)
  | CA_assign evt ecs => do! assign_event_to_groups evt ecs in sret (CA_wait evt)
  | CA_wait evt =>
      let! n := event_assigned evt in
      sret (if decide (n = 0%Z) then CA_verdict evt else CA_sleep evt)
  | CA_verdict evt => let! err := check_access_verdict evt in sret (CA_release evt err)
  | CA_release evt err => do! release_event evt false false in sret (ret err)
  | _ => sret p
  end.

(** [dazukofs_add_group] and [dazukofs_remove_group] *)
Definition registry_step (p : pc) : M pc :=
  match p with
  | AG_enter nm track =>
      let! r := add_group_find nm track in
      sret (if snd r : bool then ret 0 else AG_create nm (fst r) track)
  | AG_create nm id track =>
      let! c := add_group_create nm id track in
      sret (match c with inl err => ret err | inr g => AG_link g end)
  | AG_link g => do! add_group_link g in sret AG_count
  | AG_count => let! n := add_group_count_read in sret (AG_counted n)
  | AG_counted n => do! add_group_count_write n in sret (ret 0)
  | RG_enter nm =>
      let! n := sget group_count in sret (if decide (n = 0%Z) then ret 0 else RG_loop nm)
  | RG_loop nm =>
      let! gl := sget group_list in do! remove_group_loop gl nm in sret (ret 0)
  | _ => sret p
  end.

(** [dazukofs_return_event] *)
Definition return_event_step (p : pc) : M pc :=
  match p with
  | RE_enter gid id response =>
      let! r := return_event_locked gid id response in
      sret (match r with
            | None => ret (- EINVAL)
            | Some (g, None) => RE_dec g (- EINVAL)
            | Some (g, Some (ec, evt)) =>
                if decide (response = REPOST) then RE_repost g ec
                else RE_release g evt (bool_decide (response = DENY))
            end)
  | RE_release g evt d => do! release_event evt true d in sret (RE_dec g 0)
  | RE_repost g ec => do! unclaim_event_locked g ec in sret (RE_wake g)
  | RE_wake g => do! wake_group g in sret (RE_dec g 0)
  | RE_dec g r => do! use_dec g in sret (ret r)
  | _ => sret p
  end.

(** [dazukofs_get_event].  Were the check of its own [dentry_open] to go beyond
    the pre-check, the process would wait for itself: [Recursion]. *)
Definition get_event_step (cur : ptr) (env : env) (p : pc) : M pc :=
  match p with
  | GE_enter gid =>
      let! r := find_and_use gid in
      sret (match r with None => ret (- EINVAL) | Some g => GE_wait g end)
  | GE_wait g =>
      let! ready := get_event_ready g in
      sret (if ready : bool then GE_check g
            else if e_signal env then GE_dec g (- ERESTARTSYS) None else GE_sleep g)
  | GE_sleep g => sret (GE_dec g (- ERESTARTSYS) None)
  | GE_check g =>
      let! G := (load g : M dazukofs_group) in
      sret (if decide (grp_deprecated G <> 0%Z) then GE_dec g (- EINVAL) None else GE_claim g)
  | GE_claim g =>
      let! c := claim_event g in
      sret (match c with None => GE_wait g | Some ec => GE_open g ec end)
  | GE_open g ec =>
      let! r := open_file_begin ec (e_open env) cur in
      sret (match r with inl err => GE_unclaim g ec err | inr proc => GE_nested g ec proc (e_open env) end)
  | GE_nested g ec proc oe =>
      let! early := open_file_nested oe (e_ign env) cur in
      if (early : bool) then sret (GE_end g ec proc oe) else sfail Recursion
  | GE_end g ec proc oe =>
      let! r := open_file_end ec proc oe cur in
      sret (if decide (r = 0%Z) then GE_fields g ec else GE_unclaim g ec r)
  | GE_fields g ec =>
      let! f := get_event_fields (e_pid_vnr env) ec in sret (GE_dec g 0 (Some f))
  | GE_unclaim g ec r => do! unclaim_event_locked g ec in sret (GE_wake g r)
  | GE_wake g r => do! wake_group g in sret (GE_dec g r None)
  | GE_dec g r f => do! use_dec g in sret (Done r f)
  | _ => sret p
  end.

(** [dazukofs_poll] and tracking *)
Definition device_step (p : pc) : M pc :=
  match p with
  | PO_enter gid =>
      let! r := find_and_use gid in
      sret (match r with None => ret POLLERR | Some g => PO_check g end)
  | PO_check g =>
      do! poll_wait g in
      let! b := is_event_available g in
      sret (PO_dec g (if (b : bool) then Z.lor POLLIN POLLRDNORM else 0))
  | PO_dec g m => do! use_dec g in sret (ret m)
  | OT_enter gid =>
      let! f := find_group gid in
      let! r := dazukofs_group_open_tracking gid in
      sret (match f with
            | Some g => if decide (r = 1%Z) then Tracked gid g else ret r
            | None => ret r
            end)
  | Tracked gid g => do! dazukofs_group_release_tracking gid in sret (ret 0)
  | _ => sret p
  end.

Definition action (cur : ptr) (env : env) (p : pc) : M pc :=
  match p with
  | CA_enter _ _ | CA_alloc _ _ | CA_assign _ _ | CA_wait _ | CA_sleep _ | CA_verdict _
  | CA_release _ _ => check_access_step cur env p
  | AG_enter _ _ | AG_create _ _ _ | AG_link _ | AG_count | AG_counted _ | RG_enter _ | RG_loop _ => registry_step p
  | RE_enter _ _ _ | RE_release _ _ _ | RE_repost _ _ | RE_wake _ | RE_dec _ _ => return_event_step p
  | PO_enter _ | PO_check _ | PO_dec _ _ | OT_enter _ | Tracked _ _ => device_step p
  | Done _ _ => sret p
  | _ => get_event_step cur env p
  end.

(** ** Waking up *)

(** The calls made between two states, latest first. *)
Definition new_calls (s s' : kstate) : list kcall :=
  take (length (calls s') - length (calls s)) (calls s').

Definition wakes (q : waitq) (new : list kcall) : bool :=
  bool_decide (KWakeUp q ∈ new) || bool_decide (KWakeUpAll q ∈ new).

Definition wake (new : list kcall) (x : task) : task :=
  match x.2 with
  | CA_sleep evt => (x.1, if wakes (EvtQ evt) new then CA_wait evt else CA_sleep evt)
  | GE_sleep g => (x.1, if wakes (GrpQ g) new then GE_wait g else GE_sleep g)
  | _ => x
  end.

(** ** The system *)

Record sys := mk_sys { tasks : pool; mem : kstate }.

Definition run (t : positive) (env : env) (σ : sys) : option sys :=
  match tasks σ !! t with
  | Some (cur, p) =>
      if decide (enabled (tasks σ) p env) then
        match action cur env p (set_oom (e_oom env) (mem σ)) with
        | Ret p' s' => Some (mk_sys (wake (new_calls (mem σ) s') <$> <[t:=(cur, p')]> (tasks σ)) s')
        | Stuck _ => None
        end
      else None
  | None => None
  end.

(** The step of task [t] would touch memory it must not touch. *)
Definition faults (t : positive) (env : env) (σ : sys) (w : stuck) : Prop :=
  exists cur p, tasks σ !! t = Some (cur, p) /\ enabled (tasks σ) p env /\
    action cur env p (set_oom (e_oom env) (mem σ)) = Stuck w.

(** The entry points, and the process that may call one: it runs nothing
    else. *)
Definition entry_point (p : pc) : bool :=
  match p with
  | CA_enter _ _ | AG_enter _ _ | RG_enter _ | RE_enter _ _ _ | GE_enter _ | PO_enter _
  | OT_enter _ => true
  | _ => false
  end.
Definition not_running (cur : ptr) (T : pool) : Prop :=
  map_Forall (fun _ x => running x.2 = true -> x.1 <> cur) T.

Definition spawn (t : positive) (cur : ptr) (p : pc) (σ : sys) : sys :=
  mk_sys (<[t:=(cur, p)]> (tasks σ)) (mem σ).

(** One step of a task whose position [ok] admits, the start or the end of a call. *)
Inductive step (ok : pool -> kstate -> pc -> Prop) : sys -> sys -> Prop :=
| step_run t cur p env σ σ' :
    tasks σ !! t = Some (cur, p) -> ok (tasks σ) (mem σ) p -> run t env σ = Some σ' -> step ok σ σ'
| step_spawn t cur p σ :
    tasks σ !! t = None -> not_running cur (tasks σ) -> entry_point p = true ->
    step ok σ (spawn t cur p σ)
| step_exit t cur r f σ :
    tasks σ !! t = Some (cur, Done r f) ->
    step ok σ (mk_sys (delete t (tasks σ)) (mem σ)).

(** The static data as the module is loaded ([dazukofs_init_events]). *)
Definition init_state : kstate := mk_kstate [] 0 0 [] ∅ ∅ ∅ ∅ 1 [] [].
Definition init_sys : sys := mk_sys ∅ init_state.

(** Every run. *)
Definition any (T : pool) (s : kstate) (p : pc) : Prop := True.
Definition reachable (σ : sys) : Prop := rtc (step any) init_sys σ.

(** ** Orderly runs

    Two things go wrong when tracked files are closed, and after them the counters no
    longer mean anything.  [dazukofs_group_release_tracking] finds the group by its id:
    closing a file whose group is gone takes the counts of the group that has the id
    now.  And when the last tracked file of a group is closed, [group_count--] happens
    under [work_mutex], while [group_count++] in [dazukofs_add_group] happens under
    [group_count_sem]: one of the two changes may be lost.  A run is orderly if
    neither happens. *)
Definition stale (p : pc) (s : kstate) : Prop :=
  match p with
  | Tracked gid g => Exists (fun x => x.2 = gid /\ x.1.1 <> g) (live_view s)
  | _ => False
  end.
#[export] Instance stale_dec p s : Decision (stale p s).
Proof. destruct p; apply _. Defined.

(** Closing a tracked file of the group with this id retires it. *)
Definition retires (gid : Z) (s : kstate) : Prop :=
  Exists (fun g => match groups s !! g with
                   | Some G => grp_deprecated G = 0%Z /\ group_id G = gid /\ tracking G <> 0%Z /\ track_count G = 1%Z
                   | None => False
                   end) (group_list s).
#[export] Instance retires_dec gid s : Decision (retires gid s).
Proof. apply Exists_dec. intros g. destruct (groups s !! g); apply _. Defined.

(** [dazukofs_add_group] has linked its group and not yet counted it. *)
Definition c_count (p : pc) : nat := match p with AG_count | AG_counted _ => 1 | _ => 0 end.
Definition counting (T : pool) : nat := mcount (fun x => c_count x.2) T.

(** Two tasks are about to change [group_count] under different locks. *)
Definition racing (T : pool) (p : pc) (s : kstate) : Prop :=
  match p with Tracked gid _ => retires gid s /\ 0 < counting T | _ => False end.
#[export] Instance racing_dec T p s : Decision (racing T p s).
Proof. destruct p; apply _. Defined.

Definition orderly (T : pool) (s : kstate) (p : pc) : Prop := ~ stale p s /\ ~ racing T p s.
#[export] Instance orderly_dec T s p : Decision (orderly T s p).
Proof. unfold orderly. apply _. Defined.

Definition orderly_reachable (σ : sys) : Prop := rtc (step orderly) init_sys σ.

Lemma step_weaken (ok ok' : pool -> kstate -> pc -> Prop) σ σ' :
  (forall T s p, ok T s p -> ok' T s p) -> step ok σ σ' -> step ok' σ σ'.
Proof. intros H [t cur p env σ0 σ1 Ht Hok Hr|t cur p σ0 Ht Hn Hp|t cur r f σ0 Ht]; [eapply step_run|apply step_spawn|eapply step_exit]; eauto. Qed.

Lemma orderly_reachable_reachable σ : orderly_reachable σ -> reachable σ.
Proof. apply rtc_subrel. intros ? ?. by apply step_weaken. Qed.
