(* ===== verification/EventConc.v ===== *)
(** * The invariant of the task system

    What every task owes and holds is read off its position, and the ghost of
    the memory invariant is the sum over the tasks.  [sys_inv] adds what the
    single positions know ([pc_inv]), the exclusion [group_count_sem] gives,
    and the list of masked processes. *)

From S2P Require Import Prelude EventState EventOps EventInv GroupReg EventFlow EventPost EventTasks.
From stdpp Require Import strings.

(** ** What a position owes and holds *)

Definition one {A} `{EqDecision A} (a b : A) : nat := if decide (a = b) then 1 else 0.

Definition c_pend (p : pc) (e : loc) : nat :=
  match p with RE_release _ evt _ => one evt e | _ => 0 end.

Definition group_of (p : pc) : option loc :=
  match p with
  | RE_release g _ _ | RE_repost g _ | RE_wake g | RE_dec g _ | GE_wait g | GE_sleep g | GE_check g
  | GE_claim g | GE_open g _ | GE_nested g _ _ _ | GE_end g _ _ _ | GE_fields g _ | GE_unclaim g _ _
  | GE_wake g _ | GE_dec g _ _ | PO_check g | PO_dec g _ => Some g
  | _ => None
  end.
Definition c_hold (p : pc) (g : loc) : nat := one (group_of p) (Some g).

Definition c_tracked (p : pc) (g : loc) : nat := match p with Tracked _ g' => one g' g | _ => 0 end.

Definition own_of (p : pc) : option loc :=
  match p with
  | CA_assign evt _ | CA_wait evt | CA_sleep evt | CA_verdict evt | CA_release evt _ => Some evt
  | _ => None
  end.
Definition c_own (p : pc) (e : loc) : nat := one (own_of p) (Some e).

Definition priv_of (p : pc) : list loc := match p with CA_assign _ ecs => ecs | _ => [] end.
Definition c_priv (p : pc) (c : loc) : nat := if decide (c ∈ priv_of p) then 1 else 0.

Definition claim_pc (p : pc) : option (loc * loc) :=
  match p with
  | RE_repost g ec | GE_open g ec | GE_nested g ec _ _ | GE_end g ec _ _ | GE_fields g ec
  | GE_unclaim g ec _ => Some (g, ec)
  | _ => None
  end.
Definition c_claims (p : pc) (x : loc * loc) : nat := one (claim_pc p) (Some x).

Definition ghost_of (T : pool) : ghost :=
  mk_ghost (fun e => mcount (fun x => c_pend x.2 e) T)
           (fun g => mcount (fun x => c_hold x.2 g) T)
           (fun g => mcount (fun x => c_tracked x.2 g) T)
           (fun e => mcount (fun x => c_own x.2 e) T)
           (fun c => mcount (fun x => c_priv x.2 c) T)
           (fun y => mcount (fun x => c_claims x.2 y) T).

Lemma one_refl {A} `{EqDecision A} (a : A) : one a a = 1.
Proof. unfold one. by rewrite decide_True. Qed.

(** The ghost after a task moved from [p] to [p']. *)
Lemma ghost_of_step T t cur p p' gh :
  T !! t = Some (cur, p) ->
  (forall e, pend gh e + c_pend p e = pend (ghost_of T) e + c_pend p' e) ->
  (forall g, hold gh g + c_hold p g = hold (ghost_of T) g + c_hold p' g) ->
  (forall g, tracked gh g + c_tracked p g = tracked (ghost_of T) g + c_tracked p' g) ->
  (forall e, own gh e + c_own p e = own (ghost_of T) e + c_own p' e) ->
  (forall c, priv gh c + c_priv p c = priv (ghost_of T) c + c_priv p' c) ->
  (forall x, claims gh x + c_claims p x = claims (ghost_of T) x + c_claims p' x) ->
  ghost_eq gh (ghost_of (<[t:=(cur, p')]> T)).
Proof.
  intros Ht H1 H2 H3 H4 H5 H6. repeat split; intros x; simpl.
  - pose proof (mcount_insert (fun y => c_pend y.2 x) T t _ (cur, p') Ht). specialize (H1 x). simpl in *. lia.
  - pose proof (mcount_insert (fun y => c_hold y.2 x) T t _ (cur, p') Ht). specialize (H2 x). simpl in *. lia.
  - pose proof (mcount_insert (fun y => c_tracked y.2 x) T t _ (cur, p') Ht). specialize (H3 x). simpl in *. lia.
  - pose proof (mcount_insert (fun y => c_own y.2 x) T t _ (cur, p') Ht). specialize (H4 x). simpl in *. lia.
  - pose proof (mcount_insert (fun y => c_priv y.2 x) T t _ (cur, p') Ht). specialize (H5 x). simpl in *. lia.
  - pose proof (mcount_insert (fun y => c_claims y.2 x) T t _ (cur, p') Ht). specialize (H6 x). simpl in *. lia.
Qed.

(** The share of a task is below the total. *)
Section share.
Context (T : pool) (t : positive) (x : task) (Ht : T !! t = Some x).
Lemma share_pend e : c_pend x.2 e <= pend (ghost_of T) e.
Proof. exact (mcount_pos (fun y => c_pend y.2 e) T t x Ht). Qed.
Lemma share_hold g : c_hold x.2 g <= hold (ghost_of T) g.
Proof. exact (mcount_pos (fun y => c_hold y.2 g) T t x Ht). Qed.
Lemma share_tracked g : c_tracked x.2 g <= tracked (ghost_of T) g.
Proof. exact (mcount_pos (fun y => c_tracked y.2 g) T t x Ht). Qed.
Lemma share_own e : c_own x.2 e <= own (ghost_of T) e.
Proof. exact (mcount_pos (fun y => c_own y.2 e) T t x Ht). Qed.
Lemma share_priv c : c_priv x.2 c <= priv (ghost_of T) c.
Proof. exact (mcount_pos (fun y => c_priv y.2 c) T t x Ht). Qed.
Lemma share_claims y : c_claims x.2 y <= claims (ghost_of T) y.
Proof. exact (mcount_pos (fun z => c_claims z.2 y) T t x Ht). Qed.

Lemma share_own_two t' x' e : T !! t' = Some x' -> t' <> t ->
  c_own x.2 e + c_own x'.2 e <= own (ghost_of T) e.
Proof.
  intros Ht' Hne. simpl. rewrite (mcount_delete _ T t x Ht).
  assert (Hd : delete t T !! t' = Some x') by (by rewrite lookup_delete_ne).
  pose proof (mcount_pos (fun y => c_own y.2 e) _ t' x' Hd). simpl in *. lia.
Qed.
End share.

Lemma ghost_of_wake new T : ghost_eq (ghost_of (wake new <$> T)) (ghost_of T).
Proof.
  repeat split; intros y; simpl; rewrite mcount_fmap; apply mcount_ext; intros t [cur p] _;
    destruct p; try done; unfold wake; simpl; by case_match.
Qed.

(** ** What single positions know *)

(** The live groups: no name and no id twice, at most [GROUP_COUNT] of them. *)
Record live_ok (s : kstate) : Prop := {
  lv_names : NoDup (Spec.names (registry_of s));
  lv_ids : NoDup (Spec.ids (registry_of s));
  lv_range : Forall (fun i => 0 <= i <= GROUP_COUNT)%Z (Spec.ids (registry_of s));
  lv_length : (Z.of_nat (length (registry_of s)) <= GROUP_COUNT)%Z
}.

Definition verdict (ev : dazukofs_event) : Z := if decide (deny ev = 0%Z) then 0 else (- EPERM)%Z.

(** A new group may be registered under this name and id. *)
Definition available (nm : string) (id : Z) (s : kstate) : Prop :=
  nm ∉ Spec.names (registry_of s) /\ id ∉ Spec.ids (registry_of s) /\ (0 <= id <= GROUP_COUNT)%Z.

Definition event_is (s : kstate) (evt : loc) (P : dazukofs_event -> Prop) : Prop :=
  exists ev, events s !! evt = Some ev /\ P ev.

Definition pc_inv (s : kstate) (p : pc) : Prop :=
  match p with
  | CA_assign evt ecs => event_is s evt (fun ev => assigned ev = 0%Z /\ deny ev = 0%Z) /\ NoDup ecs /\
      length (registry_of s) <= length ecs /\ (Z.of_nat (length ecs) <= GROUP_COUNT)%Z
  | CA_sleep evt => event_is s evt (fun ev => assigned ev <> 0%Z)
  | CA_verdict evt => event_is s evt (fun ev => assigned ev = 0%Z)
  | CA_release evt err => event_is s evt (fun ev => assigned ev = 0%Z /\ err = verdict ev)
  | AG_create nm id track => available nm id s
  | AG_link g => exists G, groups s !! g = Some G /\ g ∉ group_list s /\ grp_deprecated G = 0%Z /\
      available (name G) (group_id G) s /\ (Z.of_nat (length (registry_of s)) < GROUP_COUNT)%Z
  | AG_counted n => group_count s = n
  | Tracked gid g => exists G, groups s !! g = Some G /\ group_id G = gid
  | _ => True
  end.

(** The task will wake the group. *)
Definition wakes_soon (p : pc) : option loc :=
  match p with RE_wake g | GE_wake g _ => Some g | _ => None end.

(** ** What a step of one task leaves to the others

    [w]: the step holds [group_count_sem] for writing; [x]: the event it
    owns; [p], [p']: its position before and after. *)
Record env_frame (p p' : pc) (s s' : kstate) : Prop := {
  en_ev : ev_frame (own_of p) s s';
  en_live : writes p = true \/ registry_of s' `sublist_of` registry_of s;
  en_off : writes p = true \/ forall g G, g ∉ group_list s -> groups s !! g = Some G ->
    g ∉ group_list s' /\ exists G', groups s' !! g = Some G' /\ ident G' = ident G;
  en_id : forall g G', groups s' !! g = Some G' ->
    groups s !! g = None \/ exists G, groups s !! g = Some G /\ group_id G' = group_id G;
  en_grp : exists new, calls s' = new ++ calls s /\
    (forall g, wakes_soon p = Some g -> woken (GrpQ g) new) /\
    forall g G, groups s !! g = Some G -> idle G ->
      woken (GrpQ g) new \/ (exists G', groups s' !! g = Some G' /\ idle G') \/ wakes_soon p' = Some g
}.

Lemma new_calls_eq s s' new : calls s' = new ++ calls s -> new_calls s s' = new.
Proof.
  intros E. unfold new_calls. rewrite E, length_app.
  replace (length new + length (calls s) - length (calls s)) with (length new) by lia.
  apply take_app_length.
Qed.

Lemma wakes_elem q new : wakes q new = true <-> woken q new.
Proof. unfold wakes, woken. rewrite orb_true_iff, !bool_decide_eq_true. done. Qed.

Lemma op_keep_sublist x s s' : op_keep x s s' -> registry_of s' = registry_of s.
Proof. intros K. unfold registry_of. by rewrite (op_keep_live _ _ _ K). Qed.

(** ** Masked processes *)

(** The stack variable of [open_file] while [dentry_open] runs. *)
Definition proc_of (p : pc) : option loc :=
  match p with GE_nested _ _ q _ | GE_end _ _ q _ => Some q | _ => None end.
Definition may_be_unmasked (p : pc) : bool := match p with GE_end _ _ _ _ => true | _ => false end.

Definition masked (s : kstate) (cur : ptr) (q : loc) : Prop :=
  procs s !! q = Some (mk_proc cur 1) /\ q ∈ proc_list s.
Definition unmasked (s : kstate) (cur : ptr) (q : loc) : Prop :=
  procs s !! q = Some (mk_proc cur 0) /\ q ∉ proc_list s.

Record mask_inv (T : pool) (s : kstate) : Prop := {
  k_nodup : NoDup (proc_list s);
  k_list : forall q, q ∈ proc_list s -> exists t x, T !! t = Some x /\ proc_of x.2 = Some q;
  k_task : forall t cur p q, T !! t = Some (cur, p) -> proc_of p = Some q ->
    (q < next s)%positive /\
    (masked s cur q \/ unmasked s cur q /\ may_be_unmasked p = true);
  k_inj : forall t t' x x' q, T !! t = Some x -> T !! t' = Some x' ->
    proc_of x.2 = Some q -> proc_of x'.2 = Some q -> t = t';
  k_cur : forall t t' x x', T !! t = Some x -> T !! t' = Some x' ->
    running x.2 = true -> running x'.2 = true -> x.1 = x'.1 -> t = t'
}.

(** A step that does not touch the masks. *)
Lemma mask_inv_same T s t cur p p' s' :
  mask_inv T s -> T !! t = Some (cur, p) ->
  procs s' = procs s -> proc_list s' = proc_list s -> (next s <= next s')%positive ->
  proc_of p = None -> proc_of p' = None -> (running p' = true -> running p = true) ->
  mask_inv (<[t:=(cur, p')]> T) s'.
Proof.
  intros K Ht Hp Hl Hn Hq Hq' Hr. destruct K.
  assert (Hback : forall t0 x, <[t:=(cur, p')]> T !! t0 = Some x ->
    exists x0, T !! t0 = Some x0 /\ x0.1 = x.1 /\ (running x.2 = true -> running x0.2 = true) /\
      (forall q, proc_of x.2 = Some q -> x0 = x)).
  { intros t0 x [[<- <-]|[? ?]]%lookup_insert_Some; [|by exists x].
    exists (cur, p). split_and!; [done..|]. simpl. intros q. rewrite Hq'. done. }
  split; rewrite ?Hl; try done.
  - intros q Hin. destruct (k_list0 q Hin) as (t0 & x & Hx & Hxq). exists t0, x.
    split; [|done]. rewrite lookup_insert_ne; [done|]. intros <-. simplify_eq. simpl in Hxq. congruence.
  - intros t0 cur0 p0 q Hx Hpq. destruct (Hback _ _ Hx) as (x0 & H0 & _ & _ & He).
    specialize (He q Hpq) as ->. destruct (k_task0 t0 cur0 p0 q H0 Hpq) as [? Hm]. split; [lia|].
    unfold masked, unmasked in *. by rewrite Hp, Hl.
  - intros t1 t2 x1 x2 q H1 H2 Hq1 Hq2.
    destruct (Hback _ _ H1) as (y1 & E1 & _ & _ & F1), (Hback _ _ H2) as (y2 & E2 & _ & _ & F2).
    specialize (F1 q Hq1) as ->. specialize (F2 q Hq2) as ->. eauto.
  - intros t1 t2 x1 x2 H1 H2 R1 R2 Hc.
    destruct (Hback _ _ H1) as (y1 & E1 & C1 & F1 & _), (Hback _ _ H2) as (y2 & E2 & C2 & F2 & _).
    eapply k_cur0; eauto. congruence.
Qed.

(** ** The invariant *)

Definition excluded (T : pool) : Prop := forall t t' x x',
  T !! t = Some x -> T !! t' = Some x' -> t <> t' -> writes x.2 = true ->
  writes x'.2 = false /\ reads x'.2 = false.

Definition asleep_ok (T : pool) (s : kstate) : Prop := forall t cur g,
  T !! t = Some (cur, GE_sleep g) ->
  (exists G, groups s !! g = Some G /\ idle G) \/
  exists t' x, T !! t' = Some x /\ wakes_soon x.2 = Some g.

Record sys_inv (T : pool) (s : kstate) : Prop := {
  si_grp : grp_inv (ghost_of T) s;
  si_live : live_ok s;
  si_count : (group_count s + Z.of_nat (counting T) = Z.of_nat (length (registry_of s)))%Z;
  si_excl : excluded T;
  si_pc : forall t x, T !! t = Some x -> pc_inv s x.2;
  si_mask : mask_inv T s;
  si_sleep : asleep_ok T s
}.

(** What a step of task [t] from [p] has to establish. *)
Record step_ok (T : pool) (t : positive) (cur : ptr) (p : pc) (s : kstate) (p' : pc) (s' : kstate) : Prop := {
  so_grp : grp_inv (ghost_of (<[t:=(cur, p')]> T)) s';
  so_frame : env_frame p p' s s';
  so_live : live_ok s';
  so_count : (group_count s' + Z.of_nat (c_count p') + Z.of_nat (length (registry_of s)) =
              group_count s + Z.of_nat (c_count p) + Z.of_nat (length (registry_of s')))%Z;
  so_pc : pc_inv s' p';
  so_steady : writes p = false -> 0 < counting T -> group_count s' = group_count s;
  so_write : writes p' = true -> writes p = true \/ down_write p = true;
  so_read : reads p' = true -> reads p = true \/ down_read p = true;
  so_mask : mask_inv (<[t:=(cur, p')]> T) s';
  so_sleep : forall g, p' = GE_sleep g -> exists G, groups s' !! g = Some G /\ idle G
}.

Lemma wake_frame new x :
  (wake new x).1 = x.1 /\ own_of (wake new x).2 = own_of x.2 /\ writes (wake new x).2 = writes x.2 /\
  reads (wake new x).2 = reads x.2 /\ proc_of (wake new x).2 = proc_of x.2 /\
  running (wake new x).2 = running x.2 /\ wakes_soon (wake new x).2 = wakes_soon x.2 /\
  may_be_unmasked (wake new x).2 = may_be_unmasked x.2 /\ c_count (wake new x).2 = c_count x.2.
Proof. destruct x as [cur p]. destruct p; unfold wake; simpl; try case_match; by split_and!. Qed.

Lemma sublist_fmap_elem {A B} (f : A -> B) (l l' : list A) (y : B) :
  l `sublist_of` l' -> y ∈ f <$> l -> y ∈ f <$> l'.
Proof. intros Hs Hy. eapply (elem_of_submseteq _ _ _ Hy), sublist_submseteq, fmap_sublist, Hs. Qed.

Lemma available_sublist nm id s s' :
  registry_of s' `sublist_of` registry_of s -> available nm id s -> available nm id s'.
Proof.
  intros Hs (Hn & Hi & Hr). split_and!; try apply Hr; intros Hin.
  - by eapply Hn, sublist_fmap_elem.
  - by eapply Hi, sublist_fmap_elem.
Qed.

Lemma live_ok_sublist s s' : registry_of s' `sublist_of` registry_of s -> live_ok s -> live_ok s'.
Proof.
  intros Hs [Hn Hi Hr Hl]. split.
  - eapply sublist_NoDup; [done|by apply fmap_sublist].
  - eapply sublist_NoDup; [done|by apply fmap_sublist].
  - apply Forall_forall. intros i Hin. rewrite Forall_forall in Hr. apply Hr.
    by eapply sublist_fmap_elem.
  - apply sublist_length in Hs. lia.
Qed.

(** ** One step preserves the invariant *)

(** The positions of the other tasks. *)
Lemma pc_inv_frame p p' s s' q new :
  env_frame p p' s s' -> calls s' = new ++ calls s ->
  (writes p = true -> writes q = false /\ reads q = false) ->
  (forall e, own_of q = Some e -> own_of p <> Some e) ->
  (forall g, 0 < c_tracked q g -> is_Some (groups s' !! g)) ->
  (0 < c_count q -> group_count s' = group_count s) ->
  pc_inv s q -> forall cur, pc_inv s' (wake new (cur, q)).2.
Proof.
  intros F Hnew Hw Ho Ht Hgc Hq cur. destruct F as [[Q B (n1 & E1 & _ & W1) N] L O Id _].
  assert (n1 = new) as -> by (rewrite E1 in Hnew; by apply app_inv_tail in Hnew).
  destruct q; try done; unfold wake; simpl in *.
  - destruct Hq as ((ev & He & Ha & Hy) & Hnd & Hl & ?). split_and!; [|done| |done].
    + exists ev. split; [|done]. apply Q; [|done..]. by apply Ho.
    + destruct L as [L|L]; [destruct (Hw L); done|]. apply sublist_length in L. lia.
  - destruct Hq as (ev & He & Ha). destruct (W1 evt ev He Ha) as [Hin|(ev' & He' & Ha')].
    + rewrite (proj2 (wakes_elem (EvtQ evt) new)) by (by left). done.
    + case_match; [done|]. by exists ev'.
  - destruct Hq as (ev & He & Ha). exists ev. split; [|done]. apply Q; [|done..]. by apply Ho.
  - destruct Hq as (ev & He & Ha & Hv). exists ev. split; [|done]. apply Q; [|done..]. by apply Ho.
  - destruct L as [L|L]; [by destruct (Hw L)|]. by eapply available_sublist.
  - destruct L as [L|L]; [by destruct (Hw L)|]. destruct O as [O|O]; [by destruct (Hw O)|].
    destruct Hq as (G & HG & Hn & Hd & Hav & Hlen).
    destruct (O g G Hn HG) as (? & G' & ? & [= F1 F2 F3]). exists G'.
    rewrite F1, F2, F3. split_and!; try done; [by eapply available_sublist|].
    apply sublist_length in L. lia.
  - rewrite Hgc by lia. done.
  - by case_match.
  - destruct Hq as (G & HG & Hi). destruct (Ht g) as [G' HG']; [by rewrite one_refl; lia|].
    exists G'. split; [done|]. destruct (Id g G' HG') as [|(G0 & HG0 & E)]; congruence.
Qed.

Lemma lookup_wake new (T : pool) (t : positive) (x : task) :
  (wake new <$> T) !! t = Some x -> exists y, T !! t = Some y /\ x = wake new y.
Proof. rewrite lookup_fmap_Some. intros (y & <- & Hy). eauto. Qed.

Lemma mask_inv_wake new (T : pool) s : mask_inv T s -> mask_inv (wake new <$> T) s.
Proof.
  intros []. split; [done|..].
  - intros q Hq. destruct (k_list0 q Hq) as (t & x & Hx & Hxq).
    exists t, (wake new x). rewrite lookup_fmap, Hx. split; [done|].
    by destruct (wake_frame new x) as (_ & _ & _ & _ & -> & _).
  - intros t cur p q Hx Hq. destruct (lookup_wake _ _ _ _ Hx) as ([cur0 p0] & H0 & E).
    destruct (wake_frame new (cur0, p0)) as (E1 & _ & _ & _ & E2 & _ & _ & E3 & _).
    rewrite <-E in E1, E2, E3. simpl in E1, E2, E3. subst cur0. rewrite E3. apply (k_task0 t cur p0 q H0). congruence.
  - intros t t' x x' q Hx Hx'. destruct (lookup_wake _ _ _ _ Hx) as (y & Hy & ->).
    destruct (lookup_wake _ _ _ _ Hx') as (y' & Hy' & ->).
    destruct (wake_frame new y) as (_ & _ & _ & _ & -> & _).
    destruct (wake_frame new y') as (_ & _ & _ & _ & -> & _). eauto.
  - intros t t' x x' Hx Hx'. destruct (lookup_wake _ _ _ _ Hx) as (y & Hy & ->).
    destruct (lookup_wake _ _ _ _ Hx') as (y' & Hy' & ->).
    destruct (wake_frame new y) as (-> & _ & _ & _ & _ & -> & _).
    destruct (wake_frame new y') as (-> & _ & _ & _ & _ & -> & _). eauto.
Qed.

Lemma excluded_wake new (T : pool) : excluded T -> excluded (wake new <$> T).
Proof.
  intros E t t' x x' Hx Hx' Hne. destruct (lookup_wake _ _ _ _ Hx) as (y & Hy & ->).
  destruct (lookup_wake _ _ _ _ Hx') as (y' & Hy' & ->).
  destruct (wake_frame new y) as (_ & _ & -> & _ & _).
  destruct (wake_frame new y') as (_ & _ & -> & -> & _). eauto.
Qed.

Lemma counting_wake new (T : pool) : counting (wake new <$> T) = counting T.
Proof.
  unfold counting. rewrite mcount_fmap. apply mcount_ext. intros t x _.
  by destruct (wake_frame new x) as (_ & _ & _ & _ & _ & _ & _ & _ & ->).
Qed.

(** [group_count_sem] at work. *)
Lemma excluded_step T t cur p p' env :
  excluded T -> T !! t = Some (cur, p) -> enabled T p env ->
  (writes p' = true -> writes p = true \/ down_write p = true) ->
  (reads p' = true -> reads p = true \/ down_read p = true) ->
  excluded (<[t:=(cur, p')]> T).
Proof.
  intros E Ht En Hw Hr t1 t2 x1 x2 H1 H2 Hne W1.
  assert (En' : (down_read p = true -> free_to_read T) /\ (down_write p = true -> free_to_write T))
    by (destruct p; done).
  destruct En' as [Er Ew]. apply lookup_insert_Some in H1, H2.
  destruct H1 as [[<- <-]|[Hn1 H1]], H2 as [[<- <-]|[Hn2 H2]]; [done|..|by eauto].
  - destruct (Hw W1) as [W|W]; [eapply (E t t2 (cur, p)); eauto|]. by apply (Ew W t2 x2).
  - simpl. split; apply not_true_is_false.
    + intros W. destruct (Hw W) as [W'|W'].
      * destruct (E t1 t x1 (cur, p)) as [? ?]; [done..|]. simpl in *. congruence.
      * destruct (Ew W' t1 x1) as [? ?]; [done|]. congruence.
    + intros R. destruct (Hr R) as [R'|R'].
      * destruct (E t1 t x1 (cur, p)) as [? ?]; [done..|]. simpl in *. congruence.
      * pose proof (Er R' t1 x1 H1) as ?. simpl in *. congruence.
Qed.

(** The sleepers. *)
Lemma asleep_step T s t cur p p' s' new :
  asleep_ok T s -> T !! t = Some (cur, p) -> env_frame p p' s s' -> calls s' = new ++ calls s ->
  (forall g, p' = GE_sleep g -> exists G, groups s' !! g = Some G /\ idle G) ->
  asleep_ok (wake new <$> <[t:=(cur, p')]> T) s'.
Proof.
  intros A Ht [_ _ _ _ (n1 & E1 & Hs & Hg)] Hnew Hsl t0 cur0 g H0.
  assert (n1 = new) as -> by (rewrite E1 in Hnew; by apply app_inv_tail in Hnew).
  assert (Hsoon : forall p0 t1, <[t:=(cur, p')]> T !! t1 = Some p0 -> wakes_soon p0.2 = Some g ->
    exists t' x, (wake new <$> <[t:=(cur, p')]> T) !! t' = Some x /\ wakes_soon x.2 = Some g).
  { intros x t1 Hx Hw. exists t1, (wake new x). rewrite lookup_fmap, Hx. split; [done|].
    by destruct (wake_frame new x) as (_ & _ & _ & _ & _ & _ & -> & _). }
  destruct (lookup_wake _ _ _ _ H0) as ([c q] & Hx & E).
  destruct q; unfold wake in E; simpl in E; try case_match; simplify_eq.
  apply lookup_insert_Some in Hx as [[<- Hx]|[Hne Hx]].
  { simplify_eq. left. by apply Hsl. }
  assert (Hnw : ~ woken (GrpQ g0) new) by (rewrite <-wakes_elem; congruence).
  destruct (A t0 c g0 Hx) as [(G & HG & Hi)|(t' & x & Hx' & Hw)].
  - destruct (Hg g0 G HG Hi) as [|[|Hw]]; [done|by left|]. right.
    apply (Hsoon (cur, p') t); [apply lookup_insert_eq|done].
  - right. destruct (decide (t' = t)) as [->|Hn]; [|apply (Hsoon x t'); [by rewrite lookup_insert_ne|done]].
    rewrite Ht in Hx'. simplify_eq. by destruct Hnw; apply Hs.
Qed.

Lemma sys_inv_step T s t cur p p' s' env :
  sys_inv T s -> T !! t = Some (cur, p) -> enabled T p env -> step_ok T t cur p s p' s' ->
  sys_inv (wake (new_calls s s') <$> <[t:=(cur, p')]> T) s'.
Proof.
  intros V Ht En K. pose proof (so_frame _ _ _ _ _ _ _ K) as F.
  pose proof F as [_ _ _ _ (new & Hnew & _)]. rewrite (new_calls_eq _ _ _ Hnew).
  assert (Ig : grp_inv (ghost_of (wake new <$> <[t:=(cur, p')]> T)) s')
    by (eapply grp_inv_proper_l; [symmetry; apply ghost_of_wake|apply K]).
  pose proof (excluded_step _ _ _ _ p' _ (si_excl _ _ V) Ht En (so_write _ _ _ _ _ _ _ K)
    (so_read _ _ _ _ _ _ _ K)) as Ex.
  split.
  - exact Ig.
  - apply K.
  - rewrite counting_wake. unfold counting.
    pose proof (mcount_insert (fun x : task => c_count x.2) T t (cur, p) (cur, p') Ht) as Hc.
    pose proof (so_count _ _ _ _ _ _ _ K). pose proof (si_count _ _ V). unfold counting in *.
    simpl in *. lia.
  - by apply excluded_wake.
  - intros t0 x Hx. destruct (lookup_wake _ _ _ _ Hx) as ([c q] & Hy & ->).
    apply lookup_insert_Some in Hy as [[<- Hy]|[Hne Hy]].
    { simplify_eq. pose proof (so_pc _ _ _ _ _ _ _ K). unfold wake. destruct q; simpl in *; try done; by case_match. }
    eapply pc_inv_frame; [exact F|exact Hnew| | | | |exact (si_pc _ _ V t0 (c, q) Hy)].
    + intros W. by apply (si_excl _ _ V t t0 (cur, p) (c, q)).
    + intros e Hq Hp. pose proof (share_own_two T t (cur, p) Ht t0 (c, q) e Hy ltac:(done)) as Hle.
      unfold c_own in Hle. simpl in Hle. rewrite Hp, Hq, one_refl in Hle.
      destruct (m_own _ _ (proj1 (si_grp _ _ V)) e); simpl in *; lia.
    + intros g Hg. apply (m_gl_alive _ _ (proj1 Ig)), (u_alive _ _ (proj2 (proj2 Ig))).
      pose proof (share_tracked (wake new <$> <[t:=(cur, p')]> T) t0 (c, q)) as Hsh.
      assert (Hl : (wake new <$> <[t:=(cur, p')]> T) !! t0 = Some (wake new (c, q)))
        by (rewrite lookup_fmap, lookup_insert_ne by done; by rewrite Hy).
      assert (E : wake new (c, q) = (c, q)) by (destruct q; try done; simpl in Hg; lia).
      rewrite E in Hl. specialize (Hsh Hl g). simpl in *. lia.
    + intros Hq. pose proof (mcount_pos (fun x : task => c_count x.2) T t0 (c, q) Hy) as Hle. simpl in Hle.
      apply (so_steady _ _ _ _ _ _ _ K); [|unfold counting; lia]. apply not_true_is_false. intros W.
      destruct (si_excl _ _ V t t0 (cur, p) (c, q) Ht Hy ltac:(done) W). destruct q; simpl in *; (lia || done).
  - apply mask_inv_wake, K.
  - eapply asleep_step; [apply V|exact Ht|exact F|exact Hnew|apply K].
Qed.
