(* ===== verification/EventMask.v ===== *)
(** * Masked processes: [mask_proc], [check_recursion], [open_file]

    The functions that touch [proc_list] change nothing the memory invariant
    is about. *)

From S2P Require Import Prelude EventState EventOps EventInv GroupReg EventFlow EventPost EventTasks EventConc.
From stdpp Require Import strings.

(** Only the masks, the trace and the allocator change. *)
Definition mask_step (s s' : kstate) : Prop :=
  exists new pl pr n, s' = set_calls (new ++ calls s) (set_next n (set_procs pr (set_proc_list pl s))) /\
    (forall e b d, KRelease e b d ∉ new) /\ (next s <= n)%positive.

#[export] Instance mask_step_preorder : PreOrder mask_step.
Proof.
  split.
  - intros s. exists [], (proc_list s), (procs s), (next s). split_and!; [by destruct s|set_solver|done].
  - intros [] ? ? (n1 & pl1 & pr1 & m1 & -> & H1 & L1) (n2 & pl2 & pr2 & m2 & -> & H2 & L2).
    exists (n2 ++ n1), pl2, pr2, m2. simpl in *. split_and!; [by rewrite <-app_assoc|set_solver|lia].
Qed.

Lemma mask_step_call s c : (forall e b d, c <> KRelease e b d) -> mask_step s (set_calls (c :: calls s) s).
Proof.
  intros Hc. exists [c], (proc_list s), (procs s), (next s). split_and!; [by destruct s| |done].
  intros e b d. rewrite list_elem_of_singleton. intros <-. by eapply Hc.
Qed.
Lemma mask_step_procs s pr : mask_step s (set_procs pr s).
Proof. exists [], (proc_list s), pr, (next s). split_and!; [by destruct s|set_solver|done]. Qed.
Lemma mask_step_proc_list s pl : mask_step s (set_proc_list pl s).
Proof. exists [], pl, (procs s), (next s). split_and!; [by destruct s|set_solver|done]. Qed.
Lemma mask_step_next s n : (next s <= n)%positive -> mask_step s (set_next n s).
Proof. intros. exists [], (proc_list s), (procs s), n. split_and!; [by destruct s|set_solver|done]. Qed.

Lemma mask_step_inv gh s s' : mask_step s s' -> grp_inv gh s -> grp_inv gh s'.
Proof.
  intros (new & pl & pr & n & -> & Hn & Hle) I.
  set (s1 := set_next n (set_procs pr (set_proc_list pl s))).
  assert (I1 : grp_inv gh s1).
  { destruct I as (Im & D & []). split_and!; [|done|by split].
    by apply (mem_next gh (set_procs pr (set_proc_list pl s))), mem_set_procs, mem_set_proc_list. }
  by apply (grp_inv_calls gh s1 new).
Qed.

Lemma mask_step_fields s s' : mask_step s s' ->
  groups s' = groups s /\ group_list s' = group_list s /\ group_count s' = group_count s /\
  containers s' = containers s /\ events s' = events s /\ (next s <= next s')%positive /\
  exists new, calls s' = new ++ calls s /\ forall e b d, KRelease e b d ∉ new.
Proof. intros (new & pl & pr & n & -> & Hn & Hle). split_and!; try done. by exists new. Qed.

Lemma mask_step_frames s s' : mask_step s s' ->
  ev_frame None s s' /\ grp_wakes s s' /\ registry_of s' = registry_of s.
Proof.
  intros M. destruct (mask_step_fields _ _ M) as (Hg & Hl & Hc & Hco & He & Hn & new & Hca & Hr).
  split_and!.
  - split; [by rewrite He|by rewrite He; left| |done].
    exists new. split_and!; [done| |].
    + intros e b d Hin. by destruct (Hr e b d).
    + intros e ev He' Ha. right. rewrite He. eauto.
  - by eapply grp_wakes_same.
  - unfold registry_of, live_view. by rewrite Hg, Hl.
Qed.

(** An operation followed by a change of the masks. *)
Lemma env_frame_mask p p' s s1 s' :
  op_frame None s s1 -> mask_step s1 s' -> wakes_soon p = None -> env_frame p p' s s'.
Proof.
  intros [K W] M Hp. destruct (mask_step_fields _ _ M) as (Hg & Hl & _).
  destruct (mask_step_frames _ _ M) as (F & W1 & Hr).
  assert (W' : grp_wakes s s') by (by etrans).
  split.
  - apply ev_frame_weaken. etrans; [apply K|exact F].
  - right. by rewrite Hr, (op_keep_sublist _ _ _ K).
  - right. intros g G Hng HG. rewrite Hg, Hl, (ok_list _ _ _ K). split; [done|].
    assert (E : (ident <$> groups s1) !! g = (ident <$> groups s) !! g) by (by rewrite (ok_ident _ _ _ K)).
    rewrite !lookup_fmap, HG in E. destruct (groups s1 !! g) as [G'|]; [|done].
    apply (inj Some) in E. eauto.
  - intros g G'. rewrite Hg. intros HG'. right.
    assert (E : (ident <$> groups s1) !! g = (ident <$> groups s) !! g) by (by rewrite (ok_ident _ _ _ K)).
    rewrite !lookup_fmap, HG' in E. destruct (groups s !! g) as [G|]; [|done].
    apply (inj Some) in E. injection E as _ E _. eauto.
  - destruct W' as (new & Hn & Hw). exists new. split_and!; [done|congruence|].
    intros g G HG Hi. destruct (Hw g G HG Hi); auto.
Qed.

(** ** [check_recursion] *)

Definition unmask (q : loc) (cur : ptr) (s : kstate) : kstate :=
  set_procs (<[q := mk_proc cur 0]> (procs s))
    (set_proc_list (filter (fun x => x <> q) (proc_list s)) s).

Lemma wp_check_recursion_loop cur pos : forall s,
  (forall q, q ∈ pos -> exists c, procs s !! q = Some (mk_proc c 1)) ->
  wp (check_recursion_loop pos cur) (fun r s' =>
    (r = false /\ s' = s /\ forall q, q ∈ pos -> procs s !! q <> Some (mk_proc cur 1)) \/
    (r = true /\ exists q, q ∈ pos /\ procs s !! q = Some (mk_proc cur 1) /\
       s' = set_calls (KPutPid cur :: calls s) (unmask q cur s))) s.
Proof.
  induction pos as [|q pos IH]; intros s Hal.
  { apply wp_ret. left. split_and!; [done|done|]. intros q H%not_elem_of_nil. done. }
  destruct (Hal q) as [c Hq]; [left|]. cbn [check_recursion_loop].
  apply wp_bind, wp_load with (mk_proc c 1); [done|]. simpl. case_decide as Hc.
  - subst. apply wp_bind, wp_modify, wp_bind. eapply wp_store; [exact Hq|].
    apply wp_bind, wp_modify, wp_ret. right. split; [done|]. exists q. split_and!; [left|done|done].
  - eapply wp_mono; [apply IH; intros; apply Hal; by right|].
    intros r s' [(-> & -> & Hn)|(-> & q' & Hin & ? & ?)].
    + left. split_and!; [done|done|]. intros q' [->|Hin]%elem_of_cons; [congruence|auto].
    + right. split; [done|]. exists q'. split; [by right|done].
Qed.

Lemma wp_check_recursion cur s :
  (forall q, q ∈ proc_list s -> exists c, procs s !! q = Some (mk_proc c 1)) ->
  wp (check_recursion cur) (fun r s' => mask_step s s' /\ next s' = next s /\
    ((r = 1%Z /\ proc_list s' = proc_list s /\ procs s' = procs s /\
      forall q, q ∈ proc_list s -> procs s !! q <> Some (mk_proc cur 1)) \/
     (r = 0%Z /\ exists q, q ∈ proc_list s /\ procs s !! q = Some (mk_proc cur 1) /\
       proc_list s' = filter (fun x => x <> q) (proc_list s) /\
       procs s' = <[q := mk_proc cur 0]> (procs s)))) s.
Proof.
  intros Hal. apply wp_bind, wp_modify, wp_bind, wp_get, wp_bind.
  set (s1 := set_calls _ s). assert (M1 : mask_step s s1) by (by apply mask_step_call).
  eapply wp_mono; [by apply (wp_check_recursion_loop cur (proc_list s) s1)|].
  intros r s2 H. apply wp_bind, wp_modify, wp_ret.
  assert (M3 : mask_step s2 (set_calls (KPutPid cur :: calls s2) s2)) by (by apply mask_step_call).
  destruct H as [(-> & -> & Hn)|(-> & q & Hin & Hq & ->)].
  - split_and!; [by etrans|done|]. by left.
  - split_and!; [|done|right; split; [done|]; by exists q].
    etrans; [exact M1|]. etrans; [|exact M3].
    etrans; [|by apply (mask_step_call (unmask q cur s1))]. unfold unmask.
    etrans; [apply mask_step_proc_list|]. apply mask_step_procs.
Qed.

(** With the masks of the running tasks in place, [check_recursion] finds the
    process exactly if it is opening a file for an event. *)
Lemma mask_alive T s : mask_inv T s ->
  forall q, q ∈ proc_list s -> exists c, procs s !! q = Some (mk_proc c 1).
Proof.
  intros K q Hq. destruct (k_list _ _ K q Hq) as (t & [c p] & Ht & Hp).
  destruct (k_task _ _ K t c p q Ht Hp) as [_ [[? _]|[[_ ?] _]]]; [eauto|done].
Qed.

(** A process that opens no file is not on the list. *)
Lemma mask_absent T s t cur p : mask_inv T s -> T !! t = Some (cur, p) -> running p = true ->
  proc_of p = None -> forall q, q ∈ proc_list s -> procs s !! q <> Some (mk_proc cur 1).
Proof.
  intros K Ht Hr Hp q Hq E. destruct (k_list _ _ K q Hq) as (t' & [c p'] & Ht' & Hp').
  destruct (k_task _ _ K t' c p' q Ht' Hp') as [_ [[E' _]|[[_ ?] _]]]; [|done].
  rewrite E in E'. simplify_eq.
  assert (t = t') as <-; [|simplify_eq; simpl in Hp'; congruence].
  eapply (k_cur _ _ K t t' (c, p) (c, p')); try done. destruct p'; done.
Qed.

Lemma wp_check_recursion_absent T s t cur p : mask_inv T s -> T !! t = Some (cur, p) ->
  running p = true -> proc_of p = None ->
  wp (check_recursion cur) (fun r s' => r = 1%Z /\ mask_step s s' /\ next s' = next s /\
    proc_list s' = proc_list s /\ procs s' = procs s) s.
Proof.
  intros K Ht Hr Hp. eapply wp_mono; [apply wp_check_recursion; by eapply mask_alive|].
  intros r s' (M & N & [(-> & ? & ? & _)|(-> & q & Hin & Hq & _)]); [done|].
  by destruct (mask_absent _ _ _ _ _ K Ht Hr Hp q Hin).
Qed.

(** ** [open_file] *)

(** Filling in the file and the descriptor of a container. *)
Lemma mem_update_container gh s c C f d :
  mem_inv gh s -> containers s !! c = Some C ->
  mem_inv gh (set_containers (<[c := mk_container (ec_event C) f d]> (containers s)) s).
Proof.
  intros I HC. set (C' := mk_container (ec_event C) f d).
  assert (Hr : forall l e, nrefs (<[c:=C']> (containers s)) l e = nrefs (containers s) l e).
  { intros l e. induction l as [|x l IH]; [done|]. rewrite !nrefs_cons, IH. f_equal.
    assert (refers (<[c:=C']> (containers s)) e x <-> refers (containers s) e x) by
      (unfold refers; destruct (decide (x = c)) as [->|];
        [by rewrite lookup_insert_eq, HC|by rewrite lookup_insert_ne]).
    repeat case_decide; tauto. }
  destruct I. split; simpl; try done.
  - intros c' Hc'. destruct (m_linked c' Hc') as (C0 & e & HC0 & He & Hev).
    destruct (decide (c' = c)) as [->|].
    + exists C', e. rewrite lookup_insert_eq. split_and!; [done| |done]. simpl. congruence.
    + exists C0, e. by rewrite lookup_insert_ne.
  - intros e ev He. unfold nlinked; simpl. rewrite Hr. by apply m_assigned.
  - intros c' Hc'. destruct (m_priv c' Hc') as (? & C0 & HC0 & He). split; [done|].
    destruct (decide (c' = c)) as [->|].
    + exists C'. rewrite lookup_insert_eq. split; [done|]. simpl. congruence.
    + exists C0. by rewrite lookup_insert_ne.
  - intros g c' Hc'. destruct (m_claims g c' Hc') as [? Himp]. split; [done|].
    intros [<-|Hs]%lookup_insert_is_Some'; [|by apply Himp]. apply Himp. by rewrite HC.
  - destruct m_bounded as (? & Hb & ?). split_and!; try done.
    intros l [<-|]%lookup_insert_is_Some'; [|by apply Hb]. apply Hb. by rewrite HC.
Qed.

Definition filled (c : loc) (C : dazukofs_event_container) (f : ptr) (d : Z) (s : kstate) : kstate :=
  set_containers (<[c := mk_container (ec_event C) f d]> (containers s)) s.

Lemma filled_inv gh s c C f d :
  grp_inv gh s -> containers s !! c = Some C ->
  grp_inv gh (filled c C f d s) /\ op_frame None s (filled c C f d s).
Proof.
  intros (I & D & U) HC. split; [split_and!|].
  - by apply mem_update_container.
  - exact D.
  - by destruct U; split.
  - split; [split; try done; by apply ev_frame_same|by apply (grp_wakes_same _ _ [])].
Qed.

Lemma wp_open_file_begin s ec C evt ev env cur :
  containers s !! ec = Some C -> ec_event C = Some evt -> events s !! evt = Some ev ->
  let s1 := filled ec C (ec_file C) (oe_unused_fd env) s in
  wp (open_file_begin ec env cur) (fun r s' =>
    match r with
    | inl err => err = oe_unused_fd env /\ (err < 0)%Z /\ s' = s1
    | inr q => q = next s /\ mask_step s1 s' /\ next s' = Pos.succ (next s) /\
        proc_list s' = q :: proc_list s /\ procs s' = <[q := mk_proc cur 1]> (procs s)
    end) s.
Proof.
  intros HC He Hev s1. apply wp_bind, wp_load with C; [done|]. rewrite He. apply wp_bind, wp_ret.
  apply wp_bind. eapply wp_store; [exact HC|]. rewrite <-He.
  change (hset _ _) with s1. case_decide as Hfd; [by apply wp_ret|].
  apply wp_bind. eapply wp_of_run; [reflexivity|]. apply wp_bind, wp_bind, wp_modify, wp_bind.
  eapply wp_load; [apply lookup_insert_eq|]. apply wp_bind, wp_modify.
  eapply wp_store; [apply lookup_insert_eq|]. apply wp_bind, wp_load with ev; [done|].
  apply wp_bind, wp_modify, wp_bind, wp_modify, wp_ret. simpl. rewrite insert_insert_eq.
  split_and!; try done.
  exists [KMntget (evt_mnt ev); KDget (evt_dentry ev); KGetPid cur], (next s :: proc_list s),
    (<[next s := mk_proc cur 1]> (procs s)), (Pos.succ (next s)).
  split_and!; [done|set_solver|simpl; lia].
Qed.

Definition open_result (env : open_env) : Z := if decide (oe_dentry_open env < 0)%Z then oe_dentry_open env else 0%Z.

(** [open_file_end] leaves no mask behind, whether or not [dentry_open] came
    back to [dazukofs_check_access]. *)
Lemma wp_open_file_end s ec C q env cur :
  containers s !! ec = Some C ->
  (forall x, x ∈ proc_list s -> exists c, procs s !! x = Some (mk_proc c 1)) -> NoDup (proc_list s) ->
  (forall x, x ∈ proc_list s -> procs s !! x = Some (mk_proc cur 1) -> x = q) ->
  masked s cur q \/ unmasked s cur q ->
  let s1 := filled ec C (oe_dentry_open env) (ec_fd C) s in
  wp (open_file_end ec q env cur) (fun r s' => r = open_result env /\ mask_step s1 s' /\
    next s' = next s /\ proc_list s' = filter (fun x => x <> q) (proc_list s) /\
    procs s' = delete q (procs s)) s.
Proof.
  intros HC Hal Hnd Hu Hq s1. apply wp_bind, wp_load with C; [done|].
  apply wp_bind. eapply wp_store; [exact HC|]. change (hset _ _) with s1.
  assert (Hend : forall s2, mask_step s1 s2 -> next s2 = next s1 ->
    proc_list s2 = filter (fun x => x <> q) (proc_list s1) ->
    procs s2 = <[q := mk_proc cur 0]> (procs s1) ->
    wp (do! kfree_obj (V := dazukofs_proc) q in
        if decide (oe_dentry_open env < 0)%Z
        then do! kcall_ (KPutUnusedFd (ec_fd C)) in sret (oe_dentry_open env)
        else do! kcall_ (KFdInstall (ec_fd C) (oe_dentry_open env)) in sret 0%Z)
      (fun r s' => r = open_result env /\ mask_step s1 s' /\ next s' = next s1 /\
        proc_list s' = filter (fun x => x <> q) (proc_list s1) /\ procs s' = delete q (procs s1)) s2).
  { intros s2 M2 N2 L2 P2. apply wp_bind. eapply wp_kfree; [simpl; rewrite P2; apply lookup_insert_eq|].
    unfold open_result. simpl.
    case_decide; (apply wp_bind, wp_modify, wp_ret; split_and!; [done| |done|done|];
      [etrans; [exact M2|]; etrans; [apply mask_step_procs|by apply mask_step_call]|
       simpl; rewrite P2; apply delete_insert_eq]). }
  destruct Hq as [[Hq Hin]|[Hq Hnin]].
  - apply wp_bind. eapply wp_load; [exact Hq|]. simpl. apply wp_bind, wp_bind.
    eapply wp_mono; [by apply (wp_check_recursion cur s1)|].
    intros r s2 (M2 & N2 & [(-> & _ & _ & Hn)|(-> & x & Hx & Hx' & Hl & Hp)]); apply wp_ret.
    + by destruct (Hn q Hin).
    + assert (x = q) as -> by auto. by apply Hend.
  - apply wp_bind. eapply wp_load; [exact Hq|]. simpl. apply wp_bind, wp_ret.
    apply Hend; try done.
    + simpl. by rewrite filter_all by (intros x Hx ->; done).
    + simpl. by rewrite insert_id.
Qed.

(** The nested check returns before it would post an event. *)
Lemma wp_open_file_nested s env ign cur q :
  (forall x, x ∈ proc_list s -> exists c, procs s !! x = Some (mk_proc c 1)) ->
  (forall x, x ∈ proc_list s -> procs s !! x = Some (mk_proc cur 1) -> x = q) ->
  masked s cur q ->
  wp (open_file_nested env ign cur) (fun r s' => r = true /\ mask_step s s' /\ next s' = next s /\
    ((proc_list s' = proc_list s /\ procs s' = procs s) \/
     (proc_list s' = filter (fun x => x <> q) (proc_list s) /\
      procs s' = <[q := mk_proc cur 0]> (procs s)))) s.
Proof.
  intros Hal Hu [Hq Hin]. unfold open_file_nested. destruct (oe_checks_access env).
  2: { apply wp_ret. split_and!; [done|reflexivity|done|by left]. }
  apply wp_bind, wp_get, wp_bind. unfold check_access_precheck. case_decide.
  { apply wp_ret, wp_ret. split_and!; [done|reflexivity|done|by left]. }
  apply wp_bind. eapply wp_mono; [by apply (wp_check_recursion cur s)|].
  intros r s' (M & N & [(-> & _ & _ & Hn)|(-> & x & Hx & Hx' & Hl & Hp)]).
  - by destruct (Hn q Hin).
  - assert (x = q) as -> by auto. rewrite decide_True by done. apply wp_ret, wp_ret.
    split_and!; [done..|]. by right.
Qed.

(** ** The masks as tasks move *)

(** Only the mask [q] of one task changes. *)
Lemma mask_inv_change T s t cur p p' q s' :
  mask_inv T s -> T !! t = Some (cur, p) -> running p = true -> (next s <= next s')%positive ->
  (forall q0, proc_of p' = Some q0 -> q0 = q) ->
  proc_of p = Some q \/ proc_of p = None /\ (next s <= q)%positive ->
  (forall q0, q0 <> q -> procs s' !! q0 = procs s !! q0 /\
     (q0 ∈ proc_list s' <-> q0 ∈ proc_list s)) ->
  NoDup (proc_list s') -> (q ∈ proc_list s' -> proc_of p' = Some q) ->
  (proc_of p' = Some q -> (q < next s')%positive /\
     (masked s' cur q \/ unmasked s' cur q /\ may_be_unmasked p' = true)) ->
  mask_inv (<[t:=(cur, p')]> T) s'.
Proof.
  intros K Ht Hr Hn Hp' Hp Hoth Hnd Hq Hm.
  assert (Hne : forall t0 x q0, T !! t0 = Some x -> proc_of x.2 = Some q0 -> t0 <> t -> q0 <> q).
  { intros t0 [c p0] q0 H0 Hq0 Hneq ->. destruct Hp as [Hp|[_ Hp]].
    - apply Hneq. by eapply (k_inj _ _ K t0 t (c, p0) (cur, p) q).
    - destruct (k_task _ _ K t0 c p0 q H0 Hq0) as [Hlt _]. lia. }
  split; [done|..].
  - intros q0 Hin. destruct (decide (q0 = q)) as [->|Hneq].
    + exists t, (cur, p'). split; [apply lookup_insert_eq|by apply Hq].
    + apply (Hoth q0 Hneq) in Hin. destruct (k_list _ _ K q0 Hin) as (t0 & x & Hx & Hxq).
      exists t0, x. split; [|done]. rewrite lookup_insert_ne; [done|]. intros <-.
      simplify_eq. simpl in Hxq. destruct Hp as [Hp|[Hp _]]; congruence.
  - intros t0 c p0 q0 [[<- Hx]|[Hneq H0]]%lookup_insert_Some Hq0; simplify_eq.
    + assert (q0 = q) as -> by auto. auto.
    + assert (q0 <> q) as Hqq by (by eapply (Hne t0 (c, p0))).
      destruct (k_task _ _ K t0 c p0 q0 H0 Hq0) as [? Hmm]. split; [lia|].
      destruct (Hoth q0 Hqq) as [E1 E2]. unfold masked, unmasked in *. by rewrite E1, E2.
  - intros t1 t2 x1 x2 q0 H1 H2 Hq1 Hq2. apply lookup_insert_Some in H1, H2.
    destruct H1 as [[<- <-]|[Hn1 H1]], H2 as [[<- <-]|[Hn2 H2]]; [done|..].
    + assert (q0 = q) as -> by auto. by destruct (Hne t2 x2 q).
    + assert (q0 = q) as -> by auto. by destruct (Hne t1 x1 q).
    + by eapply (k_inj _ _ K t1 t2 x1 x2 q0).
  - intros t1 t2 x1 x2 H1 H2 R1 R2 Hc. apply lookup_insert_Some in H1, H2.
    destruct H1 as [[<- <-]|[Hn1 H1]], H2 as [[<- <-]|[Hn2 H2]]; [done|..].
    + by eapply (k_cur _ _ K t t2 (cur, p) x2).
    + by eapply (k_cur _ _ K t1 t x1 (cur, p)).
    + by eapply (k_cur _ _ K t1 t2 x1 x2).
Qed.

(** The mask of a task is its own. *)
Lemma mask_own T s t cur p q : mask_inv T s -> T !! t = Some (cur, p) -> proc_of p = Some q ->
  forall x, x ∈ proc_list s -> procs s !! x = Some (mk_proc cur 1) -> x = q.
Proof.
  intros K Ht Hp x Hx E. destruct (k_list _ _ K x Hx) as (t' & [c p0] & Ht' & Hp0).
  destruct (k_task _ _ K t' c p0 x Ht' Hp0) as [_ [[E' _]|[[_ ?] _]]]; [|done].
  rewrite E in E'. simplify_eq. assert (t' = t) as ->; [|simplify_eq; simpl in *; congruence].
  apply (k_cur _ _ K t' t (c, p0) (c, p)); try done.
  - by destruct p0.
  - by destruct p.
Qed.
