(* ===== verification/EventSteps.v ===== *)
(** * Every step of every task keeps the invariant *)

From S2P Require Import Prelude EventState EventOps EventInv GroupReg EventFlow EventPost EventTasks EventConc EventMask.
From stdpp Require Import strings.

(** ** Operations that leave the registry and the masks alone *)

Lemma op_keep_lookup x s s' g G' :
  op_keep x s s' -> groups s' !! g = Some G' ->
  exists G, groups s !! g = Some G /\ ident G' = ident G.
Proof.
  intros K HG'. assert (E : (ident <$> groups s') !! g = (ident <$> groups s) !! g)
    by (by rewrite (ok_ident _ _ _ K)).
  rewrite !lookup_fmap, HG' in E. destruct (groups s !! g) as [G|]; [|done].
  apply (inj Some) in E. eauto.
Qed.

Lemma op_keep_lookup_fwd x s s' g G :
  op_keep x s s' -> groups s !! g = Some G ->
  exists G', groups s' !! g = Some G' /\ ident G' = ident G.
Proof.
  intros K HG. assert (E : (ident <$> groups s') !! g = (ident <$> groups s) !! g)
    by (by rewrite (ok_ident _ _ _ K)).
  rewrite !lookup_fmap, HG in E. destruct (groups s' !! g) as [G'|]; [|done].
  apply (inj Some) in E. eauto.
Qed.

(** What such an operation has to tell the sleepers. *)
Definition tells (p p' : pc) (s s' : kstate) : Prop :=
  exists new, calls s' = new ++ calls s /\
    (forall g, wakes_soon p = Some g -> woken (GrpQ g) new) /\
    forall g G, groups s !! g = Some G -> idle G ->
      woken (GrpQ g) new \/ (exists G', groups s' !! g = Some G' /\ idle G') \/ wakes_soon p' = Some g.

Lemma tells_wakes p p' s s' : grp_wakes s s' -> wakes_soon p = None -> tells p p' s s'.
Proof.
  intros (new & E & W) Hp. exists new. split_and!; [done|congruence|].
  intros g G HG Hi. destruct (W g G HG Hi); auto.
Qed.

Lemma env_frame_keep p p' s s' :
  op_keep (own_of p) s s' -> tells p p' s s' -> env_frame p p' s s'.
Proof.
  intros K Hn. split.
  - apply K.
  - right. by rewrite (op_keep_sublist _ _ _ K).
  - right. intros g G Hg HG. rewrite (ok_list _ _ _ K). split; [done|].
    by eapply op_keep_lookup_fwd.
  - intros g G' HG'. right. destruct (op_keep_lookup _ _ _ _ _ K HG') as (G & HG & [= _ E _]). eauto.
  - exact Hn.
Qed.

(** Positions with no part in the registry or the masks. *)
Definition plain (p p' : pc) : bool :=
  bool_decide (c_count p = 0) && bool_decide (c_count p' = 0) &&
  bool_decide (proc_of p = None) && bool_decide (proc_of p' = None) &&
  (negb (running p') || running p) &&
  (negb (writes p') || writes p || down_write p) && (negb (reads p') || reads p || down_read p).

Lemma plain_spec p p' : plain p p' = true ->
  c_count p = 0 /\ c_count p' = 0 /\ proc_of p = None /\ proc_of p' = None /\
  (running p' = true -> running p = true) /\
  (writes p' = true -> writes p = true \/ down_write p = true) /\
  (reads p' = true -> reads p = true \/ down_read p = true).
Proof.
  unfold plain. rewrite !andb_true_iff, !bool_decide_eq_true.
  intros ((((((? & ?) & ?) & ?) & Hr) & Hw) & Hd). split_and!; try done.
  - destruct (running p'), (running p); done.
  - destruct (writes p'), (writes p), (down_write p); auto.
  - destruct (reads p'), (reads p), (down_read p); auto.
Qed.

Lemma step_ok_op T t cur p s p' s' :
  sys_inv T s -> T !! t = Some (cur, p) ->
  grp_inv (ghost_of (<[t:=(cur, p')]> T)) s' ->
  op_keep (own_of p) s s' -> tells p p' s s' -> plain p p' = true -> pc_inv s' p' ->
  (forall g, p' = GE_sleep g -> exists G, groups s' !! g = Some G /\ idle G) ->
  step_ok T t cur p s p' s'.
Proof.
  intros V Ht Ig K Hn Hpl Hpc Hsl.
  destruct (plain_spec _ _ Hpl) as (Hc & Hc' & Hq & Hq' & Hr & Hw & Hd).
  pose proof (op_keep_sublist _ _ _ K) as Er.
  split; try done.
  - by apply env_frame_keep.
  - eapply live_ok_sublist; [|apply V]. by rewrite Er.
  - rewrite Er, (ok_count _ _ _ K), Hc, Hc'. lia.
  - intros _ _. apply K.
  - apply (mask_inv_same T s t cur p p' s'); try done; [apply V|apply K|apply K|apply K].
Qed.

(** The ghost of the next state. *)
Ltac ghosts Ht :=
  eapply ghost_of_step; [exact Ht|..];
  let y := fresh "y" in
  intros y;
  try pose proof (share_pend _ _ _ Ht y); try pose proof (share_hold _ _ _ Ht y);
  try pose proof (share_tracked _ _ _ Ht y); try pose proof (share_own _ _ _ Ht y);
  try pose proof (share_claims _ _ _ Ht y);
  unfold inc, dec, claim_of, unclaim_of, fupd, plus_in, minus_in, c_pend, c_hold, c_tracked, c_own, c_priv, c_claims, one in *;
  simpl in *; repeat case_decide; simplify_eq; try done; try lia.

Ltac new_ghost Ht I := eapply grp_inv_proper_l; [|exact I]; ghosts Ht.

(** A plain operation: its framed result, its ghost, and what it knows. *)
Lemma step_ok_frame T t cur p s p' s' gh :
  sys_inv T s -> T !! t = Some (cur, p) ->
  grp_inv gh s' -> ghost_eq gh (ghost_of (<[t:=(cur, p')]> T)) ->
  op_frame (own_of p) s s' -> wakes_soon p = None -> plain p p' = true -> pc_inv s' p' ->
  (forall g, p' = GE_sleep g -> exists G, groups s' !! g = Some G /\ idle G) ->
  step_ok T t cur p s p' s'.
Proof.
  intros V Ht I E [K W] Hs Hpl Hpc Hsl. apply step_ok_op; try done.
  - by eapply grp_inv_proper_l.
  - by apply tells_wakes.
Qed.

(** ** [dazukofs_return_event] *)

(** What giving a container back and waking the group tell the sleepers. *)
Lemma tells_unclaim p p' s s' g G' :
  calls s' = calls s -> groups s' = <[g:=G']> (groups s) ->
  wakes_soon p = None -> wakes_soon p' = Some g -> tells p p' s s'.
Proof.
  intros Hc Hg Hp Hp'. exists []. split_and!; [done|congruence|]. intros g0 G0 HG0 Hi.
  right. destruct (decide (g = g0)) as [<-|Hne]; [by right|left].
  exists G0. by rewrite Hg, lookup_insert_ne.
Qed.

Lemma tells_wake p p' s s' g :
  calls s' = KWakeUp (PollQ g) :: KWakeUp (GrpQ g) :: calls s -> groups s' = groups s ->
  wakes_soon p = Some g -> tells p p' s s'.
Proof.
  intros Hc Hg Hp. exists [KWakeUp (PollQ g); KWakeUp (GrpQ g)]. split_and!; [done|..].
  - intros g0 Hg0. rewrite Hp in Hg0. simplify_eq. left. set_solver.
  - intros g0 G0 HG0 Hi. right. left. rewrite Hg. eauto.
Qed.

Lemma wp_find_and_use gh gid s :
  grp_inv gh s ->
  wp (find_and_use gid) (fun r s' => op_frame None s s' /\
    match r with
    | None => grp_inv gh s'
    | Some g => grp_inv (set_hold (inc (hold gh) g) gh) s'
    end) s.
Proof.
  intros I. apply wp_bind. eapply wp_mono; [by eapply wp_find_group, I|].
  intros [g|] s0 [-> Hf]; [|by apply wp_ret]. destruct Hf as (Hin & G & HG & _).
  apply wp_bind. eapply wp_mono; [by eapply (wp_use_inc gh s g G)|].
  intros [] s' (I' & _ & O). by apply wp_ret.
Qed.

Lemma held_group gh s g :
  grp_inv gh s -> 0 < hold gh g -> g ∈ group_list s /\ exists G, groups s !! g = Some G.
Proof.
  intros (I & _ & U) Hh. assert (Hin : g ∈ group_list s) by (apply (u_alive _ _ U); lia).
  split; [done|]. by apply (m_gl_alive _ _ I).
Qed.

Section tasks.
Context (T : pool) (t : positive) (cur : ptr) (s : kstate) (env : env) (V : sys_inv T s).

Lemma ok_RE_enter gid id response : T !! t = Some (cur, RE_enter gid id response) ->
  wp (action cur env (RE_enter gid id response)) (step_ok T t cur (RE_enter gid id response) s) s.
Proof.
  intros Ht. pose proof (si_grp _ _ V) as I. apply wp_bind.
  eapply wp_mono; [by apply (wp_return_event_locked (ghost_of T))|].
  intros [[g [[ec evt]|]]|] s' [O P]; apply wp_ret.
  - destruct P as (G & _ & _ & _ & _ & _ & _ & I'). case_decide as Hr; destruct I' as [_ I'].
    + apply (step_ok_frame _ _ _ _ _ _ _ _ V Ht I'); [ghosts Ht|done..].
    + apply (step_ok_frame _ _ _ _ _ _ _ _ V Ht I'); [ghosts Ht|done..].
  - destruct P as (G & _ & _ & _ & _ & _ & I' & _).
    apply (step_ok_frame _ _ _ _ _ _ _ _ V Ht I'); [ghosts Ht|done..].
  - destruct P as (-> & _ & _). apply (step_ok_frame _ _ _ _ _ _ _ _ V Ht I); [ghosts Ht|done..].
Qed.

Lemma ok_RE_release g evt d : T !! t = Some (cur, RE_release g evt d) ->
  wp (action cur env (RE_release g evt d)) (step_ok T t cur (RE_release g evt d) s) s.
Proof.
  intros Ht. pose proof (si_grp _ _ V) as I. apply wp_bind.
  eapply wp_mono; [apply (wp_release_dec (ghost_of T) s evt d I)|].
  { pose proof (share_pend _ _ _ Ht evt) as Hs. simpl in *. rewrite one_refl in Hs. lia. }
  intros [] s' (I' & O & _). apply wp_ret.
  apply (step_ok_frame _ _ _ _ _ _ _ _ V Ht I'); [ghosts Ht|done..].
Qed.

Lemma held p g : T !! t = Some (cur, p) -> group_of p = Some g -> 0 < hold (ghost_of T) g.
Proof.
  intros Ht Hp. pose proof (share_hold _ _ _ Ht g) as Hs. unfold c_hold in Hs. simpl in *.
  rewrite Hp, one_refl in Hs. lia.
Qed.

Lemma claimed p x : T !! t = Some (cur, p) -> claim_pc p = Some x -> 0 < claims (ghost_of T) x.
Proof.
  intros Ht Hp. pose proof (share_claims _ _ _ Ht x) as Hs. unfold c_claims in Hs. simpl in *.
  rewrite Hp, one_refl in Hs. lia.
Qed.

(** Giving a claimed container back. *)
Lemma ok_unclaim p p' g ec : T !! t = Some (cur, p) ->
  claim_pc p = Some (g, ec) -> claim_pc p' = None -> group_of p' = group_of p ->
  plain p p' = true -> wakes_soon p = None -> wakes_soon p' = Some g ->
  own_of p = None -> own_of p' = None -> priv_of p = [] -> priv_of p' = [] ->
  (forall e, c_pend p e = c_pend p' e) -> (forall g, c_tracked p g = c_tracked p' g) ->
  pc_inv s p' -> (forall s', pc_inv s' p' = pc_inv s p') ->
  (forall g, p' <> GE_sleep g) -> is_Some (containers s !! ec) ->
  wp (do! unclaim_event_locked g ec in sret p') (step_ok T t cur p s) s.
Proof.
  intros Ht Hcl Hcl' Hg Hpl Hw Hw' Ho Ho' Hv Hv' He Htr Hpc Hpc' Hns Hal.
  pose proof (claimed _ _ Ht Hcl) as Hc. apply wp_bind.
  eapply wp_mono; [apply (wp_unclaim_locked (ghost_of T)); [apply V|done|done]|].
  intros [] s' (G & HG & Hec & -> & K & I'). apply wp_ret.
  apply (step_ok_op _ _ _ _ _ _ _ V Ht).
  - eapply grp_inv_proper_l; [|exact I']. eapply ghost_of_step; [exact Ht|..]; intros y; simpl.
    + by rewrite He.
    + unfold c_hold. by rewrite Hg.
    + by rewrite Htr.
    + unfold c_own. by rewrite Ho, Ho'.
    + unfold c_priv. by rewrite Hv, Hv'.
    + assert (E : c_claims p y = if decide (y = (g, ec)) then 1 else 0).
      { unfold c_claims, one. rewrite Hcl. repeat case_decide; congruence. }
      assert (E' : c_claims p' y = 0) by (unfold c_claims, one; by rewrite Hcl').
      rewrite E, E'. unfold unclaim_of, fupd. case_decide; [subst; simpl in Hc|]; lia.
  - rewrite Ho. exact K.
  - by eapply tells_unclaim.
  - done.
  - by rewrite Hpc'.
  - intros g0 ->. by destruct (Hns g0).
Qed.

Lemma ok_RE_repost g ec : T !! t = Some (cur, RE_repost g ec) -> is_Some (containers s !! ec) ->
  wp (action cur env (RE_repost g ec)) (step_ok T t cur (RE_repost g ec) s) s.
Proof. intros Ht Hal. by apply (ok_unclaim (RE_repost g ec) (RE_wake g) g ec). Qed.

Lemma ok_GE_unclaim g ec r : T !! t = Some (cur, GE_unclaim g ec r) -> is_Some (containers s !! ec) ->
  wp (action cur env (GE_unclaim g ec r)) (step_ok T t cur (GE_unclaim g ec r) s) s.
Proof. intros Ht Hal. by apply (ok_unclaim (GE_unclaim g ec r) (GE_wake g r) g ec). Qed.

Lemma ok_RE_wake g : T !! t = Some (cur, RE_wake g) ->
  wp (action cur env (RE_wake g)) (step_ok T t cur (RE_wake g) s) s.
Proof.
  intros Ht. pose proof (si_grp _ _ V) as I. apply wp_bind.
  eapply wp_mono; [by apply (wp_wake_group (ghost_of T))|].
  intros [] s' (I' & [K _] & Hc & HG). apply wp_ret.
  apply (step_ok_op _ _ _ _ _ _ _ V Ht); [new_ghost Ht I'|done|by eapply tells_wake|done..].
Qed.

Lemma ok_GE_wake g r : T !! t = Some (cur, GE_wake g r) ->
  wp (action cur env (GE_wake g r)) (step_ok T t cur (GE_wake g r) s) s.
Proof.
  intros Ht. pose proof (si_grp _ _ V) as I. apply wp_bind.
  eapply wp_mono; [by apply (wp_wake_group (ghost_of T))|].
  intros [] s' (I' & [K _] & Hc & HG). apply wp_ret.
  apply (step_ok_op _ _ _ _ _ _ _ V Ht); [new_ghost Ht I'|done|by eapply tells_wake|done..].
Qed.

Lemma ok_RE_dec g r : T !! t = Some (cur, RE_dec g r) ->
  wp (action cur env (RE_dec g r)) (step_ok T t cur (RE_dec g r) s) s.
Proof.
  intros Ht. pose proof (si_grp _ _ V) as I. apply wp_bind.
  eapply wp_mono; [apply (wp_use_dec (ghost_of T) s g I); by eapply held|].
  intros [] s' [I' O]. apply wp_ret. apply (step_ok_frame _ _ _ _ _ _ _ _ V Ht I'); [ghosts Ht|done..].
Qed.

Lemma ok_PO_dec g m : T !! t = Some (cur, PO_dec g m) ->
  wp (action cur env (PO_dec g m)) (step_ok T t cur (PO_dec g m) s) s.
Proof.
  intros Ht. pose proof (si_grp _ _ V) as I. apply wp_bind.
  eapply wp_mono; [apply (wp_use_dec (ghost_of T) s g I); by eapply held|].
  intros [] s' [I' O]. apply wp_ret. apply (step_ok_frame _ _ _ _ _ _ _ _ V Ht I'); [ghosts Ht|done..].
Qed.

Lemma ok_GE_dec g r f : T !! t = Some (cur, GE_dec g r f) ->
  wp (action cur env (GE_dec g r f)) (step_ok T t cur (GE_dec g r f) s) s.
Proof.
  intros Ht. pose proof (si_grp _ _ V) as I. apply wp_bind.
  eapply wp_mono; [apply (wp_use_dec (ghost_of T) s g I); by eapply held|].
  intros [] s' [I' O]. apply wp_ret. apply (step_ok_frame _ _ _ _ _ _ _ _ V Ht I'); [ghosts Ht|done..].
Qed.

Lemma ok_PO_enter gid : T !! t = Some (cur, PO_enter gid) ->
  wp (action cur env (PO_enter gid)) (step_ok T t cur (PO_enter gid) s) s.
Proof.
  intros Ht. pose proof (si_grp _ _ V) as I. apply wp_bind.
  eapply wp_mono; [by apply (wp_find_and_use (ghost_of T))|].
  intros [g|] s' [O I']; apply wp_ret;
    (apply (step_ok_frame _ _ _ _ _ _ _ _ V Ht I'); [ghosts Ht|done..]).
Qed.

Lemma ok_GE_enter gid : T !! t = Some (cur, GE_enter gid) ->
  wp (action cur env (GE_enter gid)) (step_ok T t cur (GE_enter gid) s) s.
Proof.
  intros Ht. pose proof (si_grp _ _ V) as I. apply wp_bind.
  eapply wp_mono; [by apply (wp_find_and_use (ghost_of T))|].
  intros [g|] s' [O I']; apply wp_ret;
    (apply (step_ok_frame _ _ _ _ _ _ _ _ V Ht I'); [ghosts Ht|done..]).
Qed.

(** Steps that only look. *)
Lemma step_ok_look p p' : T !! t = Some (cur, p) -> plain p p' = true -> pc_inv s p' ->
  wakes_soon p = None ->
  ghost_eq (ghost_of T) (ghost_of (<[t:=(cur, p')]> T)) ->
  (forall g, p' = GE_sleep g -> exists G, groups s !! g = Some G /\ idle G) ->
  step_ok T t cur p s p' s.
Proof.
  intros Ht Hpl Hpc Hw Hg Hsl.
  by apply (step_ok_frame _ _ _ _ _ _ _ _ V Ht (si_grp _ _ V)).
Qed.

Lemma ok_PO_check g : T !! t = Some (cur, PO_check g) ->
  wp (action cur env (PO_check g)) (step_ok T t cur (PO_check g) s) s.
Proof.
  intros Ht. destruct (held_group _ _ g (si_grp _ _ V)) as [_ [G HG]]; [by eapply held|].
  apply wp_bind, wp_modify. set (s1 := set_calls (KPollWait (PollQ g) :: calls s) s).
  apply wp_bind, wp_bind, wp_load with G; [done|]. apply wp_ret, wp_ret.
  assert (O : op_frame None s s1) by (apply op_frame_call; by intros ??? [=]).
  assert (I1 : grp_inv (ghost_of T) s1) by (apply grp_inv_call; [by intros ??? [=]|apply V]).
  apply (step_ok_frame _ _ _ _ _ _ _ _ V Ht I1); [ghosts Ht|done..].
Qed.

Lemma ok_GE_check g : T !! t = Some (cur, GE_check g) ->
  wp (action cur env (GE_check g)) (step_ok T t cur (GE_check g) s) s.
Proof.
  intros Ht. destruct (held_group _ _ g (si_grp _ _ V)) as [_ [G HG]]; [by eapply held|].
  apply wp_bind, wp_load with G; [done|]. apply wp_ret. case_decide;
    (apply step_ok_look; [done..|ghosts Ht|done]).
Qed.

Lemma ok_GE_sleep g : T !! t = Some (cur, GE_sleep g) ->
  wp (action cur env (GE_sleep g)) (step_ok T t cur (GE_sleep g) s) s.
Proof. intros Ht. apply wp_ret, step_ok_look; [done..|ghosts Ht|done]. Qed.

Lemma ok_GE_wait g : T !! t = Some (cur, GE_wait g) ->
  wp (action cur env (GE_wait g)) (step_ok T t cur (GE_wait g) s) s.
Proof.
  intros Ht. destruct (held_group _ _ g (si_grp _ _ V)) as [_ [G HG]]; [by eapply held|].
  apply wp_bind, wp_bind, wp_bind, wp_load with G; [done|]. apply wp_ret, wp_bind, wp_load with G; [done|].
  apply wp_ret, wp_ret. destruct (_ || _) eqn:E; [apply step_ok_look; [done..|ghosts Ht|done]|].
  apply orb_false_iff in E as [E1%bool_decide_eq_false_1 E2%bool_decide_eq_false_1].
  destruct (e_signal env); (apply step_ok_look; [done..|ghosts Ht|]); [done|].
  intros g0 [= <-]. exists G. split; [done|]. split; [by apply dec_stable|by apply dec_stable].
Qed.

Lemma ok_GE_claim g : T !! t = Some (cur, GE_claim g) ->
  wp (action cur env (GE_claim g)) (step_ok T t cur (GE_claim g) s) s.
Proof.
  intros Ht. pose proof (si_grp _ _ V) as I.
  destruct (held_group _ _ g I) as [Hin [G HG]]; [by eapply held|].
  apply wp_bind. eapply wp_mono; [by apply (wp_claim_event (ghost_of T) s g G)|].
  intros [ec|] s' [O P]; apply wp_ret.
  - destruct P as (td & Htd & HG' & I'). apply (step_ok_frame _ _ _ _ _ _ _ _ V Ht I'); [ghosts Ht|done..].
  - destruct P as [Htd ->]. apply step_ok_look; [done..|ghosts Ht|done].
Qed.
End tasks.

(** Nobody is between linking a group and counting it while [group_count_sem]
    is held by somebody else. *)
Lemma no_counting T t x : excluded T -> T !! t = Some x ->
  reads x.2 = true \/ writes x.2 = true -> c_count x.2 = 0 -> counting T = 0.
Proof.
  intros E Ht Hx Hc. destruct (decide (counting T = 0)) as [|Hn]; [done|]. exfalso.
  destruct (mcount_witness (fun x : task => c_count x.2) T) as (t' & x' & Ht' & Hpos);
    [unfold counting in Hn; lia|].
  assert (Hw : writes x'.2 = true) by (destruct x' as [? []]; simpl in *; lia || done).
  assert (t' <> t) as Hne by (intros ->; simplify_eq; lia).
  destruct (E t' t x' x Ht' Ht Hne Hw) as [? ?]. destruct Hx; congruence.
Qed.

Lemma count_exact T s t x : sys_inv T s -> T !! t = Some x ->
  reads x.2 = true \/ writes x.2 = true -> c_count x.2 = 0 ->
  group_count s = Z.of_nat (length (registry_of s)).
Proof.
  intros V Ht Hx Hc. pose proof (si_count _ _ V) as E.
  rewrite (no_counting T t x) in E by (done || apply V). lia.
Qed.

(** ** Steps that change the masks *)

Lemma step_ok_mask T t cur p s p' s1 s' gh :
  sys_inv T s -> T !! t = Some (cur, p) -> grp_inv gh s1 ->
  ghost_eq gh (ghost_of (<[t:=(cur, p')]> T)) -> op_frame None s s1 -> mask_step s1 s' ->
  mask_inv (<[t:=(cur, p')]> T) s' ->
  wakes_soon p = None -> c_count p = 0 -> c_count p' = 0 -> writes p' = false ->
  (reads p' = true -> reads p = true \/ down_read p = true) ->
  pc_inv s' p' -> (forall g, p' <> GE_sleep g) ->
  step_ok T t cur p s p' s'.
Proof.
  intros V Ht I E O M K Hw Hc Hc' Hwr Hrd Hpc Hsl.
  destruct (mask_step_frames _ _ M) as (_ & _ & Hr).
  assert (Er : registry_of s' = registry_of s) by (rewrite Hr; eapply op_keep_sublist, O).
  assert (Ec : group_count s' = group_count s).
  { destruct (mask_step_fields _ _ M) as (_ & _ & -> & _). apply O. }
  split; try done.
  - eapply mask_step_inv; [exact M|]. by eapply grp_inv_proper_l.
  - by eapply env_frame_mask.
  - eapply live_ok_sublist; [|apply V]. by rewrite Er.
  - rewrite Er, Ec, Hc, Hc'. lia.
  - rewrite Hwr. done.
  - intros g ->. by destruct (Hsl g).
Qed.

Section tasks.
Context (T : pool) (t : positive) (cur : ptr) (s : kstate) (env : env) (V : sys_inv T s).

(** The container a task has claimed, as long as nobody freed it. *)
Lemma claimed_container p g ec : T !! t = Some (cur, p) -> claim_pc p = Some (g, ec) ->
  is_Some (containers s !! ec) -> exists C evt ev,
    containers s !! ec = Some C /\ ec_event C = Some evt /\ events s !! evt = Some ev.
Proof.
  intros Ht Hp Hs. pose proof (claimed T t cur _ _ Ht Hp) as Hc. pose proof (si_grp _ _ V) as [Im _].
  destruct (m_claims _ _ Im g ec Hc) as [_ Himp]. destruct (Himp Hs) as (G & HG & Hec).
  destruct (mem_container _ _ Im g G ec HG Hec) as (C & e & ev & ? & ? & ? & _). eauto 10.
Qed.

Lemma ok_GE_open g ec : T !! t = Some (cur, GE_open g ec) -> is_Some (containers s !! ec) ->
  wp (action cur env (GE_open g ec)) (step_ok T t cur (GE_open g ec) s) s.
Proof.
  intros Ht Hal. pose proof (si_grp _ _ V) as I. pose proof (si_mask _ _ V) as K.
  destruct (claimed_container _ g ec Ht eq_refl Hal) as (C & evt & ev & HC & He & Hev).
  apply wp_bind. eapply wp_mono; [by eapply (wp_open_file_begin s ec C evt ev (e_open env) cur)|].
  destruct (filled_inv _ s ec C (ec_file C) (oe_unused_fd (e_open env)) I HC) as [I1 O1].
  intros [err|q] s' H; apply wp_ret.
  - destruct H as (-> & _ & ->). apply (step_ok_frame _ _ _ _ _ _ _ _ V Ht I1); [ghosts Ht|done..].
  - destruct H as (-> & M & Hn & Hl & Hp).
    assert (Hfresh : forall q0, q0 ∈ proc_list s -> q0 <> next s).
    { intros q0 Hin ->. destruct (k_list _ _ K _ Hin) as (t' & [c p] & Ht' & Hq').
      destruct (k_task _ _ K t' c p _ Ht' Hq'). lia. }
    apply (step_ok_mask _ _ _ _ _ _ _ _ _ V Ht I1); [ghosts Ht|done|exact M| |done..].
    apply (mask_inv_change T s t cur (GE_open g ec) _ (next s)); try done; simpl.
    + lia.
    + by intros q0 [= <-].
    + right. by split.
    + intros q0 Hne. rewrite Hl, Hp, lookup_insert_ne by done. split; [done|]. set_solver.
    + rewrite Hl. apply NoDup_cons. split; [|apply K]. intros Hin. by destruct (Hfresh _ Hin).
    + intros _. split; [lia|]. left. split; [rewrite Hp; apply lookup_insert_eq|rewrite Hl; left].
Qed.

Lemma ok_GE_nested g ec q oe : T !! t = Some (cur, GE_nested g ec q oe) ->
  wp (action cur env (GE_nested g ec q oe)) (step_ok T t cur (GE_nested g ec q oe) s) s.
Proof.
  intros Ht. pose proof (si_grp _ _ V) as I. pose proof (si_mask _ _ V) as K.
  destruct (k_task _ _ K t cur _ q Ht eq_refl) as [Hlt [Hm|[_ ?]]]; [|done].
  apply wp_bind. eapply wp_mono.
  { apply (wp_open_file_nested s oe (e_ign env) cur q); [by eapply mask_alive| |done].
    by eapply mask_own. }
  intros r s' (-> & M & Hn & Hlp). apply wp_ret.
  apply (step_ok_mask _ _ _ _ _ _ s _ _ V Ht I); [ghosts Ht|done|exact M| |done..].
  apply (mask_inv_change T s t cur (GE_nested g ec q oe) _ q); try done; simpl.
  - rewrite Hn. done.
  - by intros q0 [= <-].
  - by left.
  - intros q0 Hne. destruct Hlp as [[-> ->]|[-> ->]]; [done|].
    rewrite lookup_insert_ne by done. split; [done|]. rewrite list_elem_of_filter. naive_solver.
  - destruct Hlp as [[-> _]|[-> _]]; [apply K|apply NoDup_filter, K].
  - intros _. split; [lia|]. unfold masked, unmasked in *.
    destruct Hlp as [[-> ->]|[-> ->]]; [by left|right]. split; [|done].
    rewrite lookup_insert_eq, list_elem_of_filter. naive_solver.
Qed.

Lemma ok_GE_end g ec q oe : T !! t = Some (cur, GE_end g ec q oe) -> is_Some (containers s !! ec) ->
  wp (action cur env (GE_end g ec q oe)) (step_ok T t cur (GE_end g ec q oe) s) s.
Proof.
  intros Ht [C HC]. pose proof (si_grp _ _ V) as I. pose proof (si_mask _ _ V) as K.
  destruct (k_task _ _ K t cur _ q Ht eq_refl) as [Hlt Hm].
  apply wp_bind. eapply wp_mono.
  { apply (wp_open_file_end s ec C q oe cur HC); [by eapply mask_alive|apply K| |].
    - by eapply mask_own.
    - destruct Hm as [|[? _]]; auto. }
  intros r s' (-> & M & Hn & Hl & Hp). apply wp_ret.
  destruct (filled_inv _ s ec C (oe_dentry_open oe) (ec_fd C) I HC) as [I1 O1].
  assert (Hmask : forall p', proc_of p' = None ->
    mask_inv (<[t:=(cur, p')]> T) s').
  { intros p' Hp'. apply (mask_inv_change T s t cur (GE_end g ec q oe) _ q); try done; rewrite ?Hp'; try done.
    - rewrite Hn. done.
    - by left.
    - intros q0 Hne. rewrite Hl, Hp, lookup_delete_ne by done. split; [done|].
      rewrite list_elem_of_filter. naive_solver.
    - rewrite Hl. apply NoDup_filter, K.
    - rewrite Hl, list_elem_of_filter. naive_solver. }
  case_decide; (apply (step_ok_mask _ _ _ _ _ _ _ _ _ V Ht I1);
    [ghosts Ht|done|exact M|by apply Hmask|done..]).
Qed.

Lemma ok_GE_fields g ec : T !! t = Some (cur, GE_fields g ec) -> is_Some (containers s !! ec) ->
  wp (action cur env (GE_fields g ec)) (step_ok T t cur (GE_fields g ec) s) s.
Proof.
  intros Ht Hal. pose proof (si_grp _ _ V) as I.
  destruct (claimed_container _ g ec Ht eq_refl Hal) as (C & evt & ev & HC & He & Hev).
  apply wp_bind, wp_bind, wp_load with C; [done|]. rewrite He.
  apply wp_bind, wp_ret, wp_bind, wp_load with ev; [done|]. apply wp_ret, wp_ret.
  apply (step_ok_frame _ _ _ _ _ _ _ _ V Ht (grp_inv_unclaim _ _ (g, ec) I)); [ghosts Ht|done..].
Qed.

(** ** [dazukofs_check_access] *)

Lemma ok_CA_enter d m : T !! t = Some (cur, CA_enter d m) ->
  wp (action cur env (CA_enter d m)) (step_ok T t cur (CA_enter d m) s) s.
Proof.
  intros Ht. pose proof (si_grp _ _ V) as I. pose proof (si_mask _ _ V) as K.
  assert (Hdone : forall p' s', p' = ret 0 \/ p' = CA_alloc d m -> mask_step s s' -> next s' = next s ->
    proc_list s' = proc_list s -> procs s' = procs s -> step_ok T t cur (CA_enter d m) s p' s').
  { intros p' s' Hp' M Hn Hl Hp.
    assert (Km : mask_inv (<[t:=(cur, p')]> T) s').
    { apply (mask_inv_same T s t cur (CA_enter d m)); try done; [rewrite Hn; done|].
      destruct Hp' as [-> | ->]; done. }
    destruct Hp' as [-> | ->]; (apply (step_ok_mask _ _ _ _ _ _ s _ _ V Ht I);
      [ghosts Ht|done|exact M|exact Km|(done || (intros _; by right))..]). }
  apply wp_bind, wp_get, wp_bind. unfold check_access_precheck. case_decide.
  { apply wp_ret, wp_ret. apply Hdone; [by left|reflexivity|done..]. }
  apply wp_bind. eapply wp_mono; [by apply (wp_check_recursion_absent T s t cur (CA_enter d m))|].
  intros r s' (-> & M & Hn & Hl & Hp). rewrite decide_False by done.
  case_decide; apply wp_ret, wp_ret; apply Hdone; auto.
Qed.

Lemma ok_CA_alloc d m : T !! t = Some (cur, CA_alloc d m) ->
  wp (action cur env (CA_alloc d m)) (step_ok T t cur (CA_alloc d m) s) s.
Proof.
  intros Ht. pose proof (si_grp _ _ V) as I.
  apply wp_bind. eapply wp_mono; [by apply (wp_check_access_alloc (ghost_of T) d m cur)|].
  intros [[evt ecs]|] s' [O P]; apply wp_ret.
  - destruct P as (_ & Ho & He & Hnd & Hlen & Hp & _ & I').
    apply (step_ok_frame _ _ _ _ _ _ _ _ V Ht I'); [ghosts Ht|done|done|done| |done].
    simpl. rewrite (op_keep_sublist _ _ _ (proj1 O)). pose proof (lv_length _ (si_live _ _ V)).
    rewrite Hlen, (count_exact T s t _ V Ht) by auto. split_and!; [|done|lia|lia].
    eexists. split; [exact He|done].
  - apply (step_ok_frame _ _ _ _ _ _ _ _ V Ht P); [ghosts Ht|done..].
Qed.

Lemma owned p e : T !! t = Some (cur, p) -> own_of p = Some e -> 0 < own (ghost_of T) e.
Proof.
  intros Ht Hp. pose proof (share_own _ _ _ Ht e) as Hs. unfold c_own in Hs. simpl in *.
  rewrite Hp, one_refl in Hs. lia.
Qed.

Lemma ok_CA_assign evt ecs : T !! t = Some (cur, CA_assign evt ecs) ->
  wp (action cur env (CA_assign evt ecs)) (step_ok T t cur (CA_assign evt ecs) s) s.
Proof.
  intros Ht. pose proof (si_grp _ _ V) as I.
  destruct (si_pc _ _ V t _ Ht) as ((ev & He & Ha & _) & Hnd & Hlen & _).
  assert (Hp : forall c, c ∈ ecs -> 0 < priv (ghost_of T) c).
  { intros c Hc. pose proof (share_priv _ _ _ Ht c) as Hs. unfold c_priv in Hs. simpl in *.
    rewrite decide_True in Hs by done. lia. }
  apply wp_bind. eapply wp_mono.
  { apply (wp_assign (ghost_of T) evt ecs s ev); try done.
    unfold registry_of in Hlen. by rewrite length_fmap in Hlen. }
  intros [] s' (I' & O & _). apply wp_ret.
  apply (step_ok_frame _ _ _ _ _ _ _ _ V Ht I'); [|done..].
  ghosts Ht; (destruct (m_priv _ _ (proj1 I) y) as [E _]; [by apply Hp|];
    change (0 + 1 = priv (ghost_of T) y + 0); rewrite E; done).
Qed.

Lemma ok_CA_wait evt : T !! t = Some (cur, CA_wait evt) ->
  wp (action cur env (CA_wait evt)) (step_ok T t cur (CA_wait evt) s) s.
Proof.
  intros Ht. destruct (m_own _ _ (proj1 (si_grp _ _ V)) evt) as [_ [ev He]]; [by eapply owned|].
  apply wp_bind, wp_bind, wp_load with ev; [done|]. apply wp_ret, wp_ret.
  case_decide; (apply (step_ok_look T t cur s V); [done|done| |done|ghosts Ht|done]); by exists ev.
Qed.

Lemma ok_CA_verdict evt : T !! t = Some (cur, CA_verdict evt) ->
  wp (action cur env (CA_verdict evt)) (step_ok T t cur (CA_verdict evt) s) s.
Proof.
  intros Ht. destruct (si_pc _ _ V t _ Ht) as (ev & He & Ha).
  apply wp_bind, wp_bind, wp_load with ev; [done|]. apply wp_ret, wp_ret.
  apply (step_ok_look T t cur s V); [done|done| |done|ghosts Ht|done]. by exists ev.
Qed.

Lemma ok_CA_release evt err : T !! t = Some (cur, CA_release evt err) ->
  wp (action cur env (CA_release evt err)) (step_ok T t cur (CA_release evt err) s) s.
Proof.
  intros Ht. destruct (si_pc _ _ V t _ Ht) as (ev & He & Ha & _).
  apply wp_bind. eapply wp_mono.
  { apply (wp_release_owner (ghost_of T) s evt ev); [apply V| |done|done]. by eapply owned. }
  intros [] s' (I' & O & _). apply wp_ret.
  apply (step_ok_frame _ _ _ _ _ _ _ _ V Ht I'); [ghosts Ht|done..].
Qed.
End tasks.
