(* ===== verification/EventRegSteps.v ===== *)
(** * The steps of the registry and of tracking *)

From S2P Require Import Prelude EventState EventOps EventInv GroupReg EventFlow EventPost EventTasks EventConc EventMask EventSteps.
From stdpp Require Import strings.

(** ** Frames of the registry operations *)

Lemma keep_live_wakes gh s s' : grp_inv gh s -> grp_inv gh s' -> keep_live s s' -> grp_wakes s s'.
Proof.
  intros I I' K. destruct (kl_frame _ _ K) as [_ _ (new & Hn & _) _]. exists new. split; [done|].
  intros g G HG [Ht Hd]. right. destruct (decide (g ∈ group_list s)) as [Hin|Hin].
  2: { exists G. destruct (kl_off _ _ K g G Hin HG). done. }
  assert (Hl : (g, name G, group_id G) ∈ live_view s) by (apply live_of_elem; eauto 10).
  rewrite <-(kl_live _ _ K) in Hl. apply live_of_elem in Hl as (_ & G' & HG' & Hd' & _).
  exists G'. split; [done|]. destruct (kl_back _ _ K g G' HG') as (G0 & HG0 & [-> | ->]);
    simplify_eq; done.
Qed.

Lemma env_frame_keep_live gh p p' s s' :
  grp_inv gh s -> grp_inv gh s' -> keep_live s s' -> wakes_soon p = None -> env_frame p p' s s'.
Proof.
  intros I I' K Hp. split.
  - apply ev_frame_weaken, K.
  - right. by rewrite (registry_keep _ _ K).
  - right. intros g G Hg HG. destruct (kl_off _ _ K g G Hg HG) as [? ?]. eauto.
  - intros g G' HG'. right. destruct (kl_back _ _ K g G' HG') as (G & HG & [-> | ->]); eauto.
  - destruct (keep_live_wakes _ _ _ I I' K) as (new & Hn & Hw).
    exists new. split_and!; [done|congruence|]. intros g G HG Hi. destruct (Hw g G HG Hi); auto.
Qed.

(** A step of a writer that keeps or adds groups. *)
Lemma env_frame_writer p p' s s' :
  writes p = true -> ev_frame None s s' ->
  (forall g G', groups s' !! g = Some G' ->
     groups s !! g = None \/ exists G, groups s !! g = Some G /\ group_id G' = group_id G) ->
  (forall g G, groups s !! g = Some G -> idle G -> exists G', groups s' !! g = Some G' /\ idle G') ->
  wakes_soon p = None -> env_frame p p' s s'.
Proof.
  intros Hw F Hid Hidle Hp. split.
  - by apply ev_frame_weaken.
  - by left.
  - by left.
  - exact Hid.
  - destruct F as [_ _ (new & Hn & _) _]. exists new. split_and!; [done|congruence|]. eauto.
Qed.

(** A live group is retired: the registry loses its entry. *)
Lemma retire_live gh s s' g G :
  grp_inv gh s -> retire_step g G s s' -> g ∈ group_list s ->
  groups s !! g = Some G -> grp_deprecated G = 0%Z ->
  registry_of s' `sublist_of` registry_of s /\ length (registry_of s) = S (length (registry_of s')).
Proof.
  intros I [P _] Hin HG Hd.
  destruct (live_of_retire (groups s) (group_list s) g G) as (l1 & l2 & E1 & E2);
    [apply (m_gl_nodup _ _ (proj1 I))|done..|].
  assert (E : live_view s' = l1 ++ l2)
    by (unfold live_view; by rewrite (gs_groups _ _ _ _ P), (gs_group_list _ _ _ _ P)).
  unfold registry_of. rewrite E. unfold live_view. rewrite E1. split.
  - apply fmap_sublist, sublist_app; [done|]. by apply sublist_cons.
  - rewrite !length_fmap, !length_app. simpl. lia.
Qed.

Lemma env_frame_retire p p' s s1 s' g G :
  op_frame None s s1 -> retire_step g G s1 s' -> registry_of s' `sublist_of` registry_of s1 ->
  g ∈ group_list s1 -> groups s1 !! g = Some G -> wakes_soon p = None -> env_frame p p' s s'.
Proof.
  intros [K W] [P _] Hsub Hin HG Hp. split.
  - apply ev_frame_weaken. etrans; [apply K|apply P].
  - right. by rewrite <-(op_keep_sublist _ _ _ K).
  - right. intros g0 G0 Hg0 HG0. rewrite (gs_group_list _ _ _ _ P), (gs_groups _ _ _ _ P), (ok_list _ _ _ K).
    split; [done|]. rewrite <-(ok_list _ _ _ K) in Hg0. rewrite lookup_insert_ne by (by intros <-).
    by eapply op_keep_lookup_fwd.
  - intros g0 G0'. rewrite (gs_groups _ _ _ _ P). intros HG0'. right.
    assert (exists G1, groups s1 !! g0 = Some G1 /\ group_id G0' = group_id G1) as (G1 & HG1 & E).
    { apply lookup_insert_Some in HG0' as [[<- <-]|[_ ?]]; eauto. }
    destruct (op_keep_lookup _ _ _ _ _ K HG1) as (G0 & HG0 & [= _ E' _]). exists G0. by rewrite E.
  - destruct W as (n1 & E1 & W1), (gs_wake _ _ _ _ P) as (n2 & E2 & Hwk).
    exists (n2 ++ n1). split_and!; [by rewrite E2, E1, app_assoc|congruence|].
    intros g0 G0 HG0 Hi. unfold woken in *. destruct (W1 g0 G0 HG0 Hi) as [[|]|(G1 & HG1 & Hi1)]; [set_solver..|].
    destruct (decide (g = g0)) as [<-|Hne]; [left; set_solver|].
    right. left. exists G1. by rewrite (gs_groups _ _ _ _ P), lookup_insert_ne.
Qed.

(** Two live groups do not share an id. *)
Lemma live_unique s g g' G G' : live_ok s ->
  g ∈ group_list s -> groups s !! g = Some G -> grp_deprecated G = 0%Z ->
  g' ∈ group_list s -> groups s !! g' = Some G' -> grp_deprecated G' = 0%Z ->
  group_id G = group_id G' -> g = g'.
Proof.
  intros L Hin HG Hd Hin' HG' Hd' He.
  assert (Hl : (g, name G, group_id G) ∈ live_view s) by (apply live_of_elem; eauto 10).
  assert (Hl' : (g', name G', group_id G') ∈ live_view s) by (apply live_of_elem; eauto 10).
  pose proof (lv_ids _ L) as Hnd. unfold Spec.ids, registry_of in Hnd.
  rewrite <-list_fmap_compose in Hnd.
  apply list_elem_of_lookup in Hl as [i Hi], Hl' as [j Hj].
  assert (i = j) as <-; [|simplify_eq; done].
  eapply NoDup_lookup; [exact Hnd| |].
  - rewrite list_lookup_fmap, Hi. done.
  - rewrite list_lookup_fmap, Hj. simpl. unfold entry; simpl. by rewrite He.
Qed.

(** ** The steps *)

Section tasks.
Context (T : pool) (t : positive) (cur : ptr) (s : kstate) (env : env) (V : sys_inv T s).

(** A registry step of a task that owns nothing. *)
Lemma step_ok_reg p p' s' :
  T !! t = Some (cur, p) -> grp_inv (ghost_of T) s' -> env_frame p p' s s' -> live_ok s' ->
  (group_count s' + Z.of_nat (c_count p') + Z.of_nat (length (registry_of s)) =
   group_count s + Z.of_nat (c_count p) + Z.of_nat (length (registry_of s')))%Z ->
  ghost_eq (ghost_of T) (ghost_of (<[t:=(cur, p')]> T)) ->
  procs s' = procs s -> proc_list s' = proc_list s -> (next s <= next s')%positive ->
  proc_of p = None -> proc_of p' = None -> (running p' = true -> running p = true) ->
  (writes p' = true -> writes p = true \/ down_write p = true) -> reads p' = false ->
  writes p = true \/ group_count s' = group_count s ->
  pc_inv s' p' -> (forall g, p' <> GE_sleep g) -> step_ok T t cur p s p' s'.
Proof.
  intros Ht I F L C E Hp Hl Hn Hq Hq' Hr Hw Hrd Hgc Hpc Hsl. split; try done.
  - by eapply grp_inv_proper_l.
  - intros Hn0 _. destruct Hgc as [Hgc|]; [congruence|done].
  - by rewrite Hrd.
  - by apply (mask_inv_same T s t cur p p' s' (si_mask _ _ V)).
  - intros g ->. by destruct (Hsl g).
Qed.

Lemma ok_AG_enter nm track : T !! t = Some (cur, AG_enter nm track) ->
  wp (action cur env (AG_enter nm track)) (step_ok T t cur (AG_enter nm track) s) s.
Proof.
  intros Ht. pose proof (si_grp _ _ V) as I. pose proof (si_live _ _ V) as L.
  apply wp_bind. eapply wp_mono; [by apply (wp_add_find (ghost_of T) nm track)|].
  intros [id ex] s' (I' & K & Hres). apply wp_ret. simpl in Hres.
  assert (Er : registry_of s' = registry_of s) by (by apply registry_keep).
  assert (Hok : forall p', p' = ret 0 \/ p' = AG_create nm id track -> pc_inv s' p' ->
    step_ok T t cur (AG_enter nm track) s p' s').
  { intros p' Hp' Hpc. apply step_ok_reg; try done; try (by destruct Hp' as [-> | ->]).
    - by eapply env_frame_keep_live.
    - eapply live_ok_sublist; [|exact L]. by rewrite Er.
    - rewrite Er, (kl_count _ _ K). destruct Hp' as [-> | ->]; done.
    - destruct Hp' as [-> | ->]; ghosts Ht.
    - apply K.
    - apply K.
    - apply (ef_next _ _ _ (kl_frame _ _ K)).
    - destruct Hp' as [-> | ->]; [done|]. intros _. by right.
    - right. apply (kl_count _ _ K). }
  simpl. destruct ex; [by apply Hok; [left|]|]. destruct Hres as [Hn Hf].
  apply Hok; [by right|]. simpl. unfold available. rewrite Er.
  pose proof (Spec.first_free_range _ _ Hf). pose proof (lv_length _ L).
  destruct Hf as (? & ? & _). split_and!; try done. lia.
Qed.

Lemma ok_AG_create nm id track : T !! t = Some (cur, AG_create nm id track) ->
  wp (action cur env (AG_create nm id track)) (step_ok T t cur (AG_create nm id track) s) s.
Proof.
  intros Ht. pose proof (si_grp _ _ V) as I. pose proof (si_live _ _ V) as L.
  destruct (si_pc _ _ V t _ Ht) as (Hn & Hi & Hr).
  pose proof (count_exact T s t _ V Ht (or_intror eq_refl) eq_refl) as Hc.
  apply wp_bind, wp_bind, wp_get. case_decide as Hfull.
  { apply wp_ret, wp_ret. apply step_ok_look; [done..|ghosts Ht|done]. }
  apply wp_bind. eapply wp_mono; [by apply (wp_create_group (ghost_of T) nm id track)|].
  assert (Hok : forall p' s', p' = ret (- ENOMEM) \/ (exists g, p' = AG_link g) ->
    grp_inv (ghost_of T) s' -> groups_step (groups s') s s' -> registry_of s' = registry_of s ->
    (forall g G, groups s !! g = Some G -> groups s' !! g = Some G) ->
    pc_inv s' p' -> step_ok T t cur (AG_create nm id track) s p' s').
  { intros p' s' Hp' I' P Er Hsub Hpc.
    apply step_ok_reg; try done; try (by destruct Hp' as [-> | [g ->]]); try apply P.
    - apply env_frame_writer; [done|apply P| | |done].
      + intros g G' HG'. destruct (groups s !! g) as [G|] eqn:HG; [right|by left].
        exists G. rewrite (Hsub g G HG) in HG'. by simplify_eq.
      + intros g G HG Hid. eauto.
    - eapply live_ok_sublist; [|exact L]. by rewrite Er.
    - rewrite Er, (gp_count _ _ _ P). by destruct Hp' as [-> | [g ->]].
    - destruct Hp' as [-> | [g ->]]; ghosts Ht.
    - intros _. by left.
    - by left. }
  intros [g|] s' [I' H]; apply wp_ret, wp_ret.
  - destruct H as (Hgn & Hgl & P). set (G := new_group nm id track) in *.
    assert (Er : registry_of s' = registry_of s).
    { unfold registry_of, live_view. by rewrite (gp_groups _ _ _ P), (gp_group_list _ _ _ P), live_of_off. }
    apply Hok; [eauto|done| |done| |].
    + destruct P. by split.
    + intros g0 G0 HG0. rewrite (gp_groups _ _ _ P), lookup_insert_ne; [done|]. intros <-. congruence.
    + exists G. rewrite (gp_groups _ _ _ P), (gp_group_list _ _ _ P), lookup_insert_eq.
      unfold available. rewrite Er. pose proof (lv_length _ L). split_and!; try done; simpl; lia.
  - apply Hok; [by left|done| | | |done].
    + destruct H. by split.
    + unfold registry_of, live_view. by rewrite (gp_groups _ _ _ H), (gp_group_list _ _ _ H).
    + intros g G. by rewrite (gp_groups _ _ _ H).
Qed.

Lemma ok_AG_link g : T !! t = Some (cur, AG_link g) ->
  wp (action cur env (AG_link g)) (step_ok T t cur (AG_link g) s) s.
Proof.
  intros Ht. pose proof (si_grp _ _ V) as I. pose proof (si_live _ _ V) as [Ln Li Lr Ll].
  destruct (si_pc _ _ V t _ Ht) as (G & HG & Hg & Hd & (Hn & Hi & Hr) & Hlen).
  apply wp_bind, wp_modify, wp_ret.
  assert (Er : registry_of (set_group_list (group_list s ++ [g]) s) = registry_of s ++ [(name G, group_id G)]).
  { unfold registry_of. by erewrite live_view_link, fmap_app by done. }
  apply step_ok_reg; try done.
  - apply grp_inv_link with G; try done. by eapply (m_off _ _ (proj1 I)).
  - apply env_frame_writer; try done; eauto. by apply ev_frame_same.
  - split; rewrite Er; unfold Spec.names, Spec.ids in *; rewrite ?fmap_app; simpl.
    + apply NoDup_app. split_and!; [done| |apply NoDup_singleton]. by intros x Hx ->%list_elem_of_singleton.
    + apply NoDup_app. split_and!; [done| |apply NoDup_singleton]. by intros x Hx ->%list_elem_of_singleton.
    + apply Forall_app. split; [done|]. by apply Forall_singleton.
    + rewrite length_app. simpl. lia.
  - rewrite Er, length_app. simpl. lia.
  - ghosts Ht.
  - intros _. by left.
  - by left.
Qed.

Lemma ok_AG_count : T !! t = Some (cur, AG_count) ->
  wp (action cur env AG_count) (step_ok T t cur AG_count s) s.
Proof.
  intros Ht. pose proof (si_grp _ _ V) as I. apply wp_bind, wp_get, wp_ret.
  apply step_ok_reg; try done.
  - apply env_frame_writer; try done; eauto.
  - apply V.
  - ghosts Ht.
  - intros _. by left.
  - by left.
Qed.

Lemma ok_AG_counted n : T !! t = Some (cur, AG_counted n) ->
  wp (action cur env (AG_counted n)) (step_ok T t cur (AG_counted n) s) s.
Proof.
  intros Ht. pose proof (si_grp _ _ V) as I. pose proof (si_pc _ _ V t _ Ht) as Hn. simpl in Hn.
  apply wp_bind, wp_modify, wp_ret. apply step_ok_reg; try done.
  - by apply grp_inv_count.
  - apply env_frame_writer; try done; eauto. by apply ev_frame_same.
  - by destruct (si_live _ _ V).
  - simpl. unfold registry_of, live_view. simpl. lia.
  - ghosts Ht.
  - by left.
Qed.

Lemma ok_RG_enter nm : T !! t = Some (cur, RG_enter nm) ->
  wp (action cur env (RG_enter nm)) (step_ok T t cur (RG_enter nm) s) s.
Proof.
  intros Ht. apply wp_bind, wp_get, wp_ret. case_decide;
    (apply step_ok_look; [done..|ghosts Ht|done]).
Qed.

(** A retired group. *)
Lemma step_ok_retire p p' s1 s' g G gh :
  T !! t = Some (cur, p) -> op_frame None s s1 -> grp_inv gh s1 -> grp_inv gh s' ->
  retire_step g G s1 s' -> g ∈ group_list s1 -> groups s1 !! g = Some G -> grp_deprecated G = 0%Z ->
  ghost_eq gh (ghost_of (<[t:=(cur, p')]> T)) -> plain p p' = true -> wakes_soon p = None ->
  writes p = true \/ counting T = 0 ->
  pc_inv s' p' -> (forall g, p' <> GE_sleep g) -> step_ok T t cur p s p' s'.
Proof.
  intros Ht O I1 I' P Hin HG Hd E Hpl Hw Hgc Hpc Hsl.
  destruct (plain_spec _ _ Hpl) as (Hc & Hc' & Hq & Hq' & Hr & Hwr & Hrd).
  destruct (retire_live _ _ _ _ _ I1 P Hin HG Hd) as [Hsub Hlen].
  pose proof (op_keep_sublist _ _ _ (proj1 O)) as Er.
  split; try done.
  - by eapply grp_inv_proper_l.
  - by eapply env_frame_retire.
  - eapply live_ok_sublist; [|apply V]. by rewrite <-Er.
  - rewrite Hc, Hc', (proj2 P), (ok_count _ _ _ (proj1 O)), <-Er, Hlen. lia.
  - intros Hn0 Hc0. destruct Hgc; [congruence|lia].
  - apply (mask_inv_same T s t cur p p' s' (si_mask _ _ V)); try done.
    + rewrite (gs_procs _ _ _ _ (proj1 P)). apply O.
    + rewrite (gs_proc_list _ _ _ _ (proj1 P)). apply O.
    + etrans; [apply (ef_next _ _ _ (ok_ev _ _ _ (proj1 O)))|].
      apply (ef_next _ _ _ (gs_frame _ _ _ _ (proj1 P))).
  - intros g0 ->. by destruct (Hsl g0).
Qed.

Lemma ok_RG_loop nm : T !! t = Some (cur, RG_loop nm) ->
  wp (action cur env (RG_loop nm)) (step_ok T t cur (RG_loop nm) s) s.
Proof.
  intros Ht. pose proof (si_grp _ _ V) as I. apply wp_bind, wp_get, wp_bind.
  eapply wp_mono; [by apply (wp_remove_loop (ghost_of T) nm (group_list s))|].
  intros [] s' [I' [[-> _]|(g & G & Hin & HG & Hd & _ & P)]]; apply wp_ret.
  - apply step_ok_look; [done..|ghosts Ht|done].
  - apply (step_ok_retire _ _ s _ g G (ghost_of T)); try done; [ghosts Ht|by left].
Qed.

Lemma ok_OT_enter gid : T !! t = Some (cur, OT_enter gid) ->
  wp (action cur env (OT_enter gid)) (step_ok T t cur (OT_enter gid) s) s.
Proof.
  intros Ht. pose proof (si_grp _ _ V) as I. apply wp_bind.
  eapply wp_mono; [by eapply wp_find_group, I|]. intros f s0 [-> Hf].
  apply wp_bind. eapply wp_mono; [by apply (wp_open_tracking (ghost_of T))|].
  intros r s' [O [[-> ->]|[-> (g & G & Hin & HG & Hd & Hid & I')]]]; apply wp_ret.
  - destruct f as [g|]; simpl; (apply step_ok_look; [done..|ghosts Ht|done]).
  - destruct f as [g'|].
    + destruct Hf as (Hin' & G' & HG' & Hd' & Hid').
      assert (g' = g) as -> by (eapply (live_unique s g' g G' G); try done; [apply V|congruence]).
      simpl. apply (step_ok_frame _ _ _ _ _ _ _ _ V Ht I'); [ghosts Ht|done|done|done| |done].
      destruct (op_keep_lookup_fwd _ _ _ _ _ (proj1 O) HG) as (G1 & HG1 & [= _ E _]).
      exists G1. split; [done|]. congruence.
    + exfalso. apply (Hf g (name G)), live_of_elem. eauto 10.
Qed.

Lemma ok_Tracked gid g : T !! t = Some (cur, Tracked gid g) -> orderly T s (Tracked gid g) ->
  wp (action cur env (Tracked gid g)) (step_ok T t cur (Tracked gid g) s) s.
Proof.
  intros Ht [Hst Hrc]. pose proof (si_grp _ _ V) as I.
  destruct (si_pc _ _ V t _ Ht) as (G & HG & Hid).
  assert (Htr : 0 < tracked (ghost_of T) g).
  { pose proof (share_tracked _ _ _ Ht g) as Hs. simpl in *. rewrite one_refl in Hs. lia. }
  assert (Hin : g ∈ group_list s) by (apply (u_alive _ _ (proj2 (proj2 I))); lia).
  apply wp_bind. eapply wp_mono.
  { apply (wp_release_tracking (ghost_of T) gid s g G); try done.
    intros g' G' Hin' HG' Hd' Hid'. destruct (decide (g' = g)) as [|Hne]; [done|].
    exfalso. apply Hst, Exists_exists. exists (g', name G', gid). split; [|done]. apply live_of_elem. eauto 10. }
  intros [] s' [I' H]. apply wp_ret. case_decide as Hd; [case_decide|].
  - destruct H as (s1 & E1 & I1 & O1 & P).
    apply (step_ok_retire _ _ s1 _ g (tracked_head (-1) G) _ Ht O1 I1 I' P); try done.
    + by rewrite (ok_list _ _ _ (proj1 O1)).
    + rewrite E1. apply lookup_insert_eq.
    + ghosts Ht.
    + right. destruct (counting T) eqn:Hn; [done|]. exfalso. apply Hrc. split; [|rewrite Hn; lia].
      destruct I as (_ & _ & U). pose proof (u_track _ _ U g G HG Hd). pose proof (u_tracking _ _ U g G HG Htr).
      apply Exists_exists. exists g. rewrite HG. split_and!; try done. lia.
  - apply (step_ok_frame _ _ _ _ _ _ _ _ V Ht I'); [ghosts Ht|done..].
  - subst. apply (step_ok_frame _ _ _ _ _ _ _ _ V Ht I'); [ghosts Ht|done..].
Qed.
End tasks.
