(* ===== verification/EventSafe.v ===== *)
(** * Reachable states

    The invariant holds in every state an orderly run reaches, and a task
    faults only by using a container it claimed and somebody else freed. *)

From S2P Require Import Prelude EventState EventOps EventInv GroupReg EventFlow EventPost EventTasks EventConc EventMask EventSteps EventRegSteps.
From stdpp Require Import strings.

(** ** Scripts: runs that can be evaluated *)

Inductive cmd := Spawn (t : positive) (cur : ptr) (p : pc) | Run (t : positive) (env : env) | Exit (t : positive).

Definition exec1 (c : cmd) (σ : sys) : option sys :=
  match c with
  | Spawn t cur p =>
      if decide (tasks σ !! t = None) then
        if decide (not_running cur (tasks σ)) then
          if entry_point p then Some (spawn t cur p σ) else None
        else None
      else None
  | Run t env => run t env σ
  | Exit t =>
      match tasks σ !! t with
      | Some (cur, Done r f) => Some (mk_sys (delete t (tasks σ)) (mem σ))
      | _ => None
      end
  end.

Fixpoint exec (cs : list cmd) (σ : sys) : option sys :=
  match cs with
  | [] => Some σ
  | c :: cs => match exec1 c σ with Some σ' => exec cs σ' | None => None end
  end.

(** The orderly part of it. *)
Definition orderly_cmd (c : cmd) (σ : sys) : Prop :=
  match c with
  | Run t _ => match tasks σ !! t with Some x => orderly (tasks σ) (mem σ) x.2 | None => True end
  | _ => True
  end.
#[export] Instance orderly_cmd_dec c σ : Decision (orderly_cmd c σ).
Proof. destruct c; simpl; try apply _. destruct (tasks σ !! t); apply _. Defined.

Definition oexec1 (c : cmd) (σ : sys) : option sys := if decide (orderly_cmd c σ) then exec1 c σ else None.
Fixpoint oexec (cs : list cmd) (σ : sys) : option sys :=
  match cs with
  | [] => Some σ
  | c :: cs => match oexec1 c σ with Some σ' => oexec cs σ' | None => None end
  end.

Lemma run_task t env σ σ' : run t env σ = Some σ' -> exists cur p, tasks σ !! t = Some (cur, p).
Proof. unfold run. destruct (tasks σ !! t) as [[cur p]|]; [eauto|done]. Qed.

Lemma exec1_step_if ok c σ σ' : exec1 c σ = Some σ' ->
  (forall t env cur p, c = Run t env -> tasks σ !! t = Some (cur, p) -> ok (tasks σ) (mem σ) p) -> step ok σ σ'.
Proof.
  intros E Hok. destruct c as [t cur p|t env|t]; simpl in E.
  - repeat case_decide; try done. destruct (entry_point p) eqn:Ep; [|done].
    injection E as <-. by apply step_spawn.
  - destruct (run_task _ _ _ _ E) as (cur & p & Ht). eapply step_run; [exact Ht|by eapply Hok|exact E].
  - destruct (tasks σ !! t) as [[cur []]|] eqn:Ht; try done.
    injection E as <-. by eapply step_exit.
Qed.

Lemma exec1_step c σ σ' : exec1 c σ = Some σ' -> step any σ σ'.
Proof. intros E. by apply (exec1_step_if any c). Qed.
Lemma oexec1_exec1 c σ σ' : oexec1 c σ = Some σ' -> orderly_cmd c σ /\ exec1 c σ = Some σ'.
Proof. unfold oexec1. by case_decide. Qed.
Lemma oexec1_step c σ σ' : oexec1 c σ = Some σ' -> step orderly σ σ'.
Proof.
  intros [Ho E]%oexec1_exec1. apply (exec1_step_if orderly c); [done|].
  intros t env cur p -> Ht. simpl in Ho. by rewrite Ht in Ho.
Qed.

Lemma exec_reachable cs σ σ' : reachable σ -> exec cs σ = Some σ' -> reachable σ'.
Proof.
  revert σ. induction cs as [|c cs IH]; simpl; intros σ R E; [by simplify_eq|].
  destruct (exec1 c σ) as [σ1|] eqn:E1; [|done]. apply (IH σ1); [|done].
  eapply rtc_r; [exact R|by eapply exec1_step].
Qed.
Lemma oexec_reachable cs σ σ' : orderly_reachable σ -> oexec cs σ = Some σ' -> orderly_reachable σ'.
Proof.
  revert σ. induction cs as [|c cs IH]; simpl; intros σ R E; [by simplify_eq|].
  destruct (oexec1 c σ) as [σ1|] eqn:E1; [|done]. apply (IH σ1); [|done].
  eapply rtc_r; [exact R|by eapply oexec1_step].
Qed.

(** ** Every step of every task *)

Definition uses_container (p : pc) : option (loc * loc) :=
  match p with GE_nested _ _ _ _ => None | _ => claim_pc p end.

Lemma action_ok T t cur s env p :
  sys_inv T s -> T !! t = Some (cur, p) -> enabled T p env -> orderly T s p ->
  (forall g ec, uses_container p = Some (g, ec) -> is_Some (containers s !! ec)) ->
  wp (action cur env p) (step_ok T t cur p s) s.
Proof.
  intros V Ht En Hst Hu. destruct p; try (by destruct En);
    eauto 3 using ok_CA_enter, ok_CA_alloc, ok_CA_assign, ok_CA_wait, ok_CA_verdict, ok_CA_release,
      ok_AG_enter, ok_AG_create, ok_AG_link, ok_AG_count, ok_AG_counted, ok_RG_enter, ok_RG_loop,
      ok_RE_enter, ok_RE_release, ok_RE_repost, ok_RE_wake, ok_RE_dec,
      ok_GE_enter, ok_GE_wait, ok_GE_sleep, ok_GE_check, ok_GE_claim, ok_GE_open, ok_GE_nested,
      ok_GE_end, ok_GE_fields, ok_GE_unclaim, ok_GE_wake, ok_GE_dec, ok_PO_enter, ok_PO_check,
      ok_PO_dec, ok_OT_enter, ok_Tracked.
Qed.

Lemma action_freed cur s env p g ec :
  uses_container p = Some (g, ec) -> containers s !! ec = None ->
  action cur env p s = Stuck UseAfterFree.
Proof.
  intros Hp Hn. destruct p; simplify_eq/=; unfold sbind;
    first [ rewrite unclaim_freed by done; done
          | unfold open_file_begin, open_file_end, get_event_fields, sbind, load; simpl; by rewrite Hn ].
Qed.

(** ** The invariant *)

Definition inv (σ : sys) : Prop := sys_inv (tasks σ) (mem σ).

Lemma sys_inv_oom T s o : sys_inv T s -> sys_inv T (set_oom o s).
Proof.
  intros []. split; try done.
  - by apply grp_inv_oom.
  - by destruct si_live.
  - by destruct si_mask.
Qed.

Definition no_ghost : ghost :=
  mk_ghost (fun _ => 0) (fun _ => 0) (fun _ => 0) (fun _ => 0) (fun _ => 0) (fun _ => 0).

Lemma grp_inv_init : grp_inv no_ghost init_state.
Proof.
  split_and!; [|by intros g G HG|].
  - split; simpl; try (intros; done || lia); try apply NoDup_nil_2.
    + intros g Hg. by apply not_elem_of_nil in Hg.
    + intros c Hc. by apply not_elem_of_nil in Hc.
    + split_and!; intros l [? ?]; done.
    + intros e b d Hc. by apply not_elem_of_nil in Hc.
  - split; simpl; intros; done || lia.
Qed.

Lemma ghost_of_empty : ghost_eq no_ghost (ghost_of ∅).
Proof. repeat split; intros x; simpl; by rewrite mcount_empty. Qed.

Lemma inv_init : inv init_sys.
Proof.
  split; simpl.
  - eapply grp_inv_proper_l; [apply ghost_of_empty|apply grp_inv_init].
  - split; unfold registry_of, live_view; simpl; try apply NoDup_nil_2; [done|unfold GROUP_COUNT; lia].
  - unfold counting. by rewrite mcount_empty.
  - intros t t' x x' H. done.
  - intros t x H. done.
  - split; simpl; try (intros; done); [apply NoDup_nil_2|]. intros q H. by apply not_elem_of_nil in H.
  - intros t cur g H. done.
Qed.

(** Starting and finishing a task. *)
Definition neutral (p : pc) : bool :=
  match p with
  | CA_enter _ _ | AG_enter _ _ | RG_enter _ | RE_enter _ _ _ | GE_enter _ | PO_enter _ | OT_enter _
  | Done _ _ => true
  | _ => false
  end.

Lemma neutral_spec p : neutral p = true ->
  (forall e, c_pend p e = 0) /\ (forall g, c_hold p g = 0) /\ (forall g, c_tracked p g = 0) /\
  (forall e, c_own p e = 0) /\ (forall c, c_priv p c = 0) /\ (forall x, c_claims p x = 0) /\
  c_count p = 0 /\ proc_of p = None /\ writes p = false /\ reads p = false /\ wakes_soon p = None.
Proof. destruct p; try done; intros _; split_and!; try done; intros c; unfold c_priv; simpl; case_decide; set_solver. Qed.

Lemma ghost_of_insert T t cur p : T !! t = None -> neutral p = true ->
  ghost_eq (ghost_of (<[t:=(cur, p)]> T)) (ghost_of T).
Proof.
  intros Ht Hp. destruct (neutral_spec p Hp) as (H1 & H2 & H3 & H4 & H5 & H6 & _).
  repeat split; intros y; simpl; rewrite mcount_insert_fresh by done; simpl;
    rewrite ?H1, ?H2, ?H3, ?H4, ?H5, ?H6; done.
Qed.

Lemma inv_spawn T s t cur p :
  sys_inv T s -> T !! t = None -> not_running cur T -> entry_point p = true ->
  sys_inv (<[t:=(cur, p)]> T) s.
Proof.
  intros V Ht Hr Hp. assert (Hn : neutral p = true) by (by destruct p).
  destruct (neutral_spec p Hn) as (_ & _ & _ & _ & _ & _ & Hc & Hq & Hw & Hrd & Hs).
  pose proof (ghost_of_insert T t cur p Ht Hn) as E. destruct V. split; try done.
  - by eapply grp_inv_proper_l; [symmetry|].
  - unfold counting in *. rewrite mcount_insert_fresh by done. simpl. by rewrite Hc.
  - intros t1 t2 x1 x2 H1 H2 Hne W. apply lookup_insert_Some in H1, H2.
    destruct H1 as [[<- <-]|[_ H1]]; [simpl in W; congruence|].
    destruct H2 as [[<- <-]|[_ H2]]; [done|]. eauto.
  - intros t0 x [[<- <-]|[_ Hx]]%lookup_insert_Some; [by destruct p|eauto].
  - destruct si_mask. split; try done.
    + intros q Hin. destruct (k_list q Hin) as (t0 & x & Hx & Hxq). exists t0, x.
      split; [|done]. rewrite lookup_insert_ne; [done|]. congruence.
    + intros t0 c p0 q [[<- Hx]|[_ Hx]]%lookup_insert_Some Hpq; simplify_eq; eauto.
    + intros t1 t2 x1 x2 q H1 H2 Hq1 Hq2. apply lookup_insert_Some in H1, H2.
      destruct H1 as [[<- <-]|[_ H1]]; [simpl in *; congruence|].
      destruct H2 as [[<- <-]|[_ H2]]; [simpl in *; congruence|eauto].
    + intros t1 t2 x1 x2 H1 H2 R1 R2 Hc0. apply lookup_insert_Some in H1, H2.
      destruct H1 as [[<- <-]|[_ H1]], H2 as [[<- <-]|[_ H2]]; [done|..|eauto].
      * by destruct (Hr t2 x2 H2 R2).
      * by destruct (Hr t1 x1 H1 R1).
  - intros t0 c g [[<- Hx]|[_ Hx]]%lookup_insert_Some; [by simplify_eq|].
    destruct (si_sleep t0 c g Hx) as [|(t' & x & Hx' & Hxw)]; [by left|right].
    exists t', x. split; [|done]. rewrite lookup_insert_ne; [done|]. congruence.
Qed.

Lemma inv_exit T s t cur r f :
  sys_inv T s -> T !! t = Some (cur, Done r f) -> sys_inv (delete t T) s.
Proof.
  intros V Ht. assert (Hd : forall t0 x, delete t T !! t0 = Some x -> T !! t0 = Some x)
    by (intros t0 x [_ H]%lookup_delete_Some; done).
  assert (Hk : forall t0 x, T !! t0 = Some x -> x.2 <> Done r f -> delete t T !! t0 = Some x).
  { intros t0 x Hx Hne. rewrite lookup_delete_ne; [done|]. intros <-. by simplify_eq. }
  assert (E : ghost_eq (ghost_of (delete t T)) (ghost_of T)).
  { rewrite <-(ghost_of_insert (delete t T) t cur (Done r f)); [|apply lookup_delete_eq|done].
    by rewrite insert_delete_id. }
  destruct V. split; eauto.
  - by eapply grp_inv_proper_l; [symmetry|].
  - unfold counting in *. rewrite (mcount_delete _ _ _ _ Ht) in si_count. done.
  - intros t1 t2 x1 x2 H1%Hd H2%Hd. eauto.
  - destruct si_mask. split; eauto.
    intros q Hin. destruct (k_list q Hin) as (t0 & x & Hx & Hxq). exists t0, x.
    split; [|done]. apply Hk; [done|]. intros Hdn. by rewrite Hdn in Hxq.
  - intros t0 c g Hx%Hd. destruct (si_sleep t0 c g Hx) as [|(t' & x & Hx' & Hxw)]; [by left|right].
    exists t', x. split; [|done]. apply Hk; [done|]. intros Hdn. by rewrite Hdn in Hxw.
Qed.

Lemma inv_step σ σ' : inv σ -> step orderly σ σ' -> inv σ'.
Proof.
  intros V H. destruct H as [t cur p env σ σ' Ht Hst Hrun|t cur p σ Ht Hr Hp|t cur r f σ Ht].
  - unfold run in Hrun. rewrite Ht in Hrun. case_decide as En; [|done].
    set (s := set_oom (e_oom env) (mem σ)) in *.
    assert (Vs : sys_inv (tasks σ) s) by (by apply sys_inv_oom).
    destruct (action cur env p s) as [p' s'|w] eqn:E; [|done]. simplify_eq. unfold inv; simpl.
    change (new_calls (mem σ) s') with (new_calls s s').
    assert (Hwp : wp (action cur env p) (step_ok (tasks σ) t cur p s) s).
    { apply action_ok; try done. intros g ec Hu.
      destruct (containers s !! ec) as [C|] eqn:HC; [done|].
      by rewrite (action_freed cur s env p g ec) in E. }
    unfold wp in Hwp. rewrite E in Hwp. by eapply sys_inv_step.
  - by apply inv_spawn.
  - by eapply inv_exit.
Qed.

Lemma inv_reachable σ : orderly_reachable σ -> inv σ.
Proof.
  intros R. unfold orderly_reachable in R. remember init_sys as σ0 eqn:E.
  assert (V : inv σ0) by (subst; apply inv_init). clear E.
  induction R as [|σ1 σ2 σ3 H _ IH]; [done|]. by apply IH, (inv_step σ1).
Qed.
