(* ===== verification/EventRaces.v ===== *)
(** * What the disorderly steps do

    A run is orderly (EventTasks) if no file of a deleted group is closed while its id
    is in use again, and no last file of a group is closed while [dazukofs_add_group]
    counts its group.  Here is what those two steps do, from any state that an orderly
    run reaches. *)

From S2P Require Import Prelude EventState EventOps EventInv GroupReg EventFlow EventPost EventTasks.
From S2P Require Import EventConc EventMask EventSteps EventRegSteps EventSafe.
From stdpp Require Import strings.

(** The open files that were counted for a group. *)
Definition nfiles (T : pool) (g : loc) : nat := mcount (fun x => c_tracked x.2 g) T.

Lemma run_wp t env σ cur p Q : tasks σ !! t = Some (cur, p) -> enabled (tasks σ) p env ->
  wp (action cur env p) Q (set_oom (e_oom env) (mem σ)) ->
  exists p' s', run t env σ = Some (mk_sys (wake (new_calls (mem σ) s') <$> <[t:=(cur, p')]> (tasks σ)) s') /\ Q p' s'.
Proof.
  intros Ht En (p' & s' & E & H)%wp_run. exists p', s'. split; [|done].
  unfold run. by rewrite Ht, decide_True, E by done.
Qed.

Lemma c_tracked_wake new x g : c_tracked (wake new x).2 g = c_tracked x.2 g.
Proof. destruct x as [cur []]; try done; unfold wake; simpl; by case_match. Qed.
Lemma c_count_wake new x : c_count (wake new x).2 = c_count x.2.
Proof. destruct x as [cur []]; try done; unfold wake; simpl; by case_match. Qed.

Lemma nfiles_run new (T : pool) t cur p p' g : T !! t = Some (cur, p) ->
  nfiles (wake new <$> <[t:=(cur, p')]> T) g + c_tracked p g = nfiles T g + c_tracked p' g.
Proof.
  intros Ht. unfold nfiles. rewrite mcount_fmap, (mcount_ext _ (fun x => c_tracked x.2 g)) by (intros; apply c_tracked_wake).
  apply (mcount_insert (fun x => c_tracked x.2 g) T t _ (cur, p') Ht).
Qed.
Lemma counting_run new (T : pool) t cur p p' : T !! t = Some (cur, p) ->
  counting (wake new <$> <[t:=(cur, p')]> T) + c_count p = counting T + c_count p'.
Proof.
  intros Ht. unfold counting. rewrite mcount_fmap, (mcount_ext _ (fun x => c_count x.2)) by (intros; apply c_count_wake).
  apply (mcount_insert (fun x => c_count x.2) T t _ (cur, p') Ht).
Qed.

(** ** The close of a stale file *)

(** The group that the id leads to loses a use, a tracked file and, with the last, its
    registration; no other group changes. *)
Definition robbed (G : dazukofs_group) : dazukofs_group :=
  if decide (track_count G = 1%Z) then retired (tracked_head (-1) G) else tracked_head (-1) G.

Lemma wp_release_by_id gh gid s g G :
  mem_inv gh s -> live_ok s -> g ∈ group_list s -> groups s !! g = Some G -> grp_deprecated G = 0%Z ->
  group_id G = gid -> tracking G <> 0%Z ->
  wp (dazukofs_group_release_tracking gid) (fun _ s' => groups s' = <[g := robbed G]> (groups s)) s.
Proof.
  intros I L Hin HG Hd Hid Htr. apply wp_bind. eapply wp_mono; [by eapply wp_find_group|].
  intros [g1|] s0 [-> Hf].
  2:{ exfalso. apply (Hf g (name G)), live_of_elem. eauto 10. }
  destruct Hf as (Hin1 & G1 & HG1 & Hd1 & Hid1).
  assert (g1 = g) as -> by (eapply (live_unique s g1 g G1 G); try done; congruence). simplify_eq.
  apply wp_bind, wp_load with G; [done|]. rewrite decide_True by done.
  apply wp_bind, wp_bind, wp_load with G; [done|]. eapply wp_store; [done|]. simpl.
  apply wp_bind. eapply wp_load; [apply lookup_insert_eq|]. simpl.
  apply wp_bind. eapply wp_store; [apply lookup_insert_eq|]. simpl. rewrite insert_insert_eq.
  unfold robbed. destruct (decide (track_count G = 1%Z)) as [H1|H1].
  - rewrite decide_True by lia. set (s1 := set_groups (<[g:=tracked_head (-1) G]> (groups s)) s).
    assert (I1 : mem_inv gh s1) by (by eapply mem_update_group).
    change (wp (remove_group g) (fun _ s' => groups s' = <[g := retired (tracked_head (-1) G)]> (groups s)) s1).
    eapply wp_mono; [eapply (wp_remove_group gh s1 g); [done|apply lookup_insert_eq]|].
    intros [] s' (_ & P & _). rewrite (gs_groups _ _ _ _ P). apply insert_insert_eq.
  - rewrite decide_False by lia. by apply wp_ret.
Qed.

Lemma stale_close σ t cur gid g0 g G env : orderly_reachable σ ->
  tasks σ !! t = Some (cur, Tracked gid g0) -> g <> g0 ->
  g ∈ group_list (mem σ) -> groups (mem σ) !! g = Some G -> grp_deprecated G = 0%Z -> group_id G = gid -> tracking G <> 0%Z ->
  exists σ', run t env σ = Some σ' /\ groups (mem σ') = <[g := robbed G]> (groups (mem σ)) /\
    track_count G = Z.of_nat (nfiles (tasks σ) g) /\ nfiles (tasks σ') g = nfiles (tasks σ) g.
Proof.
  intros R Ht Hne Hin HG Hd Hid Htr. pose proof (inv_reachable σ R) as V.
  pose proof (sys_inv_oom _ _ (e_oom env) V) as V'.
  destruct (run_wp t env σ cur (Tracked gid g0) (fun p' s' => p' = ret 0 /\ groups s' = <[g := robbed G]> (groups (mem σ))) Ht)
    as (p' & s' & E & -> & Hs).
  { by split. }
  { apply wp_bind. eapply wp_mono; [by eapply (wp_release_by_id (ghost_of (tasks σ)) gid _ g G); [apply V'|apply V'|..]|].
    intros [] s' Hs. by apply wp_ret. }
  eexists. split; [exact E|]. split_and!; [done| |].
  - apply (u_track _ _ (proj2 (proj2 (si_grp _ _ V))) g G HG Hd).
  - pose proof (nfiles_run (new_calls (mem σ) s') (tasks σ) t cur _ (ret 0) g Ht) as Hn. simpl in *.
    unfold one in Hn. rewrite decide_False in Hn by congruence. lia.
Qed.

(** ** The close of a last file while a group is counted *)

Lemma retires_group gid s : retires gid s -> live_ok s -> forall g0 G0, groups s !! g0 = Some G0 -> group_id G0 = gid ->
  g0 ∈ group_list s -> ~ stale (Tracked gid g0) s -> grp_deprecated G0 = 0%Z /\ track_count G0 = 1%Z.
Proof.
  intros (g & Hin & H)%Exists_exists L g0 G0 HG0 Hid0 Hin0 Hst. destruct (groups s !! g) as [G|] eqn:HG; [|done].
  destruct H as (Hd & Hid & _ & Htc). destruct (decide (g = g0)) as [->|Hne]; [by simplify_eq|].
  destruct Hst. apply Exists_exists. exists (g, name G, gid). split; [|done]. apply live_of_elem. eauto 10.
Qed.

(** The increment of the one overwrites the decrement of the other. *)
Lemma lost_count σ t1 cur1 n t2 cur2 gid g0 env1 env2 : orderly_reachable σ ->
  tasks σ !! t1 = Some (cur1, AG_counted n) -> tasks σ !! t2 = Some (cur2, Tracked gid g0) ->
  retires gid (mem σ) -> ~ stale (Tracked gid g0) (mem σ) ->
  exists σ1 σ2, run t2 env2 σ = Some σ1 /\ run t1 env1 σ1 = Some σ2 /\
    length (registry_of (mem σ)) = S (length (registry_of (mem σ2))) /\
    (group_count (mem σ2) + Z.of_nat (counting (tasks σ2)) = Z.of_nat (length (registry_of (mem σ2))) + 1)%Z.
Proof.
  intros R Ht1 Ht2 Hr Hst. pose proof (inv_reachable σ R) as V. pose proof (sys_inv_oom _ _ (e_oom env2) V) as V'.
  destruct (si_pc _ _ V t2 _ Ht2) as (G & HG & Hid). pose proof (si_pc _ _ V t1 _ Ht1) as Hn. simpl in Hn.
  assert (Htr : 0 < tracked (ghost_of (tasks σ)) g0).
  { pose proof (share_tracked _ _ _ Ht2 g0) as Hs. simpl in *. rewrite one_refl in Hs. lia. }
  pose proof (si_grp _ _ V) as (Im & D & U).
  assert (Hin : g0 ∈ group_list (mem σ)) by (apply (u_alive _ _ U); lia).
  destruct (retires_group gid (mem σ) Hr (si_live _ _ V) g0 G HG Hid Hin Hst) as [Hd Htc].
  rewrite (u_track _ _ U g0 G HG Hd) in Htc.
  destruct (run_wp t2 env2 σ cur2 (Tracked gid g0)
    (fun p' s' => p' = ret 0 /\ length (registry_of (mem σ)) = S (length (registry_of s'))) Ht2) as (p' & s1 & E1 & -> & Hl).
  { by split. }
  { apply wp_bind. eapply wp_mono.
    { apply (wp_release_tracking (ghost_of (tasks σ)) gid _ g0 G (si_grp _ _ V')); try done.
      intros g' G' Hin' HG' Hd' Hid'. destruct (decide (g' = g0)) as [|Hne]; [done|].
      exfalso. apply Hst, Exists_exists. exists (g', name G', gid). split; [|done]. apply live_of_elem. eauto 10. }
    intros [] s' [I' H]. apply wp_ret. split; [done|]. rewrite decide_True in H by done. rewrite decide_True in H by lia.
    destruct H as (s1 & E & I1 & O1 & P).
    destruct (retire_live _ _ _ _ _ I1 P) as [_ Hl]; [by rewrite (ok_list _ _ _ (proj1 O1))|rewrite E; apply lookup_insert_eq|done|].
    rewrite <-Hl. f_equal. symmetry. exact (op_keep_sublist _ _ _ (proj1 O1)). }
  assert (Hne : t1 <> t2) by (intros ->; by simplify_eq).
  set (σ1 := mk_sys _ s1) in *.
  assert (Ht1' : tasks σ1 !! t1 = Some (cur1, AG_counted n)) by (simpl; by rewrite lookup_fmap, lookup_insert_ne, Ht1).
  destruct (run_wp t1 env1 σ1 cur1 (AG_counted n)
    (fun p' s' => p' = ret 0 /\ registry_of s' = registry_of s1 /\ group_count s' = (n + 1)%Z) Ht1') as (p' & s2 & E2 & -> & Hreg & Hgc).
  { by split. }
  { done. }
  exists σ1. eexists. split; [exact E1|]. split; [exact E2|]. cbn [mem tasks]. rewrite Hreg, Hgc. split; [exact Hl|].
  pose proof (counting_run (new_calls (mem σ1) s2) (tasks σ1) t1 cur1 _ (ret 0) Ht1') as Hc. cbn [c_count ret] in Hc.
  pose proof (counting_run (new_calls (mem σ) s1) (tasks σ) t2 cur2 _ (ret 0) Ht2) as Hc2. cbn [c_count ret] in Hc2.
  change (wake (new_calls (mem σ) s1) <$> <[t2:=(cur2, ret 0)]> (tasks σ)) with (tasks σ1) in Hc2.
  pose proof (si_count _ _ V). lia.
Qed.
