(* ===== verification/EventEnd.v ===== *)
(** * Calls come to an end

    However the tasks are interleaved, without new calls they take a bounded number of
    steps: every step brings its task forward, or it is a step of one of the two loops,
    which wait for something, and those come to a halt as long as nothing changes.  And
    a task that does not wait can always go on, or another one can. *)

From S2P Require Import Prelude EventState EventOps EventInv GroupReg EventFlow EventPost EventTasks EventConc EventMask EventSteps EventRegSteps EventSafe.
From stdpp Require Import strings.

(** ** Measures *)

(** How far a call has to go; the positions of a loop are at the same height. *)
Definition rank (p : pc) : nat :=
  match p with
  | CA_enter _ _ => 6 | CA_alloc _ _ => 5 | CA_assign _ _ => 4 | CA_wait _ | CA_sleep _ => 3 | CA_verdict _ => 2 | CA_release _ _ => 1
  | AG_enter _ _ => 5 | AG_create _ _ _ => 4 | AG_link _ => 3 | AG_count => 2 | AG_counted _ => 1
  | RG_enter _ => 2 | RG_loop _ => 1
  | RE_enter _ _ _ => 4 | RE_release _ _ _ | RE_repost _ _ => 3 | RE_wake _ => 2 | RE_dec _ _ => 1
  | GE_enter _ => 8 | GE_wait _ | GE_sleep _ | GE_check _ | GE_claim _ => 7 | GE_open _ _ => 6 | GE_nested _ _ _ _ => 5
  | GE_end _ _ _ _ => 4 | GE_fields _ _ | GE_unclaim _ _ _ => 3 | GE_wake _ _ => 2 | GE_dec _ _ _ => 1
  | PO_enter _ => 3 | PO_check _ => 2 | PO_dec _ _ => 1
  | OT_enter _ => 2 | Tracked _ _ => 1
  | Done _ _ => 0
  end.

(** How far it is from halting in its loop: a process that finds its group idle on the
    way to a claim goes back to sleep. *)
Definition is_idle (s : kstate) (g : loc) : bool :=
  match groups s !! g with Some G => bool_decide (idle G) | None => false end.
Definition nothing_todo (s : kstate) (g : loc) : bool :=
  match groups s !! g with Some G => bool_decide (todo_list G = []) | None => false end.
Definition loop_rank (s : kstate) (p : pc) : nat :=
  match p with
  | CA_wait _ => 1
  | GE_check g => if is_idle s g then 4 else 1
  | GE_claim g => if nothing_todo s g then 3 else 0
  | GE_wait _ => 2
  | _ => 0
  end.

Lemma rank_wake new x : rank (wake new x).2 = rank x.2.
Proof. destruct x as [cur p]. destruct p; try done; unfold wake; simpl; by case_match. Qed.

(** ** One step *)

(** A step goes on, or it is one of a loop, which changes nothing. *)
Definition goes_on (s : kstate) (p p' : pc) (s' : kstate) : Prop :=
  rank p' < rank p \/ s' = s /\ rank p' = rank p /\ loop_rank s p' < loop_rank s p.

Lemma ready_inv g s b s' : get_event_ready g s = Ret b s' -> exists G, groups s !! g = Some G /\
  b = bool_decide (todo_list G <> []) || bool_decide (grp_deprecated G <> 0%Z) /\ s' = s.
Proof.
  unfold get_event_ready, is_event_available, sbind, load. simpl. destruct (groups s !! g) as [G|] eqn:HG; [|done]. simpl. rewrite HG.
  intros [= <- <-]. by exists G.
Qed.

Lemma action_goes_on T cur env p s p' s' : enabled T p env -> action cur env p s = Ret p' s' -> goes_on s p p' s'.
Proof.
  intros En E. unfold goes_on. destruct p; try (by destruct En); cbn in E;
    try (run_inv E; injection E as <- <-; left; repeat case_match; simpl; lia).
  - first_of E n s1 E1. injection E as <- <-. first_of E1 ev s2 E2. apply load_inv in E2 as (_ & ->). injection E1 as <- <-.
    case_decide; [left; simpl; lia|right; split_and!; [done..|simpl; lia]].
  - first_of E ready s1 E1. injection E as <- <-. apply ready_inv in E1 as (G & HG & -> & ->).
    assert (Hi : bool_decide (todo_list G <> []) || bool_decide (grp_deprecated G <> 0%Z) = true -> is_idle s g = false).
    { intros Hor. unfold is_idle. rewrite HG. apply bool_decide_false. intros [Ht Hd]. by rewrite Ht, Hd in Hor. }
    case_match; [right; split_and!; [done..|simpl; rewrite Hi by done; lia]|].
    destruct (e_signal env); [left; simpl; lia|right; split_and!; [done..|simpl; lia]].
  - first_of E G s1 E1. injection E as <- <-. apply load_inv in E1 as (HG & ->). case_decide as Hd; [left; simpl; lia|].
    right. split_and!; [done..|]. simpl. unfold is_idle, nothing_todo. simpl in HG. rewrite HG.
    repeat case_bool_decide; try lia. by destruct H0; split; [|lia].
  - first_of E c s1 E1. injection E as <- <-. first_of E1 G s2 E2. apply load_inv in E2 as (HG & ->).
    destruct (todo_list G) eqn:Ht; [|run_inv E1; injection E1 as <- _; left; simpl; lia].
    injection E1 as <- <-. right. split_and!; [done..|]. simpl. unfold nothing_todo. simpl in HG. rewrite HG, bool_decide_true by done. lia.
  - first_of E early s1 E1. destruct early; [|done]. injection E as <- _. left. simpl. lia.
Qed.

(** ** Runs *)

Definition heights (σ : sys) : nat := mcount (fun x => rank x.2) (tasks σ).
Definition loops (σ : sys) : nat := mcount (fun x => loop_rank (mem σ) x.2) (tasks σ).

(** A bound on the steps to come: the loops halt between two steps that go on. *)
Definition steps_left (σ : sys) : nat := heights σ * (4 * size (tasks σ) + 1) + loops σ.

Lemma loops_bound σ : loops σ <= 4 * size (tasks σ).
Proof. apply mcount_bound. intros x. unfold loop_rank. repeat case_match; lia. Qed.
Lemma steps_bound σ : steps_left σ <= (8 * size (tasks σ)) * (4 * size (tasks σ) + 1) + 4 * size (tasks σ).
Proof.
  unfold steps_left. pose proof (loops_bound σ).
  assert (heights σ <= 8 * size (tasks σ)) by (apply mcount_bound; intros x; unfold rank; case_match; lia). nia.
Qed.

Lemma run_inv t env σ σ' : exec1 (Run t env) σ = Some σ' -> exists cur p p' s', tasks σ !! t = Some (cur, p) /\
  enabled (tasks σ) p env /\ action cur env p (set_oom (e_oom env) (mem σ)) = Ret p' s' /\
  σ' = mk_sys (wake (new_calls (mem σ) s') <$> <[t:=(cur, p')]> (tasks σ)) s'.
Proof.
  simpl. unfold run. destruct (tasks σ !! t) as [[cur p]|] eqn:Ht; [|done].
  case_decide as En; [|done]. destruct (action _ _ _ _) as [p' s'|w] eqn:E; [|done]. intros [= <-]. by exists cur, p, p', s'.
Qed.

Lemma run_decreases t env σ σ' : exec1 (Run t env) σ = Some σ' ->
  size (tasks σ') = size (tasks σ) /\ steps_left σ' < steps_left σ.
Proof.
  intros (cur & p & p' & s' & Ht & En & E & ->)%run_inv. unfold steps_left, heights. simpl.
  rewrite map_size_fmap, map_size_insert_Some by eauto. split; [done|].
  pose proof (mcount_insert (fun x => rank x.2) (tasks σ) t _ (cur, p') Ht) as Hh. simpl in Hh.
  rewrite mcount_fmap, (mcount_ext _ (fun x => rank x.2)) by (intros; apply rank_wake).
  destruct (action_goes_on _ _ _ _ _ _ _ En E) as [Hlt|(-> & Heq & Hlt)].
  - pose proof (loops_bound (mk_sys (wake (new_calls (mem σ) s') <$> <[t:=(cur, p')]> (tasks σ)) s')) as Hb. simpl in Hb.
    rewrite map_size_fmap, map_size_insert_Some in Hb by eauto. nia.
  - pose proof (mcount_insert (fun x => loop_rank (mem σ) x.2) (tasks σ) t _ (cur, p') Ht) as Hl. simpl in Hl.
    assert (Hr : forall q, loop_rank (set_oom (e_oom env) (mem σ)) q = loop_rank (mem σ) q) by (by intros []).
    rewrite !Hr in Hlt.
    assert (Ew : wake (new_calls (mem σ) (set_oom (e_oom env) (mem σ))) <$> <[t:=(cur, p')]> (tasks σ) = <[t:=(cur, p')]> (tasks σ)).
    { apply map_eq. intros i. rewrite lookup_fmap. destruct (_ !! i) as [[c q]|]; [|done]. simpl. unfold new_calls. simpl.
      rewrite Nat.sub_diag. simpl. destruct q; try done. }
    unfold loops. simpl. rewrite Ew, (mcount_ext (fun x => loop_rank (set_oom (e_oom env) (mem σ)) x.2) (fun x => loop_rank (mem σ) x.2))
      by (intros; apply Hr). nia.
Qed.

Lemma orun_inv t env σ σ' : oexec1 (Run t env) σ = Some σ' -> exists cur p p' s', tasks σ !! t = Some (cur, p) /\
  enabled (tasks σ) p env /\ orderly (tasks σ) (mem σ) p /\ action cur env p (set_oom (e_oom env) (mem σ)) = Ret p' s' /\
  σ' = mk_sys (wake (new_calls (mem σ) s') <$> <[t:=(cur, p')]> (tasks σ)) s'.
Proof.
  intros [Ho E]%oexec1_exec1. apply run_inv in E as (cur & p & p' & s' & Ht & En & Ea & ->).
  simpl in Ho. rewrite Ht in Ho. by exists cur, p, p', s'.
Qed.

Definition is_run (c : cmd) : Prop := match c with Run _ _ => True | _ => False end.

Lemma runs_end cs σ σ' : Forall is_run cs -> exec cs σ = Some σ' -> length cs <= steps_left σ.
Proof.
  intros Hcs. revert σ. induction Hcs as [|c cs Hc _ IH]; intros σ; cbn [exec length]; [lia|].
  destruct (exec1 c σ) as [σ1|] eqn:E1; [|done]. intros E. specialize (IH σ1 E). destruct c as [|t env|]; try done.
  destruct (run_decreases t env σ σ1 E1). lia.
Qed.

(** ** Progress *)

(** The task neither waits nor has it returned. *)
Definition busy (p : pc) : bool := match p with CA_sleep _ | GE_sleep _ | Tracked _ _ | Done _ _ => false | _ => true end.

(** A process is about to use the container it claimed, which somebody freed. *)
Definition claim_freed (σ : sys) (t : positive) : Prop := exists cur p g ec,
  tasks σ !! t = Some (cur, p) /\ uses_container p = Some (g, ec) /\ containers (mem σ) !! ec = None.

Lemma enabled_runs σ t cur p env : inv σ -> tasks σ !! t = Some (cur, p) -> busy p = true -> enabled (tasks σ) p env ->
  claim_freed σ t \/ exists σ', oexec1 (Run t env) σ = Some σ'.
Proof.
  intros V Ht Hb En.
  assert (Hc : claim_freed σ t \/ forall g ec, uses_container p = Some (g, ec) -> is_Some (containers (mem σ) !! ec)).
  { destruct (uses_container p) as [[g ec]|] eqn:Hu; [|by right].
    destruct (containers (mem σ) !! ec) as [C|] eqn:HC; [right|left; by exists cur, p, g, ec].
    intros g' ec' [= <- <-]. by exists C. }
  destruct Hc as [Hc|Hc]; [by left|right]. unfold oexec1.
  assert (Ho : orderly (tasks σ) (mem σ) p) by (destruct p; (done || by split; intros [])).
  rewrite decide_True by (simpl; by rewrite Ht). simpl. unfold run. rewrite Ht, decide_True by done.
  assert (Hw : wp (action cur env p) (step_ok (tasks σ) t cur p (set_oom (e_oom env) (mem σ))) (set_oom (e_oom env) (mem σ))).
  { apply action_ok; [by apply sys_inv_oom|done|done|exact Ho|exact Hc]. }
  unfold wp in Hw. destruct (action _ _ _ _); [by eexists|done].
Qed.

(** A task that holds [group_count_sem] can go on. *)
Lemma holder_enabled T p env : writes p = true \/ reads p = true -> busy p = true /\ enabled T p env.
Proof. intros [H|H]; by destruct p. Qed.

Lemma busy_progress σ t cur p env : inv σ -> tasks σ !! t = Some (cur, p) -> busy p = true ->
  exists t', claim_freed σ t' \/ exists σ', oexec1 (Run t' env) σ = Some σ'.
Proof.
  intros V Ht Hb. destruct (decide (enabled (tasks σ) p env)) as [En|Hno]; [exists t; by eapply enabled_runs|].
  assert (Hh : exists t' x, tasks σ !! t' = Some x /\ (writes x.2 = true \/ reads x.2 = true)).
  { destruct (decide (free_to_write (tasks σ))) as [Hf|Hf].
    - destruct Hno. assert (Hr : free_to_read (tasks σ)) by (intros t' x Hx; by apply (Hf t' x Hx)). by destruct p.
    - apply map_not_Forall in Hf as (t' & x & Hx & Hn); [|intros; apply _]. exists t', x. split; [done|].
      destruct (writes x.2), (reads x.2); tauto. }
  destruct Hh as (t' & [c q] & Hx & Hq). destruct (holder_enabled (tasks σ) q env Hq) as [Hbq Enq].
  exists t'. by eapply enabled_runs.
Qed.

(** ** Rest *)

(** Why an access sleeps. *)
Lemma sleeping_assigned σ t cur evt : inv σ -> tasks σ !! t = Some (cur, CA_sleep evt) ->
  (exists g G c, g ∈ group_list (mem σ) /\ groups (mem σ) !! g = Some G /\
     grp_deprecated G = 0%Z /\ c ∈ group_lists G /\ refers (containers (mem σ)) evt c) \/
  (exists t' cur' g d, tasks σ !! t' = Some (cur', RE_release g evt d)).
Proof.
  intros V Ht. destruct (si_pc _ _ V t _ Ht) as (ev & He & Ha).
  pose proof (si_grp _ _ V) as (Im & D & _). destruct (m_assigned _ _ Im evt ev He) as [Has _].
  destruct (decide (nlinked (mem σ) evt = 0)) as [Hz|Hz].
  - right. assert (Hp : 0 < pend (ghost_of (tasks σ)) evt) by lia.
    apply mcount_witness in Hp as (t' & [c p] & Ht' & Hpos).
    destruct p; simpl in Hpos; try lia. unfold one in Hpos. case_decide; [subst|lia]. eauto 10.
  - left. destruct (nrefs_pos (containers (mem σ)) (linked (mem σ)) evt) as (c & Hc & Hr).
    { unfold nlinked in Hz. lia. }
    apply linked_of_elem in Hc as (g & G & Hg & HG & Hc). exists g, G, c. split_and!; try done.
    destruct (decide (grp_deprecated G = 0%Z)) as [|Hd]; [done|].
    rewrite (D g G HG Hd) in Hc. by apply not_elem_of_nil in Hc.
Qed.

(** Nobody has anything to do: every call has returned, or is an access that a live
    group still has to answer, or a process whose group is idle; what else there is
    are open files of groups. *)
Definition at_rest (σ : sys) : Prop := forall t cur p, tasks σ !! t = Some (cur, p) ->
  match p with
  | Done _ _ | Tracked _ _ => True
  | CA_sleep evt => exists g G c, g ∈ group_list (mem σ) /\ groups (mem σ) !! g = Some G /\
      grp_deprecated G = 0%Z /\ c ∈ group_lists G /\ refers (containers (mem σ)) evt c
  | GE_sleep g => exists G, groups (mem σ) !! g = Some G /\ idle G
  | _ => False
  end.

Lemma not_busy_rest σ : inv σ -> map_Forall (fun _ x => busy x.2 = false) (tasks σ) -> at_rest σ.
Proof.
  intros V Hb t cur p Ht. pose proof (Hb t _ Ht) as Hp. destruct p; try done.
  - destruct (sleeping_assigned σ t cur evt V Ht) as [|(t' & c & g & d & Hx)]; [done|]. by specialize (Hb t' _ Hx).
  - destruct (si_sleep _ _ V t cur g Ht) as [|(t' & x & Hx & Hw)]; [done|]. specialize (Hb t' _ Hx). by destruct x as [c []].
Qed.

Lemma comes_to_rest (env : EventTasks.env) σ : orderly_reachable σ ->
  exists cs σ', Forall is_run cs /\ oexec cs σ = Some σ' /\ (at_rest σ' \/ exists t, claim_freed σ' t).
Proof.
  remember (steps_left σ) as n eqn:En. revert σ En. induction n as [n IH] using lt_wf_ind. intros σ -> R.
  pose proof (inv_reachable σ R) as V.
  destruct (decide (map_Forall (fun _ x => busy x.2 = false) (tasks σ))) as [Hb|Hb].
  { exists [], σ. split_and!; [done..|]. left. by apply not_busy_rest. }
  apply map_not_Forall in Hb as (t & [cur p] & Ht & Hp); [|intros; apply _]. apply not_false_iff_true in Hp.
  destruct (busy_progress σ t cur p env V Ht Hp) as (t' & [Hc|[σ1 E]]).
  { exists [], σ. split_and!; [done..|]. right. by exists t'. }
  assert (R1 : orderly_reachable σ1) by (eapply rtc_r; [exact R|by eapply oexec1_step]).
  destruct (IH (steps_left σ1) (proj2 (run_decreases _ _ _ _ (proj2 (oexec1_exec1 _ _ _ E)))) σ1 eq_refl R1) as (cs & σ' & Hcs & E' & Hend).
  exists (Run t' env :: cs), σ'. split_and!; [by constructor|cbn [oexec]; by rewrite E|done].
Qed.
