(* ===== verification/EventDrain.v ===== *)
(** * Deleting all groups lets every call return

    A call that waits, waits for a group: an access for one that has to answer, a
    registered process for events of its own.  So when the groups that are there are
    deleted one after the other, every call ends. *)

From S2P Require Import Prelude EventState EventOps EventInv GroupReg EventFlow EventPost EventTasks.
From S2P Require Import EventConc EventMask EventSteps EventRegSteps EventSafe EventEnd.
From stdpp Require Import strings.

(** ** Without new groups *)

Definition adder (p : pc) : bool :=
  match p with AG_enter _ _ | AG_create _ _ _ | AG_link _ | AG_count | AG_counted _ => true | _ => false end.
Definition no_adders (T : pool) : Prop := map_Forall (fun _ x => adder x.2 = false) T.

Lemma action_no_adder cur env p s p' s' : adder p = false -> action cur env p s = Ret p' s' -> adder p' = false.
Proof.
  intros Hp E. destruct p; try done; cbn in E; run_inv E; try (injection E as <- _; repeat case_match; done).
  case_match; [by injection E as <- _|done].
Qed.

Lemma adder_wake new x : adder (wake new x).2 = adder x.2.
Proof. destruct x as [cur []]; try done; unfold wake; simpl; by case_match. Qed.

Definition nregistered (σ : sys) : nat := length (registry_of (mem σ)).

Lemma remove_loop_shrinks gh nm s a s' : grp_inv gh s -> remove_group_loop (group_list s) nm s = Ret a s' ->
  registry_of s' `sublist_of` registry_of s /\
  (nm ∈ Spec.names (registry_of s) -> length (registry_of s) = S (length (registry_of s'))).
Proof.
  intros I E. pose proof (wp_remove_loop _ nm (group_list s) s I ltac:(done)) as Hw. unfold wp in Hw. rewrite E in Hw.
  destruct Hw as [_ [[-> Hn]|(g & G & Hin & HG & Hd & _ & P)]]; [by split|].
  destruct (retire_live _ _ _ _ _ I P Hin HG Hd). by split.
Qed.

Lemma run_shrinks t env σ σ' : inv σ -> no_adders (tasks σ) -> oexec1 (Run t env) σ = Some σ' ->
  no_adders (tasks σ') /\ registry_of (mem σ') `sublist_of` registry_of (mem σ).
Proof.
  intros V Hna E. apply orun_inv in E as (cur & p & p' & s' & Ht & En & Ho & Ea & ->).
  pose proof (Hna t _ Ht) as Hp. simpl in Hp. split.
  - intros t1 x Hx. simpl in Hx. destruct (lookup_wake _ _ _ _ Hx) as (y & Hy & ->). rewrite adder_wake.
    apply lookup_insert_Some in Hy as [[<- <-]|[_ Hy]]; [by eapply action_no_adder|by apply (Hna t1)].
  - simpl. set (s := set_oom (e_oom env) (mem σ)) in *. change (registry_of (mem σ)) with (registry_of s).
    pose proof (sys_inv_oom _ _ (e_oom env) V) as Vs. fold s in Vs.
    destruct (writes p) eqn:Hw.
    + destruct p; try done. cbn in Ea. first_of Ea u s1 E1. injection Ea as _ <-.
      by eapply remove_loop_shrinks; [apply Vs|].
    + assert (Hok : wp (action cur env p) (step_ok (tasks σ) t cur p s) s).
      { apply action_ok; try done. intros g ec Hu. destruct (containers s !! ec) as [C|] eqn:HC; [done|].
        by rewrite (action_freed cur s env p g ec) in Ea. }
      unfold wp in Hok. rewrite Ea in Hok. destruct (en_live _ _ _ _ (so_frame _ _ _ _ _ _ _ Hok)); [congruence|done].
Qed.

Lemma runs_shrink cs σ σ' : Forall is_run cs -> orderly_reachable σ -> no_adders (tasks σ) -> oexec cs σ = Some σ' ->
  no_adders (tasks σ') /\ nregistered σ' <= nregistered σ.
Proof.
  intros Hcs. revert σ. induction Hcs as [|c cs Hc _ IH]; intros σ R Hna; cbn [oexec]; [by intros [= <-]|].
  destruct (oexec1 c σ) as [σ1|] eqn:E1; [|done]. intros E. destruct c as [t1 c1 p1|t env|t1]; try done.
  destruct (run_shrinks t env σ σ1 (inv_reachable σ R) Hna E1) as [Hna1 Hs].
  destruct (IH σ1) as [Hna' Hle]; [by eapply rtc_r; [exact R|by eapply oexec1_step]|done|done|].
  split; [done|]. apply sublist_length in Hs. unfold nregistered in *. lia.
Qed.

(** ** One deletion *)

(** A process that runs nothing. *)
Lemma free_process (T : pool) : exists t cur, T !! t = None /\ not_running cur T.
Proof.
  exists (fresh (dom T)), (fresh (map_fold (fun _ (x : task) (l : list ptr) => x.1 :: l) [] T)). split.
  - apply not_elem_of_dom, is_fresh.
  - intros t x Hx _ E. pose proof (infinite_is_fresh (map_fold (fun _ (x : task) (l : list ptr) => x.1 :: l) [] T)) as Hf.
    apply Hf. rewrite <-E. clear Hf E.
    assert (Hall : forall T0 : pool, T0 !! t = Some x -> x.1 ∈ map_fold (fun _ (x : task) (l : list ptr) => x.1 :: l) [] T0); [|by apply Hall].
    refine (map_fold_weak_ind (fun r (T0 : pool) => T0 !! t = Some x -> x.1 ∈ r) _ _ _ _); [done|].
    intros t1 y T0 l _ IH [[<- <-]|[_ H]]%lookup_insert_Some; [left|right; auto].
Qed.

Lemma rest_no_adders σ : at_rest σ -> no_adders (tasks σ).
Proof. intros A t [cur p] Ht. specialize (A t cur p Ht). by destruct p. Qed.

(** Nobody at rest holds [group_count_sem]. *)
Lemma rest_free σ : at_rest σ -> free_to_write (tasks σ) /\ counting (tasks σ) = 0.
Proof.
  intros A. split.
  - intros t [cur p] Ht. specialize (A t cur p Ht). by destruct p.
  - apply mcount_zero. intros t [cur p] Ht. specialize (A t cur p Ht). by destruct p.
Qed.

Definition is_removal (c : cmd) : Prop := match c with Spawn _ _ (RG_enter _) => True | _ => False end.

Lemma delete_one (env : EventTasks.env) σ : orderly_reachable σ -> at_rest σ -> 0 < nregistered σ ->
  exists cs σ', Forall (fun c => is_run c \/ is_removal c) cs /\ oexec cs σ = Some σ' /\
    no_adders (tasks σ') /\ nregistered σ' < nregistered σ.
Proof.
  intros R A Hn. pose proof (inv_reachable σ R) as V. destruct (rest_free σ A) as [Hf Hc].
  destruct (registry_of (mem σ)) as [|[nm id] rs] eqn:Er; [unfold nregistered in Hn; rewrite Er in Hn; simpl in Hn; lia|].
  destruct (free_process (tasks σ)) as (t & cur & Ht & Hcur).
  set (σ1 := spawn t cur (RG_enter nm) σ).
  assert (E1 : oexec1 (Spawn t cur (RG_enter nm)) σ = Some σ1) by (unfold oexec1; simpl; by rewrite !decide_True).
  assert (V1 : inv σ1) by (by eapply inv_step, oexec1_step).
  assert (Ht1 : tasks σ1 !! t = Some (cur, RG_enter nm)) by apply lookup_insert_eq.
  assert (Hna1 : no_adders (tasks σ1)) by (apply map_Forall_insert_2; [done|by apply rest_no_adders]).
  assert (Hf1 : free_to_write (tasks σ1)) by (apply map_Forall_insert_2; [done|exact Hf]).
  assert (Hcount : group_count (mem σ) <> 0%Z).
  { pose proof (si_count _ _ V) as E. rewrite Hc, Er in E. simpl in E. lia. }
  destruct (enabled_runs σ1 t cur (RG_enter nm) env V1 Ht1 eq_refl) as [(c & q & g & ec & Hq & Hu & _)|[σ2 E2]]; [|by rewrite Ht1 in Hq; simplify_eq|].
  { split; [done|]. intros _. exact Hf1. }
  pose proof E2 as Er2. apply orun_inv in Er2 as (c2 & p2 & p' & s' & Hp2 & _ & _ & Ea & Eσ2). rewrite Ht1 in Hp2. injection Hp2 as <- <-.
  cbn in Ea. rewrite decide_False in Ea by done. injection Ea as <- <-.
  assert (Ht2 : tasks σ2 !! t = Some (cur, RG_loop nm)) by (rewrite Eσ2; simpl; by rewrite lookup_fmap, lookup_insert_eq).
  assert (V2 : inv σ2) by (by eapply inv_step, oexec1_step).
  destruct (run_shrinks t env σ1 σ2 V1 Hna1 E2) as [Hna2 _].
  destruct (enabled_runs σ2 t cur (RG_loop nm) env V2 Ht2 eq_refl) as [(c & q & g & ec & Hq & Hu & _)|[σ3 E3]]; [done|by rewrite Ht2 in Hq; simplify_eq|].
  destruct (run_shrinks t env σ2 σ3 V2 Hna2 E3) as [Hna3 _].
  exists [Spawn t cur (RG_enter nm); Run t env; Run t env], σ3. split_and!; [|cbn [oexec]; by rewrite E1, E2, E3|done|].
  { repeat constructor; (by left) || by right. }
  apply orun_inv in E3 as (c3 & p3 & p' & s' & Hp3 & _ & _ & Ea & ->). rewrite Ht2 in Hp3. injection Hp3 as <- <-.
  cbn in Ea. first_of Ea u s1 Ea1. injection Ea as _ <-.
  destruct (remove_loop_shrinks _ _ _ _ _ (si_grp _ _ (sys_inv_oom _ _ (e_oom env) V2)) Ea1) as [_ Hl].
  unfold nregistered. simpl. rewrite Er. change (registry_of (set_oom (e_oom env) (mem σ2))) with (registry_of (mem σ2)) in Hl.
  assert (E : registry_of (mem σ2) = (nm, id) :: rs) by (rewrite Eσ2; exact Er).
  rewrite E in Hl. rewrite Hl by left. lia.
Qed.

(** ** All deletions *)

(** What has returned, and files that are open. *)
Definition all_returned (σ : sys) : Prop := forall t cur p, tasks σ !! t = Some (cur, p) ->
  match p with Done _ _ | Tracked _ _ => True | _ => False end.

Lemma rest_without_groups σ : inv σ -> at_rest σ -> nregistered σ = 0 -> all_returned σ.
Proof.
  intros V A Hn t cur p Ht. pose proof (A t cur p Ht) as Hp.
  assert (Hnone : forall g G, g ∈ group_list (mem σ) -> groups (mem σ) !! g = Some G -> grp_deprecated G = 0%Z -> False).
  { intros g G Hin HG Hd. assert (Hl : (g, name G, group_id G) ∈ live_view (mem σ)) by (apply live_of_elem; eauto 10).
    unfold nregistered, registry_of in Hn. rewrite length_fmap in Hn. destruct (live_view (mem σ)); [by apply not_elem_of_nil in Hl|done]. }
  destruct p; try done.
  - destruct Hp as (g & G & c & Hin & HG & Hd & _). by eapply Hnone.
  - destruct Hp as (G & HG & _ & Hd). eapply (Hnone g); [|done|done].
    apply (held_group (ghost_of (tasks σ)) (mem σ) g); [apply V|by eapply held].
Qed.

Lemma exec_app cs cs' σ : oexec (cs ++ cs') σ = match oexec cs σ with Some σ1 => oexec cs' σ1 | None => None end.
Proof. revert σ. induction cs as [|c cs IH]; intros σ; simpl; [done|]. destruct (oexec1 c σ); [apply IH|done]. Qed.

Lemma drains (env : EventTasks.env) n : forall σ, orderly_reachable σ -> no_adders (tasks σ) -> nregistered σ <= n ->
  exists cs σ', Forall (fun c => is_run c \/ is_removal c) cs /\ oexec cs σ = Some σ' /\
    (all_returned σ' \/ exists t, claim_freed σ' t).
Proof.
  induction n as [|n IH]; intros σ R Hna Hn; destruct (comes_to_rest env σ R) as (cs & σ1 & Hcs & E1 & Hend);
    assert (Hcs' : Forall (fun c => is_run c \/ is_removal c) cs) by (eapply Forall_impl; [exact Hcs|by left]);
    pose proof (oexec_reachable _ _ _ R E1) as R1; destruct (runs_shrink cs σ σ1 Hcs R Hna E1) as [Hna1 Hle];
    (destruct Hend as [A|Hc]; [|exists cs, σ1; split_and!; [done|done|by right]]).
  - exists cs, σ1. split_and!; [done|done|left]. apply rest_without_groups; [by apply inv_reachable|done|lia].
  - destruct (decide (nregistered σ1 = 0)) as [H0|H0].
    { exists cs, σ1. split_and!; [done|done|left]. apply rest_without_groups; [by apply inv_reachable|done|lia]. }
    destruct (delete_one env σ1 R1 A ltac:(lia)) as (cs2 & σ2 & Hcs2 & E2 & Hna2 & Hlt).
    destruct (IH σ2) as (cs3 & σ3 & Hcs3 & E3 & Hend); [by eapply oexec_reachable|done|lia|].
    exists (cs ++ cs2 ++ cs3), σ3. split_and!; [by rewrite !Forall_app| |done]. by rewrite exec_app, E1, exec_app, E2.
Qed.

(** From every orderly_reachable state. *)
Lemma comes_to_end (env : EventTasks.env) σ : orderly_reachable σ ->
  exists cs σ', Forall (fun c => is_run c \/ is_removal c) cs /\ oexec cs σ = Some σ' /\
    (all_returned σ' \/ exists t, claim_freed σ' t).
Proof.
  intros R. destruct (comes_to_rest env σ R) as (cs & σ1 & Hcs & E1 & [A|Hc]).
  - destruct (drains env (nregistered σ1) σ1) as (cs2 & σ2 & Hcs2 & E2 & Hend);
      [by eapply oexec_reachable|by apply rest_no_adders|done|].
    exists (cs ++ cs2), σ2. split_and!; [|by rewrite exec_app, E1|done]. apply Forall_app. split; [|done].
    eapply Forall_impl; [exact Hcs|by left].
  - exists cs, σ1. split_and!; [|done|by right]. eapply Forall_impl; [exact Hcs|by left].
Qed.
