(* ===== verification/Vote.v ===== *)
(** * Votes: the abstract specification of the access check

    What [event.c] promises about an access, without heaps, lists and tasks: an event
    is put to a set of groups; each of them may claim it, give it back and answer it
    once, or it withdraws because it is deleted; answers are counted one by one; and
    only when no group is left is the vote closed, with a denial exactly if a denial
    was counted.  [EventVote] shows that the event layer does nothing else. *)

From S2P Require Import Prelude EventState.
From stdpp Require Import gmap list.

Module Vote.

(** Where an event is with a group that was asked. *)
Inductive stage := Waiting | Claimed | Answered (d : bool).
#[export] Instance stage_eq_dec : EqDecision stage.
Proof. solve_decision. Defined.

(** The groups that are not done with an event, and whether a denial was counted. *)
Record ballot := mk_ballot { stages : gmap loc stage; denied : bool }.

(** All votes that are open, by event. *)
Abbreviation box := (gmap loc ballot).

Inductive act :=
| Post (e : loc) (gs : gset loc)
| Claim (e g : loc)
| Unclaim (e g : loc)
| Answer (e g : loc) (d : bool)
| Count (e g : loc) (d : bool)
| Withdraw (g : loc)
| Close (e : loc) (d : bool).
#[export] Instance act_eq_dec : EqDecision act.
Proof. solve_decision. Defined.

Definition stage_of (B : box) (e g : loc) : option stage := B !! e ≫= fun b => stages b !! g.

Definition set_stage (e g : loc) (o : option stage) (B : box) : box :=
  alter (fun b => mk_ballot (partial_alter (fun _ => o) g (stages b)) (denied b)) e B.

Definition count (e g : loc) (d : bool) (B : box) : box :=
  alter (fun b => mk_ballot (delete g (stages b)) (denied b || d)) e B.

(** An answer that was given is counted all the same. *)
Definition keep_answer (o : option stage) : option stage :=
  match o with Some (Answered _) => o | _ => None end.
Definition withdraw (g : loc) (B : box) : box :=
  (fun b => mk_ballot (partial_alter keep_answer g (stages b)) (denied b)) <$> B.

Inductive vote_step (B : box) : act -> box -> Prop :=
| step_post e gs : B !! e = None ->
    vote_step B (Post e gs) (<[e := mk_ballot (gset_to_gmap Waiting gs) false]> B)
| step_claim e g : stage_of B e g = Some Waiting ->
    vote_step B (Claim e g) (set_stage e g (Some Claimed) B)
| step_unclaim e g : stage_of B e g = Some Claimed ->
    vote_step B (Unclaim e g) (set_stage e g (Some Waiting) B)
| step_answer e g d : stage_of B e g = Some Claimed ->
    vote_step B (Answer e g d) (set_stage e g (Some (Answered d)) B)
| step_count e g d : stage_of B e g = Some (Answered d) -> vote_step B (Count e g d) (count e g d B)
| step_withdraw g : vote_step B (Withdraw g) (withdraw g B)
| step_close e b : B !! e = Some b -> stages b = ∅ -> vote_step B (Close e (denied b)) (delete e B).

(** Runs from the empty box; the trace has the latest act first. *)
Inductive vote_run : list act -> box -> Prop :=
| run_nil : vote_run [] ∅
| run_cons tr B a B' : vote_run tr B -> vote_step B a B' -> vote_run (a :: tr) B'.

(** At most one act. *)
Definition moves (B : box) (l : list act) (B' : box) : Prop :=
  match l with [] => B' = B | [a] => vote_step B a B' | _ => False end.

Lemma moves_run tr B l B' : vote_run tr B -> moves B l B' -> vote_run (l ++ tr) B'.
Proof. destruct l as [|a [|]]; simpl; [by intros ? ->|intros; by eapply run_cons|done]. Qed.

(** ** Stages after an act *)

Lemma stage_of_empty e g : stage_of ∅ e g = None.
Proof. done. Qed.

Lemma stage_of_set_stage B e g o e' g' : is_Some (B !! e) ->
  stage_of (set_stage e g o B) e' g' = if decide (e' = e /\ g' = g) then o else stage_of B e' g'.
Proof.
  intros [b Hb]. unfold stage_of, set_stage. destruct (decide (e' = e)) as [->|He].
  - rewrite lookup_alter_eq, Hb. simpl. destruct (decide (g' = g)) as [->|Hg].
    + rewrite lookup_partial_alter_eq. by rewrite decide_True.
    + rewrite lookup_partial_alter_ne by done. rewrite decide_False by tauto. done.
  - rewrite lookup_alter_ne by done. by rewrite decide_False by tauto.
Qed.

Lemma stage_of_count B e g d e' g' :
  stage_of (count e g d B) e' g' = if decide (e' = e /\ g' = g) then None else stage_of B e' g'.
Proof.
  unfold stage_of, count. destruct (decide (e' = e)) as [->|He].
  - rewrite lookup_alter_eq. destruct (B !! e) as [b|]; simpl; [|by case_decide].
    destruct (decide (g' = g)) as [->|Hg].
    + rewrite lookup_delete_eq. by rewrite decide_True.
    + rewrite lookup_delete_ne by done. by rewrite decide_False by tauto.
  - rewrite lookup_alter_ne by done. by rewrite decide_False by tauto.
Qed.

Lemma stage_of_withdraw B g e' g' :
  stage_of (withdraw g B) e' g' = if decide (g' = g) then keep_answer (stage_of B e' g') else stage_of B e' g'.
Proof.
  unfold stage_of, withdraw. rewrite lookup_fmap. destruct (B !! e') as [b|]; simpl; [|by case_decide].
  destruct (decide (g' = g)) as [->|Hg]; [by rewrite lookup_partial_alter_eq|by rewrite lookup_partial_alter_ne].
Qed.

Lemma stage_of_post B e gs e' g' :
  stage_of (<[e := mk_ballot (gset_to_gmap Waiting gs) false]> B) e' g' =
  if decide (e' = e) then (if decide (g' ∈ gs) then Some Waiting else None) else stage_of B e' g'.
Proof.
  unfold stage_of. case_decide as He; [subst e'; rewrite lookup_insert_eq|by rewrite lookup_insert_ne].
  simpl. rewrite lookup_gset_to_gmap. by case_decide; [rewrite option_guard_True|rewrite option_guard_False].
Qed.

Lemma stage_of_delete B e e' g' :
  stage_of (delete e B) e' g' = if decide (e' = e) then None else stage_of B e' g'.
Proof. unfold stage_of. case_decide as He; [subst; by rewrite lookup_delete_eq|by rewrite lookup_delete_ne]. Qed.

Lemma stage_of_some B e g st : stage_of B e g = Some st -> is_Some (B !! e).
Proof. unfold stage_of. destruct (B !! e); [done|done]. Qed.

(** ** Ballots after an act *)

Lemma set_stage_lookup e0 g0 o B e b' : set_stage e0 g0 o B !! e = Some b' -> exists b, B !! e = Some b /\ denied b' = denied b.
Proof.
  unfold set_stage. destruct (decide (e = e0)) as [->|]; [rewrite lookup_alter_eq|rewrite lookup_alter_ne by done; eauto].
  destruct (B !! e0) as [b|]; [|done]. simpl. intros [= <-]. by exists b.
Qed.
Lemma set_stage_dom e0 g0 o B e : is_Some (set_stage e0 g0 o B !! e) <-> is_Some (B !! e).
Proof. unfold set_stage. rewrite lookup_alter. by case_decide; [subst; rewrite fmap_is_Some|]. Qed.

Lemma count_lookup e0 g0 d B e b' : count e0 g0 d B !! e = Some b' ->
  exists b, B !! e = Some b /\ denied b' = if decide (e = e0) then denied b || d else denied b.
Proof.
  unfold count. case_decide as E; [subst; rewrite lookup_alter_eq|rewrite lookup_alter_ne by done; eauto].
  destruct (B !! e0) as [b|]; [|done]. simpl. intros [= <-]. by exists b.
Qed.
Lemma count_dom e0 g0 d B e : is_Some (count e0 g0 d B !! e) <-> is_Some (B !! e).
Proof. unfold count. rewrite lookup_alter. by case_decide; [subst; rewrite fmap_is_Some|]. Qed.

Lemma withdraw_lookup g0 B e b' : withdraw g0 B !! e = Some b' -> exists b, B !! e = Some b /\ denied b' = denied b.
Proof.
  unfold withdraw. rewrite lookup_fmap. destruct (B !! e) as [b|]; [|done]. simpl. intros [= <-]. by exists b.
Qed.
Lemma withdraw_dom g0 B e : is_Some (withdraw g0 B !! e) <-> is_Some (B !! e).
Proof. unfold withdraw. by rewrite lookup_fmap, fmap_is_Some. Qed.

(** ** What a trace tells about an open vote *)

(** The acts since the event was last put to a vote, and the groups asked then. *)
Definition posts (e : loc) (a : act) : Prop := match a with Post e' _ => e' = e | _ => False end.
#[export] Instance posts_dec e a : Decision (posts e a).
Proof. destruct a; simpl; apply _. Defined.
Fixpoint since (e : loc) (tr : list act) : list act :=
  match tr with
  | [] => []
  | a :: tr => if decide (posts e a) then [] else a :: since e tr
  end.
Fixpoint asked (e : loc) (tr : list act) : gset loc :=
  match tr with
  | [] => ∅
  | Post e' gs :: tr => if decide (e' = e) then gs else asked e tr
  | _ :: tr => asked e tr
  end.

(** How often an answer of the group was counted. *)
Definition counts (e g : loc) (a : act) : nat :=
  match a with Count e' g' _ => if decide (e' = e /\ g' = g) then 1 else 0 | _ => 0 end.
Definition counted (e g : loc) (l : list act) : nat := sum_list_with (counts e g) l.

Definition pending (o : option stage) : nat := match o with Some _ => 1 | None => 0 end.

(** The tally of a vote: a denial is on record exactly if one was counted; a group that
    was asked is still pending, was counted once, or has withdrawn; others have no say. *)
Record tally (e : loc) (tr : list act) (b : ballot) : Prop := {
  ta_denied : denied b = true <-> exists g, Count e g true ∈ since e tr;
  ta_once g : counted e g (since e tr) + pending (stages b !! g) <= (if decide (g ∈ asked e tr) then 1 else 0);
  ta_done g : g ∈ asked e tr -> stages b !! g = None ->
    Withdraw g ∈ since e tr \/ exists d, Count e g d ∈ since e tr
}.

Lemma counted_cons e g a l : counted e g (a :: l) = counts e g a + counted e g l.
Proof. done. Qed.

Lemma since_cons e a tr : ~ posts e a -> since e (a :: tr) = a :: since e tr.
Proof. intros Hp. simpl. by rewrite decide_False. Qed.
Lemma asked_cons e a tr : ~ posts e a -> asked e (a :: tr) = asked e tr.
Proof. destruct a; simpl; try done. intros. by rewrite decide_False. Qed.

Lemma since_app e l tr : (forall a, a ∈ l -> ~ posts e a) -> since e (l ++ tr) = l ++ since e tr.
Proof.
  induction l as [|a l IH]; intros H; [done|]. simpl. rewrite decide_False by (apply H; left). f_equal. apply IH. intros x Hx. apply H. by right.
Qed.
Lemma asked_app e l tr : (forall a, a ∈ l -> ~ posts e a) -> asked e (l ++ tr) = asked e tr.
Proof.
  induction l as [|a l IH]; intros H; [done|]. cbn [app]. rewrite asked_cons by (apply H; left). apply IH. intros x Hx. apply H. by right.
Qed.

(** An act that only moves pending groups about, or that concerns another event. *)
Lemma tally_move e a tr b b' : ~ posts e a -> (forall g d, a <> Count e g d) -> denied b' = denied b ->
  (forall g, pending (stages b' !! g) = pending (stages b !! g) \/ a = Withdraw g /\ stages b' !! g = None) ->
  tally e tr b -> tally e (a :: tr) b'.
Proof.
  intros Hp Hc Hd Hs [D O W]. split; [|intros g|intros g]; rewrite since_cons, ?asked_cons by done.
  - rewrite Hd, D. split; intros [g Hg]; exists g; [by right|]. apply elem_of_cons in Hg as [E|?]; [|done]. by edestruct Hc.
  - rewrite counted_cons. specialize (O g).
    assert (counts e g a = 0) as ->.
    { destruct a as [| | | |e0 g0 d| |]; try done. simpl. rewrite decide_False; [done|]. intros [-> ->]. by edestruct Hc. }
    destruct (Hs g) as [->|[_ ->]]; simpl; lia.
  - intros Ha Hn. destruct (Hs g) as [E|[-> _]]; [|left; left]. rewrite Hn in E.
    destruct (W g Ha) as [?|[d ?]]; [by destruct (stages b !! g)|left; by right|right; exists d; by right].
Qed.

(** The stages of the vote on [e] do not change in number by an act on one group. *)
Lemma tally_set_stage e0 g0 st st' B e b' a tr : (forall g d, a <> Count e g d) -> ~ posts e a ->
  stage_of B e0 g0 = Some st -> set_stage e0 g0 (Some st') B !! e = Some b' ->
  (forall b, B !! e = Some b -> tally e tr b) -> tally e (a :: tr) b'.
Proof.
  intros Hc Hp Hst Hb' H. unfold set_stage in Hb'. destruct (decide (e = e0)) as [->|Hne].
  - rewrite lookup_alter_eq in Hb'. destruct (B !! e0) as [b|] eqn:Hb; [|done]. simpl in Hb'. simplify_eq.
    apply (tally_move e0 a tr b); [done|done|done| |by apply H]. intros g. left. simpl.
    unfold stage_of in Hst. rewrite Hb in Hst. simpl in Hst.
    destruct (decide (g = g0)) as [->|]; [by rewrite lookup_partial_alter_eq, Hst|by rewrite lookup_partial_alter_ne].
  - rewrite lookup_alter_ne in Hb' by done. apply (tally_move e a tr b'); [done|done|done|by left|by apply H].
Qed.

Lemma tally_count e0 g0 d B e b' tr : stage_of B e0 g0 = Some (Answered d) -> count e0 g0 d B !! e = Some b' ->
  (forall b, B !! e = Some b -> tally e tr b) -> tally e (Count e0 g0 d :: tr) b'.
Proof.
  intros Hst Hb' H. unfold count in Hb'. destruct (decide (e = e0)) as [->|Hne].
  - rewrite lookup_alter_eq in Hb'. destruct (B !! e0) as [b|] eqn:Hb; [|done]. simpl in Hb'. simplify_eq.
    destruct (H b eq_refl) as [D O W]. unfold stage_of in Hst. rewrite Hb in Hst. simpl in Hst.
    split; [|intros g|intros g]; rewrite since_cons, ?asked_cons by (by intros []).
    + simpl. rewrite orb_true_iff, D. split.
      * intros [[g Hg]| ->]; [exists g; by right|exists g0; left].
      * intros [g [E|Hg]%elem_of_cons]; [right; congruence|left; by exists g].
    + rewrite counted_cons. specialize (O g). simpl. destruct (decide (g = g0)) as [->|Hg].
      * rewrite lookup_delete_eq, decide_True by done. rewrite Hst in O. simpl in *. lia.
      * rewrite lookup_delete_ne by done. rewrite decide_False by naive_solver. done.
    + simpl. intros Ha. destruct (decide (g = g0)) as [->|Hg]; [intros _; right; exists d; left|].
      rewrite lookup_delete_ne by done. intros Hn. destruct (W g Ha Hn) as [?|[d' ?]]; [left; by right|right; exists d'; by right].
  - rewrite lookup_alter_ne in Hb' by done. destruct (H b' Hb') as [D O W].
    split; [|intros g|intros g]; rewrite since_cons, ?asked_cons by (by intros []).
    + rewrite D. split; intros [g Hg]; exists g; [by right|]. apply elem_of_cons in Hg as [E|?]; [congruence|done].
    + rewrite counted_cons. simpl. rewrite decide_False by naive_solver. apply O.
    + intros Ha Hn. destruct (W g Ha Hn) as [?|[d' ?]]; [left; by right|right; exists d'; by right].
Qed.

Lemma tally_run tr B e b : vote_run tr B -> B !! e = Some b -> tally e tr b.
Proof.
  intros R. revert e b. induction R as [|tr B a B' _ IH S]; intros e b Hb; [done|].
  destruct S as [e0 gs Hn|e0 g0 Hs|e0 g0 Hs|e0 g0 d Hs|e0 g0 d Hs|g0|e0 b0 Hb0 Hs].
  - apply lookup_insert_Some in Hb as [[<- <-]|[Hne Hb]].
    2:{ apply (tally_move e (Post e0 gs) tr b); [done|done|done|by left|by apply IH]. }
    split; simpl; rewrite ?(decide_True (P := e0 = e0)) by done.
    + split; [done|]. intros [g Hg]. by apply not_elem_of_nil in Hg.
    + intros g. rewrite lookup_gset_to_gmap. by case_decide; [rewrite option_guard_True|rewrite option_guard_False].
    + intros g Hg. rewrite lookup_gset_to_gmap, option_guard_True by done. done.
  - eapply tally_set_stage; [done|by intros []|exact Hs|exact Hb|by apply IH].
  - eapply tally_set_stage; [done|by intros []|exact Hs|exact Hb|by apply IH].
  - eapply tally_set_stage; [done|by intros []|exact Hs|exact Hb|by apply IH].
  - eapply tally_count; [exact Hs|exact Hb|by apply IH].
  - unfold withdraw in Hb. rewrite lookup_fmap in Hb. destruct (B !! e) as [b0|] eqn:Hb0; [|done]. simpl in Hb. simplify_eq.
    apply (tally_move e (Withdraw g0) tr b0); [by intros []|done|done| |by apply IH]. intros g. simpl.
    destruct (decide (g = g0)) as [->|]; [|left; by rewrite lookup_partial_alter_ne].
    rewrite lookup_partial_alter_eq. destruct (stages b0 !! g0) as [[]|]; simpl; auto.
  - apply lookup_delete_Some in Hb as [Hne Hb]. apply (tally_move e (Close e0 (denied b0)) tr b); [by intros []|done|done|by left|by apply IH].
Qed.

(** An answer is counted, or it is still to be counted. *)
Lemma answered_run tr B e g d : vote_run tr B -> is_Some (B !! e) ->
  Answer e g d ∈ since e tr <-> Count e g d ∈ since e tr \/ stage_of B e g = Some (Answered d).
Proof.
  intros R. induction R as [|tr B a B' R IH S]; intros He; [by destruct He|].
  destruct S as [e0 gs Hn|e0 g0 Hs|e0 g0 Hs|e0 g0 d0 Hs|e0 g0 d0 Hs|g0|e0 b0 Hb0 Hs]; simpl.
  - rewrite stage_of_post. destruct (decide (e0 = e)) as [->|Hne].
    + rewrite decide_True by done. split; [intros H; by apply not_elem_of_nil in H|].
      intros [H|H]; [by apply not_elem_of_nil in H|]. by case_decide.
    + rewrite decide_False by done. rewrite lookup_insert_ne in He by done.
      rewrite !elem_of_cons, IH by done. naive_solver.
  - apply set_stage_dom in He. rewrite stage_of_set_stage by (by eapply stage_of_some).
    rewrite !elem_of_cons, IH by done. case_decide; naive_solver.
  - apply set_stage_dom in He. rewrite stage_of_set_stage by (by eapply stage_of_some).
    rewrite !elem_of_cons, IH by done. case_decide; naive_solver.
  - apply set_stage_dom in He. rewrite stage_of_set_stage by (by eapply stage_of_some).
    rewrite !elem_of_cons, IH by done. case_decide; naive_solver.
  - apply count_dom in He. rewrite stage_of_count, !elem_of_cons, IH by done. case_decide; naive_solver.
  - apply withdraw_dom in He. rewrite stage_of_withdraw, !elem_of_cons, IH by done.
    case_decide as Hg; [|naive_solver]. destruct (stage_of B e g) as [[]|]; simpl; naive_solver.
  - apply lookup_delete_is_Some in He as [Hne He]. rewrite stage_of_delete, decide_False by done.
    rewrite !elem_of_cons, IH by done. naive_solver.
Qed.

Lemma posted_run tr B e : vote_run tr B -> is_Some (B !! e) -> exists gs, Post e gs ∈ tr.
Proof.
  intros R. induction R as [|tr B a B' R IH S]; intros He; [by destruct He|].
  assert (Hold : is_Some (B !! e) -> exists gs, Post e gs ∈ a :: tr) by (intros H; destruct (IH H) as [gs ?]; exists gs; by right).
  destruct S as [e0 gs Hn|e0 g0 Hs|e0 g0 Hs|e0 g0 d0 Hs|e0 g0 d0 Hs|g0|e0 b0 Hb0 Hs].
  - apply lookup_insert_is_Some' in He as [<-|He]; [exists gs; left|by apply Hold].
  - by eapply Hold, set_stage_dom.
  - by eapply Hold, set_stage_dom.
  - by eapply Hold, set_stage_dom.
  - by eapply Hold, count_dom.
  - by eapply Hold, withdraw_dom.
  - apply lookup_delete_is_Some in He as [_ He]. by apply Hold.
Qed.

(** The decision: it is a denial exactly if a denial was given as an answer, and when it
    falls every answer is counted, and every group that was asked was counted exactly
    once or has withdrawn. *)
Lemma decision tr B e d B' : vote_run tr B -> vote_step B (Close e d) B' ->
  (d = true <-> exists g, Answer e g true ∈ since e tr) /\
  (forall g d, Answer e g d ∈ since e tr <-> Count e g d ∈ since e tr) /\
  forall g, (g ∈ asked e tr -> Withdraw g ∈ since e tr \/ exists d, Answer e g d ∈ since e tr) /\
    counted e g (since e tr) <= (if decide (g ∈ asked e tr) then 1 else 0).
Proof.
  intros R S. inversion S as [| | | | | |? b Hb Hs]; subst. destruct (tally_run tr B e b R Hb) as [D O W].
  assert (A : forall g d, Answer e g d ∈ since e tr <-> Count e g d ∈ since e tr).
  { intros g d. rewrite (answered_run tr B e g d R) by (by rewrite Hb). unfold stage_of. rewrite Hb. simpl. rewrite Hs. naive_solver. }
  split; [by setoid_rewrite A|]. split; [exact A|]. intros g. split; [|specialize (O g); lia].
  setoid_rewrite A. intros Ha. apply W; [done|]. by rewrite Hs.
Qed.

(** *** What can be seen of a trace from outside: all but who looks at an event *)

Definition visible (a : act) : Prop := match a with Claim _ _ | Unclaim _ _ => False | _ => True end.
#[global] Instance visible_dec a : Decision (visible a).
Proof. destruct a; simpl; apply _. Defined.

Lemma since_visible e tr : since e (filter visible tr) = filter visible (since e tr).
Proof.
  induction tr as [|a tr IH]; [done|]. rewrite filter_cons. simpl. case_decide as Hv.
  - simpl. case_decide; [done|]. by rewrite filter_cons_True, IH.
  - rewrite decide_False by (by destruct a). by rewrite filter_cons_False.
Qed.
Lemma asked_visible e tr : asked e (filter visible tr) = asked e tr.
Proof.
  induction tr as [|a tr IH]; [done|]. rewrite filter_cons.
  case_decide as Hv; destruct a; simpl in *; try done; by rewrite IH.
Qed.
Lemma counted_visible e g l : counted e g (filter visible l) = counted e g l.
Proof.
  induction l as [|a l IH]; [done|]. rewrite filter_cons. case_decide as Hv; rewrite !counted_cons, ?IH; [done|].
  by destruct a.
Qed.
End Vote.
