(* ===== verification/EventStill.v ===== *)
(** * Operations of the event layer that no vote notices

    Most of [event.c] neither moves a container from one list to another nor changes
    what a container or a recorded denial says.  [Still] is the interface of such an
    operation; primitives implement it, sequences and choices inherit it. *)

From S2P Require Import Prelude EventState EventOps EventInv GroupReg EventFlow EventPost.
From stdpp Require Import strings.

(** ** What votes see of the memory *)

(** The event a container is for, and the lists of a group. *)
Definition cref (s : kstate) (c : loc) : option loc := containers s !! c ≫= ec_event.
Definition lists_of (s : kstate) (g : loc) : list loc * list loc :=
  match groups s !! g with Some G => (todo_list G, working_list G) | None => ([], []) end.

Definition live (s : kstate) (g : loc) : Prop :=
  g ∈ group_list s /\ exists G, groups s !! g = Some G /\ grp_deprecated G = 0%Z.
Definition live_groups (s : kstate) : gset loc := list_to_set (live_view s).*1.*1.

Lemma elem_of_live_groups s g : g ∈ live_groups s <-> live s g.
Proof.
  unfold live_groups, live. rewrite elem_of_list_to_set. split.
  - intros ([? nm] & -> & ([[? ?] i] & ? & Hx)%list_elem_of_fmap)%list_elem_of_fmap. simpl in *. simplify_eq.
    apply live_of_elem in Hx as (? & G & ? & ? & _). eauto.
  - intros (Hin & G & HG & Hd). apply list_elem_of_fmap. exists (g, name G). split; [done|].
    apply list_elem_of_fmap. exists (g, name G, group_id G). split; [done|]. apply live_of_elem. eauto 10.
Qed.

(** From [s] to [s'], objects at [n] and above apart, no vote notices anything: an event
    that is still there has the denial on record that it had. *)
Record still (n : loc) (s s' : kstate) : Prop := {
  st_ref c : (c < n)%positive -> cref s' c = cref s c;
  st_lists g : lists_of s' g = lists_of s g;
  st_live g : live s g -> live s' g;
  st_deny e ev' : events s' !! e = Some ev' ->
    (exists ev, events s !! e = Some ev /\ deny ev' = deny ev) \/ (n <= e)%positive;
  st_next : (next s <= next s')%positive
}.

#[export] Instance still_preorder n : PreOrder (still n).
Proof.
  split; [intros s; split; eauto; done|].
  intros a b c [R1 L1 V1 D1 N1] [R2 L2 V2 D2 N2]. split.
  - intros x Hx. by rewrite R2, R1.
  - intros g. by rewrite L2, L1.
  - eauto.
  - intros e ev2 He2. destruct (D2 e ev2 He2) as [(ev1 & He1 & E2)|]; [|by right].
    destruct (D1 e ev1 He1) as [(ev & He & E1)|]; [left|by right]. exists ev. by rewrite E2.
  - lia.
Qed.

Class Still {A} (m : M A) : Prop :=
  keeps_still n s a s' : (n <= next s)%positive -> m s = Ret a s' -> still n s s'.

(** ** Sequences and choices *)

#[export] Instance still_ret {A} (a : A) : Still (sret a).
Proof. by intros n s a' s' _ [= _ <-]. Qed.
#[export] Instance still_fail {A} w : Still (sfail w : M A).
Proof. done. Qed.
#[export] Instance still_get {A} (f : kstate -> A) : Still (sget f).
Proof. by intros n s a s' _ [= _ <-]. Qed.
#[export] Instance still_bind {A B} (m : M A) (k : A -> M B) :
  Still m -> (forall a, Still (k a)) -> Still (sbind m k).
Proof.
  intros Hm Hk n s b s'. unfold sbind. destruct (m s) as [a s1|w] eqn:E; [|done]. intros Hn E'.
  pose proof (Hm n s a s1 Hn E) as S1. etrans; [exact S1|]. eapply Hk; [|exact E']. pose proof (st_next _ _ _ S1). lia.
Qed.

(** ** Primitives *)

(** An update of fields that no vote sees. *)
Lemma still_same n s s' : containers s' = containers s -> groups s' = groups s -> events s' = events s ->
  group_list s ⊆ group_list s' -> (next s <= next s')%positive -> still n s s'.
Proof.
  intros Hc Hg He Hl Hn. split; unfold cref, lists_of, live; rewrite ?Hc, ?Hg, ?He; eauto.
  intros g [Hin HG]. split; [by apply Hl|done].
Qed.

Lemma still_modify (f : kstate -> kstate) : (forall s, containers (f s) = containers s) -> (forall s, groups (f s) = groups s) ->
  (forall s, events (f s) = events s) -> (forall s, next (f s) = next s) -> (forall s, group_list s ⊆ group_list (f s)) ->
  Still (smodify f).
Proof. intros Hc Hg He Hn Hl n s a s' _ [= _ <-]. apply still_same; auto. by rewrite Hn. Qed.

#[export] Instance still_load {V} `{Heap V} p : Still (load (V := V) p).
Proof. intros n s a s' _. unfold load. destruct (hget s !! p); [|done]. by intros [= _ <-]. Qed.
#[export] Instance still_deref {A} (o : option A) : Still (deref o).
Proof. destruct o; apply _. Qed.
#[export] Instance still_kcall c : Still (kcall_ c).
Proof. by apply still_modify. Qed.
#[export] Instance still_alloc_fails : Still alloc_fails.
Proof.
  intros n s a s' _. unfold alloc_fails. destruct (oom s); intros [= _ <-]; [done|]. by apply still_same.
Qed.

(** The stack variables of [open_file]. *)
#[export] Instance still_store_proc p v : Still (store (V := dazukofs_proc) p v).
Proof. intros n s a s' _. unfold store. destruct (hget s !! p); [|done]. intros [= _ <-]. by apply still_same. Qed.
#[export] Instance still_kfree_proc p : Still (kfree_obj (V := dazukofs_proc) p).
Proof. intros n s a s' _. unfold kfree_obj. destruct (hget s !! p); [|done]. intros [= _ <-]. by apply still_same. Qed.
Lemma still_stack v : Still (fun s => Ret (next s) (set_procs (<[next s:=v]> (procs s)) (set_next (Pos.succ (next s)) s))).
Proof. intros n s a s' _ [= _ <-]. apply still_same; simpl; (done || lia). Qed.

(** Freeing an event, and making one. *)
#[export] Instance still_kfree_event e : Still (kfree_obj (V := dazukofs_event) e).
Proof.
  intros n s a s' _. unfold kfree_obj. destruct (hget s !! e); [|done]. intros [= _ <-]. split; try done.
  intros e' ev'. simpl. intros [_ He]%lookup_delete_Some. eauto.
Qed.
#[export] Instance still_kzalloc_event v : Still (kzalloc (V := dazukofs_event) v).
Proof.
  apply still_bind; [apply _|]. intros [|]; [apply _|]. intros n s a s' Hn [= _ <-]. split; simpl; try done; [|lia].
  intros e ev' [[<- _]|[_ He]]%lookup_insert_Some; [by right|]. left. eauto.
Qed.
(** A new container is for no event. *)
#[export] Instance still_kzalloc_container f fd : Still (kzalloc (mk_container None f fd)).
Proof.
  apply still_bind; [apply _|]. intros [|]; [apply _|]. intros n s a s' Hn [= _ <-]. split; simpl; try done; [| |lia].
  - intros c Hc. unfold cref. simpl. rewrite lookup_insert_ne; [done|]. intros <-. lia.
  - intros e ev' He. left. eauto.
Qed.

(** Changing a field of an object that no vote sees. *)
Lemma still_update_group g f {B} (k : dazukofs_group -> M B) :
  (forall G, todo_list (f G) = todo_list G /\ working_list (f G) = working_list G /\ grp_deprecated (f G) = grp_deprecated G) ->
  (forall G, Still (k G)) -> Still (let! G := load g in do! store g (f G) in k G).
Proof.
  intros Hf Hk n s b s'. unfold sbind, load, store. simpl. destruct (groups s !! g) as [G|] eqn:HG; [|done].
  rewrite HG. destruct (Hf G) as (Ht & Hw & Hd). intros Hn E. etrans; [|by eapply Hk; [|exact E]].
  split; simpl; try done.
  - intros g'. unfold lists_of. simpl. destruct (decide (g' = g)) as [->|].
    + by rewrite lookup_insert_eq, HG, Ht, Hw.
    + by rewrite lookup_insert_ne.
  - intros g' [Hin (G' & HG' & Hd')]. split; [done|]. simpl. destruct (decide (g = g')) as [<-|].
    + exists (f G). rewrite lookup_insert_eq, Hd. simplify_eq. done.
    + exists G'. by rewrite lookup_insert_ne.
  - intros e ev' He. left. eauto.
Qed.

Lemma bind_ret {S A} (m : SM S A) s : sbind m (fun a => sret a) s = m s.
Proof. unfold sbind. by destruct (m s). Qed.

Lemma still_ext {A} (m m' : M A) : (forall s, m s = m' s) -> Still m' -> Still m.
Proof. intros E H n s a s' Hn Hm. rewrite E in Hm. by eapply H. Qed.

Lemma still_put_group g f :
  (forall G, todo_list (f G) = todo_list G /\ working_list (f G) = working_list G /\ grp_deprecated (f G) = grp_deprecated G) ->
  Still (let! G := load g in store g (f G)).
Proof.
  intros Hf. apply (still_ext _ (let! G := load g in do! store g (f G) in sret tt)).
  - intros s. unfold sbind. destruct (load g s) as [G s1|]; [|done]. by destruct (store g (f G) s1) as [[] ?|].
  - apply still_update_group; [done|apply _].
Qed.

Lemma still_put_event e f : (forall ev, deny (f ev) = deny ev) ->
  Still (let! ev := load e in store e (f ev)).
Proof.
  intros Hf n s b s'. unfold sbind, load, store. simpl. destruct (events s !! e) as [ev|] eqn:He; [|done].
  rewrite He. intros Hn [= _ <-]. split; simpl; try done.
  intros e' ev' [[<- <-]|[_ He']]%lookup_insert_Some; left; [exists ev; by rewrite Hf|eauto].
Qed.

Lemma still_fill ec f {B} (k : dazukofs_event_container -> M B) :
  (forall C, ec_event (f C) = ec_event C) -> (forall C, Still (k C)) ->
  Still (let! C := load ec in do! store ec (f C) in k C).
Proof.
  intros Hf Hk n s b s'. unfold sbind, load, store. simpl. destruct (containers s !! ec) as [C|] eqn:HC; [|done].
  rewrite HC. intros Hn E. etrans; [|by eapply Hk; [|exact E]]. split; simpl; try done.
  - intros c _. unfold cref. simpl. destruct (decide (c = ec)) as [->|].
    + rewrite lookup_insert_eq, HC. simpl. by rewrite Hf.
    + by rewrite lookup_insert_ne.
  - intros e ev' He. left. eauto.
Qed.

#[export] Hint Extern 1 (Still (match ?x with _ => _ end)) => destruct x : typeclass_instances.
#[export] Hint Extern 1 (Still (smodify _)) =>
  apply still_modify; [done|done|done|done|intros ?; simpl; set_solver] : typeclass_instances.
#[export] Hint Extern 1 (Still (let! _ := load (V := dazukofs_group) _ in do! store _ _ in _)) =>
  apply still_update_group; [done|intros ?] : typeclass_instances.

(** ** The operations *)

#[export] Instance still_use_inc g : Still (use_inc g).
Proof. by apply still_put_group. Qed.
#[export] Instance still_use_dec g : Still (use_dec g).
Proof. by apply still_put_group. Qed.

#[export] Instance still_find_group gid : Still (find_group gid).
Proof. apply still_bind; [apply _|]. intros gl. induction gl; simpl; apply _. Qed.
#[export] Instance still_find_and_use gid : Still (find_and_use gid).
Proof. apply _. Qed.
#[export] Instance still_find_working pos id : Still (find_working pos id).
Proof. induction pos; simpl; apply _. Qed.
#[export] Instance still_open_tracking gid : Still (dazukofs_group_open_tracking gid).
Proof. apply _. Qed.

#[export] Instance still_check_recursion_loop pos cur : Still (check_recursion_loop pos cur).
Proof. induction pos; simpl; apply _. Qed.
#[export] Instance still_check_recursion cur : Still (check_recursion cur).
Proof. apply _. Qed.
#[export] Instance still_precheck ign cur n : Still (check_access_precheck ign cur n).
Proof. unfold check_access_precheck. apply _. Qed.

Lemma still_free_containers n l s a s' : (forall c, c ∈ l -> (n <= c)%positive) ->
  free_containers l s = Ret a s' -> still n s s'.
Proof.
  revert s. induction l as [|c l IH]; intros s Hl; cbn [free_containers]; [by intros [= _ <-]|].
  unfold sbind, kfree_obj. simpl. destruct (containers s !! c) as [C|]; [|done]. intros E.
  etrans; [|apply (IH _ ltac:(set_solver) E)]. split; simpl; try done.
  - intros x Hx. unfold cref. simpl. rewrite lookup_delete_ne; [done|]. intros <-.
    specialize (Hl c ltac:(left)). lia.
  - intros e ev' He. left. eauto.
Qed.

Lemma still_allocate_containers n k : forall dn s a s', (n <= next s)%positive -> (forall c, c ∈ dn -> (n <= c)%positive) ->
  allocate_containers k dn s = Ret a s' -> still n s s'.
Proof.
  induction k as [|k IH]; intros dn s a s' Hn Hdn; cbn [allocate_containers]; [by intros [= _ <-]|].
  unfold sbind at 1. destruct (kzalloc (mk_container None 0 0) s) as [[ec|] s1|w] eqn:E; [| |done].
  - intros E1. pose proof (keeps_still n _ _ _ Hn E) as S1. etrans; [exact S1|].
    eapply (IH (ec :: dn)); [|intros c [->|Hc]%elem_of_cons; [|by apply Hdn]|exact E1].
    + pose proof (st_next _ _ _ S1). lia.
    + unfold kzalloc, sbind in E. destruct (alloc_fails s) as [[] s2|] eqn:E2; [done| |done].
      simpl in E. injection E as <- <-. pose proof (st_next _ _ _ (keeps_still n _ _ _ Hn E2)). lia.
  - unfold sbind. destruct (free_containers dn s1) as [[] s2|] eqn:E2; [|done]. intros [= <- <-].
    etrans; [exact (keeps_still n _ _ _ Hn E)|]. by eapply still_free_containers.
Qed.

#[export] Instance still_check_access_alloc d m cur : Still (check_access_alloc d m cur).
Proof.
  assert (Hk : forall k, Still (allocate_containers k [])).
  { intros k n s a s' Hn. apply still_allocate_containers; [done|]. intros c Hc. by apply not_elem_of_nil in Hc. }
  assert (Hp : forall e, Still (check_access_pin e d m cur)).
  { intros e. do 3 (apply still_bind; [apply _|intros _]). by apply still_put_event. }
  apply _.
Qed.

#[export] Instance still_wake_group g : Still (wake_group g).
Proof. apply _. Qed.

#[export] Instance still_mask_proc p cur : Still (mask_proc p cur).
Proof. apply _. Qed.

#[export] Instance still_open_file_begin ec env cur : Still (open_file_begin ec env cur).
Proof.
  apply (still_ext _ (let! C := load ec in do! store ec (mk_container (ec_event C) (ec_file C) (oe_unused_fd env)) in
    let! evt := deref (ec_event C) in
    if decide (oe_unused_fd env < 0)%Z then sret (inl (oe_unused_fd env))
    else
      let! proc := (fun s => Ret (next s)
        (set_procs (<[next s:=mk_proc 0 0]> (procs s)) (set_next (Pos.succ (next s)) s))) in
      do! mask_proc proc cur in
      let! e := load evt in
      do! kcall_ (KDget (evt_dentry e)) in
      do! kcall_ (KMntget (evt_mnt e)) in
      sret (inr proc))).
  - intros s. unfold open_file_begin, sbind, load, store, deref, sfail, sret. simpl.
    destruct (containers s !! ec) as [C|] eqn:HC; [|done]. destruct (ec_event C); [done|]. by rewrite HC.
  - apply still_fill; [done|]. intros C. apply still_bind; [apply _|]. intros evt. case_decide; [apply _|].
    apply still_bind; [apply still_stack|apply _].
Qed.

#[export] Instance still_open_file_nested env ign cur : Still (open_file_nested env ign cur).
Proof. unfold open_file_nested. apply _. Qed.

#[export] Instance still_open_file_end ec p env cur : Still (open_file_end ec p env cur).
Proof. apply still_fill; [done|]. intros C. apply _. Qed.

#[export] Instance still_get_event_fields f ec : Still (get_event_fields f ec).
Proof. apply _. Qed.
#[export] Instance still_is_event_available g : Still (is_event_available g).
Proof. apply _. Qed.
#[export] Instance still_get_event_ready g : Still (get_event_ready g).
Proof. apply _. Qed.
#[export] Instance still_add_group_link g : Still (add_group_link g).
Proof. unfold add_group_link. apply _. Qed.
#[export] Instance still_add_group_count_read : Still add_group_count_read.
Proof. unfold add_group_count_read. apply _. Qed.
#[export] Instance still_add_group_count_write n : Still (add_group_count_write n).
Proof. unfold add_group_count_write. apply _. Qed.

(** *** [release_event] for an answer that denies nothing *)

Lemma still_put_event_bind e f {B} (k : dazukofs_event -> M B) : (forall ev, deny (f ev) = deny ev) ->
  (forall ev, Still (k ev)) -> Still (let! ev := load e in do! store e (f ev) in k ev).
Proof.
  intros Hf Hk. apply (still_ext _ (let! ev := (let! ev := load e in do! store e (f ev) in sret ev) in k ev)).
  { intros s. unfold sbind. destruct (load e s) as [ev s1|]; [|done]. by destruct (store e (f ev) s1). }
  apply still_bind; [|done]. intros n s a s' Hn. unfold sbind, load, store. simpl.
  destruct (events s !! e) as [ev|] eqn:He; [|done]. rewrite He. intros [= _ <-]. split; simpl; try done.
  intros e' ev' [[<- <-]|[_ He']]%lookup_insert_Some; left; [exists ev; by rewrite Hf|eauto].
Qed.

#[export] Instance still_release e b : Still (release_event e b false).
Proof.
  apply still_bind; [apply _|]. intros _.
  set (drop := fun free_event : bool => if free_event then
    let! e'' := load e in do! kcall_ (KDput (evt_dentry e'')) in do! kcall_ (KMntput (evt_mnt e'')) in
    do! kcall_ (KPutPid (evt_proc_id e'')) in kfree_obj (V := dazukofs_event) e else sret tt).
  assert (Hd : forall b, Still (drop b)) by (intros []; apply _).
  destruct b.
  - apply (still_ext _ (let! ev := load e in do! store e (with_assigned (assigned ev - 1) ev) in
      let! f := (if decide (assigned ev - 1 = 0)%Z then
                   (if decide (evt_deprecated ev = 0%Z) then do! kcall_ (KWakeUp (EvtQ e)) in sret false else sret true)
                 else sret false) in drop f)).
    + intros s. unfold sbind. destruct (load e s) as [ev s1|]; [|done]. by destruct (store e _ s1).
    + apply still_put_event_bind; [done|]. intros ev. apply _.
  - apply (still_ext _ (let! ev := load e in
      do! store e (if decide (assigned ev = 0%Z) then ev else with_evt_deprecated 1 ev) in drop (bool_decide (assigned ev = 0%Z)))).
    + intros s. unfold sbind. destruct (load e s) as [ev s1|]; [|done]. case_decide as Ha; [|].
      * rewrite bool_decide_true by done. by destruct (store e _ s1).
      * rewrite bool_decide_false by done. by destruct (store e _ s1).
    + apply (still_put_event_bind e (fun ev => if decide (assigned ev = 0%Z) then ev else with_evt_deprecated 1 ev));
        [intros ev; by case_decide|]. intros ev. apply _.
Qed.

(** ** Operations on groups: containers but [X], and denials, are as before *)

Record refs_kept (X : list loc) (n : loc) (s s' : kstate) : Prop := {
  rk_ref c : (c < n)%positive -> c ∉ X -> cref s' c = cref s c;
  rk_deny e ev' : events s' !! e = Some ev' ->
    (exists ev, events s !! e = Some ev /\ deny ev' = deny ev) \/ (n <= e)%positive;
  rk_next : (next s <= next s')%positive
}.

Lemma still_refs X n s s' : still n s s' -> refs_kept X n s s'.
Proof. intros []. split; auto. Qed.

Lemma refs_same X n s s' : containers s' = containers s -> events s' = events s -> (next s <= next s')%positive -> refs_kept X n s s'.
Proof. intros Hc He Hn. split; unfold cref; rewrite ?Hc, ?He; eauto. Qed.

Lemma refs_trans X n a b c : refs_kept X n a b -> refs_kept X n b c -> refs_kept X n a c.
Proof.
  intros [R1 D1 N1] [R2 D2 N2]. split; [|intros e ev2 He2|lia].
  - intros x Hx Hn. by rewrite R2, R1.
  - destruct (D2 e ev2 He2) as [(ev1 & He1 & E2)|]; [|by right].
    destruct (D1 e ev1 He1) as [(ev & He & E1)|]; [left|by right]. exists ev. by rewrite E2.
Qed.

Class RefsKept (X : list loc) {A} (m : M A) : Prop :=
  keeps_refs n s a s' : (n <= next s)%positive -> m s = Ret a s' -> refs_kept X n s s'.

#[export] Instance refs_of_still X {A} (m : M A) : Still m -> RefsKept X m | 10.
Proof. intros H n s a s' Hn E. by eapply still_refs, H. Qed.
#[export] Instance refs_bind X {A B} (m : M A) (k : A -> M B) :
  RefsKept X m -> (forall a, RefsKept X (k a)) -> RefsKept X (sbind m k).
Proof.
  intros Hm Hk n s b s'. unfold sbind. destruct (m s) as [a s1|w] eqn:E; [|done]. intros Hn E'.
  pose proof (Hm n s a s1 Hn E) as S1. eapply refs_trans; [exact S1|]. eapply Hk; [|exact E']. pose proof (rk_next _ _ _ _ S1). lia.
Qed.
#[export] Hint Extern 1 (RefsKept _ (match ?x with _ => _ end)) => destruct x : typeclass_instances.

#[export] Instance refs_store_group X g G : RefsKept X (store (V := dazukofs_group) g G).
Proof. intros n s a s' _. unfold store. destruct (hget s !! g); [|done]. intros [= _ <-]. by apply refs_same. Qed.
#[export] Instance refs_kfree_group X g : RefsKept X (kfree_obj (V := dazukofs_group) g).
Proof. intros n s a s' _. unfold kfree_obj. destruct (hget s !! g); [|done]. intros [= _ <-]. by apply refs_same. Qed.
#[export] Instance refs_kzalloc_group X G : RefsKept X (kzalloc (V := dazukofs_group) G).
Proof.
  apply refs_bind; [apply _|]. intros [|]; [apply _|]. intros n s a s' _ [= _ <-]. apply refs_same; simpl; (done || lia).
Qed.
#[export] Instance refs_list_del X ec : RefsKept X (list_del_container ec).
Proof.
  apply refs_bind; [apply _|]. intros _ n s a s' _. case_decide; [|done]. intros [= _ <-]. by apply refs_same.
Qed.
#[export] Instance refs_unlink X f : RefsKept X (smodify (fun s => set_group_list (f s) s)).
Proof. intros n s a s' _ [= _ <-]. by apply refs_same. Qed.
Lemma refs_kfree_container X c : c ∈ X -> RefsKept X (kfree_obj (V := dazukofs_event_container) c).
Proof.
  intros Hc n s a s' _. unfold kfree_obj. destruct (hget s !! c); [|done]. intros [= _ <-]. split; [|simpl; eauto|done].
  intros x _ Hx. unfold cref. simpl. rewrite lookup_delete_ne; [done|]. by intros <-.
Qed.

#[export] Instance refs_check_for_group_loop X pos nm id track : RefsKept X (check_for_group_loop pos nm id track).
Proof. induction pos; simpl; apply _. Qed.
#[export] Instance refs_add_group_find X nm track : RefsKept X (add_group_find nm track).
Proof.
  apply refs_bind; [apply _|]. intros gl. generalize (S (length gl)), 0%Z. intros fuel. induction fuel; intros id; simpl; apply _.
Qed.
#[export] Instance refs_create_group X nm id track : RefsKept X (create_group nm id track).
Proof. apply _. Qed.
Lemma refs_clear X l : l ⊆ X -> RefsKept X (clear_group_event_list l).
Proof.
  induction l as [|c l IH]; intros Hl; simpl; [apply _|].
  assert (RefsKept X (clear_group_event_list l)) by (apply IH; set_solver).
  assert (RefsKept X (kfree_obj (V := dazukofs_event_container) c)) by (apply refs_kfree_container; set_solver).
  apply _.
Qed.

(** Removing a group touches the containers on its lists only. *)
Lemma refs_remove_group gh s g G a s' : mem_inv gh s -> groups s !! g = Some G ->
  remove_group g s = Ret a s' -> refs_kept (group_lists G) (next s) s s'.
Proof.
  intros I HG E. unfold remove_group in E. first_of E G' sx E1. apply load_inv in E1 as [HG' ->]. simpl in HG'. simplify_eq.
  first_of E u sx E1. apply store_inv in E1 as [_ ->]. first_of E u1 s1 E1. injection E1 as _ <-.
  set (s1 := set_group_count _ _) in E. set (G1 := with_grp_deprecated 1 G) in *.
  assert (I1 : mem_inv gh s1) by (apply mem_set_count; by eapply mem_update_group).
  assert (HG1 : groups s1 !! g = Some G1) by apply lookup_insert_eq.
  pose proof (mem_lists_nodup _ _ I1 g _ HG1) as Hnd. unfold group_lists in Hnd. apply NoDup_app in Hnd as (_ & _ & Hnd).
  first_of E G' sx E1. apply load_inv in E1 as [HG' ->]. simpl in HG'. rewrite lookup_insert_eq in HG'. injection HG' as <-.
  first_of E u2 s2 E2.
  pose proof (wp_clear gh g (working_list G1) s1 G1 I1 HG1 Hnd ltac:(unfold group_lists; set_solver)) as Hw.
  unfold wp in Hw. rewrite E2 in Hw. destruct Hw as (_ & _ & HG2).
  first_of E G' sx E1. apply load_inv in E1 as [HG' ->]. simpl in HG'. rewrite HG2, lookup_insert_eq in HG'. injection HG' as <-.
  first_of E u3 s3 E3.
  assert (R1 : refs_kept (group_lists G) (next s) s s1) by (by apply refs_same).
  assert (R2 : refs_kept (group_lists G) (next s) s1 s2).
  { eapply (refs_clear (group_lists G)); [|done|exact E2]. unfold group_lists. set_solver. }
  assert (R3 : refs_kept (group_lists G) (next s) s2 s3).
  { eapply (refs_clear (group_lists G)); [|exact (rk_next _ _ _ _ (refs_trans _ _ _ _ _ R1 R2))|exact E3].
    unfold group_lists. intros c [_ Hc]%list_elem_of_filter. set_solver. }
  first_of E u4 s4 E4. injection E4 as _ <-. injection E as _ <-. eapply refs_trans; [exact R1|]. eapply refs_trans; [exact R2|].
  eapply refs_trans; [exact R3|]. by apply refs_same.
Qed.

(** ** Posting *)

(** What [assign_event_to_groups] does to a group: one container more at the end of the
    todo list of a live group, and nothing to another one. *)
Definition posted_to (evt : loc) (ecs pos : list loc) (s s' : kstate) (g : loc) : Prop :=
  match groups s !! g with
  | Some G => if decide (g ∈ pos /\ grp_deprecated G = 0%Z)
      then exists c, c ∈ ecs /\ groups s' !! g = Some (append_todo c G) /\ cref s' c = Some evt
      else groups s' !! g = Some G
  | None => groups s' !! g = None
  end.

Record posting (evt : loc) (ecs pos : list loc) (s s' : kstate) : Prop := {
  po_ref c : c ∉ ecs -> cref s' c = cref s c;
  po_deny e ev' : events s' !! e = Some ev' -> exists ev, events s !! e = Some ev /\ deny ev' = deny ev;
  po_next : next s' = next s;
  po_list : group_list s' = group_list s;
  po_group g : posted_to evt ecs pos s s' g
}.

Lemma posting_skip evt ecs g q G s s' : g ∉ q -> groups s !! g = Some G -> grp_deprecated G <> 0%Z ->
  posting evt ecs q s s' -> posting evt ecs (g :: q) s s'.
Proof.
  intros Hg HG Hd []. split; try done. intros g1. specialize (po_group0 g1). unfold posted_to in *.
  destruct (groups s !! g1) as [G1|] eqn:HG1; [|done]. destruct (decide (g1 = g)) as [->|Hne].
  - simplify_eq. rewrite decide_False by tauto. by rewrite decide_False in po_group0 by tauto.
  - destruct (decide (g1 ∈ q /\ grp_deprecated G1 = 0%Z)) as [[Hin Hd1]|Hn].
    + rewrite decide_True; [done|]. split; [by right|done].
    + rewrite decide_False; [done|]. intros [[->|Hin]%elem_of_cons Hd1]; tauto.
Qed.

Lemma posting_cons evt ec ecs g q G C ev s s' : g ∉ q -> ec ∉ ecs -> groups s !! g = Some G -> grp_deprecated G = 0%Z ->
  events s !! evt = Some ev ->
  posting evt ecs q (posted_woken g G ec C evt ev s) s' -> posting evt (ec :: ecs) (g :: q) s s'.
Proof.
  intros Hg Hec HG Hd He [Rf Dn Nx Ls Gr]. split; try done.
  - intros c Hc. rewrite Rf by set_solver. unfold cref. simpl. rewrite lookup_insert_ne by set_solver. done.
  - intros e ev' He'. destruct (Dn e ev' He') as (ev1 & He1 & ->).
    simpl in He1. apply lookup_insert_Some in He1 as [[<- <-]|[_ He1]]; [by exists ev|by exists ev1].
  - intros g1. specialize (Gr g1). unfold posted_to in *. simpl in Gr. destruct (decide (g = g1)) as [<-|Hne].
    + rewrite HG. rewrite lookup_insert_eq, decide_False in Gr by tauto. rewrite decide_True by (split; [left|done]).
      exists ec. split_and!; [left|done|]. rewrite Rf by done. unfold cref. simpl. by rewrite lookup_insert_eq.
    + rewrite lookup_insert_ne in Gr by done. destruct (groups s !! g1) as [G1|] eqn:HG1; [|done].
      destruct (decide (g1 ∈ q /\ grp_deprecated G1 = 0%Z)) as [[Hin Hd1]|Hn].
      * rewrite decide_True by (split; [by right|done]). destruct Gr as (c & Hc & ? & ?). exists c. split; [by right|done].
      * rewrite decide_False; [done|]. intros [[->|Hin]%elem_of_cons Hd1]; tauto.
Qed.

Lemma assign_loop_posts evt pos : forall ecs s s', NoDup pos -> NoDup ecs ->
  assign_loop pos evt ecs s = Ret tt s' -> posting evt ecs pos s s'.
Proof.
  induction pos as [|g q IH]; intros ecs s s' Hq Hecs; cbn [assign_loop]; intros E.
  { injection E as <-. split; eauto. intros g. unfold posted_to. destruct (groups s !! g); [|done].
    rewrite decide_False; [done|]. intros [Hg _]. by apply not_elem_of_nil in Hg. }
  apply NoDup_cons in Hq as [Hg Hq]. first_of E G s1 E1. apply load_inv in E1 as [HG ->]. case_decide as Hd.
  2:{ eapply posting_skip; [done|exact HG|done|by apply IH]. }
  destruct ecs as [|ec ecs]; [done|]. apply NoDup_cons in Hecs as [Hec Hecs].
  first_of E C s1 E1. apply load_inv in E1 as [HC ->]. first_of E u s1 E1. apply store_inv in E1 as [_ ->].
  first_of E ev s1 E1. apply load_inv in E1 as [He ->]. first_of E u1 s1 E1. apply store_inv in E1 as [_ ->].
  first_of E u2 s1 E1. first_of E1 G' s2 E2. apply load_inv in E2 as [HG' ->]. apply store_inv in E1 as [_ ->].
  simpl in HG'. assert (G' = G) as -> by (simpl in HG; congruence).
  first_of E u3 s1 E1. injection E1 as _ <-. first_of E u4 s1 E1. injection E1 as _ <-.
  eapply (posting_cons evt ec ecs g q G C ev); [done..|]. by apply IH.
Qed.

Lemma assign_posts evt ecs s s' : NoDup (group_list s) -> NoDup ecs ->
  assign_event_to_groups evt ecs s = Ret tt s' -> posting evt ecs (group_list s) s s'.
Proof.
  intros Hl Hecs E. unfold assign_event_to_groups in E. first_of E u s1 E1. injection E1 as _ <-.
  first_of E i s1 E1. injection E1 as _ <-. first_of E e s1 E1. apply load_inv in E1 as [He ->].
  first_of E u1 s1 E1. apply store_inv in E1 as [_ ->]. first_of E gl s1 E1. injection E1 as <- <-.
  destruct (assign_loop_posts _ _ _ _ _ Hl Hecs E) as [Rf Dn Nx Ls Gr]. split; [done| |done|done|done].
  intros e' ev' He'. destruct (Dn e' ev' He') as (ev1 & He1 & ->).
  simpl in He1. apply lookup_insert_Some in He1 as [[<- <-]|[_ He1]]; [by exists e|by exists ev1].
Qed.
