(* ===== verification/EventVote.v ===== *)
(** * The event layer is a vote

    Every run of the tasks of [event.c] is, to who watches the posting of events, the
    answers, their counting, the removal of groups and the results of accesses, a run
    of the abstract vote [Vote]: a simulation, step by step. *)

From S2P Require Import Prelude EventState EventOps EventInv GroupReg EventFlow EventPost EventTasks.
From S2P Require Import EventConc EventMask EventSteps EventRegSteps EventSafe EventEnd EventStill Vote.
From stdpp Require Import strings.
Import Vote.

(** ** The vote in a state *)

(** How many containers for [e] are on the lists of [g], and how many answers of [g]
    to [e] are given and not yet counted. *)
Definition ntodo (s : kstate) (g e : loc) : nat := nrefs (containers s) (lists_of s g).1 e.
Definition nworking (s : kstate) (g e : loc) : nat := nrefs (containers s) (lists_of s g).2 e.
Definition c_answer (g e : loc) (d : bool) (p : pc) : nat :=
  match p with RE_release g' e' d' => one (g', e', d') (g, e, d) | _ => 0 end.
Definition nanswers (T : pool) (g e : loc) (d : bool) : nat := mcount (fun x => c_answer g e d x.2) T.

Definition counters : Type := nat * nat * nat * nat.
Definition observed (T : pool) (s : kstate) (e g : loc) : counters :=
  (ntodo s g e, nworking s g e, nanswers T g e false, nanswers T g e true).

(** A stage is one of these, once. *)
Definition code (o : option stage) : counters :=
  match o with
  | None => (0, 0, 0, 0)
  | Some Waiting => (1, 0, 0, 0)
  | Some Claimed => (0, 1, 0, 0)
  | Some (Answered false) => (0, 0, 1, 0)
  | Some (Answered true) => (0, 0, 0, 1)
  end.

(** An access whose event was posted and is not yet freed. *)
Definition voting (p : pc) : option loc :=
  match p with CA_wait e | CA_sleep e | CA_verdict e | CA_release e _ => Some e | _ => None end.
Definition voted (T : pool) (e : loc) : Prop := exists t x, T !! t = Some x /\ voting x.2 = Some e.

(** The box of open votes that a state stands for. *)
Record represents (T : pool) (s : kstate) (B : box) : Prop := {
  rp_stage e g : observed T s e g = code (stage_of B e g);
  rp_dom e : is_Some (B !! e) <-> voted T e;
  rp_deny e b : B !! e = Some b -> event_is s e (fun ev => denied b = bool_decide (deny ev <> 0%Z))
}.

(** What can be seen of a step from [p] to [p']. *)
Definition shows (s s' : kstate) (p p' : pc) : list act :=
  match p with
  | CA_assign e _ => [Post e (live_groups s)]
  | CA_release e err => [Close e (bool_decide (err <> 0%Z))]
  | RE_enter _ _ r => match p' with RE_release g e _ => [Answer e g (bool_decide (r = DENY))] | _ => [] end
  | RE_release g e d => [Count e g d]
  | _ => Withdraw <$> elements (live_groups s ∖ live_groups s')
  end.

(** Runs with what can be seen of them, latest first. *)
Inductive traced (ok : pool -> kstate -> pc -> Prop) : list act -> sys -> Prop :=
| traced_init : traced ok [] init_sys
| traced_run tr σ t cur p env p' s' : traced ok tr σ ->
    tasks σ !! t = Some (cur, p) -> enabled (tasks σ) p env -> ok (tasks σ) (mem σ) p ->
    action cur env p (set_oom (e_oom env) (mem σ)) = Ret p' s' ->
    traced ok (shows (mem σ) s' p p' ++ tr)
      (mk_sys (wake (new_calls (mem σ) s') <$> <[t:=(cur, p')]> (tasks σ)) s')
| traced_spawn tr σ t cur p : traced ok tr σ ->
    tasks σ !! t = None -> not_running cur (tasks σ) -> entry_point p = true -> traced ok tr (spawn t cur p σ)
| traced_exit tr σ t cur r f : traced ok tr σ ->
    tasks σ !! t = Some (cur, Done r f) -> traced ok tr (mk_sys (delete t (tasks σ)) (mem σ)).

Lemma traced_reachable ok tr σ : traced ok tr σ -> rtc (step ok) init_sys σ.
Proof.
  induction 1 as [|tr σ t cur p env p' s' _ R Ht En Hst E|tr σ t cur p _ R|tr σ t cur r f _ R]; [apply rtc_refl|..];
    (eapply rtc_r; [exact R|]).
  - eapply step_run; [exact Ht|exact Hst|]. unfold run. rewrite Ht, decide_True by done. by rewrite E.
  - by apply step_spawn.
  - by eapply step_exit.
Qed.

Lemma reachable_traced ok σ : rtc (step ok) init_sys σ -> exists tr, traced ok tr σ.
Proof.
  revert σ. refine (rtc_ind_r _ init_sys _ _); [exists []; constructor|].
  intros σ1 σ2 _ H [tr Htr]. destruct H as [t cur p env σ σ' Ht Hst Hrun|t cur p σ|t cur r f σ].
  - unfold run in Hrun. rewrite Ht in Hrun. case_decide as En; [|done].
    destruct (action _ _ _ _) as [p' s'|w] eqn:E; [|done]. simplify_eq. eexists. by eapply traced_run.
  - exists tr. by apply traced_spawn.
  - exists tr. by eapply traced_exit.
Qed.

(** Runs that can be evaluated. *)
Definition seen_in (c : cmd) (σ : sys) : list act :=
  match c with
  | Run t env =>
      match tasks σ !! t with
      | Some (cur, p) =>
          match action cur env p (set_oom (e_oom env) (mem σ)) with
          | Ret p' s' => shows (mem σ) s' p p'
          | Stuck _ => []
          end
      | None => []
      end
  | _ => []
  end.
Fixpoint watch (cs : list cmd) (tr : list act) (σ : sys) : list act :=
  match cs with
  | [] => tr
  | c :: cs => match oexec1 c σ with Some σ' => watch cs (seen_in c σ ++ tr) σ' | None => tr end
  end.

Lemma watch_traced cs tr σ σ' : traced orderly tr σ -> oexec cs σ = Some σ' -> traced orderly (watch cs tr σ) σ'.
Proof.
  revert tr σ. induction cs as [|c cs IH]; simpl; intros tr σ H E; [by simplify_eq|].
  destruct (oexec1 c σ) as [σ1|] eqn:E0; [|done]. apply IH; [|done]. apply oexec1_exec1 in E0 as [Ho E1].
  destruct c as [t cur p|t env|t]; simpl in *.
  - repeat case_decide; try done. destruct (entry_point p) eqn:He; [|done]. injection E1 as <-. by apply traced_spawn.
  - unfold run in E1. destruct (tasks σ !! t) as [[cur p]|] eqn:Ht; [|done]. case_decide as En; [|done].
    destruct (action _ _ _ _) as [p' s'|w] eqn:Ea; [|done]. injection E1 as <-. by eapply traced_run.
  - destruct (tasks σ !! t) as [[cur []]|] eqn:Ht; try done. injection E1 as <-. by eapply traced_exit.
Qed.

(** ** Counters *)

Lemma code_inj o o' : code o = code o' -> o = o'.
Proof. destruct o as [[| |[]]|], o' as [[| |[]]|]; done. Qed.

Lemma nanswers_step (T : pool) t cur p p' g e d : T !! t = Some (cur, p) ->
  nanswers (<[t:=(cur, p')]> T) g e d + c_answer g e d p = nanswers T g e d + c_answer g e d p'.
Proof. intros Ht. apply (mcount_insert (fun x : task => c_answer g e d x.2) T t _ (cur, p') Ht). Qed.

(** No answer is on its way. *)
Definition no_answer (q : pc) : Prop := match q with RE_release _ _ _ => False | _ => True end.
Lemma nanswers_same (T : pool) t cur p p' g e d : T !! t = Some (cur, p) -> no_answer p -> no_answer p' ->
  nanswers (<[t:=(cur, p')]> T) g e d = nanswers T g e d.
Proof.
  intros Ht Hp Hp'. pose proof (nanswers_step T t cur p p' g e d Ht) as H.
  assert (c_answer g e d p = 0) as E by (by destruct p). assert (c_answer g e d p' = 0) as E' by (by destruct p'). lia.
Qed.

Lemma voted_step (T : pool) t cur p p' e : T !! t = Some (cur, p) -> voting p' = voting p ->
  voted (<[t:=(cur, p')]> T) e <-> voted T e.
Proof.
  intros Ht E. split; intros (t' & x & Hx & Hv).
  - apply lookup_insert_Some in Hx as [[<- <-]|[_ Hx]]; [exists t, (cur, p)|by exists t', x].
    split; [done|]. simpl in *. congruence.
  - destruct (decide (t' = t)) as [->|Hne].
    + exists t, (cur, p'). rewrite lookup_insert_eq. split; [done|]. rewrite Ht in Hx. simplify_eq. simpl in *. congruence.
    + exists t', x. by rewrite lookup_insert_ne.
Qed.

Lemma voting_wake new x : voting (wake new x).2 = voting x.2.
Proof. destruct x as [cur []]; try done; unfold wake; simpl; by case_match. Qed.
Lemma c_answer_wake new x g e d : c_answer g e d (wake new x).2 = c_answer g e d x.2.
Proof. destruct x as [cur []]; try done; unfold wake; simpl; by case_match. Qed.

Lemma represents_wake new T s B : represents T s B -> represents (wake new <$> T) s B.
Proof.
  intros [S D Y]. split; [|intros e|exact Y].
  - intros e g. rewrite <-S. unfold observed, nanswers. rewrite !mcount_fmap.
    f_equal; [f_equal|]; apply mcount_ext; intros; apply c_answer_wake.
  - rewrite D. split; intros (t & x & Hx & Hv).
    + exists t, (wake new x). by rewrite lookup_fmap, Hx, voting_wake.
    + apply lookup_fmap_Some in Hx as (y & <- & Hy). exists t, y. by rewrite voting_wake in Hv.
Qed.

Lemma represents_oom T s B o : represents T s B -> represents T (set_oom o s) B.
Proof. by intros [S D Y]; split. Qed.

(** The box is determined by the state. *)
Lemma represents_unique T s B B' : represents T s B -> represents T s B' -> B = B'.
Proof.
  intros [S D Y] [S' D' Y']. apply map_eq. intros e.
  assert (Hs : forall g, stage_of B e g = stage_of B' e g) by (intros g; apply code_inj; by rewrite <-S, <-S').
  destruct (B !! e) as [b|] eqn:Hb, (B' !! e) as [b'|] eqn:Hb'.
  - f_equal. destruct (Y e b Hb) as (ev & He & Hd), (Y' e b' Hb') as (ev' & He' & Hd'). simplify_eq.
    destruct b as [st dn], b' as [st' dn']. simpl in *. f_equal; [|congruence]. apply map_eq. intros g. specialize (Hs g).
    unfold stage_of in Hs. by rewrite Hb, Hb' in Hs.
  - assert (is_Some (B' !! e)) as [? ?] by (apply D', D; by rewrite Hb). congruence.
  - assert (is_Some (B !! e)) as [? ?] by (apply D, D'; by rewrite Hb'). congruence.
  - done.
Qed.

(** ** One step *)

Definition simulated (T : pool) (t : positive) (cur : ptr) (p : pc) (s : kstate) (B : box) (p' : pc) (s' : kstate) : Prop :=
  exists l B', moves B l B' /\ represents (<[t:=(cur, p')]> T) s' B' /\ filter visible l = shows s s' p p'.

Lemma nrefs_cref s s' l e : (forall c, c ∈ l -> cref s' c = cref s c) ->
  nrefs (containers s') l e = nrefs (containers s) l e.
Proof.
  induction l as [|c l IH]; intros Hc; [done|]. rewrite !nrefs_cons, IH by set_solver. f_equal.
  assert (refers (containers s') e c <-> refers (containers s) e c) as [H1 H2].
  { unfold refers. pose proof (Hc c ltac:(left)) as E. unfold cref in E. by rewrite E. }
  repeat case_decide; tauto.
Qed.

Lemma listed gh s g c : mem_inv gh s -> c ∈ (lists_of s g).1 ++ (lists_of s g).2 ->
  exists G, groups s !! g = Some G /\ c ∈ group_lists G /\ (c < next s)%positive.
Proof.
  intros I. unfold lists_of. destruct (groups s !! g) as [G|] eqn:HG; [|by intros ?%not_elem_of_nil].
  simpl. intros Hc. exists G. split_and!; [done|done|].
  destruct (mem_container _ _ I g G c HG Hc) as (C & _ & _ & HC & _).
  destruct (m_bounded _ _ I) as (_ & Hb & _). apply Hb. by rewrite HC.
Qed.

(** Counters of a group whose lists and containers are as before. *)
Lemma counters_same gh s s' g e : mem_inv gh s -> lists_of s' g = lists_of s g ->
  (forall c, c ∈ (lists_of s g).1 ++ (lists_of s g).2 -> (c < next s)%positive -> cref s' c = cref s c) ->
  ntodo s' g e = ntodo s g e /\ nworking s' g e = nworking s g e.
Proof.
  intros I Hl Hc. unfold ntodo, nworking. rewrite Hl.
  assert (H : forall c, c ∈ (lists_of s g).1 ++ (lists_of s g).2 -> cref s' c = cref s c).
  { intros c Hin. destruct (listed gh s g c I Hin) as (G & _ & _ & Hb). by apply Hc. }
  split; apply nrefs_cref; intros c Hin; apply H; set_solver.
Qed.

Section step.
Context (T : pool) (t : positive) (cur : ptr) (p : pc) (s : kstate) (B : box).
Context (V : sys_inv T s) (Ht : T !! t = Some (cur, p)) (R : represents T s B).
Context (p' : pc) (s' : kstate) (K : step_ok T t cur p s p' s').

(** The event of a vote is alive. *)
Lemma voted_alive e : voted (<[t:=(cur, p')]> T) e -> is_Some (events s' !! e).
Proof.
  intros (t' & x & Hx & Hv). apply (m_own _ _ (proj1 (so_grp _ _ _ _ _ _ _ K)) e).
  pose proof (share_own _ _ _ Hx e) as Hs. unfold c_own in Hs.
  assert (own_of x.2 = Some e) as E by (by destruct x as [c []]). rewrite E, one_refl in Hs. lia.
Qed.

Lemma rep_next B' :
  (forall e g, observed (<[t:=(cur, p')]> T) s' e g = code (stage_of B' e g)) ->
  (forall e, is_Some (B' !! e) <-> voted (<[t:=(cur, p')]> T) e) ->
  (forall e b' ev', B' !! e = Some b' -> events s' !! e = Some ev' -> denied b' = bool_decide (deny ev' <> 0%Z)) ->
  represents (<[t:=(cur, p')]> T) s' B'.
Proof.
  intros Ho Hd Hy. split; [done|done|]. intros e b' Hb'.
  destruct (voted_alive e) as [ev' He']; [apply Hd; by rewrite Hb'|]. exists ev'. split; [done|by eapply Hy].
Qed.

Lemma deny_same e b ev' : (forall ev, events s !! e = Some ev -> deny ev' = deny ev) -> B !! e = Some b ->
  denied b = bool_decide (deny ev' <> 0%Z).
Proof. intros Hd Hb. destruct (rp_deny _ _ _ R e b Hb) as (ev & He & ->). by rewrite (Hd ev He). Qed.

Lemma still_deny e ev ev' : still (next s) s s' -> events s !! e = Some ev -> events s' !! e = Some ev' -> deny ev' = deny ev.
Proof.
  intros St He He'. destruct (st_deny _ _ _ St e ev' He') as [(ev0 & He0 & ->)|Hle]; [by simplify_eq|].
  assert (e < next s)%positive; [|lia]. destruct (m_bounded _ _ (proj1 (si_grp _ _ V))) as (_ & _ & Hb). apply Hb. by rewrite He.
Qed.

(** A step that no vote notices. *)
Lemma sim_still : still (next s) s s' -> no_answer p -> no_answer p' -> voting p' = voting p ->
  shows s s' p p' = [] -> simulated T t cur p s B p' s'.
Proof.
  intros St Hp Hp' Hv Hs. exists [], B. split; [done|]. split; [|by rewrite Hs]. apply rep_next.
  - intros e g. rewrite <-(rp_stage _ _ _ R). unfold observed. rewrite !(nanswers_same T t cur p) by done.
    destruct (counters_same (ghost_of T) s s' g e) as [-> ->]; [apply V|apply St| |done].
    intros c _ Hc. by apply St.
  - intros e. rewrite (rp_dom _ _ _ R). by rewrite voted_step.
  - intros e b ev' Hb He'. eapply deny_same; [|done]. intros ev He. by eapply still_deny.
Qed.

Lemma shows_nothing : (forall g, live s g -> live s' g) -> Withdraw <$> elements (live_groups s ∖ live_groups s') = [].
Proof.
  intros H. assert (E : live_groups s ∖ live_groups s' = ∅); [|by rewrite E, elements_empty].
  apply elem_of_equiv_empty_L. intros g. rewrite elem_of_difference, !elem_of_live_groups. intros [Hl Hn]. eauto.
Qed.
End step.

(** ** Steps that no vote notices *)

Definition watched (p : pc) : bool :=
  match p with
  | CA_assign _ _ | CA_release _ _ | RE_enter _ _ _ | RE_release _ _ _ | RE_repost _ _ | GE_unclaim _ _ _
  | GE_claim _ | RG_loop _ | Tracked _ _ | AG_enter _ _ | AG_create _ _ _ => true
  | _ => false
  end.

Lemma still_action cur env p : watched p = false -> Still (action cur env p).
Proof. destruct p; try done; intros _; cbn [action check_access_step registry_step return_event_step get_event_step device_step]; apply _. Qed.

Lemma action_quiet cur env p s p' s' : watched p = false -> action cur env p s = Ret p' s' ->
  no_answer p' /\ voting p' = voting p.
Proof.
  intros Hw E. destruct p; try done; cbn in E; run_inv E; try (injection E as <- <-; repeat case_match; done).
  case_match; [by injection E as <- <-|done].
Qed.

Section step.
Context (T : pool) (t : positive) (cur : ptr) (s : kstate) (B : box).
Context (V : sys_inv T s) (R : represents T s B).

Lemma sim_unwatched env p p' s' : T !! t = Some (cur, p) -> watched p = false -> action cur env p s = Ret p' s' ->
  step_ok T t cur p s p' s' -> simulated T t cur p s B p' s'.
Proof.
  intros Ht Hw E K. destruct (action_quiet _ _ _ _ _ _ Hw E) as [Hp' Hv].
  pose proof (keeps_still (Still := still_action cur env p Hw) (next s) s p' s' ltac:(done) E) as St.
  apply sim_still; try done; [by destruct p|]. destruct p; try done; apply shows_nothing, St.
Qed.
End step.
