(* ===== verification/EventVoteSteps.v ===== *)
(** * The steps that votes notice *)

From S2P Require Import Prelude EventState EventOps EventInv GroupReg EventFlow EventPost EventTasks.
From S2P Require Import EventConc EventMask EventSteps EventRegSteps EventSafe EventEnd EventStill Vote EventVote.
From stdpp Require Import strings.
Import Vote.

(** ** Counting references *)

Lemma nrefs_unlink cs l ec e : NoDup l -> ec ∈ l ->
  nrefs cs l e = (if decide (refers cs e ec) then 1 else 0) + nrefs cs (filter (fun c => c <> ec) l) e.
Proof. intros Hnd Hec. rewrite (nrefs_perm _ _ _ _ (filter_ne_perm l ec Hnd Hec)). apply nrefs_cons. Qed.

Lemma filter_ne_absent (l : list loc) ec : ec ∉ l -> filter (fun c => c <> ec) l = l.
Proof. intros Hn. apply filter_all. by intros c Hc ->. Qed.

Lemma refers_iff cs ec C e0 e : cs !! ec = Some C -> ec_event C = Some e0 -> refers cs e ec <-> e = e0.
Proof. intros HC HE. unfold refers. rewrite HC. simpl. rewrite HE. naive_solver. Qed.

Section stages.
Context (T : pool) (s : kstate) (B : box) (R : represents T s B).

Lemma stage_waiting e g : 0 < ntodo s g e -> stage_of B e g = Some Waiting.
Proof.
  intros H. pose proof (rp_stage _ _ _ R e g) as E. unfold observed in E.
  destruct (stage_of B e g) as [[| |[]]|]; simpl in E; injection E; intros; done || lia.
Qed.
Lemma stage_claimed e g : 0 < nworking s g e -> stage_of B e g = Some Claimed.
Proof.
  intros H. pose proof (rp_stage _ _ _ R e g) as E. unfold observed in E.
  destruct (stage_of B e g) as [[| |[]]|]; simpl in E; injection E; intros; done || lia.
Qed.
Lemma stage_answered e g d : 0 < nanswers T g e d -> stage_of B e g = Some (Answered d).
Proof.
  intros H. pose proof (rp_stage _ _ _ R e g) as E. unfold observed in E.
  destruct (stage_of B e g) as [[| |[]]|], d; simpl in E; injection E; intros; done || lia.
Qed.

(** All counters of a group that has a stage. *)
Lemma observed_stage e g o : stage_of B e g = o -> observed T s e g = code o.
Proof. intros <-. apply R. Qed.
End stages.

(** Containers of one group move between its lists. *)
Lemma observed_relist (T : pool) t cur p p' s g0 G G' e g : T !! t = Some (cur, p) -> groups s !! g0 = Some G ->
  no_answer p -> no_answer p' ->
  observed (<[t:=(cur, p')]> T) (set_groups (<[g0:=G']> (groups s)) s) e g = if decide (g = g0)
    then (nrefs (containers s) (todo_list G') e, nrefs (containers s) (working_list G') e, nanswers T g e false, nanswers T g e true)
    else observed T s e g.
Proof.
  intros Ht HG Hp Hp'. unfold observed. rewrite !(nanswers_same T t cur p) by done. unfold ntodo, nworking, lists_of. simpl.
  case_decide as Hg; [subst; by rewrite lookup_insert_eq|by rewrite lookup_insert_ne].
Qed.

Lemma live_relist s g G G' x : groups s !! g = Some G -> grp_deprecated G' = grp_deprecated G ->
  live s x -> live (set_groups (<[g:=G']> (groups s)) s) x.
Proof.
  intros HG Hd [Hin (X & HX & HXd)]. split; [done|]. simpl. destruct (decide (g = x)) as [<-|].
  - exists G'. rewrite lookup_insert_eq, Hd. by simplify_eq.
  - exists X. by rewrite lookup_insert_ne.
Qed.

Section step.
Context (T : pool) (t : positive) (cur : ptr) (p : pc) (s : kstate) (B : box).
Context (V : sys_inv T s) (Ht : T !! t = Some (cur, p)) (R : represents T s B).
Context (p' : pc) (s' : kstate) (K : step_ok T t cur p s p' s').
Abbreviation T' := (<[t:=(cur, p')]> T).

(** One group changes its stage with one event. *)
Lemma sim_set_stage e0 g0 st st' a : stage_of B e0 g0 = Some st ->
  vote_step B a (set_stage e0 g0 (Some st') B) -> filter visible [a] = shows s s' p p' ->
  (forall e g, ~ (e = e0 /\ g = g0) -> observed T' s' e g = observed T s e g) ->
  observed T' s' e0 g0 = code (Some st') -> voting p' = voting p ->
  (forall e ev ev', events s !! e = Some ev -> events s' !! e = Some ev' -> deny ev' = deny ev) ->
  simulated T t cur p s B p' s'.
Proof.
  intros Hst S Hv Ho H0 Hp Hd. exists [a], (set_stage e0 g0 (Some st') B). split; [done|]. split; [|done].
  apply (rep_next T t cur p s p' s' K).
  - intros e g. rewrite stage_of_set_stage by (by eapply stage_of_some). case_decide as E; [by destruct E as [-> ->]|].
    rewrite Ho by done. apply R.
  - intros e. rewrite set_stage_dom, (rp_dom _ _ _ R). by rewrite (voted_step T t cur p p').
  - intros e b' ev' (b & Hb & ->)%set_stage_lookup He'. eapply (deny_same T s B R); [|done]. intros ev He. by eapply Hd.
Qed.
(** The counters do not change. *)
Lemma sim_same : (forall e g, observed T' s' e g = observed T s e g) -> voting p' = voting p ->
  (forall e ev ev', events s !! e = Some ev -> events s' !! e = Some ev' -> deny ev' = deny ev) ->
  shows s s' p p' = [] -> simulated T t cur p s B p' s'.
Proof.
  intros Ho Hp Hd Hs. exists [], B. split; [done|]. split; [|by rewrite Hs]. apply (rep_next T t cur p s p' s' K).
  - intros e g. rewrite Ho. apply R.
  - intros e. rewrite (rp_dom _ _ _ R). by rewrite (voted_step T t cur p p').
  - intros e b ev' Hb He'. eapply (deny_same T s B R); [|done]. intros ev He. by eapply Hd.
Qed.
End step.

Section steps.
Context (T : pool) (t : positive) (cur : ptr) (s : kstate) (env : env) (B : box).
Context (V : sys_inv T s) (R : represents T s B).

Lemma sim_GE_claim g p' s' : T !! t = Some (cur, GE_claim g) -> action cur env (GE_claim g) s = Ret p' s' ->
  step_ok T t cur (GE_claim g) s p' s' -> simulated T t cur (GE_claim g) s B p' s'.
Proof.
  intros Ht E K. cbn in E. first_of E c s1 E1. injection E as <- <-.
  pose proof (si_grp _ _ V) as I. destruct (held_group _ _ g I) as [Hin [G HG]]; [by eapply held|].
  pose proof (wp_claim_event _ _ _ _ I Hin HG) as Hw. unfold wp in Hw. rewrite E1 in Hw. destruct Hw as [_ Hw].
  destruct c as [ec|].
  2:{ destruct Hw as [_ ->]. by apply (sim_still T t cur _ s B V Ht R _ _ K); [..|apply shows_nothing]. }
  destruct Hw as (td & Htd & -> & _).
  pose proof (mem_lists_nodup _ _ (proj1 I) g G HG) as Hnd. unfold group_lists in Hnd. rewrite Htd in Hnd.
  simpl in Hnd. apply NoDup_cons in Hnd as [Hec _]. rewrite not_elem_of_app in Hec. destruct Hec as [Hectd Hecw].
  destruct (mem_container _ _ (proj1 I) g G ec HG) as (C & e0 & ev & HC & He0 & Hev & _); [unfold group_lists; rewrite Htd; left|].
  assert (Hr : forall e, refers (containers s) e ec <-> e = e0) by (intros e; by eapply refers_iff).
  assert (Hntodo : forall e, ntodo s g e = (if decide (e = e0) then 1 else 0) + nrefs (containers s) td e).
  { intros e. unfold ntodo, lists_of. rewrite HG. simpl. rewrite Htd, nrefs_cons. f_equal. pose proof (Hr e). repeat case_decide; tauto. }
  assert (Hst : stage_of B e0 g = Some Waiting).
  { apply (stage_waiting T s B R). rewrite Hntodo, decide_True by done. lia. }
  assert (Ho : forall e g1, observed (<[t:=(cur, GE_open g ec)]> T) (set_groups (<[g:=to_working ec G]> (groups s)) s) e g1 =
    if decide (g1 = g) then (nrefs (containers s) td e, (if decide (e = e0) then 1 else 0) + nworking s g e, nanswers T g1 e false, nanswers T g1 e true)
    else observed T s e g1).
  { intros e g1. rewrite (observed_relist T t cur (GE_claim g) _ s g G (to_working ec G)) by done. case_decide; [|done].
    unfold nworking, lists_of. rewrite HG. simpl. rewrite Htd. rewrite filter_cons_False by tauto. rewrite !filter_ne_absent by done.
    rewrite nrefs_cons. repeat f_equal. pose proof (Hr e). repeat case_decide; tauto. }
  apply (sim_set_stage T t cur _ s B Ht R _ _ K e0 g Waiting Claimed (Claim e0 g)); try done.
  - by constructor.
  - symmetry. apply shows_nothing. intros x. by eapply live_relist.
  - intros e g1 Hne. rewrite Ho. case_decide as Hg; [subst g1|done]. unfold observed. rewrite Hntodo.
    rewrite !decide_False by tauto. done.
  - rewrite Ho, decide_True by done. pose proof (observed_stage T s B R e0 g _ Hst) as E. unfold observed in E. simpl in E.
    rewrite Hntodo in E. rewrite decide_True in E |- * by done. simpl. injection E as -> -> -> ->. done.
  - intros e ev1 ev2 H1 H2. by simplify_eq/=.
Qed.

(** Giving a container back. *)
Lemma sim_unclaim p p' s' g ec : T !! t = Some (cur, p) -> claim_pc p = Some (g, ec) ->
  no_answer p -> no_answer p' -> voting p' = voting p ->
  (forall s', (forall x, live s x -> live s' x) -> shows s s' p p' = []) ->
  unclaim_event_locked g ec s = Ret tt s' ->
  step_ok T t cur p s p' s' -> simulated T t cur p s B p' s'.
Proof.
  intros Ht Hcl Hp Hp' Hv Hsh E K. pose proof (si_grp _ _ V) as I.
  assert (Hal : is_Some (containers s !! ec)).
  { destruct (containers s !! ec) as [C|] eqn:HC; [done|]. by rewrite unclaim_freed in E. }
  pose proof (wp_unclaim_locked _ _ g ec I (claimed T t cur _ _ Ht Hcl) Hal) as Hw. unfold wp in Hw. rewrite E in Hw.
  destruct Hw as (G & HG & Hec & -> & _).
  pose proof (mem_lists_nodup _ _ (proj1 I) g G HG) as Hnd. unfold group_lists in Hnd, Hec.
  apply NoDup_app in Hnd as (Hnt & Hdis & Hnw).
  destruct (mem_container _ _ (proj1 I) g G ec HG Hec) as (C & e0 & ev & HC & He0 & Hev & _).
  assert (Hr : forall e, refers (containers s) e ec <-> e = e0) by (intros e; by eapply refers_iff).
  set (a e := if decide (e = e0) then 1 else 0).
  assert (Ha : forall e, (if decide (refers (containers s) e ec) then 1 else 0) = a e).
  { intros e. unfold a. pose proof (Hr e). repeat case_decide; tauto. }
  assert (Hlv : forall x, live s x -> live (set_groups (<[g:=to_todo ec G]> (groups s)) s) x) by (intros x; by eapply live_relist).
  assert (Ho : forall e g1, observed (<[t:=(cur, p')]> T) (set_groups (<[g:=to_todo ec G]> (groups s)) s) e g1 =
    if decide (g1 = g) then (a e + nrefs (containers s) (filter (fun c => c <> ec) (todo_list G)) e,
      nrefs (containers s) (filter (fun c => c <> ec) (working_list G)) e, nanswers T g1 e false, nanswers T g1 e true)
    else observed T s e g1).
  { intros e g1. rewrite (observed_relist T t cur p _ s g G (to_todo ec G)) by done. case_decide; [|done].
    simpl. by rewrite nrefs_cons, Ha. }
  assert (Hev' : forall e ev1 ev2, events s !! e = Some ev1 -> events s !! e = Some ev2 -> deny ev2 = deny ev1) by congruence.
  apply elem_of_app in Hec as [Hec|Hec].
  - apply (sim_same T t cur p s B Ht R _ _ K); [|done|done|by apply Hsh].
    intros e g1. rewrite Ho. case_decide; [subst g1|done]. unfold observed, ntodo, nworking, lists_of. rewrite HG. simpl.
    rewrite (nrefs_unlink _ (todo_list G) ec e Hnt Hec), Ha. rewrite (filter_ne_absent (working_list G)) by (intros Hw; by eapply Hdis). done.
  - assert (Hwk : forall e, nworking s g e = a e + nrefs (containers s) (filter (fun c => c <> ec) (working_list G)) e).
    { intros e. unfold nworking, lists_of. rewrite HG. simpl. by rewrite (nrefs_unlink _ (working_list G) ec e Hnw Hec), Ha. }
    assert (Htd : forall e, nrefs (containers s) (filter (fun c => c <> ec) (todo_list G)) e = ntodo s g e).
    { intros e. unfold ntodo, lists_of. rewrite HG. simpl. rewrite filter_ne_absent; [done|]. intros Htd. by eapply Hdis. }
    assert (Ha0 : a e0 = 1) by (unfold a; by rewrite decide_True).
    assert (Hst : stage_of B e0 g = Some Claimed) by (apply (stage_claimed T s B R); rewrite Hwk; lia).
    apply (sim_set_stage T t cur p s B Ht R _ _ K e0 g Claimed Waiting (Unclaim e0 g)); try done.
    + by constructor.
    + symmetry. by apply Hsh.
    + intros e g1 Hne. rewrite Ho. case_decide as Hg; [subst g1|done]. unfold observed. rewrite Htd, Hwk.
      unfold a. rewrite !decide_False by tauto. done.
    + rewrite Ho, decide_True by done. pose proof (observed_stage T s B R e0 g _ Hst) as E0. unfold observed in E0. simpl in E0.
      rewrite Hwk, Ha0 in E0. rewrite Htd, Ha0. injection E0 as -> E1 -> ->. simpl. by replace (nrefs _ _ _) with 0 by lia.
Qed.

Lemma sim_RE_repost g ec p' s' : T !! t = Some (cur, RE_repost g ec) -> action cur env (RE_repost g ec) s = Ret p' s' ->
  step_ok T t cur (RE_repost g ec) s p' s' -> simulated T t cur (RE_repost g ec) s B p' s'.
Proof.
  intros Ht E K. cbn in E. first_of E u s1 E1. destruct u. injection E as <- <-.
  apply (sim_unclaim _ _ _ g ec); try done. intros s2 Hl. by apply shows_nothing.
Qed.
Lemma sim_GE_unclaim g ec r p' s' : T !! t = Some (cur, GE_unclaim g ec r) -> action cur env (GE_unclaim g ec r) s = Ret p' s' ->
  step_ok T t cur (GE_unclaim g ec r) s p' s' -> simulated T t cur (GE_unclaim g ec r) s B p' s'.
Proof.
  intros Ht E K. cbn in E. first_of E u s1 E1. destruct u. injection E as <- <-.
  apply (sim_unclaim _ _ _ g ec); try done. intros s2 Hl. by apply shows_nothing.
Qed.

(** *** Answers *)

Lemma still_in_use n g G s0 : groups s0 !! g = Some G -> (n <= next s0)%positive -> still n s0 (in_use g G s0).
Proof.
  intros HG Hn. apply (keeps_still (m := use_inc g) n s0 tt); [done|].
  unfold use_inc, sbind, load, store. simpl. by rewrite HG, HG.
Qed.

Lemma nanswers_new (T0 : pool) p gid id r g evt d g1 e d1 : T0 !! t = Some (cur, p) -> p = RE_enter gid id r ->
  nanswers (<[t:=(cur, RE_release g evt d)]> T0) g1 e d1 = one (g, evt, d) (g1, e, d1) + nanswers T0 g1 e d1.
Proof.
  intros Ht ->. pose proof (nanswers_step T0 t cur _ (RE_release g evt d) g1 e d1 Ht) as H. simpl in H. lia.
Qed.

(** The container goes, the answer is on its way. *)
Lemma sim_answer gid id r g G ec C evt : let d := bool_decide (r = DENY) in
  let p := RE_enter gid id r in let p' := RE_release g evt d in
  let s' := dropped g (with_use_count (use_count G + 1) G) ec (in_use g G s) in
  T !! t = Some (cur, p) -> groups s !! g = Some G -> ec ∈ working_list G -> containers s !! ec = Some C -> ec_event C = Some evt ->
  step_ok T t cur p s p' s' -> simulated T t cur p s B p' s'.
Proof.
  intros d p p' s' Ht HG Hec HC HE K. pose proof (si_grp _ _ V) as I.
  pose proof (mem_lists_nodup _ _ (proj1 I) g G HG) as Hnd. unfold group_lists in Hnd.
  apply NoDup_app in Hnd as (Hnt & Hdis & Hnw).
  assert (Hr : forall e, refers (containers s) e ec <-> e = evt) by (intros e; by eapply refers_iff).
  assert (Hoff : forall l e, ec ∉ l -> nrefs (delete ec (containers s)) l e = nrefs (containers s) l e).
  { intros l e Hn. apply nrefs_ext. intros c Hc. rewrite lookup_delete_ne; [done|]. by intros <-. }
  assert (Hw : forall e, nworking s g e = (if decide (e = evt) then 1 else 0) + nworking s' g e).
  { intros e. unfold nworking, lists_of. simpl. rewrite HG, !lookup_insert_eq. simpl.
    rewrite (nrefs_unlink _ _ ec e Hnw Hec), Hoff by (rewrite list_elem_of_filter; tauto). f_equal.
    pose proof (Hr e). repeat case_decide; tauto. }
  assert (Htd : forall e, ntodo s' g e = ntodo s g e).
  { intros e. assert (ec ∉ todo_list G) by (intros Htd; by eapply Hdis).
    unfold ntodo, lists_of. simpl. rewrite HG, !lookup_insert_eq. simpl. rewrite filter_ne_absent by done. by apply Hoff. }
  assert (Hother : forall e g1, g1 <> g -> ntodo s' g1 e = ntodo s g1 e /\ nworking s' g1 e = nworking s g1 e).
  { intros e g1 Hne. apply (counters_same (ghost_of T)); [apply I| |].
    - unfold lists_of. simpl. by rewrite !lookup_insert_ne.
    - intros c Hc _. unfold cref. simpl. rewrite lookup_delete_ne; [done|]. intros <-.
      destruct (listed _ _ _ _ (proj1 I) Hc) as (G1 & HG1 & Hc1 & _).
      apply Hne. eapply (mem_group_unique _ _ (proj1 I)); try done. apply elem_of_app. by right. }
  assert (Hst : stage_of B evt g = Some Claimed).
  { apply (stage_claimed T s B R). rewrite Hw, decide_True by done. lia. }
  apply (sim_set_stage T t cur p s B Ht R _ _ K evt g Claimed (Answered d) (Answer evt g d)); try done.
  - by constructor.
  - intros e g1 Hne. unfold observed. rewrite !(nanswers_new T p gid id r g evt d) by done.
    unfold one. rewrite !decide_False by naive_solver. simpl. destruct (decide (g1 = g)) as [->|Hg].
    + rewrite Htd. specialize (Hw e). rewrite decide_False in Hw by tauto. simpl in Hw. by rewrite Hw.
    + by destruct (Hother e g1 Hg) as [-> ->].
  - pose proof (observed_stage T s B R evt g _ Hst) as E. unfold observed in *. simpl in E.
    rewrite !(nanswers_new T p gid id r g evt d) by done. rewrite Hw, decide_True in E by done. rewrite Htd.
    injection E as -> E1 -> ->. replace (nworking s' g evt) with 0 by lia. unfold one. destruct d; simpl.
    + by rewrite decide_False, decide_True.
    + by rewrite decide_True, decide_False.
  - simpl. congruence.
Qed.

Lemma sim_RE_enter gid id r p' s' : T !! t = Some (cur, RE_enter gid id r) -> action cur env (RE_enter gid id r) s = Ret p' s' ->
  step_ok T t cur (RE_enter gid id r) s p' s' -> simulated T t cur (RE_enter gid id r) s B p' s'.
Proof.
  intros Ht E K. cbn in E. first_of E f s1 E1. injection E as <- <-. pose proof (si_grp _ _ V) as I.
  pose proof (wp_return_event_locked _ _ gid id r I) as Hw. unfold wp in Hw. rewrite E1 in Hw. destruct Hw as [_ Hw].
  destruct f as [[g [[ec evt]|]]|].
  - destruct Hw as (G & Hin & HG & _ & _ & Hec & (C & e & HC & He & _) & Hs). case_decide as Hr; destruct Hs as [-> _].
    + apply (sim_still T t cur _ s B V Ht R _ _ K); try done. by apply still_in_use.
    + by apply (sim_answer gid id r g G ec C evt).
  - destruct Hw as (G & Hin & HG & _ & _ & -> & _). apply (sim_still T t cur _ s B V Ht R _ _ K); try done. by apply still_in_use.
  - destruct Hw as [-> _]. by apply (sim_still T t cur _ s B V Ht R _ _ K).
Qed.

Lemma sim_RE_release g evt d p' s' : T !! t = Some (cur, RE_release g evt d) -> action cur env (RE_release g evt d) s = Ret p' s' ->
  step_ok T t cur (RE_release g evt d) s p' s' -> simulated T t cur (RE_release g evt d) s B p' s'.
Proof.
  intros Ht E K. cbn in E. first_of E u s1 E1. injection E as <- <-. pose proof (proj1 (si_grp _ _ V)) as I.
  assert (Hp : 0 < pend (ghost_of T) evt).
  { pose proof (share_pend _ _ _ Ht evt) as Hs. simpl in Hs. rewrite one_refl in Hs. simpl. lia. }
  destruct (m_pend _ _ I evt Hp) as [ev He]. rewrite (run_release evt d ev s He) in E1 by (by eapply m_assigned).
  injection E1 as _ <-.
  assert (Hst : stage_of B evt g = Some (Answered d)).
  { apply (stage_answered T s B R). pose proof (mcount_pos (fun x => c_answer g evt d x.2) T t _ Ht) as H. simpl in H.
    rewrite one_refl in H. done. }
  assert (Hn : forall e g1 d1, nanswers (<[t:=(cur, RE_dec g 0)]> T) g1 e d1 + one (g, evt, d) (g1, e, d1) = nanswers T g1 e d1).
  { intros e g1 d1. pose proof (nanswers_step T t cur _ (RE_dec g 0) g1 e d1 Ht) as H. simpl in H. lia. }
  exists [Count evt g d], (count evt g d B). split; [by constructor|]. split; [|done].
  apply (rep_next T t cur _ s _ _ K).
  - intros e g1. rewrite stage_of_count. pose proof (rp_stage _ _ _ R e g1) as O. unfold observed in *.
    change (ntodo (released evt d ev s) g1 e) with (ntodo s g1 e).
    change (nworking (released evt d ev s) g1 e) with (nworking s g1 e).
    pose proof (Hn e g1 true) as H1. pose proof (Hn e g1 false) as H2. unfold one in H1, H2.
    destruct (decide (e = evt /\ g1 = g)) as [[-> ->]|Hd].
    + rewrite Hst in O. destruct d; simpl in O; injection O as -> -> O1 O2;
        repeat case_decide; try congruence; simpl; repeat f_equal; lia.
    + rewrite decide_False in H1 by naive_solver. rewrite decide_False in H2 by naive_solver. rewrite Nat.add_0_r in H1, H2. by rewrite H1, H2.
  - intros e. rewrite count_dom, (rp_dom _ _ _ R). by rewrite (voted_step T t cur (RE_release g evt d) (RE_dec g 0)).
  - intros e b' ev' (b & Hb & ->)%count_lookup. simpl. destruct (rp_deny _ _ _ R e b Hb) as (ev0 & He0 & Hd0).
    destruct (decide (e = evt)) as [->|Hne]; [|rewrite lookup_insert_ne by done; intros He'; by simplify_eq].
    rewrite lookup_insert_eq. intros [= <-]. simplify_eq. rewrite Hd0, released_deny.
    destruct d; [|by rewrite orb_false_r]. rewrite orb_true_r. symmetry. apply bool_decide_true, lor_1_nonzero.
Qed.

(** *** The end of an access *)

Lemma counters_assigned e g : ntodo s g e + nworking s g e <= nlinked s e.
Proof.
  unfold ntodo, nworking. rewrite <-nrefs_app. pose proof (proj1 (si_grp _ _ V)) as I. unfold lists_of, nlinked.
  destruct (groups s !! g) as [G|] eqn:HG; simpl; [|unfold nrefs; simpl; lia].
  change (nrefs (containers s) (group_lists G) e <= nrefs (containers s) (linked s) e).
  destruct (decide (g ∈ group_list s)) as [Hin|Hin]; [|rewrite (m_off _ _ I g G HG Hin); unfold nrefs; simpl; lia].
  destruct (linked_of_split (groups s) (group_list s) g G) as (rest & Hp & _); [apply (m_gl_nodup _ _ I)|done..|].
  unfold linked. rewrite (nrefs_perm _ _ _ _ Hp), nrefs_app. lia.
Qed.

Lemma answers_pending e g d : nanswers T g e d <= pend (ghost_of T) e.
Proof.
  simpl. unfold nanswers. clear R V. induction T as [|t0 x T0 Hx IH] using map_ind; [by rewrite !mcount_empty|].
  rewrite !mcount_insert_fresh by done. assert (c_answer g e d x.2 <= c_pend x.2 e); [|lia].
  destruct x as [c []]; simpl; try lia. unfold one. repeat case_decide; simplify_eq; lia.
Qed.

(** Nobody has to answer an event that is assigned to nobody. *)
Lemma no_stage e g ev : events s !! e = Some ev -> assigned ev = 0%Z -> stage_of B e g = None.
Proof.
  intros He Ha. destruct (m_assigned _ _ (proj1 (si_grp _ _ V)) e ev He) as [Has _].
  pose proof (counters_assigned e g). pose proof (answers_pending e g true). pose proof (answers_pending e g false).
  apply code_inj. rewrite <-(rp_stage _ _ _ R). unfold observed. simpl. repeat f_equal; lia.
Qed.

Lemma sim_CA_release evt err p' s' : T !! t = Some (cur, CA_release evt err) -> action cur env (CA_release evt err) s = Ret p' s' ->
  step_ok T t cur (CA_release evt err) s p' s' -> simulated T t cur (CA_release evt err) s B p' s'.
Proof.
  intros Ht E K. cbn in E. first_of E u s1 E1. injection E as <- <-.
  destruct (si_pc _ _ V t _ Ht) as (ev & He & Ha & ->). rewrite (run_release_owner evt ev s He Ha) in E1. injection E1 as _ <-.
  assert (Hdom : is_Some (B !! evt)) by (apply (rp_dom _ _ _ R); by exists t, (cur, CA_release evt (verdict ev))).
  destruct Hdom as [b Hb]. destruct (rp_deny _ _ _ R evt b Hb) as (ev0 & He0 & Hd). simplify_eq.
  assert (Hs : stages b = ∅).
  { apply map_empty. intros g. pose proof (no_stage evt g ev He Ha) as H. unfold stage_of in H. by rewrite Hb in H. }
  exists [Close evt (denied b)], (delete evt B). split; [by constructor|]. split.
  - apply (rep_next T t cur _ s _ _ K).
    + intros e g. rewrite stage_of_delete. transitivity (observed T s e g).
      { unfold observed. by rewrite !(nanswers_same T t cur (CA_release evt (verdict ev))) by done. }
      rewrite (rp_stage _ _ _ R). destruct (decide (e = evt)) as [->|]; [|done]. by rewrite (no_stage evt g ev).
    + intros e. rewrite lookup_delete_is_Some, (rp_dom _ _ _ R). split.
      * intros (Hne & t' & x & Hx & Hv). exists t', x. rewrite lookup_insert_ne; [done|]. intros <-. by simplify_eq/=.
      * intros (t' & x & [[<- <-]|[Hne Hx]]%lookup_insert_Some & Hv); [done|]. split; [|by exists t', x]. intros <-.
        pose proof (share_own_two T t _ Ht t' x evt Hx ltac:(done)) as Ho. unfold c_own in Ho. simpl in Ho. rewrite one_refl in Ho.
        assert (own_of x.2 = Some evt) as E by (by destruct x as [c []]). rewrite E, one_refl in Ho.
        pose proof (m_own _ _ (proj1 (si_grp _ _ V)) evt) as Hm. simpl in Hm. destruct Hm; lia.
    + intros e b' ev' [Hne Hb']%lookup_delete_Some. simpl. rewrite lookup_delete_ne by done. intros He'.
      destruct (rp_deny _ _ _ R e b' Hb') as (ev1 & He1 & ->). by simplify_eq.
  - cbn. rewrite Hd. repeat f_equal. apply bool_decide_ext. unfold verdict, EPERM. destruct (decide (deny ev = 0%Z)); split; (done || lia).
Qed.

(** *** New groups *)

Lemma keep_live_still gh s' : grp_inv gh s -> keep_live s s' -> refs_kept [] (next s) s s' -> still (next s) s s'.
Proof.
  intros I K [Hr Hd Hn].
  assert (Hlv : forall g, live s g -> live s' g).
  { intros g. rewrite <-!elem_of_live_groups. unfold live_groups. by rewrite (kl_live _ _ K). }
  split; [|intros g|exact Hlv|exact Hd|exact Hn].
  - intros c Hc. apply Hr; [done|]. apply not_elem_of_nil.
  - unfold lists_of. destruct (groups s' !! g) as [G'|] eqn:HG'.
    + destruct (kl_back _ _ K g G' HG') as (G & -> & [->| ->]); done.
    + destruct (groups s !! g) as [G|] eqn:HG; [|done].
      destruct (decide (g ∈ group_list s)) as [Hin|Hin]; [|destruct (kl_off _ _ K g G Hin HG); congruence].
      destruct (decide (grp_deprecated G = 0%Z)) as [Hdp|Hdp].
      * destruct (Hlv g) as (_ & G' & HG'' & _); [split; [done|eauto]|]. congruence.
      * pose proof (proj1 (proj2 I) g G HG Hdp) as Hl. unfold group_lists in Hl. apply app_eq_nil in Hl as [-> ->]. done.
Qed.

Lemma sim_AG_enter nm track p' s' : T !! t = Some (cur, AG_enter nm track) -> action cur env (AG_enter nm track) s = Ret p' s' ->
  step_ok T t cur (AG_enter nm track) s p' s' -> simulated T t cur (AG_enter nm track) s B p' s'.
Proof.
  intros Ht E K. cbn in E. first_of E r s1 E1. injection E as <- <-. pose proof (si_grp _ _ V) as I.
  pose proof (wp_add_find _ nm track s I) as Hw. unfold wp in Hw. rewrite E1 in Hw. destruct Hw as (I' & Kl & _).
  assert (St : still (next s) s s1).
  { eapply keep_live_still; [done|done|]. by eapply (keeps_refs (m := add_group_find nm track)). }
  apply (sim_still T t cur _ s B V Ht R _ _ K); try done; [by case_match|by case_match|]. apply shows_nothing, St.
Qed.

Lemma sim_AG_create nm id track p' s' : T !! t = Some (cur, AG_create nm id track) ->
  action cur env (AG_create nm id track) s = Ret p' s' ->
  step_ok T t cur (AG_create nm id track) s p' s' -> simulated T t cur (AG_create nm id track) s B p' s'.
Proof.
  intros Ht E K. cbn in E. first_of E r s1 E1. injection E as <- <-. pose proof (si_grp _ _ V) as I.
  assert (St : still (next s) s s1).
  { unfold add_group_create in E1. first_of E1 n s2 E2. injection E2 as <- <-. case_decide; [by injection E1 as _ <-|].
    first_of E1 o s2 E2. assert (s1 = s2) as -> by (destruct o; by injection E1 as _ <-).
    pose proof (wp_create_group _ nm id track s I) as Hw. unfold wp in Hw. rewrite E2 in Hw. destruct Hw as [_ Hw].
    assert (Hg : groups_step (groups s2) s s2 /\ forall g, lists_of s2 g = lists_of s g /\ (forall G, groups s !! g = Some G -> groups s2 !! g = Some G)).
    { destruct o as [g0|].
      - destruct Hw as (Hn & _ & P). split; [destruct P; by split|]. intros g. unfold lists_of. rewrite (gp_groups _ _ _ P).
        destruct (decide (g = g0)) as [->|]; [rewrite lookup_insert_eq, Hn; by split|by rewrite lookup_insert_ne].
      - split; [destruct Hw; by split|]. intros g. unfold lists_of. by rewrite (gp_groups _ _ _ Hw). }
    destruct Hg as [P Hl]. pose proof (keeps_refs (X := []) (m := create_group nm id track) (next s) s o s2 ltac:(done) E2) as Hr.
    split; [|apply Hl| |apply Hr|apply Hr].
    - intros c Hc. apply Hr; [done|]. apply not_elem_of_nil.
    - intros g (Hin & G & HG & Hd). split; [by rewrite (gp_group_list _ _ _ P)|]. exists G. split; [by apply Hl|done]. }
  apply (sim_still T t cur _ s B V Ht R _ _ K); try done; [by case_match|by case_match|]. apply shows_nothing, St.
Qed.

(** *** A group is deleted *)

Lemma sim_withdraw gh p p' s1 s' g G : T !! t = Some (cur, p) -> no_answer p -> no_answer p' -> voting p' = voting p ->
  shows s s' p p' = Withdraw <$> elements (live_groups s ∖ live_groups s') ->
  still (next s) s s1 -> mem_inv gh s1 -> live s g -> groups s1 !! g = Some G -> remove_group g s1 = Ret tt s' ->
  step_ok T t cur p s p' s' -> simulated T t cur p s B p' s'.
Proof.
  intros Ht Hp Hp' Hv Hsh St I1 Hlg HG E K.
  pose proof (wp_remove_group _ _ _ _ I1 HG) as Hw. unfold wp in Hw. rewrite E in Hw. destruct Hw as (_ & P & _).
  pose proof (refs_remove_group _ _ _ _ _ _ I1 HG E) as Hr.
  assert (Hother : forall g1 e, g1 <> g -> ntodo s' g1 e = ntodo s g1 e /\ nworking s' g1 e = nworking s g1 e).
  { intros g1 e Hne. destruct (counters_same (ghost_of T) s s1 g1 e) as [<- <-]; [apply V|apply St|by intros c _; apply St|].
    apply (counters_same gh); [done| |].
    - unfold lists_of. by rewrite (gs_groups _ _ _ _ P), lookup_insert_ne.
    - intros c Hc Hb. apply Hr; [done|]. intros Hin. destruct (listed _ _ _ _ I1 Hc) as (G1 & HG1 & Hc1 & _).
      apply Hne. by eapply (mem_group_unique _ _ I1). }
  assert (Hnone : forall e, ntodo s' g e = 0 /\ nworking s' g e = 0).
  { intros e. unfold ntodo, nworking, lists_of. rewrite (gs_groups _ _ _ _ P), lookup_insert_eq. done. }
  exists [Withdraw g], (withdraw g B). split; [by constructor|]. split.
  - apply (rep_next T t cur p s _ _ K).
    + intros e g1. rewrite stage_of_withdraw. pose proof (rp_stage _ _ _ R e g1) as O. unfold observed in *.
      rewrite !(nanswers_same T t cur p) by done. destruct (decide (g1 = g)) as [->|Hne].
      * destruct (Hnone e) as [-> ->]. destruct (stage_of B e g) as [[| |[]]|]; simpl in *; injection O as ? ? -> ->; done.
      * by destruct (Hother g1 e Hne) as [-> ->].
    + intros e. rewrite withdraw_dom, (rp_dom _ _ _ R). by rewrite (voted_step T t cur p p').
    + intros e b' ev' (b & Hb & ->)%withdraw_lookup He'. eapply (deny_same T s B R); [|done]. intros ev He.
      destruct (rk_deny _ _ _ _ Hr e ev' He') as [(ev1 & He1 & ->)|Hle]; [by eapply (still_deny T s V)|].
      destruct (m_bounded _ _ (proj1 (si_grp _ _ V))) as (_ & _ & Hb'). assert (e < next s)%positive by (apply Hb'; by rewrite He).
      pose proof (st_next _ _ _ St). lia.
  - rewrite Hsh. assert (Hd : live_groups s ∖ live_groups s' = {[g]}); [|rewrite Hd, elements_singleton; done].
    apply set_eq. intros x. rewrite elem_of_difference, elem_of_singleton, !elem_of_live_groups. split.
    + intros [Hl Hn]. destruct (decide (x = g)) as [|Hne]; [done|]. destruct Hn. destruct (st_live _ _ _ St x Hl) as (Hin & X & HX & Hd).
      split; [by rewrite (gs_group_list _ _ _ _ P)|]. exists X. by rewrite (gs_groups _ _ _ _ P), lookup_insert_ne.
    + intros ->. split; [done|]. intros (_ & X & HX & Hd). rewrite (gs_groups _ _ _ _ P), lookup_insert_eq in HX. by simplify_eq.
Qed.

Lemma remove_loop_run pos nm s0 s' : remove_group_loop pos nm s0 = Ret tt s' ->
  s' = s0 \/ exists g G, g ∈ pos /\ groups s0 !! g = Some G /\ grp_deprecated G = 0%Z /\ name G = nm /\ remove_group g s0 = Ret tt s'.
Proof.
  induction pos as [|g pos IH]; cbn [remove_group_loop]; intros E; [injection E as <-; by left|].
  first_of E G s1 E1. apply load_inv in E1 as [HG ->]. case_decide as Hd; [right|].
  - destruct Hd as [Hd ->]. exists g, G. split_and!; [left|done..].
  - destruct (IH E) as [|(g' & G' & ? & ?)]; [by left|right]. exists g', G'. split; [by right|done].
Qed.

Lemma sim_RG_loop nm p' s' : T !! t = Some (cur, RG_loop nm) -> action cur env (RG_loop nm) s = Ret p' s' ->
  step_ok T t cur (RG_loop nm) s p' s' -> simulated T t cur (RG_loop nm) s B p' s'.
Proof.
  intros Ht E K. cbn in E. first_of E u s1 E1. destruct u. injection E as <- <-.
  destruct (remove_loop_run _ _ _ _ E1) as [->|(g & G & Hin & HG & Hd & _ & E2)].
  - by apply (sim_still T t cur _ s B V Ht R _ _ K); [..|apply shows_nothing].
  - apply (sim_withdraw (ghost_of T) _ _ s s1 g G); try done; [apply V|]. split; [done|eauto].
Qed.

Lemma sim_Tracked gid g0 p' s' : T !! t = Some (cur, Tracked gid g0) -> action cur env (Tracked gid g0) s = Ret p' s' ->
  step_ok T t cur (Tracked gid g0) s p' s' -> simulated T t cur (Tracked gid g0) s B p' s'.
Proof.
  intros Ht E K. cbn in E. first_of E u s1 E1. destruct u. injection E as <- <-. pose proof (proj1 (si_grp _ _ V)) as I.
  unfold dazukofs_group_release_tracking in E1. first_of E1 f s2 E2.
  pose proof (wp_find_group _ gid s I) as Hw. unfold wp in Hw. rewrite E2 in Hw. destruct Hw as [-> Hf].
  assert (Hsame : s1 = s -> simulated T t cur (Tracked gid g0) s B (ret 0) s1).
  { intros ->. by apply (sim_still T t cur _ s B V Ht R _ _ K); [..|apply shows_nothing]. }
  destruct f as [g|]; [|by injection E1 as <-; apply Hsame]. destruct Hf as (Hin & G & HG & Hd & _).
  first_of E1 G0 s3 E3. apply load_inv in E3 as [HG0 ->]. simpl in HG0. assert (G0 = G) as -> by congruence.
  case_decide; [|by injection E1 as <-; apply Hsame]. clear Hsame.
  first_of E1 u s3 E3. pose proof (keeps_still (m := use_dec g) (next s) s u s3 ltac:(done) E3) as St3.
  unfold use_dec in E3. first_of E3 G0 s4 E4. apply load_inv in E4 as [HG0' ->]. simpl in HG0'. assert (G0 = G) as -> by congruence.
  apply store_inv in E3 as [_ ->]. simpl in *. set (s3 := set_groups _ _) in *.
  assert (I3 : mem_inv (ghost_of T) s3) by (by apply (mem_update_group _ _ I g G)).
  set (G1 := with_use_count (use_count G - 1) G) in *. assert (HG1 : groups s3 !! g = Some G1) by apply lookup_insert_eq.
  first_of E1 G0 s4 E4. apply load_inv in E4 as [HG0'' ->]. simpl in HG0''. rewrite lookup_insert_eq in HG0''. injection HG0'' as <-.
  first_of E1 u4 s4 E4. apply store_inv in E4 as [_ ->]. change (hget s3) with (groups s3) in E1. set (G2 := with_track_count _ _) in *.
  assert (I4 : mem_inv (ghost_of T) (set_groups (<[g:=G2]> (groups s3)) s3)) by (by apply (mem_update_group _ _ I3 g G1)).
  assert (St : still (next s) s (set_groups (<[g:=G2]> (groups s3)) s3)).
  { etrans; [exact St3|]. apply (keeps_still (Still := still_put_group g (fun G => with_track_count (track_count G - 1) G) ltac:(done)) (next s) s3 tt); [done|].
    unfold sbind, load, store. simpl. rewrite lookup_insert_eq. simpl. by rewrite lookup_insert_eq. }
  case_decide.
  - apply (sim_withdraw (ghost_of T) _ _ (set_groups (<[g:=G2]> (groups s3)) s3) s1 g G2 Ht); try done; [|apply lookup_insert_eq]. split; [done|eauto].
  - injection E1 as <-. apply (sim_still T t cur _ s B V Ht R _ _ K); try done. apply shows_nothing, St.
Qed.

(** *** Posting *)

Lemma not_voted_assign evt ecs : T !! t = Some (cur, CA_assign evt ecs) -> B !! evt = None.
Proof.
  intros Ht. destruct (B !! evt) as [b|] eqn:Hb; [|done]. exfalso.
  assert (voted T evt) as (t' & x & Hx & Hv) by (apply (rp_dom _ _ _ R); by rewrite Hb).
  assert (Hne : t' <> t) by (intros ->; by simplify_eq).
  pose proof (share_own_two T t _ Ht t' x evt Hx Hne) as Ho. unfold c_own in Ho. simpl in Ho. rewrite one_refl in Ho.
  assert (own_of x.2 = Some evt) as E by (by destruct x as [c []]). rewrite E, one_refl in Ho.
  pose proof (m_own _ _ (proj1 (si_grp _ _ V)) evt) as Hm. simpl in Hm. destruct Hm; lia.
Qed.

(** The private containers of a task are on no list. *)
Lemma private_unlisted evt ecs g c : T !! t = Some (cur, CA_assign evt ecs) -> c ∈ (lists_of s g).1 ++ (lists_of s g).2 -> c ∉ ecs.
Proof.
  intros Ht Hl Hc. pose proof (proj1 (si_grp _ _ V)) as I. destruct (listed _ _ _ _ I Hl) as (G & HG & Hin & _).
  destruct (mem_container _ _ I g G c HG Hin) as (C & e & _ & HC & He & _).
  pose proof (share_priv _ _ _ Ht c) as Hs. unfold c_priv in Hs. simpl in Hs. rewrite decide_True in Hs by done.
  destruct (m_priv _ _ I c) as (_ & C' & HC' & Hn); [simpl; lia|]. congruence.
Qed.

Lemma posting_counters evt ecs s' g e : T !! t = Some (cur, CA_assign evt ecs) -> posting evt ecs (group_list s) s s' ->
  ntodo s' g e = ntodo s g e + (if decide (e = evt /\ g ∈ live_groups s) then 1 else 0) /\ nworking s' g e = nworking s g e.
Proof.
  intros Ht P. pose proof (po_group _ _ _ _ _ P g) as Hg. unfold posted_to in Hg.
  assert (Href : forall c, c ∈ (lists_of s g).1 ++ (lists_of s g).2 -> cref s' c = cref s c).
  { intros c Hc. apply P. by eapply private_unlisted. }
  destruct (groups s !! g) as [G|] eqn:HG.
  2:{ rewrite (decide_False (P := e = evt /\ g ∈ live_groups s)) by (rewrite elem_of_live_groups; intros (_ & _ & X & HX & _); congruence).
      unfold ntodo, nworking, lists_of. rewrite HG, Hg. by unfold nrefs. }
  assert (Hlv : g ∈ live_groups s <-> g ∈ group_list s /\ grp_deprecated G = 0%Z).
  { rewrite elem_of_live_groups. unfold live. split; [intros (? & X & HX & ?)|intros [? ?]]; [by simplify_eq|eauto]. }
  unfold lists_of in Href. rewrite HG in Href. simpl in Href.
  destruct (decide (g ∈ group_list s /\ grp_deprecated G = 0%Z)) as [Hd|Hd].
  - destruct Hg as (c & Hc & Hg & Hcr). unfold ntodo, nworking, lists_of. rewrite HG, Hg. simpl.
    rewrite nrefs_app, (nrefs_cref s s' (todo_list G)), (nrefs_cref s s' (working_list G)) by (intros; apply Href; set_solver).
    split; [|done]. f_equal.
    rewrite nrefs_cons. unfold nrefs at 1. simpl. rewrite Nat.add_0_r.
    assert (Hr : refers (containers s') e c <-> e = evt) by (unfold refers; fold (cref s' c); rewrite Hcr; naive_solver).
    destruct (decide (e = evt)) as [->|Hne]; [rewrite !decide_True by tauto|rewrite !decide_False by tauto]; done.
  - rewrite (decide_False (P := e = evt /\ g ∈ live_groups s)) by tauto.
    unfold ntodo, nworking, lists_of. rewrite HG, Hg. simpl.
    rewrite (nrefs_cref s s' (todo_list G)), (nrefs_cref s s' (working_list G)) by (intros; apply Href; set_solver). by rewrite Nat.add_0_r.
Qed.

Lemma sim_CA_assign evt ecs p' s' : T !! t = Some (cur, CA_assign evt ecs) -> action cur env (CA_assign evt ecs) s = Ret p' s' ->
  step_ok T t cur (CA_assign evt ecs) s p' s' -> simulated T t cur (CA_assign evt ecs) s B p' s'.
Proof.
  intros Ht E K. cbn in E. first_of E u s1 E1. destruct u. injection E as <- <-. pose proof (proj1 (si_grp _ _ V)) as I.
  destruct (si_pc _ _ V t _ Ht) as ((ev & He & Ha & Hy) & Hnd & _).
  pose proof (assign_posts _ _ _ _ (m_gl_nodup _ _ I) Hnd E1) as P. pose proof (not_voted_assign evt ecs Ht) as HB.
  exists [Post evt (live_groups s)], (<[evt := mk_ballot (gset_to_gmap Waiting (live_groups s)) false]> B).
  split; [by constructor|]. split; [|done]. apply (rep_next T t cur _ s _ _ K).
  - intros e g. rewrite stage_of_post. pose proof (rp_stage _ _ _ R e g) as O. unfold observed in *.
    rewrite !(nanswers_same T t cur (CA_assign evt ecs)) by done. destruct (posting_counters evt ecs s1 g e Ht P) as [-> ->].
    destruct (decide (e = evt)) as [->|Hne].
    + unfold stage_of in O. rewrite HB in O. simpl in O. injection O as -> -> -> ->.
      destruct (decide (g ∈ live_groups s)) as [Hg|Hg]; simpl; [by rewrite decide_True|by rewrite decide_False by tauto].
    + rewrite decide_False by tauto. by rewrite Nat.add_0_r.
  - intros e. rewrite lookup_insert_is_Some', (rp_dom _ _ _ R). split.
    + intros [<-|(t' & x & Hx & Hv)]; [exists t, (cur, CA_wait evt); by rewrite lookup_insert_eq|].
      exists t', x. rewrite lookup_insert_ne; [done|]. intros <-. by simplify_eq.
    + intros (t' & x & [[<- <-]|[Hne Hx]]%lookup_insert_Some & Hv); [left; by simplify_eq/=|right; by exists t', x].
  - intros e b' ev' Hb' He'. destruct (po_deny _ _ _ _ _ P e ev' He') as (ev0 & He0 & ->).
    apply lookup_insert_Some in Hb' as [[<- <-]|[Hne Hb']]; [by simplify_eq; rewrite Hy|].
    destruct (rp_deny _ _ _ R e b' Hb') as (ev1 & He1 & ->). by simplify_eq.
Qed.
End steps.

(** ** Every run is a vote *)

Lemma step_simulated T t cur p s env B p' s' : sys_inv T s -> represents T s B -> T !! t = Some (cur, p) ->
  enabled T p env -> orderly T s p -> action cur env p s = Ret p' s' -> simulated T t cur p s B p' s'.
Proof.
  intros V R Ht En Hst E.
  assert (K : step_ok T t cur p s p' s').
  { assert (Hw : wp (action cur env p) (step_ok T t cur p s) s).
    { apply action_ok; try done. intros g ec Hu. destruct (containers s !! ec) as [C|] eqn:HC; [done|].
      by rewrite (action_freed cur s env p g ec) in E. }
    unfold wp in Hw. by rewrite E in Hw. }
  destruct (watched p) eqn:Hw; [|by eapply sim_unwatched].
  destruct p; try done; eauto using sim_CA_assign, sim_CA_release, sim_AG_enter, sim_AG_create, sim_RG_loop,
    sim_RE_enter, sim_RE_release, sim_RE_repost, sim_GE_claim, sim_GE_unclaim, sim_Tracked.
Qed.

Lemma represents_init : represents ∅ init_state ∅.
Proof.
  split; [|intros e|done].
  - intros e g. unfold observed, nanswers. by rewrite !mcount_empty.
  - split; [by intros [? ?]|]. intros (t & x & Hx & _). done.
Qed.

(** Calls that begin, and calls that have returned, have no part in a vote. *)
Lemma represents_aside T s B t cur p : T !! t = None -> no_answer p -> voting p = None ->
  represents (<[t:=(cur, p)]> T) s B <-> represents T s B.
Proof.
  intros Ht Hp Hv. assert (Hn : forall g e d, nanswers (<[t:=(cur, p)]> T) g e d = nanswers T g e d).
  { intros g e d. unfold nanswers. rewrite mcount_insert_fresh by done. by destruct p. }
  assert (Hd : forall e, voted (<[t:=(cur, p)]> T) e <-> voted T e).
  { intros e. split; intros (t' & x & Hx & Hvx).
    - apply lookup_insert_Some in Hx as [[<- <-]|[_ Hx]]; [by simpl in *; congruence|by exists t', x].
    - exists t', x. rewrite lookup_insert_ne; [done|]. intros <-. congruence. }
  split; intros [S D Y]; (split; [|intros e; rewrite D; by rewrite Hd|exact Y]); intros e g; rewrite <-S;
    unfold observed; by rewrite !Hn.
Qed.

Lemma traced_vote tr σ : traced orderly tr σ ->
  exists tr' B, vote_run tr' B /\ filter visible tr' = tr /\ represents (tasks σ) (mem σ) B.
Proof.
  induction 1 as [|tr σ t cur p env p' s' H IH Ht En Hst E|tr σ t cur p H IH Ht _ Hp|tr σ t cur r f H IH Ht].
  - exists [], ∅. split_and!; [constructor|done|apply represents_init].
  - destruct IH as (tr' & B & Hrun & Htr & R). apply (represents_oom _ _ _ (e_oom env)) in R.
    pose proof (sys_inv_oom _ _ (e_oom env) (inv_reachable σ (traced_reachable _ _ _ H))) as V.
    destruct (step_simulated _ _ _ _ _ _ _ _ _ V R Ht En Hst E) as (l & B' & Hm & R' & Hl).
    exists (l ++ tr'), B'. split_and!; [by eapply moves_run| |by apply represents_wake].
    rewrite filter_app, Htr, Hl. done.
  - destruct IH as (tr' & B & Hrun & Htr & R). exists tr', B. split_and!; [done|done|]. apply represents_aside; [done|by destruct p..|done].
  - destruct IH as (tr' & B & Hrun & Htr & R). exists tr', B. split_and!; [done|done|].
    apply (represents_aside _ _ _ t cur (Done r f)); [apply lookup_delete_eq|done|done|]. simpl. by rewrite insert_delete_id.
Qed.

(** The result of an access whose event nobody has to answer any more. *)
Lemma traced_decision tr σ t cur evt err : traced orderly tr σ -> tasks σ !! t = Some (cur, CA_release evt err) ->
  ((err = - EPERM /\ exists g, Answer evt g true ∈ since evt tr) \/
   (err = 0 /\ forall g, Answer evt g true ∉ since evt tr))%Z /\
  (forall g d, Answer evt g d ∈ since evt tr <-> Count evt g d ∈ since evt tr) /\
  forall g, (g ∈ asked evt tr -> Withdraw g ∈ since evt tr \/ exists d, Answer evt g d ∈ since evt tr) /\
    counted evt g (since evt tr) <= (if decide (g ∈ asked evt tr) then 1 else 0).
Proof.
  intros H Ht. destruct (traced_vote tr σ H) as (tr' & B & Hrun & <- & R).
  pose proof (inv_reachable σ (traced_reachable _ _ _ H)) as V. destruct (si_pc _ _ V t _ Ht) as (ev & He & Ha & ->).
  assert (is_Some (B !! evt)) as [b Hb] by (apply (rp_dom _ _ _ R); by exists t, (cur, CA_release evt (verdict ev))).
  assert (Hs : stages b = ∅).
  { apply map_empty. intros g. pose proof (no_stage _ _ B V R evt g ev He Ha) as Hn. unfold stage_of in Hn. by rewrite Hb in Hn. }
  assert (S : vote_step B (Close evt (denied b)) (delete evt B)) by (by constructor).
  destruct (decision tr' B evt (denied b) _ Hrun S) as (Hd & HA & Hg). rewrite since_visible, asked_visible.
  assert (Hin : forall a, visible a -> a ∈ filter visible (since evt tr') <-> a ∈ since evt tr') by (intros a Hva; rewrite list_elem_of_filter; tauto).
  split_and!.
  - destruct (rp_deny _ _ _ R evt b Hb) as (ev0 & He0 & Hdn). assert (ev0 = ev) as -> by congruence.
    assert (Hx : denied b = true <-> exists g, Answer evt g true ∈ filter visible (since evt tr')) by (rewrite Hd; by setoid_rewrite Hin).
    unfold verdict. case_decide as Hz.
    + right. rewrite decide_True by done. split; [done|]. intros g Hg'.
      assert (Ht' : denied b = true) by (apply Hx; eauto). rewrite Hdn in Ht'. by apply bool_decide_eq_true in Ht'.
    + left. rewrite decide_False by done. split; [done|]. apply Hx. rewrite Hdn. by apply bool_decide_eq_true.
  - intros g d. rewrite !Hin by done. apply HA.
  - intros g. destruct (Hg g) as [H1 H2]. rewrite counted_visible. split; [|done]. rewrite Hin by done. setoid_rewrite Hin; done.
Qed.

(** An event that is freed is not put to a vote again and gets no more answers. *)
Lemma traced_gone tr σ t cur p env p' s' e a : traced orderly tr σ -> tasks σ !! t = Some (cur, p) ->
  enabled (tasks σ) p env -> orderly (tasks σ) (mem σ) p -> action cur env p (set_oom (e_oom env) (mem σ)) = Ret p' s' ->
  events (mem σ) !! e = None -> a ∈ shows (mem σ) s' p p' -> ~ posts e a /\ forall g d, a <> Answer e g d.
Proof.
  intros H Ht En Hok E He. pose proof (inv_reachable σ (traced_reachable _ _ _ H)) as V.
  assert (Hw : a ∈ Withdraw <$> elements (live_groups (mem σ) ∖ live_groups s') -> ~ posts e a /\ forall g d, a <> Answer e g d).
  { intros (g & -> & _)%list_elem_of_fmap. split; [by intros []|done]. }
  destruct p; try exact Hw.
  - intros ->%list_elem_of_singleton. split; [|done]. intros <-. destruct (si_pc _ _ V t _ Ht) as ((ev & He0 & _) & _). congruence.
  - intros ->%list_elem_of_singleton. split; [by intros []|done].
  - intros Ha. destruct p'; try (by apply not_elem_of_nil in Ha). apply list_elem_of_singleton in Ha as ->. split; [by intros []|].
    destruct (traced_vote tr σ H) as (tr' & B & _ & _ & R).
    destruct (step_simulated _ _ _ _ _ env B _ _ (sys_inv_oom _ _ (e_oom env) V) (represents_oom _ _ _ _ R) Ht En Hok E) as (l & B' & Hm & _ & Hl).
    intros g0 d0 [= -> _ _]. destruct l as [|x [|]]; [done| |done]. simpl in Hl. rewrite filter_cons in Hl. case_decide; [|done].
    injection Hl as ->. inversion Hm as [| | |? ? ? Hs| | |]; subst. destruct (stage_of_some _ _ _ _ Hs) as [b Hb].
    destruct (rp_deny _ _ _ R e b Hb) as (ev & He0 & _). congruence.
  - intros ->%list_elem_of_singleton. split; [by intros []|done].
Qed.

(** An open vote was begun. *)
Lemma traced_posted tr σ e : traced orderly tr σ -> voted (tasks σ) e -> exists gs, Post e gs ∈ tr.
Proof.
  intros H Hv. destruct (traced_vote tr σ H) as (tr' & B & Hrun & <- & R).
  destruct (posted_run tr' B e Hrun) as [gs Hg]; [by apply (rp_dom _ _ _ R)|]. exists gs. by apply list_elem_of_filter.
Qed.
