(* ===== verification/EventDestroy.v ===== *)
(** * The end of the event layer: [dazukofs_destroy_events]

    The groups are unlinked from [group_list] before their events are released;
    the release does not look at [group_list], so it does the same as for a
    group that is still linked, where the invariants of the other files hold. *)

From S2P Require Import Prelude EventState EventOps EventInv GroupReg.
From stdpp Require Import strings.

(** ** Operations that do not look at [group_list] *)

Class ListFree {A} (m : M A) : Prop :=
  list_free l s : m (set_group_list l s) =
    match m s with Ret a s' => Ret a (set_group_list l s') | Stuck w => Stuck w end.

(** Heaps that are apart from [group_list]. *)
Class HeapApart (V : Type) `{Heap V} : Prop := {
  apart_get l s : hget (set_group_list l s) = hget s;
  apart_set l (m : gmap loc V) s : hset m (set_group_list l s) = set_group_list l (hset m s)
}.
#[export] Instance group_apart : HeapApart dazukofs_group.
Proof. by split. Qed.
#[export] Instance container_apart : HeapApart dazukofs_event_container.
Proof. by split. Qed.
#[export] Instance event_apart : HeapApart dazukofs_event.
Proof. by split. Qed.

Section free.
Context {V : Type} `{HeapApart V}.

#[export] Instance load_free g : ListFree (load (V := V) g).
Proof. intros l s. unfold load. rewrite apart_get. by destruct (hget s !! g). Qed.
#[export] Instance store_free g v : ListFree (store (V := V) g v).
Proof. intros l s. unfold store. rewrite apart_get, apart_set. by destruct (hget s !! g). Qed.
#[export] Instance kfree_free g : ListFree (kfree_obj (V := V) g).
Proof. intros l s. unfold kfree_obj. rewrite apart_get, apart_set. by destruct (hget s !! g). Qed.
End free.

#[export] Instance ret_free {A} (a : A) : ListFree (sret a).
Proof. by intros l s. Qed.
#[export] Instance bind_free {A B} (m : M A) (k : A -> M B) :
  ListFree m -> (forall a, ListFree (k a)) -> ListFree (sbind m k).
Proof. intros Hm Hk l s. unfold sbind. rewrite (list_free l s). destruct (m s); [apply Hk|done]. Qed.
#[export] Instance kcall_free c : ListFree (kcall_ c).
Proof. by intros l s. Qed.
#[export] Instance deref_free {A} (o : option A) : ListFree (deref o).
Proof. by intros l s; destruct o. Qed.
#[export] Instance decide_free {A} P `{Decision P} (m m' : M A) :
  ListFree m -> ListFree m' -> ListFree (if decide P then m else m').
Proof. intros ? ?. by case_decide. Qed.
#[export] Instance if_free {A} (b : bool) (m m' : M A) :
  ListFree m -> ListFree m' -> ListFree (if b then m else m').
Proof. by destruct b. Qed.
#[export] Instance count_free n : ListFree (smodify (fun s => set_group_count (group_count s + n) s)).
Proof. by intros l s. Qed.
#[export] Instance list_del_free ec : ListFree (list_del_container ec).
Proof.
  apply bind_free; [apply _|]. intros _ l s. change (on_lists (set_group_list l s)) with (on_lists s).
  by case_decide.
Qed.
#[export] Instance release_free evt b d : ListFree (release_event evt b d).
Proof. apply _. Qed.
#[export] Instance clear_free ecs : ListFree (clear_group_event_list ecs).
Proof. induction ecs; apply _. Qed.
#[export] Instance remove_group_free g : ListFree (remove_group g).
Proof. apply _. Qed.

Lemma wp_list_free {A} (m : M A) `{!ListFree m} l Q s :
  wp m (fun a s' => Q a (set_group_list l s')) s -> wp m Q (set_group_list l s).
Proof. unfold wp. rewrite list_free. by destruct (m s). Qed.

(** ** Destroying the groups *)

(** Nobody uses a group any more. *)
Definition unused_groups (gh : ghost) : Prop := forall g, hold gh g + tracked gh g = 0.

Definition unlink_group (g : loc) (s : kstate) : list loc := filter (fun x => x <> g) (group_list s).

(** One round of the loop leaves the state it would leave if the group were
    retired, unlinked and freed. *)
Lemma wp_destroy_group gh g q (k : M unit) Q s :
  grp_inv gh s -> unused_groups gh -> group_list s = g :: q ->
  (forall s', grp_inv gh s' -> group_list s' = q -> groups s' = delete g (groups s) -> wp k Q s') ->
  wp (do! smodify (fun s => set_group_list (filter (fun x => x <> g) (group_list s)) s) in
      do! remove_group g in
      do! kfree_obj (V := dazukofs_group) g in k) Q s.
Proof.
  intros I Hu Hl Hk. assert (Hin : g ∈ group_list s) by (rewrite Hl; left).
  destruct (m_gl_alive _ _ (proj1 I) g Hin) as [G HG].
  apply wp_bind, wp_modify, wp_bind, wp_list_free; [apply _|].
  eapply wp_mono; [by apply (wp_retire gh)|]. intros [] s1 [I1 [P _]].
  assert (HG1 : groups s1 !! g = Some (retired G)) by (rewrite (gs_groups _ _ _ _ P); apply lookup_insert_eq).
  rewrite <-(gs_group_list _ _ _ _ P) in *.
  apply wp_bind, (wp_kfree _ (retired G)); [done|].
  destruct (grp_inv_free gh s1 g (retired G)) as [I2 _]; [done..|apply Hu|].
  apply Hk; [exact I2| |].
  - simpl. pose proof (m_gl_nodup _ _ (proj1 I1)) as Hnd. rewrite Hl in *.
    apply NoDup_cons in Hnd as [Hg _]. rewrite filter_cons, decide_False by tauto.
    apply filter_all. by intros x Hx ->.
  - simpl. by rewrite (gs_groups _ _ _ _ P), delete_insert_eq.
Qed.

(** The loop ends, touches no freed memory, and leaves no group of the list. *)
Lemma wp_destroy_groups gh gl : forall s,
  grp_inv gh s -> unused_groups gh -> group_list s = gl ->
  wp (destroy_groups gl) (fun _ s' => grp_inv gh s' /\ group_list s' = [] /\
    forall g, groups s' !! g = if decide (g ∈ gl) then None else groups s !! g) s.
Proof.
  induction gl as [|g q IH]; intros s I Hu Hl.
  { apply wp_ret. split_and!; [done..|]. intros g. by rewrite decide_False by apply not_elem_of_nil. }
  apply (wp_destroy_group gh g q); [done..|]. intros s1 I1 Hl1 E1.
  eapply wp_mono; [by apply IH|]. intros [] s2 (I2 & Hl2 & E2). split_and!; [done..|]. intros g'.
  rewrite E2, E1. destruct (decide (g' = g)) as [->|].
  - rewrite (decide_True (P := g ∈ g :: q)) by left. rewrite lookup_delete_eq. by case_decide.
  - rewrite lookup_delete_ne by done. destruct (decide (g' ∈ q)).
    + rewrite decide_True; [done|]. by right.
    + rewrite decide_False; [done|]. by intros [->|?]%elem_of_cons.
Qed.

(** No container is left on a list, so every access still waiting is free to
    go on. *)
Lemma wp_destroy_events gh s :
  grp_inv gh s -> unused_groups gh ->
  wp dazukofs_destroy_events (fun _ s' => grp_inv gh s' /\ group_list s' = [] /\
    (forall g, g ∈ group_list s -> groups s' !! g = None) /\
    forall e ev, events s' !! e = Some ev -> assigned ev = Z.of_nat (pend gh e)) s.
Proof.
  intros I Hu. apply wp_bind, wp_get. eapply wp_mono; [by apply (wp_destroy_groups gh)|].
  intros [] s' (I' & Hl & Hg). split_and!; try done.
  - intros g Hin. by rewrite Hg, decide_True.
  - intros e ev He. destruct (m_assigned _ _ (proj1 I') e ev He) as [-> _].
    unfold nlinked, linked. by rewrite Hl.
Qed.
