(* ===== verification/EventThms.v ===== *)
(** * What the event layer guarantees

    The properties of [event.c], in the orderly interleavings of its callers, what
    happens in others, and runs that show the hypotheses hold. *)

From S2P Require Import Prelude EventState EventOps EventInv GroupReg EventFlow EventPost EventTasks EventConc.
From S2P Require Import EventMask EventSteps EventRegSteps EventSafe EventRaces EventEnd EventDrain EventStill Vote EventVote EventVoteSteps.
From stdpp Require Import strings.

(** ** Runs *)

(** No failing allocation, nobody is ignored, [dentry_open] re-enters and
    succeeds, pids are themselves. *)
Definition plain_env : env := mk_env [] (fun _ => 1%Z) (mk_open_env 3 true 100) (fun p => p) false.

Definition runs (t : positive) (n : nat) : list cmd := repeat (Run t plain_env) n.

(** Task 1 adds a group and is done. *)
Definition add_script (nm : string) (track : bool) : list cmd :=
  Spawn 1 10 (AG_enter nm track) :: runs 1 5 ++ [Exit 1].
(** Task 2 accesses a file and falls asleep. *)
Definition access_script : list cmd := Spawn 2 20 (CA_enter 7 8) :: runs 2 4.
(** Task 3 claims the event for group 0 and is about to open the file. *)
Definition claim_script : list cmd := Spawn 3 30 (GE_enter 0) :: runs 3 4.

Definition state_of (cs : list cmd) : sys := from_option id init_sys (oexec cs init_sys).

Lemma state_of_reachable cs : is_Some (oexec cs init_sys) -> orderly_reachable (state_of cs).
Proof.
  unfold state_of. destruct (oexec cs init_sys) as [σ|] eqn:E; [|by intros [? ?]].
  intros _. by eapply oexec_reachable; [apply rtc_refl|].
Qed.

(** The access waits; nobody has claimed the event. *)
Definition waiting : list cmd := add_script "g" false ++ access_script.
(** The event is claimed, its file open, its fields not yet read. *)
Definition claimed_open : list cmd := waiting ++ claim_script ++ runs 3 3.
(** Meanwhile the event is answered (its id is known to be 1). *)
Definition answered (d : dazukofs_response_t) : list cmd :=
  claimed_open ++ [Spawn 4 40 (RE_enter 0 1 d); Run 4 plain_env].

Definition at_pc (cs : list cmd) (t : positive) : option pc := snd <$> tasks (state_of cs) !! t.

Example waiting_sleeps : at_pc waiting 2 = Some (CA_sleep 2).
Proof. vm_compute. reflexivity. Qed.
Example claimed_at : at_pc claimed_open 3 = Some (GE_fields 1 3).
Proof. vm_compute. reflexivity. Qed.
Example answered_at : at_pc (answered DENY) 4 = Some (RE_release 1 2 true).
Proof. vm_compute. reflexivity. Qed.

(** ** Memory safety *)

(** C2. In every state that an orderly run reaches (one in which no file of a deleted
    group is closed while its id is in use again, and no last file of a group while
    [dazukofs_add_group] counts its group; [EventRaces] has what those do), whatever the
    interleaving, allocation failures and environment: a task whose own step is
    orderly never follows a NULL pointer, never unlinks an unlinked node, never leaves
    [ec_array], never waits for itself, never runs out of fuel, and touches freed
    memory only through a container it claimed itself and that was freed since. *)
Theorem tasks_fault_only_on_freed_claims σ t cur p env w :
  orderly_reachable σ -> tasks σ !! t = Some (cur, p) -> orderly (tasks σ) (mem σ) p -> faults t env σ w ->
  w = UseAfterFree /\
  exists g ec, uses_container p = Some (g, ec) /\ containers (mem σ) !! ec = None.
Proof.
  intros R Ht Hst (cur' & p' & Ht' & En & E). simplify_eq.
  pose proof (sys_inv_oom _ _ (e_oom env) (inv_reachable σ R)) as V.
  set (s := set_oom (e_oom env) (mem σ)) in *.
  destruct (uses_container p) as [[g ec]|] eqn:Hu.
  - destruct (containers s !! ec) as [C|] eqn:HC.
    + exfalso. assert (Hwp : wp (action cur env p) (step_ok (tasks σ) t cur p s) s).
      { apply action_ok; try done. intros g' ec' ?. simplify_eq. by rewrite HC. }
      unfold wp in Hwp. by rewrite E in Hwp.
    + rewrite (action_freed cur s env p g ec Hu HC) in E. simplify_eq. eauto.
  - exfalso. assert (Hwp : wp (action cur env p) (step_ok (tasks σ) t cur p s) s) by (apply action_ok; try done; intros; congruence).
    unfold wp in Hwp. by rewrite E in Hwp.
Qed.

(** The container of a registered process is freed by an answer to its event
    while the process still reads it. *)
Lemma tasks_fault_only_on_freed_claims_witness :
  let σ := state_of (answered ALLOW) in
  orderly_reachable σ /\ faults 3 plain_env σ UseAfterFree /\
  exists g ec, uses_container (GE_fields 1 3) = Some (g, ec) /\ containers (mem σ) !! ec = None.
Proof.
  intros σ. assert (R : orderly_reachable σ) by (apply state_of_reachable; vm_compute; eauto).
  assert (F : faults 3 plain_env σ UseAfterFree).
  { exists 30%Z, (GE_fields 1 3). split_and!; [by vm_compute|by vm_compute|by vm_compute]. }
  split_and!; [done|done|].
  apply (tasks_fault_only_on_freed_claims σ 3 30%Z (GE_fields 1 3) plain_env UseAfterFree);
    [done|by vm_compute|by split; intros []|done].
Defined.

(** ** The vote *)

(** C3. The event layer implements the abstract vote [Vote]: what can be seen of an
    orderly run (no file of a deleted group is closed while its id is in use again, no
    last file of a group while [dazukofs_add_group] counts its group), with any
    interleaving of its tasks: events posted, answers given and counted, groups
    deleted, accesses ended; is what can be seen of a run of the vote, which ends in
    the box of open votes that the state stands for.  So when an access ends, its
    result is [-EPERM] exactly if some registered process answered its event with DENY,
    and else 0; every answer was counted; every group that was live when the event was
    posted answered or was deleted; and no group was counted twice, none that was not
    asked at all. *)
Theorem event_layer_is_a_vote tr σ : traced orderly tr σ ->
  (exists tr' B, Vote.vote_run tr' B /\ filter Vote.visible tr' = tr /\ represents (tasks σ) (mem σ) B) /\
  forall t cur evt err, tasks σ !! t = Some (cur, CA_release evt err) ->
    ((err = - EPERM /\ exists g, Vote.Answer evt g true ∈ Vote.since evt tr) \/
     (err = 0 /\ forall g, Vote.Answer evt g true ∉ Vote.since evt tr))%Z /\
    (forall g d, Vote.Answer evt g d ∈ Vote.since evt tr <-> Vote.Count evt g d ∈ Vote.since evt tr) /\
    forall g, (g ∈ Vote.asked evt tr ->
        Vote.Withdraw g ∈ Vote.since evt tr \/ exists d, Vote.Answer evt g d ∈ Vote.since evt tr) /\
      Vote.counted evt g (Vote.since evt tr) <= (if decide (g ∈ Vote.asked evt tr) then 1 else 0).
Proof.
  intros H. split; [by apply traced_vote|]. intros t cur evt err Ht. by eapply traced_decision.
Qed.

(** Two groups are asked; one denies, the other is deleted. *)
Definition two_asked : list cmd :=
  add_script "g" false ++ add_script "h" false ++ access_script ++ claim_script ++ runs 3 5 ++
  Spawn 4 40 (RE_enter 0 1 DENY) :: runs 4 2 ++ Spawn 5 50 (RG_enter "h") :: runs 5 2 ++ runs 2 2.
Definition seen_of_two : list Vote.act := watch two_asked [] init_sys.

Example seen_of_two_is : seen_of_two =
  [Vote.Withdraw 2; Vote.Count 3 1 true; Vote.Answer 3 1 true; Vote.Post 3 {[1; 2]}]%positive.
Proof. vm_compute. reflexivity. Qed.

Lemma event_layer_is_a_vote_witness :
  (exists tr' B, Vote.vote_run tr' B /\ filter Vote.visible tr' = seen_of_two /\
     represents (tasks (state_of two_asked)) (mem (state_of two_asked)) B) /\
  (((-1) = - EPERM /\ exists g, Vote.Answer 3 g true ∈ Vote.since 3 seen_of_two) \/
   ((-1)%Z = 0%Z /\ forall g, Vote.Answer 3 g true ∉ Vote.since 3 seen_of_two))%Z.
Proof.
  assert (H : traced orderly seen_of_two (state_of two_asked)).
  { apply watch_traced; [constructor|]. by vm_compute. }
  destruct (event_layer_is_a_vote seen_of_two (state_of two_asked) H) as [Hv Hd]. split; [exact Hv|].
  apply (Hd 2%positive 20%Z 3%positive (-1)%Z). by vm_compute.
Defined.

(** ** Nobody sleeps for ever *)

(** C7. In orderly runs, an access that sleeps is still to be answered: its event is
    alive, and it is on the list of a group that is not deleted, or a task is about to
    release it. *)
Theorem sleeping_access_is_assigned σ t cur evt :
  orderly_reachable σ -> tasks σ !! t = Some (cur, CA_sleep evt) ->
  (exists g G c, g ∈ group_list (mem σ) /\ groups (mem σ) !! g = Some G /\
     grp_deprecated G = 0%Z /\ c ∈ group_lists G /\ refers (containers (mem σ)) evt c) \/
  (exists t' cur' g d, tasks σ !! t' = Some (cur', RE_release g evt d)).
Proof. intros R. by apply sleeping_assigned, inv_reachable. Qed.

Lemma sleeping_access_is_assigned_witness :
  (exists g G c, g ∈ group_list (mem (state_of waiting)) /\
     groups (mem (state_of waiting)) !! g = Some G /\
     grp_deprecated G = 0%Z /\ c ∈ group_lists G /\
     refers (containers (mem (state_of waiting))) 2 c) \/
  (exists t' cur' g d, tasks (state_of waiting) !! t' = Some (cur', RE_release g 2 d)).
Proof.
  apply (sleeping_access_is_assigned (state_of waiting) 2 20 2);
    [apply state_of_reachable; vm_compute; eauto|by vm_compute].
Defined.

(** C8. In orderly runs, a registered process sleeps in [dazukofs_get_event] only while
    its group has nothing to do and is not deleted, or while another task is about to
    wake the group: no wake-up is lost. *)
Theorem sleeping_listener_is_idle σ t cur g :
  orderly_reachable σ -> tasks σ !! t = Some (cur, GE_sleep g) ->
  (exists G, groups (mem σ) !! g = Some G /\ todo_list G = [] /\ grp_deprecated G = 0%Z) \/
  (exists t' x, tasks σ !! t' = Some x /\ wakes_soon x.2 = Some g).
Proof. intros R Ht. apply (si_sleep _ _ (inv_reachable σ R) t cur g Ht). Qed.

Definition listening : list cmd := add_script "g" false ++ Spawn 3 30 (GE_enter 0) :: runs 3 2.

Lemma sleeping_listener_is_idle_witness :
  (exists G, groups (mem (state_of listening)) !! 1%positive = Some G /\ todo_list G = [] /\
     grp_deprecated G = 0%Z) \/
  (exists t' x, tasks (state_of listening) !! t' = Some x /\ wakes_soon x.2 = Some 1%positive).
Proof.
  apply (sleeping_listener_is_idle (state_of listening) 3 30 1);
    [apply state_of_reachable; vm_compute; eauto|by vm_compute].
Defined.

(** ** Everything comes to an end *)

(** C9. However the tasks that are in a state, any state, are interleaved, they take a
    number of steps that their number bounds.  And from every state that an orderly run
    reaches (one in which no file of a deleted group is closed while its id is in use
    again, and no last file of a group while [dazukofs_add_group] counts its group),
    they can go on to rest, in an orderly way, or to the use of a container that was
    claimed and freed: at rest every call has returned, but for accesses that a live
    group still has to answer and for processes that wait for an idle group.  And when
    the groups are deleted one after the other, those return too.  So in orderly runs
    nothing deadlocks, no loop runs for ever, and nothing waits for anything but a
    group. *)
Theorem calls_end_or_sleep (env : EventTasks.env) σ :
  (forall cs σ', Forall is_run cs -> exec cs σ = Some σ' ->
     let n := size (tasks σ) in length cs <= (8 * n) * (4 * n + 1) + 4 * n) /\
  (orderly_reachable σ ->
   (exists cs σ', Forall is_run cs /\ oexec cs σ = Some σ' /\ (at_rest σ' \/ exists t, claim_freed σ' t)) /\
   (exists cs σ', Forall (fun c => is_run c \/ is_removal c) cs /\ oexec cs σ = Some σ' /\
      (all_returned σ' \/ exists t, claim_freed σ' t))).
Proof.
  split; [|intros R; split; [by apply comes_to_rest|by apply comes_to_end]]. intros cs σ' Hcs E n.
  pose proof (runs_end cs σ σ' Hcs E). pose proof (steps_bound σ). unfold n. lia.
Qed.

Lemma calls_end_or_sleep_witness :
  length (runs 4 2) <= 400 /\
  exists cs σ', Forall (fun c => is_run c \/ is_removal c) cs /\ oexec cs (state_of waiting) = Some σ' /\
    (all_returned σ' \/ exists t, claim_freed σ' t).
Proof.
  destruct (calls_end_or_sleep plain_env (state_of (answered DENY))) as [Hb _].
  assert (R' : orderly_reachable (state_of waiting)) by (apply state_of_reachable; vm_compute; eauto).
  destruct (calls_end_or_sleep plain_env (state_of waiting)) as [_ He]. split; [|exact (proj2 (He R'))].
  destruct (exec (runs 4 2) (state_of (answered DENY))) as [σ'|] eqn:E.
  - specialize (Hb (runs 4 2) σ' ltac:(by repeat constructor) E). etrans; [exact Hb|]. apply (bool_decide_unpack _). vm_compute. exact I.
  - exfalso. assert (Hs : bool_decide (is_Some (exec (runs 4 2) (state_of (answered DENY)))) = true) by (vm_compute; reflexivity).
    apply bool_decide_eq_true in Hs as [x Hx]. congruence.
Defined.

(** ** The registry under concurrency *)

(** C10. In every state that an orderly run reaches (no file of a deleted group is
    closed while its id is in use again, no last file of a group while
    [dazukofs_add_group] is between linking and counting its group) the live groups
    have different names and different ids, there are at most [GROUP_COUNT] of them,
    and [group_count], which is read and written in two steps, is their number but for
    a group that [dazukofs_add_group] has linked and not yet counted. *)
Theorem registry_consistent σ :
  orderly_reachable σ ->
  NoDup (Spec.names (registry_of (mem σ))) /\ NoDup (Spec.ids (registry_of (mem σ))) /\
  (Z.of_nat (length (registry_of (mem σ))) <= GROUP_COUNT)%Z /\
  (group_count (mem σ) + Z.of_nat (counting (tasks σ)) = Z.of_nat (length (registry_of (mem σ))))%Z.
Proof.
  intros R. pose proof (inv_reachable σ R) as V. destruct (si_live _ _ V). split_and!; try done.
  apply (si_count _ _ V).
Qed.

Lemma registry_consistent_witness :
  (group_count (mem (state_of (add_script "g" true))) +
     Z.of_nat (counting (tasks (state_of (add_script "g" true)))) =
   Z.of_nat (length (registry_of (mem (state_of (add_script "g" true))))))%Z.
Proof.
  apply (registry_consistent (state_of (add_script "g" true))).
  apply state_of_reachable; vm_compute; eauto.
Defined.

(** C17. [ec_array] is large enough, in every state that an orderly run reaches (no file
    of a deleted group is closed while its id is in use again, no last file of a group
    while [dazukofs_add_group] counts its group): when [assign_event_to_groups] runs,
    there is a container for every live group, and not more than the [GROUP_COUNT]
    elements of the array. *)
Theorem ec_array_suffices σ t cur evt ecs :
  orderly_reachable σ -> tasks σ !! t = Some (cur, CA_assign evt ecs) ->
  length (registry_of (mem σ)) <= length ecs /\ (Z.of_nat (length ecs) <= GROUP_COUNT)%Z /\ NoDup ecs.
Proof.
  intros R Ht. pose proof (inv_reachable σ R) as V. by destruct (si_pc _ _ V t _ Ht) as (_ & ? & ? & ?).
Qed.

Definition allocated : list cmd := add_script "g" false ++ Spawn 2 20 (CA_enter 7 8) :: runs 2 2.

Lemma ec_array_suffices_witness :
  length (registry_of (mem (state_of allocated))) <= 1 /\ (Z.of_nat 1 <= GROUP_COUNT)%Z /\
  NoDup [3%positive].
Proof.
  apply (ec_array_suffices (state_of allocated) 2 20 2 [3%positive]);
    [apply state_of_reachable; vm_compute; eauto|by vm_compute].
Defined.

(** ** Recursion *)

(** C18. [check_access_precheck], exactly, in orderly runs: for the access of a running task it asks
    for an event unless there is no group or the process is ignored; a process that
    opens no file on behalf of an event is never taken for one that does.  And the
    check that [dentry_open] makes while a registered process opens the file of an
    event always returns at once: the process is masked until then, and never waits
    for its own event. *)
Theorem precheck_is_exact σ : orderly_reachable σ ->
  (forall t cur d m ign n, tasks σ !! t = Some (cur, CA_enter d m) ->
     wp (check_access_precheck ign cur n)
       (fun r s' => r = (if decide (n = 0%Z \/ ign cur = 0%Z) then -1 else 0)%Z /\
          proc_list s' = proc_list (mem σ)) (mem σ)) /\
  (forall t cur g ec q oe env, tasks σ !! t = Some (cur, GE_nested g ec q oe) ->
     wp (open_file_nested oe (e_ign env) cur) (fun r s' => r = true /\
       groups s' = groups (mem σ) /\ events s' = events (mem σ)) (mem σ)).
Proof.
  intros R. pose proof (si_mask _ _ (inv_reachable σ R)) as K. split.
  - intros t cur d m ign n Ht. unfold check_access_precheck. case_decide as Hn.
    { apply wp_ret. by rewrite decide_True by (by left). }
    apply wp_bind. eapply wp_mono; [by apply (wp_check_recursion_absent _ _ t cur (CA_enter d m) K Ht)|].
    intros r s' (-> & _ & _ & Hl & _). rewrite decide_False by done.
    case_decide as Hi; apply wp_ret; (split; [|done]).
    + by rewrite decide_True by (by right).
    + rewrite decide_False; [done|]. tauto.
  - intros t cur g ec q oe env Ht.
    destruct (k_task _ _ K t cur _ q Ht eq_refl) as [_ [Hm|[_ ?]]]; [|done].
    eapply wp_mono.
    { apply (wp_open_file_nested (mem σ) oe (e_ign env) cur q); [by eapply mask_alive| |done].
      by eapply mask_own. }
    intros r s' (-> & M & _). destruct (mask_step_fields _ _ M) as (? & _ & _ & _ & ? & _). done.
Qed.

(** A registered process that opens the file of its event, and an access that begins. *)
Definition entering : list cmd := waiting ++ claim_script ++ runs 3 1 ++ [Spawn 4 40 (CA_enter 7 8)].

Lemma precheck_is_exact_witness :
  wp (check_access_precheck (fun _ => 1%Z) 40 1)
    (fun r s' => r = (if decide (1 = 0 \/ 1 = 0)%Z then -1 else 0)%Z /\
       proc_list s' = proc_list (mem (state_of entering))) (mem (state_of entering)) /\
  wp (open_file_nested (mk_open_env 3 true 100) (fun _ => 1%Z) 30) (fun r s' => r = true /\
    groups s' = groups (mem (state_of entering)) /\ events s' = events (mem (state_of entering)))
    (mem (state_of entering)).
Proof.
  assert (R : orderly_reachable (state_of entering)) by (apply state_of_reachable; vm_compute; eauto).
  destruct (precheck_is_exact (state_of entering) R) as [H1 H2]. split.
  - apply (H1 4%positive 40%Z 7%Z 8%Z (fun _ => 1%Z) 1%Z). by vm_compute.
  - apply (H2 3%positive 30%Z 1%positive 3%positive 4%positive (mk_open_env 3 true 100) plain_env). by vm_compute.
Defined.

(** ** The registry as a specification *)

(** C14. The calls on groups always complete and implement the abstract registry.
    [dazukofs_add_group] implements [Spec.add]: an existing name succeeds and changes
    nothing, the [GROUP_COUNT]-th + 1 group is refused with [-EPERM], a failed
    allocation gives [-ENOMEM] and changes nothing, and a new group gets the smallest
    free id; a successful [add] with [track] leaves a group that tracks.
    [dazukofs_remove_group] returns 0 and implements [Spec.remove]: exactly the entry
    with this name disappears.  Both keep the invariants. *)
Theorem registry_calls_refine gh nm s :
  grp_inv gh s -> reg_inv s ->
  (forall track, exists r s', dazukofs_add_group nm track s = Ret r s' /\
     Spec.add nm (registry_of s) r (registry_of s') /\ grp_inv gh s' /\ reg_inv s' /\
     (track = true -> r = 0%Z -> tracks nm s')) /\
  (forall unused, exists s', dazukofs_remove_group nm unused s = Ret 0%Z s' /\
     registry_of s' = Spec.remove nm (registry_of s) /\ grp_inv gh s' /\ reg_inv s').
Proof.
  intros I R. split; intros b.
  - destruct (wp_run _ _ _ (wp_add_group gh nm b s I R)) as (r & s' & E & ? & ? & ? & ? & _). by exists r, s'.
  - destruct (wp_run _ _ _ (wp_dazukofs_remove_group gh nm b s I R)) as (r & s' & E & -> & ? & ? & ?). by exists s'.
Qed.

Lemma reg_inv_init : reg_inv init_state.
Proof. split; [split; unfold registry_of, live_view; simpl|done]; try apply NoDup_nil_2. by apply Forall_nil. Qed.

Definition after {A} (m : M A) (s : kstate) : kstate :=
  match m s with Ret _ s' => s' | Stuck _ => s end.

Definition one_group : kstate := after (dazukofs_add_group "scan" false) init_state.

Lemma one_group_inv : grp_inv no_ghost one_group /\ reg_inv one_group.
Proof.
  unfold one_group, after.
  destruct (wp_run _ _ _ (wp_add_group _ "scan" false _ grp_inv_init reg_inv_init))
    as (r & s' & -> & _ & ? & ? & _). done.
Qed.

Lemma registry_calls_refine_witness :
  (exists r s', dazukofs_add_group "other" true one_group = Ret r s' /\
     Spec.add "other" (registry_of one_group) r (registry_of s') /\ grp_inv no_ghost s' /\ reg_inv s' /\
     (true = true -> r = 0%Z -> tracks "other" s')) /\
  (exists s', dazukofs_remove_group "scan" false one_group = Ret 0%Z s' /\
     registry_of s' = Spec.remove "scan" (registry_of one_group) /\ grp_inv no_ghost s' /\ reg_inv s').
Proof.
  split.
  - apply (proj1 (registry_calls_refine no_ghost "other" one_group (proj1 one_group_inv) (proj2 one_group_inv)) true).
  - apply (proj2 (registry_calls_refine no_ghost "scan" one_group (proj1 one_group_inv) (proj2 one_group_inv)) false).
Defined.

(** ** Posting and answering *)

(** C16. [assign_event_to_groups] gives the event the next id; the todo list of every
    live group gets one container for it, at its end, and no other list changes
    ([posted_to]); [assigned] is the number of live groups; every allocated container
    is spent or left over, none is used twice. *)
Theorem assign_event_posts gh evt ecs s ev :
  grp_inv gh s -> NoDup ecs -> (forall c, c ∈ ecs -> 0 < priv gh c) ->
  events s !! evt = Some ev -> assigned ev = 0%Z -> length (live_view s) <= length ecs ->
  wp (assign_event_to_groups evt ecs) (fun _ s' =>
    grp_inv (set_priv (minus_in (priv gh) ecs) gh) s' /\ registry_of s' = registry_of s /\
    (forall g, posted_to evt ecs (group_list s) s s' g) /\
    exists ev', events s' !! evt = Some ev' /\
      assigned ev' = Z.of_nat (length (registry_of s)) /\
      event_id ev' = ulong_wrap (int_wrap (last_event_id s + 1)) /\ deny ev' = deny ev) s.
Proof.
  intros I Hnd Hp He Ha Hl. eapply wp_mono; [apply wp_ran; by apply (wp_assign gh evt ecs s ev)|].
  intros [] s' [(I' & [K _] & ev' & He' & Ha' & Hid & Hd) E]. split_and!; [done|by eapply op_keep_sublist| |].
  { apply (assign_posts evt ecs s s' (m_gl_nodup _ _ (proj1 I)) Hnd E). }
  exists ev'. unfold registry_of. by rewrite length_fmap.
Qed.

Lemma assign_event_posts_witness :
  let σ := state_of allocated in
  wp (assign_event_to_groups 2 [3%positive]) (fun _ s' =>
    grp_inv (set_priv (minus_in (priv (ghost_of (tasks σ))) [3%positive]) (ghost_of (tasks σ))) s' /\
    registry_of s' = registry_of (mem σ) /\
    (forall g, posted_to 2 [3%positive] (group_list (mem σ)) (mem σ) s' g) /\
    exists ev', events s' !! 2%positive = Some ev' /\
      assigned ev' = Z.of_nat (length (registry_of (mem σ))) /\
      event_id ev' = ulong_wrap (int_wrap (last_event_id (mem σ) + 1)) /\ deny ev' = 0%Z) (mem σ).
Proof.
  intros σ. assert (R : orderly_reachable σ) by (apply state_of_reachable; vm_compute; eauto).
  apply (assign_event_posts (ghost_of (tasks σ)) 2 [3%positive] (mem σ) (mk_event 0 7 8 20 0 0 0)).
  - apply (si_grp _ _ (inv_reachable σ R)).
  - apply NoDup_singleton.
  - intros c ->%list_elem_of_singleton. vm_compute. lia.
  - by vm_compute.
  - done.
  - vm_compute. lia.
Defined.

(** The event with an id on the working list of a group. *)
Definition being_worked_on (s : kstate) (gid id : Z) (evt : loc) : Prop :=
  exists g G ec C e, g ∈ group_list s /\ groups s !! g = Some G /\ grp_deprecated G = 0%Z /\
    group_id G = gid /\ ec ∈ working_list G /\ containers s !! ec = Some C /\
    ec_event C = Some evt /\ events s !! evt = Some e /\ event_id e = id.

Lemma op_frame_calls_grow x s s' c : op_frame x s s' -> c ∈ calls s -> c ∈ calls s'.
Proof.
  intros [K _] Hc. destruct (ok_ev _ _ _ K) as [_ _ (new & -> & _) _]. apply elem_of_app. by right.
Qed.

Lemma wp_use_dec_calls gh s g (Q : Prop) (r : Z) c :
  grp_inv gh s -> 0 < hold gh g -> (Q -> c ∈ calls s) ->
  wp (do! use_dec g in sret r) (fun r' s' => r' = r /\ (Q -> c ∈ calls s')) s.
Proof.
  intros I Hh Hq. apply wp_bind. eapply wp_mono; [by apply (wp_use_dec gh)|].
  intros [] s' [_ O]. apply wp_ret. split; [done|]. intros q. eapply op_frame_calls_grow; eauto.
Qed.

(** C15. [dazukofs_return_event], without interference: it never gets stuck; it
    returns 0 only for an event its group works on, which then records a
    denial if that was the answer; otherwise it returns [-EINVAL] and no live
    group with the id works on such an event. *)
Theorem return_event_correct gh s gid id response :
  grp_inv gh s -> live_ok s ->
  wp (dazukofs_return_event gid id response) (fun r s' =>
    (r = 0%Z /\ exists evt, being_worked_on s gid id evt /\
       (response = DENY -> KRelease evt true true ∈ calls s')) \/
    (r = (- EINVAL)%Z /\ forall evt, ~ being_worked_on s gid id evt)) s.
Proof.
  intros I L. apply wp_bind. eapply wp_mono; [by apply (wp_return_event_locked gh)|].
  intros [[g [[ec evt]|]]|] s1 [O P].
  - destruct P as (G & Hin & HG & Hd & Hid & Hec & (C & e & HC & He & Hev & Hi) & I1).
    assert (Hb : being_worked_on s gid id evt) by (by exists g, G, ec, C, e).
    apply wp_bind. eapply (wp_mono _ (fun r s2 => r = 0%Z /\ (exists gh2, grp_inv gh2 s2 /\ 0 < hold gh2 g) /\
      (response = DENY -> KRelease evt true true ∈ calls s2))).
    + apply wp_bind. case_decide as Hr.
      * destruct I1 as [Hcs I1]. subst response. apply wp_bind.
        eapply wp_mono; [apply (wp_unclaim_locked _ s1 g ec I1)|].
        -- simpl. unfold claim_of. rewrite fupd_eq. lia.
        -- subst s1. simpl. by rewrite HC.
        -- intros [] s2 (_ & _ & _ & _ & _ & I2). eapply wp_mono; [by eapply wp_wake_group|].
           intros [] s3 (I3 & _). apply wp_ret. split_and!; [done| |done].
           eexists. split; [exact I3|]. simpl. rewrite inc_at. lia.
      * destruct I1 as [_ I1]. eapply wp_mono; [apply (wp_release_dec _ s1 evt _ I1)|].
        -- simpl. rewrite inc_at. lia.
        -- intros [] s2 (I2 & _ & _ & Hy). apply wp_ret. split_and!; [done| |].
           ++ eexists. split; [exact I2|]. simpl. rewrite inc_at. lia.
           ++ intros ->. by apply Hy.
    + intros r s2 (-> & (gh2 & I2 & Hh) & Hy).
      eapply wp_mono; [by apply (wp_use_dec_calls gh2 s2 g (response = DENY) 0%Z)|].
      intros r s3 [-> Hy']. left. split; [done|]. by exists evt.
  - destruct P as (G & Hin & HG & Hd & Hid & _ & I1 & Hn). apply wp_bind, wp_ret.
    eapply wp_mono; [apply (wp_use_dec_calls _ s1 g False _ (KPutPid 0) I1); [|done]|].
    + simpl. rewrite inc_at. lia.
    + intros r s3 [-> _]. right. split; [done|].
      intros evt (g' & G' & ec & C & e & Hin' & HG' & Hd' & Hid' & Hec & HC & He & Hev & Hi).
      assert (g' = g) as -> by (eapply (live_unique s g' g G' G); try done; congruence).
      simplify_eq. by eapply Hn.
  - apply wp_ret. right. split; [done|]. destruct P as (_ & _ & Hn).
    intros evt (g' & G' & ec & C & e & Hin' & HG' & Hd' & Hid' & _).
    apply (Hn g' (name G')), live_of_elem. eauto 10.
Qed.

Definition claimed : list cmd := waiting ++ claim_script ++ runs 3 4.

Lemma return_event_correct_witness :
  wp (dazukofs_return_event 0 1 DENY) (fun r s' =>
    (r = 0%Z /\ exists evt, being_worked_on (mem (state_of claimed)) 0 1 evt /\
       (DENY = DENY -> KRelease evt true true ∈ calls s')) \/
    (r = (- EINVAL)%Z /\ forall evt, ~ being_worked_on (mem (state_of claimed)) 0 1 evt))
    (mem (state_of claimed)).
Proof.
  assert (R : orderly_reachable (state_of claimed)) by (apply state_of_reachable; vm_compute; eauto).
  apply (return_event_correct (ghost_of (tasks (state_of claimed)))); apply (inv_reachable _ R).
Defined.

(** ** Tracking *)

(** C19. Closing the last file that a live group tracks retires the group; an
    earlier close does not change the registry.  (The file is not stale: no
    other group has the id.) *)
Theorem last_close_retires gh gid s g G :
  grp_inv gh s -> live_ok s -> groups s !! g = Some G -> group_id G = gid -> grp_deprecated G = 0%Z ->
  0 < tracked gh g ->
  wp (dazukofs_group_release_tracking gid) (fun _ s' =>
    grp_inv (set_tracked (dec (tracked gh) g) gh) s' /\
    if decide (tracked gh g = 1)
    then registry_of s' `sublist_of` registry_of s /\ gid ∉ Spec.ids (registry_of s') /\
         length (registry_of s) = S (length (registry_of s'))
    else registry_of s' = registry_of s) s.
Proof.
  intros I L HG Hid Hd Ht. assert (Hin : g ∈ group_list s) by (apply (u_alive _ _ (proj2 (proj2 I))); lia).
  eapply wp_mono.
  { apply (wp_release_tracking gh gid s g G); try done.
    intros g' G' ? ? ? ?. eapply (live_unique s g' g G' G); try done. congruence. }
  intros [] s' [I' H]. split; [done|]. rewrite decide_True in H by done. case_decide as H1.
  - destruct H as (s1 & E1 & I1 & [K1 W1] & P). pose proof (op_keep_sublist _ _ _ K1) as Er.
    assert (HG1 : groups s1 !! g = Some (tracked_head (-1) G)) by (rewrite E1; apply lookup_insert_eq).
    assert (Hin1 : g ∈ group_list s1) by (by rewrite (ok_list _ _ _ K1)).
    destruct (retire_live _ _ _ _ _ I1 P Hin1 HG1 Hd) as [Hs Hl]. rewrite <-Er. split_and!; [done| |done].
    unfold Spec.ids, registry_of. intros Hi.
    apply list_elem_of_fmap in Hi as ([nm i] & Ei & ([[g' nm'] i'] & E' & Hl')%list_elem_of_fmap).
    unfold entry in E'; simpl in *; simplify_eq. apply live_of_elem in Hl' as (Hin' & G' & HG' & Hd' & _ & Hi').
    destruct P as [P _]. rewrite (gs_groups _ _ _ _ P) in HG'. rewrite (gs_group_list _ _ _ _ P) in Hin'.
    apply lookup_insert_Some in HG' as [[<- <-]|[Hne HG']]; [done|]. simpl in HG'.
    rewrite lookup_insert_ne in HG' by done. apply Hne.
    eapply (live_unique s g g' G G'); done || congruence.
  - eapply op_keep_sublist, H.
Qed.

Definition tracked_file : list cmd := add_script "g" true ++ [Spawn 2 20 (OT_enter 0); Run 2 plain_env].

Lemma last_close_retires_witness :
  let σ := state_of tracked_file in
  wp (dazukofs_group_release_tracking 0) (fun _ s' =>
    grp_inv (set_tracked (dec (tracked (ghost_of (tasks σ))) 1%positive) (ghost_of (tasks σ))) s' /\
    if decide (tracked (ghost_of (tasks σ)) 1%positive = 1)
    then registry_of s' `sublist_of` registry_of (mem σ) /\ 0%Z ∉ Spec.ids (registry_of s') /\
         length (registry_of (mem σ)) = S (length (registry_of s'))
    else registry_of s' = registry_of (mem σ)) (mem σ).
Proof.
  intros σ. assert (R : orderly_reachable σ) by (apply state_of_reachable; vm_compute; eauto).
  apply (last_close_retires (ghost_of (tasks σ)) 0 (mem σ) 1 (mk_group "g" 1 0 [] [] 1 1 1 0)).
  - apply (inv_reachable σ R).
  - apply (inv_reachable σ R).
  - by vm_compute.
  - done.
  - done.
  - vm_compute. lia.
Defined.

(** ** The close of tracked files *)

(** The ids of the live groups. *)
Definition live_ids (σ : sys) : list Z := Spec.ids (registry_of (mem σ)).

Definition group_names : list string := ["a"; "b"; "c"; "d"; "e"; "f"; "g"; "h"; "i"; "j"].

(** Ten groups, of which the last tracks; a file is opened for it; an eleventh
    [add] searches an id, the file is closed, and the [add] goes on. *)
Definition eleventh : list cmd :=
  concat (map (fun nm => add_script nm (bool_decide (nm = "j"))) group_names) ++
  [Spawn 2 20 (OT_enter 9); Run 2 plain_env; Spawn 3 30 (AG_enter "k" false); Run 3 plain_env;
   Run 2 plain_env] ++ runs 3 3.

(** [dazukofs_group_release_tracking] retires groups without
    [group_count_sem]: an [add] that searched an id while all [GROUP_COUNT]
    groups were there may then create a group with an id for which no device
    exists. *)
Lemma group_without_device : exists σ, orderly_reachable σ /\ GROUP_COUNT ∈ live_ids σ.
Proof.
  exists (state_of eleventh). split; [apply state_of_reachable; vm_compute; eauto|].
  assert (E : bool_decide (GROUP_COUNT ∈ live_ids (state_of eleventh)) = true) by (by vm_compute).
  by apply bool_decide_eq_true in E.
Qed.

(** A file is opened for a group that tracks; the group is deleted, and another
    one that tracks is added and gets the same id. *)
Definition stale_file : list cmd :=
  tracked_file ++ Spawn 3 30 (RG_enter "g") :: runs 3 2 ++ add_script "h" true.

(** A file is open for the only group; another group is linked and [group_count] read. *)
Definition racing_file : list cmd := tracked_file ++ Spawn 3 30 (AG_enter "h" false) :: runs 3 4.

(** C20. What [dazukofs_group_release_tracking] does where a run is no longer orderly, from
    any state that an orderly run reaches.  It finds the group by id: so a file of
    another group, whose id [g] has now, takes a use and a tracked file from [g] when
    it is closed, and retires [g] with the last, though the files that are open for [g]
    are as many as before; no other group changes, so the group of the file keeps its
    use for ever.  And it does not hold [group_count_sem]: if it retires a group between
    the read and the write of [group_count] in [dazukofs_add_group], the decrement is
    lost, and [group_count] is one more than the groups. *)
Theorem release_tracking_races σ : orderly_reachable σ ->
  (forall t cur gid g0 g G env, tasks σ !! t = Some (cur, Tracked gid g0) -> g <> g0 ->
     g ∈ group_list (mem σ) -> groups (mem σ) !! g = Some G -> grp_deprecated G = 0%Z -> group_id G = gid -> tracking G <> 0%Z ->
     exists σ', run t env σ = Some σ' /\ groups (mem σ') = <[g := robbed G]> (groups (mem σ)) /\
       track_count G = Z.of_nat (nfiles (tasks σ) g) /\ nfiles (tasks σ') g = nfiles (tasks σ) g) /\
  (forall t1 cur1 n t2 cur2 gid g0 env1 env2,
     tasks σ !! t1 = Some (cur1, AG_counted n) -> tasks σ !! t2 = Some (cur2, Tracked gid g0) ->
     retires gid (mem σ) -> ~ stale (Tracked gid g0) (mem σ) ->
     exists σ1 σ2, run t2 env2 σ = Some σ1 /\ run t1 env1 σ1 = Some σ2 /\
       length (registry_of (mem σ)) = S (length (registry_of (mem σ2))) /\
       (group_count (mem σ2) + Z.of_nat (counting (tasks σ2)) = Z.of_nat (length (registry_of (mem σ2))) + 1)%Z).
Proof. intros R. split; intros; [by eapply stale_close|by eapply lost_count]. Qed.

Lemma release_tracking_races_witness :
  (exists σ', run 2 plain_env (state_of stale_file) = Some σ' /\
     groups (mem σ') = <[2%positive := robbed (mk_group "h" 1 0 [] [] 0 1 0 0)]> (groups (mem (state_of stale_file))) /\
     track_count (mk_group "h" 1 0 [] [] 0 1 0 0) = Z.of_nat (nfiles (tasks (state_of stale_file)) 2) /\
     nfiles (tasks σ') 2 = nfiles (tasks (state_of stale_file)) 2) /\
  (exists σ1 σ2, run 2 plain_env (state_of racing_file) = Some σ1 /\ run 3 plain_env σ1 = Some σ2 /\
     length (registry_of (mem (state_of racing_file))) = S (length (registry_of (mem σ2))) /\
     (group_count (mem σ2) + Z.of_nat (counting (tasks σ2)) = Z.of_nat (length (registry_of (mem σ2))) + 1)%Z).
Proof.
  assert (R1 : orderly_reachable (state_of stale_file)) by (apply state_of_reachable; vm_compute; eauto).
  assert (R2 : orderly_reachable (state_of racing_file)) by (apply state_of_reachable; vm_compute; eauto).
  split.
  - apply (proj1 (release_tracking_races _ R1) 2%positive 20%Z 0%Z 1%positive 2%positive); try (by vm_compute).
    apply (bool_decide_unpack _). vm_compute. exact I.
  - apply (proj2 (release_tracking_races _ R2) 3%positive 30%Z 1%Z 2%positive 20%Z 0%Z 1%positive); [by vm_compute..| |].
    + apply (bool_decide_unpack _). vm_compute. exact I.
    + apply (bool_decide_unpack _). vm_compute. exact I.
Defined.

(** After the close of a stale file the use count of a group is too small, and the group
    is freed as a deleted one while a registered process waits for it: its next step
    uses freed memory. *)
Lemma stale_close_frees_waited_group : exists σ t cur g, reachable σ /\
  tasks σ !! t = Some (cur, GE_wait g) /\ faults t plain_env σ UseAfterFree.
Proof.
  set (cs := stale_file ++ Spawn 5 50 (GE_enter 0) :: runs 5 2 ++ [Run 2 plain_env; Spawn 6 60 (RG_enter "h")] ++ runs 6 2 ++
    Spawn 7 70 (AG_enter "i" false) :: runs 7 1).
  exists (from_option id init_sys (exec cs init_sys)), 5%positive, 50%Z, 2%positive.
  split_and!; [|by vm_compute|exists 50%Z, (GE_wait 2); by vm_compute].
  destruct (exec cs init_sys) as [σ|] eqn:E; [by eapply exec_reachable; [apply rtc_refl|]|].
  exfalso. assert (Hs : bool_decide (is_Some (exec cs init_sys)) = true) by (vm_compute; reflexivity).
  apply bool_decide_eq_true in Hs as [x Hx]. congruence.
Qed.

(** A group can be deleted, and its containers freed, while a registered
    process that claimed an event of it is still opening the file: the process
    then reads freed memory. *)
Lemma claimed_container_freed : exists σ t cur g ec,
  orderly_reachable σ /\ tasks σ !! t = Some (cur, GE_fields g ec) /\ faults t plain_env σ UseAfterFree.
Proof.
  exists (state_of (claimed_open ++ Spawn 5 50 (RG_enter "g") :: runs 5 2)), 3%positive, 30%Z, 1%positive, 3%positive.
  split_and!; [apply state_of_reachable; vm_compute; eauto|by vm_compute|].
  exists 30%Z, (GE_fields 1 3). split_and!; by vm_compute.
Qed.
