(* ===== verification/CText.v ===== *)
(** * C strings

    The functions of the C library (and their namesakes in the kernel) that
    the device code and the user-space library apply to character buffers.  A
    buffer is a list of characters; the string in it ends before the first
    NUL. *)

From S2P Require Import Prelude.
From stdpp Require Import strings.
From Stdlib Require Import Ascii.



Abbreviation text := (list ascii).
Abbreviation txt := String.list_ascii_of_string.
Abbreviation untxt := String.string_of_list_ascii.

Definition NUL : ascii := ascii_of_nat 0.
Definition NL : ascii := ascii_of_nat 10.
Definition SP : ascii := ascii_of_nat 32.

(** The string a buffer holds. *)
Fixpoint cstr (b : text) : text :=
  match b with
  | [] => []
  | c :: r => if decide (c = NUL) then [] else c :: cstr r
  end.

Definition no_nul (t : text) : Prop := NUL ∉ t.

(** [strlen] *)
Definition strlen (b : text) : nat := length (cstr b).

(** [strstr]: the offset of the first occurrence. *)
Fixpoint find_sub (h n : text) : option nat :=
  if decide (n `prefix_of` h) then Some 0
  else match h with [] => None | _ :: h' => S <$> find_sub h' n end.
Definition strstr (b n : text) : option nat := find_sub (cstr b) n.

(** [strchr(set, c) != NULL]: the terminator is part of the string. *)
Definition strchr_b (set : text) (c : ascii) : bool := bool_decide (c ∈ set ++ [NUL]).

(** ** Printing numbers *)

Definition digit (d : Z) : ascii := ascii_of_nat (48 + Z.to_nat d).
Definition digit_value (c : ascii) : option Z :=
  let n := Z.of_nat (nat_of_ascii c) in
  if decide (48 <= n <= 57)%Z then Some (n - 48)%Z else None.

Fixpoint digits (fuel : nat) (n : Z) (acc : text) : text :=
  match fuel with
  | O => acc
  | S f => if decide (n < 10)%Z then digit n :: acc
           else digits f (n / 10) (digit (n mod 10) :: acc)
  end.

(** [%lu] and [%d]; an unsigned long has at most 20 digits. *)
Definition fmt_lu (n : Z) : text := digits 20 n [].
Definition fmt_d (n : Z) : text := if decide (n < 0)%Z then "-"%char :: fmt_lu (- n) else fmt_lu n.

(** [snprintf(buf, size, ...)]: what the buffer holds, and the return value. *)
Definition snprintf (size : nat) (t : text) : text * Z := (take (size - 1) t, Z.of_nat (length t)).

(** ** Reading numbers *)

Fixpoint read_digits (s : text) (acc : Z) : Z * text :=
  match s with
  | [] => (acc, [])
  | c :: r => match digit_value c with
              | Some d => read_digits r (acc * 10 + d)%Z
              | None => (acc, s)
              end
  end.

Definition no_digit_first (s : text) : Prop :=
  match s with [] => True | c :: _ => digit_value c = None end.

Lemma digit_value_digit d : (0 <= d < 10)%Z -> digit_value (digit d) = Some d.
Proof.
  intros Hd. unfold digit_value, digit.
  rewrite nat_ascii_embedding by lia. rewrite decide_True by lia. f_equal. lia.
Qed.

Lemma read_digits_stop s acc : no_digit_first s -> read_digits s acc = (acc, s).
Proof. destruct s as [|c r]; [done|]. simpl. by intros ->. Qed.

Lemma read_digits_digits f : forall n t, (0 <= n < 10 ^ Z.of_nat f)%Z -> (0 < f) ->
  read_digits (digits f n t) 0 = read_digits t n.
Proof.
  induction f as [|f IH]; intros n t Hn Hf; [lia|]. cbn [digits]. case_decide as H10.
  - cbn [read_digits]. rewrite digit_value_digit by lia. done.
  - assert (0 < f) by (destruct f; [simpl in Hn; lia|lia]).
    assert (E : (10 ^ Z.of_nat (S f) = 10 * 10 ^ Z.of_nat f)%Z)
      by (rewrite Nat2Z.inj_succ, Z.pow_succ_r by lia; done).
    rewrite IH; [| |lia].
    2: { split; [apply Z.div_pos; lia|]. apply Z.div_lt_upper_bound; lia. }
    cbn [read_digits]. pose proof (Z.mod_pos_bound n 10).
    rewrite digit_value_digit by lia. f_equal. rewrite (Z.div_mod n 10) at 3 by lia. lia.
Qed.

(** Reading back a printed number. *)
Lemma read_fmt_lu n t : (0 <= n < 10 ^ 20)%Z -> no_digit_first t ->
  read_digits (fmt_lu n ++ t) 0 = (n, t).
Proof.
  intros Hn Ht. assert (E : forall f m a, digits f m a ++ t = digits f m (a ++ t)).
  { intros f. induction f as [|f IH]; intros m a; [done|]. cbn [digits]. case_decide; [done|]. by rewrite IH. }
  unfold fmt_lu. rewrite E, read_digits_digits by (simpl; lia). by apply read_digits_stop.
Qed.

Lemma length_digits f : forall n k t, (0 <= n < 10 ^ Z.of_nat k)%Z -> (0 < k <= f) ->
  length (digits f n t) <= k + length t.
Proof.
  induction f as [|f IH]; intros n k t Hn Hk; [lia|]. cbn [digits]. case_decide; simpl; [lia|].
  destruct k as [|[|k]]; [lia|simpl in Hn; lia|].
  assert (E : (10 ^ Z.of_nat (S (S k)) = 10 * 10 ^ Z.of_nat (S k))%Z)
    by (rewrite (Nat2Z.inj_succ (S k)), Z.pow_succ_r by lia; done).
  etrans; [apply (IH _ (S k)); [|lia]|simpl; lia].
  split; [apply Z.div_pos; lia|]. apply Z.div_lt_upper_bound; lia.
Qed.

Lemma length_fmt_lu n k : (0 <= n < 10 ^ Z.of_nat k)%Z -> (0 < k <= 20) -> length (fmt_lu n) <= k.
Proof. intros. etrans; [by apply (length_digits 20 n k)|]. simpl. lia. Qed.

Lemma digits_step f n t : (10 <= n)%Z -> digits (S f) n t = digits f (n / 10) (digit (n mod 10) :: t).
Proof. intros Hn. cbn [digits]. by rewrite decide_False by lia. Qed.
Lemma digits_last f n t : (n < 10)%Z -> digits (S f) n t = digit n :: t.
Proof. intros Hn. cbn [digits]. by rewrite decide_True by lia. Qed.

Lemma digits_app f : forall n t u, digits f n t ++ u = digits f n (t ++ u).
Proof. induction f as [|f IH]; intros n t u; [done|]. cbn [digits]. case_decide; [done|]. by rewrite IH. Qed.

Lemma digits_fuel f : forall f' n t, (0 <= n < 10 ^ Z.of_nat f)%Z -> f <= f' -> 0 < f ->
  digits f' n t = digits f n t.
Proof.
  induction f as [|f IH]; intros f' n t Hn Hle Hf; [lia|]. destruct f' as [|f']; [lia|].
  cbn [digits]. case_decide; [done|]. destruct f as [|f]; [simpl in Hn; lia|].
  apply IH; [|lia|lia]. split; [apply Z.div_pos; lia|]. apply Z.div_lt_upper_bound; [lia|].
  replace (10 * 10 ^ Z.of_nat (S f))%Z with (10 ^ Z.of_nat (S (S f)))%Z; [lia|].
  rewrite (Nat2Z.inj_succ (S f)), Z.pow_succ_r by lia. done.
Qed.

(** The last digit. *)
Lemma fmt_lu_snoc n : (10 <= n < 10 ^ 20)%Z -> fmt_lu n = fmt_lu (n / 10) ++ [digit (n mod 10)].
Proof.
  intros Hn. assert (Hd : (0 <= n / 10 < 10 ^ Z.of_nat 19)%Z).
  { split; [apply Z.div_pos; lia|]. apply Z.div_lt_upper_bound; [lia|]. simpl. lia. }
  unfold fmt_lu at 1. rewrite digits_step by lia.
  etrans; [symmetry; exact (digits_app 19 (n / 10) [] [digit (n mod 10)])|].
  apply (f_equal (fun t => t ++ [digit (n mod 10)])). symmetry.
  apply (digits_fuel 19 20); [exact Hd|lia|lia].
Qed.

Lemma length_fmt_lu_exact k : forall n, (10 ^ Z.of_nat k <= n < 10 ^ Z.of_nat (S k))%Z -> k < 20 ->
  length (fmt_lu n) = S k.
Proof.
  induction k as [|k IH]; intros n Hn Hk.
  - simpl in Hn. unfold fmt_lu. by rewrite digits_last by lia.
  - assert (Hp : (10 ^ Z.of_nat (S (S k)) <= 10 ^ 20)%Z) by (apply Z.pow_le_mono_r; lia).
    assert (Hq : forall j, (10 ^ Z.of_nat (S j) = 10 * 10 ^ Z.of_nat j)%Z)
      by (intros j; rewrite Nat2Z.inj_succ, Z.pow_succ_r by lia; done).
    pose proof (Hq k). pose proof (Hq (S k)). pose proof (Z.pow_pos_nonneg 10 (Z.of_nat k)).
    rewrite fmt_lu_snoc by lia. rewrite length_app, (IH (n / 10)%Z); [simpl; lia| |lia].
    split; [apply Z.div_le_lower_bound; lia|]. apply Z.div_lt_upper_bound; [lia|]. lia.
Qed.

(** Printed numbers consist of digits. *)
Definition is_digit (c : ascii) : Prop := exists d, (0 <= d < 10)%Z /\ c = digit d.

Lemma digits_all f : forall n t, (0 <= n)%Z -> Forall is_digit t -> Forall is_digit (digits f n t).
Proof.
  induction f as [|f IH]; intros n t Hn Ht; [done|]. cbn [digits]. case_decide.
  - constructor; [|done]. exists n. split; [lia|done].
  - apply IH; [apply Z.div_pos; lia|]. constructor; [|done].
    exists (n mod 10)%Z. split; [apply Z.mod_pos_bound; lia|done].
Qed.
Lemma fmt_lu_all n : (0 <= n)%Z -> Forall is_digit (fmt_lu n).
Proof. intros. by apply digits_all. Qed.

Lemma fmt_lu_nonempty n : fmt_lu n <> [].
Proof.
  assert (E : forall f m a, a <> [] -> digits f m a <> []).
  { intros f. induction f as [|f IH]; intros m a Ha; [done|]. cbn [digits]. case_decide; [done|]. by apply IH. }
  unfold fmt_lu. cbn [digits]. case_decide; [done|]. by apply (E 19).
Qed.

Lemma is_digit_code c : is_digit c -> 48 <= nat_of_ascii c <= 57.
Proof. intros (d & Hd & ->). unfold digit. rewrite nat_ascii_embedding by lia. lia. Qed.

Lemma is_digit_ne c x : is_digit c -> nat_of_ascii x < 48 \/ 57 < nat_of_ascii x -> c <> x.
Proof. intros H Hx ->. apply is_digit_code in H. lia. Qed.

(** ** Searching *)

Lemma cstr_app t b : no_nul t -> cstr (t ++ b) = t ++ cstr b.
Proof.
  unfold no_nul. induction t as [|c t IH]; intros Hn; [done|]. simpl.
  rewrite decide_False by set_solver. rewrite IH by set_solver. done.
Qed.
Lemma cstr_nul t b : no_nul t -> cstr (t ++ NUL :: b) = t.
Proof. intros. rewrite cstr_app by done. apply app_nil_r. Qed.
Lemma cstr_no_nul t : no_nul t -> cstr t = t.
Proof. intros. rewrite <-(app_nil_r t) at 1. rewrite cstr_app by done. apply app_nil_r. Qed.

Lemma find_sub_prefix n h : n `prefix_of` h -> find_sub h n = Some 0.
Proof. intros Hp. destruct h; cbn [find_sub]; by rewrite decide_True. Qed.

Lemma find_sub_here n h : find_sub (n ++ h) n = Some 0.
Proof. by apply find_sub_prefix, prefix_app_r. Qed.

(** A needle whose first character does not occur before. *)
Lemma find_sub_skip h n c t : c ∉ h -> find_sub (h ++ c :: n ++ t) (c :: n) = Some (length h).
Proof.
  induction h as [|a h IH]; intros Hc.
  - apply (find_sub_here (c :: n) t).
  - cbn [app find_sub length]. rewrite decide_False.
    + rewrite IH by set_solver. done.
    + intros [k Hk]. simplify_eq. set_solver.
Qed.

Lemma find_sub_none h c n : c ∉ h -> find_sub h (c :: n) = None.
Proof.
  induction h as [|a h IH]; intros Hc; cbn [find_sub].
  - rewrite decide_False; [done|]. intros [k Hk]. done.
  - rewrite decide_False; [by rewrite IH by set_solver|]. intros [k Hk]. simplify_eq. set_solver.
Qed.

Lemma find_sub_sound h n i : find_sub h n = Some i -> exists a b, h = a ++ n ++ b /\ length a = i.
Proof.
  revert i. induction h as [|c h IH]; intros i; cbn [find_sub]; case_decide as Hp.
  - intros [= <-]. destruct Hp as [k Hk]. by exists [], k.
  - done.
  - intros [= <-]. destruct Hp as [k Hk]. by exists [], k.
  - destruct (find_sub h n) as [j|] eqn:E; [|done]. intros [= <-].
    destruct (IH j eq_refl) as (a & b & -> & <-). by exists (c :: a), b.
Qed.

Lemma find_sub_complete a n b : exists i, find_sub (a ++ n ++ b) n = Some i /\ i <= length a.
Proof.
  induction a as [|c a (i & Hi & Hle)].
  - exists 0. cbn [app]. by rewrite find_sub_here.
  - cbn [app find_sub length]. case_decide; [exists 0; split; [done|lia]|].
    exists (S i). rewrite Hi. split; [done|lia].
Qed.
