(* ===== verification/GroupText.v ===== *)
(** * The list of groups as text

    [dazukofs_get_groups] of [event.c] and the reads of the control device
    that hand its text out in pieces ([ctrl_dev.c]). *)

From S2P Require Import Prelude EventState EventOps EventInv GroupReg EventFlow CText.
From stdpp Require Import strings.
From Stdlib Require Import Ascii.

(** ** [dazukofs_get_groups] *)

(** ["%lu:%s\n"] *)
Definition group_line (id : Z) (nm : string) : text := fmt_lu id ++ ":"%char :: txt nm ++ [NL].

(** Storing characters at an offset of a buffer. *)
Definition put (buf : text) (off : nat) (out : text) : option text :=
  if decide (off + length out <= length buf)
  then Some (take off buf ++ out ++ drop (off + length out) buf) else None.

(** The first loop: the length the text needs, with its terminator. *)
Fixpoint groups_buflen (pos : list loc) (buflen : nat) : M nat :=
  match pos with
  | [] => sret buflen
  | grp :: q =>
      let! G := (load grp : M dazukofs_group) in
      groups_buflen q (if decide (grp_deprecated G = 0%Z)
                       then buflen + (Z.to_nat (name_length G) + 3) else buflen)
  end.

(** The second loop: [off] is [tmp - *buf]. *)
Fixpoint print_groups (pos : list loc) (allocsize off : nat) (buf : text) : M text :=
  match pos with
  | [] => sret buf
  | grp :: q =>
      let! G := (load grp : M dazukofs_group) in
      if decide (grp_deprecated G = 0%Z) then
        let out := (snprintf (allocsize - 1 - off) (group_line (group_id G) (name G))).1 ++ [NUL] in
        match put buf off out with
        | None => sfail OutOfBounds
        | Some buf' => print_groups q allocsize (off + (Z.to_nat (name_length G) + 3)) buf'
        end
      else print_groups q allocsize off buf
  end.

(** From [tryagain] on: the return value and [*buf]. *)
Fixpoint get_groups_try (fuel allocsize : nat) : M (Z * option text) :=
  match fuel with
  | O => sfail OutOfFuel
  | S fuel' =>
      let! fail := alloc_fails in
      if (fail : bool) then sret ((- ENOMEM)%Z, None)
      else
        let! gl := sget group_list in
        let! buflen := groups_buflen gl 1 in
        if decide (buflen < allocsize) then
          let! buf := print_groups gl allocsize 0 (replicate allocsize NUL) in
          sret (0%Z, Some buf)
        else get_groups_try fuel' (allocsize * 2)
  end.

Definition dazukofs_get_groups (fuel : nat) : M (Z * option text) := get_groups_try fuel 256.

(** ** What it prints *)

Definition registry_text (r : Spec.registry) : text := r ≫= fun x => group_line x.2 x.1.

(** The groups can be printed: the length is that of the name, which holds no
    NUL, and the id has one digit. *)
Definition printable (s : kstate) : Prop :=
  forall g G, g ∈ group_list s -> groups s !! g = Some G -> grp_deprecated G = 0%Z ->
    name_length G = Z.of_nat (String.length (name G)) /\ no_nul (txt (name G)) /\ (0 <= group_id G < 10)%Z.

Lemma length_txt (x : string) : length (txt x) = String.length x.
Proof. induction x as [|c x IH]; [done|]. simpl. by rewrite IH. Qed.

Lemma fmt_lu_digit i : (0 <= i < 10)%Z -> fmt_lu i = [digit i].
Proof. intros Hi. unfold fmt_lu. cbn [digits]. rewrite decide_True by lia. done. Qed.

Lemma length_group_line i nm : (0 <= i < 10)%Z -> length (group_line i nm) = String.length nm + 3.
Proof.
  intros Hi. unfold group_line. rewrite fmt_lu_digit by done. simpl.
  rewrite length_app, length_txt. simpl. lia.
Qed.

Lemma registry_text_cons x r : registry_text (x :: r) = group_line x.2 x.1 ++ registry_text r.
Proof. done. Qed.

(** ** The loops *)

Section loops.
Context (gh : ghost) (s : kstate) (I : mem_inv gh s) (Hp : printable s).

Definition text_of (pos : list loc) : text := registry_text (entry <$> live_of (groups s) pos).

Lemma text_of_cons g G pos : groups s !! g = Some G ->
  text_of (g :: pos) = (if decide (grp_deprecated G = 0%Z) then group_line (group_id G) (name G) else []) ++ text_of pos.
Proof. intros HG. unfold text_of. rewrite live_of_cons, HG. by case_decide. Qed.

Lemma wp_buflen pos n : pos ⊆ group_list s ->
  wp (groups_buflen pos n) (fun r s' => s' = s /\ r = n + length (text_of pos)) s.
Proof.
  revert n. induction pos as [|g q IH]; intros n Hsub.
  { apply wp_ret. split; [done|]. unfold text_of; simpl. lia. }
  assert (Hin : g ∈ group_list s) by set_solver.
  destruct (m_gl_alive _ _ I g Hin) as [G HG]. cbn [groups_buflen].
  apply wp_bind, wp_load with G; [done|]. rewrite (text_of_cons g G q HG).
  eapply wp_mono; [apply IH; set_solver|]. intros r s' [-> ->]. split; [done|].
  case_decide as Hd; [|done]. destruct (Hp g G Hin HG Hd) as (-> & _ & Hi).
  rewrite length_app, length_group_line by done. lia.
Qed.

(** Printing behind [t], which ends where the zeroes of the buffer start. *)
Lemma wp_print size pos t : pos ⊆ group_list s -> length t + length (text_of pos) + 2 <= size ->
  wp (print_groups pos size (length t) (t ++ replicate (size - length t) NUL))
    (fun b s' => s' = s /\ b = (t ++ text_of pos) ++ replicate (size - length (t ++ text_of pos)) NUL) s.
Proof.
  revert t. induction pos as [|g q IH]; intros t Hsub Hlen.
  { apply wp_ret. unfold text_of; simpl. by rewrite app_nil_r. }
  assert (Hin : g ∈ group_list s) by set_solver.
  destruct (m_gl_alive _ _ I g Hin) as [G HG]. cbn [print_groups].
  apply wp_bind, wp_load with G; [done|]. rewrite (text_of_cons g G q HG) in *.
  case_decide as Hd; [|apply IH; [set_solver|done]].
  destruct (Hp g G Hin HG Hd) as (-> & _ & Hi). set (l := group_line (group_id G) (name G)) in *.
  rewrite length_app in Hlen. pose proof (length_group_line (group_id G) (name G) Hi) as Hl. fold l in Hl.
  assert (E : (snprintf (size - 1 - length t) l).1 = l) by (unfold snprintf; simpl; rewrite take_ge; [done|lia]).
  rewrite E. unfold put. rewrite !length_app, length_replicate. simpl. rewrite decide_True by lia.
  rewrite take_app_length. rewrite drop_app_ge by lia. rewrite drop_replicate.
  replace (length t + (Z.to_nat (Z.of_nat (String.length (name G))) + 3)) with (length (t ++ l))
    by (rewrite length_app; lia).
  replace (t ++ (l ++ [NUL]) ++ replicate (size - length t - (length t + (length l + 1) - length t)) NUL)
    with ((t ++ l) ++ replicate (size - length (t ++ l)) NUL).
  - eapply wp_mono; [apply IH; [set_solver|rewrite length_app; lia]|]. intros b s' [-> ->].
    split; [done|].
    rewrite <-(app_assoc t l). do 2 f_equal. rewrite !length_app. lia.
  - rewrite <-!app_assoc. do 2 f_equal. rewrite length_app.
    replace (size - (length t + length l)) with (S (size - length t - (length t + (length l + 1) - length t))) by lia.
    done.
Qed.
End loops.

Lemma no_nul_app t u : no_nul t -> no_nul u -> no_nul (t ++ u).
Proof. unfold no_nul. set_solver. Qed.

Lemma digits_no_nul t : Forall is_digit t -> no_nul t.
Proof.
  intros Ht Hin. rewrite Forall_forall in Ht. specialize (Ht _ Hin). apply is_digit_code in Ht.
  change (nat_of_ascii NUL) with 0 in Ht. lia.
Qed.

Lemma no_nul_literal t : forallb (fun c => negb (Ascii.eqb c NUL)) t = true -> no_nul t.
Proof.
  intros H Hin. rewrite forallb_forall in H. apply list_elem_of_In in Hin. specialize (H _ Hin).
  by rewrite Ascii.eqb_refl in H.
Qed.

Lemma no_nul_group_line i nm : (0 <= i)%Z -> no_nul (txt nm) -> no_nul (group_line i nm).
Proof.
  intros Hi Hn. apply no_nul_app; [by apply digits_no_nul, fmt_lu_all|].
  apply (no_nul_app [":"%char]); [by apply no_nul_literal|]. apply no_nul_app; [done|by apply no_nul_literal].
Qed.

Lemma no_nul_registry s : printable s -> no_nul (registry_text (registry_of s)).
Proof.
  intros Hp Hin. unfold registry_text in Hin. apply list_elem_of_bind in Hin as ([nm i] & Hc & Hin).
  unfold registry_of in Hin. apply list_elem_of_fmap in Hin as ([[g nm'] i'] & E & Hin).
  unfold entry in E; simpl in E; simplify_eq. apply live_of_elem in Hin as (Hg & G & HG & Hd & <- & <-).
  destruct (Hp g G Hg HG Hd) as (_ & Hn & Hi). by apply (no_nul_group_line (group_id G) (name G)) in Hc; [|lia|].
Qed.

Lemma cstr_padded t k : no_nul t -> 0 < k -> cstr (t ++ replicate k NUL) = t.
Proof. intros Ht Hk. destruct k as [|k]; [lia|]. by apply cstr_nul. Qed.

(** The outcomes: an allocation fails, or the text is complete, terminated, and
    was stored without leaving the buffer. *)
Lemma wp_get_groups_try gh fuel : forall size s,
  grp_inv gh s -> printable s -> length (registry_text (registry_of s)) + 1 < size * 2 ^ (fuel - 1) ->
  0 < fuel -> 0 < size ->
  wp (get_groups_try fuel size) (fun r s' => (exists o, s' = set_oom o s) /\
    (r = ((- ENOMEM)%Z, None) \/
     exists b, r = (0%Z, Some b) /\ cstr b = registry_text (registry_of s))) s.
Proof.
  induction fuel as [|fuel IH]; intros size s I Hp Hf Hpos Hsz; [lia|]. cbn [get_groups_try].
  apply wp_bind, wp_alloc_fails. intros [] o; simpl.
  { apply wp_ret. split; [by exists o|by left]. }
  set (s1 := set_oom o s). assert (I1 : grp_inv gh s1) by (by apply grp_inv_oom).
  apply wp_bind, wp_get, wp_bind.
  eapply wp_mono; [by apply (wp_buflen gh s1 (proj1 I1) Hp (group_list s1) 1)|]. intros n s2 [-> ->].
  change (text_of s1 (group_list s1)) with (registry_text (registry_of s)) in *.
  case_decide as Hn.
  - apply wp_bind. pose proof (wp_print gh s1 (proj1 I1) Hp size (group_list s1) []) as Hw.
    change (text_of s1 (group_list s1)) with (registry_text (registry_of s)) in Hw.
    simpl in Hw. rewrite Nat.sub_0_r in Hw. eapply wp_mono; [apply Hw; [done|lia]|].
    intros b s3 [-> ->]. apply wp_ret. split; [by exists o|]. right. eexists. split; [done|].
    simpl. apply cstr_padded; [by apply no_nul_registry|lia].
  - destruct fuel as [|fuel]; [simpl in Hf; lia|].
    eapply wp_mono; [apply (IH (size * 2) s1); try done; [|lia|lia]|].
    + replace (S fuel - 1) with fuel by lia. replace (S (S fuel) - 1) with (S fuel) in Hf by lia.
      rewrite Nat.pow_succ_r' in Hf. change (registry_of s1) with (registry_of s). lia.
    + intros r s3 [[o' ->] H]. split; [by exists o'|exact H].
Qed.
