(* ===== verification/CtrlDev.v ===== *)
(** * The control device ([ctrl_dev.c])

    Reading gives the list of groups, writing runs the commands [del=],
    [add=] and [addtrack=].  The command buffer is a stack array: what it
    holds behind the copied characters is arbitrary, and part of the model. *)

From S2P Require Import Prelude EventState EventOps EventInv GroupReg CText GroupText.
From stdpp Require Import strings.
From Stdlib Require Import Ascii.

(** ** Reading *)

(** [dazukofs_ctrl_open]: [private_data] is NULL. *)
Definition ctrl_open : option text := None.

(** The part of the buffer one read returns, and the new position. *)
Definition ctrl_window (buf : text) (length pos : nat) : text * nat :=
  let buflen := strlen buf in
  if decide (buflen <= pos) then ([], pos)
  else
    let length := if decide (buflen - pos < length) then buflen - pos else length in
    (take length (drop pos buf), pos + length).

(** [dazukofs_ctrl_read]: the return value, [private_data], [*pos] and what the
    user gets; [get_groups] is [dazukofs_get_groups], [efault] whether
    [copy_to_user] fails. *)
Definition ctrl_read (get_groups : M (Z * option text)) (private_data : option text)
    (length pos : nat) (efault : bool) : M (Z * option text * nat * text) :=
  let! r :=
    match private_data with
    | Some buf => sret (0%Z, Some buf)
    | None => get_groups
    end in
  match r with
  | (err, Some buf) =>
      if decide (err <> 0%Z) then sret (err, private_data, pos, [])
      else
        let w := ctrl_window buf length pos in
        if decide (strlen buf <= pos) then sret (0%Z, Some buf, pos, [])
        else if efault then sret ((- EFAULT)%Z, Some buf, pos, [])
        else sret (Z.of_nat (w.2 - pos), Some buf, w.2, w.1)
  | (err, None) => sret (err, private_data, pos, [])
  end.

(** [dazukofs_ctrl_release]: what is freed. *)
Definition ctrl_release (private_data : option text) : list text :=
  match private_data with Some buf => [buf] | None => [] end.

(** Successive reads of one file. *)
Fixpoint ctrl_reads (buf : text) (lengths : list nat) (pos : nat) : text :=
  match lengths with
  | [] => []
  | l :: ls => (ctrl_window buf l pos).1 ++ ctrl_reads buf ls (ctrl_window buf l pos).2
  end.

Lemma cstr_take buf : cstr buf = take (strlen buf) buf.
Proof.
  unfold strlen. induction buf as [|c b IH]; [done|]. simpl. case_decide; [done|]. simpl. by rewrite <-IH.
Qed.

Lemma strlen_le buf : strlen buf <= length buf.
Proof.
  unfold strlen. induction buf as [|c b IH]; simpl; [done|]. case_decide; simpl; lia.
Qed.

(** The reads return the text from the position on, without gap or repetition. *)
Lemma ctrl_reads_spec buf lengths : forall pos, pos <= strlen buf ->
  ctrl_reads buf lengths pos = take (Nat.min (sum_list lengths) (strlen buf - pos)) (drop pos (cstr buf)).
Proof.
  pose proof (strlen_le buf) as Hle.
  induction lengths as [|l ls IH]; intros pos Hpos; [done|]. cbn [ctrl_reads]. unfold ctrl_window.
  case_decide as Hend.
  - simpl. rewrite IH by done. replace (strlen buf - pos) with 0 by lia.
    by rewrite !Nat.min_0_r.
  - set (n := if decide (strlen buf - pos < l) then strlen buf - pos else l).
    assert (Hn : n = Nat.min l (strlen buf - pos)) by (unfold n; case_decide; lia).
    cbn [fst snd]. rewrite IH by lia.
    assert (E : take n (drop pos buf) = take n (drop pos (cstr buf))).
    { rewrite cstr_take, skipn_firstn_comm, take_take. f_equal. lia. }
    rewrite E, <-drop_drop. set (t := drop pos (cstr buf)).
    replace (Nat.min (sum_list (l :: ls)) (strlen buf - pos))
      with (n + Nat.min (sum_list ls) (strlen buf - (pos + n))) by (simpl; lia).
    by rewrite take_take_drop.
Qed.

(** ** Writing *)

Definition DAZUKOFS_ALLOWED_GROUPCHARS : text :=
  txt "abcdefghijklmnopqrstuvwxyzABCDEFGHIJKLMNOPQRSTUVWXYZ0123456789_-".

(** [is_valid_char]; the terminator is found by [strchr], too. *)
Definition is_valid_char (c : ascii) : bool := strchr_b DAZUKOFS_ALLOWED_GROUPCHARS c.

(** The loop of [process_command]: how many valid characters follow; [None]
    when it runs out of the buffer. *)
Fixpoint scan_valid (b : text) : option nat :=
  match b with
  | [] => None
  | c :: r => if is_valid_char c then S <$> scan_valid r else Some 0
  end.

(** [process_command]: the return value, the buffer and [*retcode]; [func] is
    applied to the string at [p]. *)
Definition process_command (buf : text) (key : text) (func : string -> M Z) (retcode : Z)
    : M (Z * text * Z) :=
  match strstr buf key with
  | None => sret ((-1)%Z, buf, retcode)
  | Some i =>
      let p := i + length key in
      match scan_valid (drop p buf) with
      | None => sfail OutOfBounds
      | Some O => sret (0%Z, buf, (- EINVAL)%Z)
      | Some n =>
          let buf1 := <[p + n := NUL]> buf in
          let! r := func (untxt (cstr (drop p buf1))) in
          sret (0%Z, <[p + n := SP]> buf1, r)
      end
  end.

Definition DAZUKOFS_MAX_WRITE_BUFFER : nat := 32.

(** [tmp] after [copy_from_user] and the terminator; [stack] is what the array
    held before. *)
Definition write_buffer (stack data : text) : text :=
  let cp_len := if decide (DAZUKOFS_MAX_WRITE_BUFFER <= length data)
                then DAZUKOFS_MAX_WRITE_BUFFER - 1 else length data in
  take cp_len data ++ NUL :: drop (cp_len + 1) stack.

(** One of the three command blocks; the state is ([tmp], [match], [ret]). *)
Definition command_block (key : text) (func : string -> M Z) (st : text * bool * Z)
    : M (text * bool * Z) :=
  let '(tmp, match_, ret) := st in
  if decide (match_ = false \/ (match_ = true /\ (0 <= ret)%Z)) then
    let! r := process_command tmp key func ret in
    let '(res, tmp', ret') := r in
    sret (tmp', if decide (res = 0%Z) then true else match_, ret')
  else sret st.

(** [dazukofs_ctrl_write]: the return value and the new [*pos]. *)
Definition ctrl_write (stack data : text) (pos : Z) (efault : bool) : M (Z * Z) :=
  if efault then sret ((- EFAULT)%Z, pos)
  else
    let! s1 := command_block (txt "del=") (fun nm => dazukofs_remove_group nm false)
                 (write_buffer stack data, false, (- EINVAL)%Z) in
    let! s2 := command_block (txt "add=") (fun nm => dazukofs_add_group nm false) s1 in
    let! s3 := command_block (txt "addtrack=") (fun nm => dazukofs_add_group nm true) s2 in
    let ret := s3.2 in
    sret (if decide (0 <= ret)%Z then (Z.of_nat (length data), (pos + Z.of_nat (length data))%Z)
          else (ret, pos)).

(** ** Processing a command *)

(** A name as the commands take them. *)
Definition allowed (nm : text) : Prop := Forall (fun c => c ∈ DAZUKOFS_ALLOWED_GROUPCHARS) nm.
Definition valid_name (nm : text) : Prop := nm <> [] /\ allowed nm.

Definition valid_b (c : ascii) : bool := bool_decide (c ∈ DAZUKOFS_ALLOWED_GROUPCHARS).

Lemma is_valid_allowed c : c ∈ DAZUKOFS_ALLOWED_GROUPCHARS -> is_valid_char c = true.
Proof. intros Hc. apply bool_decide_eq_true. apply elem_of_app. by left. Qed.

(** No allowed character is special. *)
Lemma allowed_not c x : c ∈ DAZUKOFS_ALLOWED_GROUPCHARS ->
  bool_decide (x ∈ DAZUKOFS_ALLOWED_GROUPCHARS) = false -> c <> x.
Proof. intros Hc Hx ->. by apply bool_decide_eq_false in Hx. Qed.

Lemma valid_not_in nm x : Forall (fun c => c ∈ DAZUKOFS_ALLOWED_GROUPCHARS) nm ->
  bool_decide (x ∈ DAZUKOFS_ALLOWED_GROUPCHARS) = false -> x ∉ nm.
Proof.
  intros Hn Hx Hin. rewrite Forall_forall in Hn. specialize (Hn x Hin).
  by apply (allowed_not x x).
Qed.

Lemma scan_valid_app nm b : Forall (fun c => c ∈ DAZUKOFS_ALLOWED_GROUPCHARS) nm ->
  scan_valid (nm ++ b) = (fun n => length nm + n) <$> scan_valid b.
Proof.
  induction 1 as [|c nm Hc _ IH]; simpl; [by destruct (scan_valid b)|].
  rewrite is_valid_allowed by done. rewrite IH. by destruct (scan_valid b).
Qed.

Lemma scan_valid_stop b k : scan_valid b = Some k -> exists u c v,
  b = u ++ c :: v /\ length u = k /\ is_valid_char c = false.
Proof.
  revert k. induction b as [|c b IH]; intros k; simpl; [done|].
  destruct (is_valid_char c) eqn:E.
  - destruct (scan_valid b) as [j|]; [|done]. intros [= <-].
    destruct (IH j eq_refl) as (u & c' & v & -> & <- & ?). by exists (c :: u), c', v.
  - intros [= <-]. by exists [], c, b.
Qed.

(** What the buffer holds around a name: it is followed by an invalid character
    or by the terminator, and the scan stops inside the buffer. *)
Definition name_ends (rest : text) (k : nat) : Prop :=
  scan_valid rest = Some k /\ (k = 0 \/ exists r, rest = NUL :: r).

Lemma untxt_txt (x : string) : untxt (txt x) = x.
Proof. apply String.string_of_list_ascii_of_string. Qed.

Lemma insert_app_mid {A} (u : list A) c v x : <[length u := x]> (u ++ c :: v) = u ++ x :: v.
Proof. induction u as [|a u IH]; simpl; [done|]. by rewrite IH. Qed.

(** The function of a command is called with exactly the name that was
    written, and the buffer keeps its shape. *)
Lemma process_command_hit pre key nm rest k func rc :
  strstr (pre ++ key ++ txt nm ++ rest) key = Some (length pre) ->
  allowed (txt nm) -> 0 < length (txt nm) + k -> name_ends rest k ->
  exists rest', process_command (pre ++ key ++ txt nm ++ rest) key func rc =
    (let! r := func nm in sret (0%Z, pre ++ key ++ txt nm ++ rest', r)) /\
    cstr rest' = (if decide (k = 0) then SP :: cstr (tail rest) else []).
Proof.
  intros Hf Hv Hne [Hs Hk]. unfold process_command. rewrite Hf.
  assert (Ed : drop (length pre + length key) (pre ++ key ++ txt nm ++ rest) = txt nm ++ rest).
  { rewrite app_assoc, drop_app_length'; [done|by rewrite length_app]. }
  rewrite Ed, scan_valid_app, Hs by done. cbn [fmap option_fmap option_map].
  destruct (length (txt nm) + k) as [|n] eqn:El; [lia|].
  destruct (scan_valid_stop _ _ Hs) as (u & c & v & Er & Hu & Hc).
  assert (Ei : forall x, length pre + length key + S n = length (pre ++ key ++ txt nm ++ u) /\
    <[length pre + length key + S n := x]> (pre ++ key ++ txt nm ++ rest) = pre ++ key ++ txt nm ++ u ++ x :: v).
  { intros x. assert (En : length pre + length key + S n = length (pre ++ key ++ txt nm ++ u))
      by (rewrite !length_app; lia). split; [done|].
    rewrite En, Er. rewrite !app_assoc, insert_app_mid. by rewrite <-!app_assoc. }
  rewrite (proj2 (Ei NUL)).
  assert (Ed' : drop (length pre + length key) (pre ++ key ++ txt nm ++ u ++ NUL :: v) = txt nm ++ u ++ NUL :: v).
  { rewrite app_assoc, drop_app_length'; [done|by rewrite length_app]. }
  rewrite Ed'.
  assert (Hnn : no_nul (txt nm)) by (by apply valid_not_in).
  assert (Ec : cstr (txt nm ++ u ++ NUL :: v) = txt nm).
  { rewrite cstr_app by done. destruct Hk as [->|[r Hr]].
    - apply length_zero_iff_nil in Hu as ->. apply app_nil_r.
    - destruct u as [|a u]; [apply app_nil_r|]. rewrite Hr in Er. injection Er as <- _.
      apply app_nil_r. }
  rewrite Ec, untxt_txt. exists (u ++ SP :: v). split.
  - assert (Es : <[length pre + length key + S n := SP]> (pre ++ key ++ txt nm ++ u ++ NUL :: v) =
      pre ++ key ++ txt nm ++ u ++ SP :: v).
    { rewrite (proj1 (Ei SP)). rewrite !app_assoc, insert_app_mid. by rewrite <-!app_assoc. }
    by rewrite Es.
  - case_decide as Hk0.
    + rewrite Hk0 in Hu. apply length_zero_iff_nil in Hu as ->. by rewrite Er.
    + destruct Hk as [|[r Hr]]; [lia|]. destruct u as [|a u]; [simpl in Hu; lia|].
      rewrite Hr in Er. by injection Er as <- _.
Qed.

(** ** The three commands *)

Inductive command := Del | Add | AddTrack.
Definition key_of (c : command) : text :=
  match c with Del => txt "del=" | Add => txt "add=" | AddTrack => txt "addtrack=" end.
Definition run_of (c : command) (nm : string) : M Z :=
  match c with
  | Del => dazukofs_remove_group nm false
  | Add => dazukofs_add_group nm false
  | AddTrack => dazukofs_add_group nm true
  end.

Lemma find_sub_none_in h n c : c ∈ n -> c ∉ h -> find_sub h n = None.
Proof.
  intros Hn Hh. destruct (find_sub h n) as [i|] eqn:E; [|done].
  destruct (find_sub_sound h n i E) as (a & b & -> & _). set_solver.
Qed.

(** A command contains its own key, at the start, and no other. *)
Lemma find_key c c' nm : "="%char ∉ nm ->
  find_sub (key_of c ++ nm) (key_of c') = if decide (key_of c = key_of c') then Some 0 else None.
Proof.
  intros Hn. assert (Ht : forall k, find_sub nm (key_of k) = None).
  { intros k. apply (find_sub_none_in nm (key_of k) "="%char); [|done].
    destruct k; simpl; set_solver. }
  destruct c, c'; try (by apply find_sub_here);
    rewrite decide_False by done; unfold key_of in *; cbn [String.list_ascii_of_string app];
    repeat (cbn [find_sub]; rewrite decide_False by (intros [? ?]; discriminate));
    specialize (Ht Del) as H1; specialize (Ht Add) as H2; specialize (Ht AddTrack) as H3;
    cbn [String.list_ascii_of_string] in *; by rewrite ?H1, ?H2, ?H3.
Qed.

Section blocks.
Context (key : text) (func : string -> M Z).

Lemma command_block_miss tmp m r s :
  strstr tmp key = None -> command_block key func (tmp, m, r) s = Ret (tmp, m, r) s.
Proof.
  intros Hn. unfold command_block. case_decide; [|done].
  unfold process_command, sbind. rewrite Hn. done.
Qed.

Lemma command_block_skip tmp r s : (r < 0)%Z ->
  command_block key func (tmp, true, r) s = Ret (tmp, true, r) s.
Proof. intros Hr. unfold command_block. rewrite decide_False; [done|]. intros [|[_ ?]]; [done|lia]. Qed.
End blocks.

(** What the stack holds behind the command stops the scan. *)
Definition stack_ok (stack data : text) : Prop :=
  length data < DAZUKOFS_MAX_WRITE_BUFFER /\ is_Some (scan_valid (drop (length data + 1) stack)).

Lemma write_buffer_short stack data : length data < DAZUKOFS_MAX_WRITE_BUFFER ->
  write_buffer stack data = data ++ NUL :: drop (length data + 1) stack.
Proof.
  intros Hl. unfold write_buffer. rewrite decide_False by lia. by rewrite take_ge by lia.
Qed.

(** The block of the command itself. *)
Lemma command_block_hit c nm rest k s :
  allowed (txt nm) -> scan_valid rest = Some k ->
  exists rest', cstr rest' = [] /\
  command_block (key_of c) (run_of c) (key_of c ++ txt nm ++ NUL :: rest, false, (- EINVAL)%Z) s =
    (let! r := run_of c nm in sret (key_of c ++ txt nm ++ rest', true, r)) s.
Proof.
  intros Hv Hk.
  assert (Hne : "="%char ∉ txt nm) by (by apply valid_not_in).
  assert (Hf : strstr ([] ++ key_of c ++ txt nm ++ NUL :: rest) (key_of c) = Some 0).
  { unfold strstr. simpl. rewrite app_assoc, cstr_nul.
    - rewrite find_key by done. by rewrite decide_True.
    - apply no_nul_app; [by destruct c; apply no_nul_literal|]. by apply valid_not_in. }
  assert (He : name_ends (NUL :: rest) (S k)).
  { split; [|right; eauto]. cbn [scan_valid]. change (is_valid_char NUL) with true. cbv iota. by rewrite Hk. }
  destruct (process_command_hit [] (key_of c) nm (NUL :: rest) (S k) (run_of c) (- EINVAL)%Z Hf Hv ltac:(lia) He)
    as (rest' & E & Hc).
  exists rest'. split; [done|]. unfold command_block. rewrite decide_True by (by left).
  simpl in E. unfold sbind. rewrite E. unfold sbind. by destruct (run_of c nm s).
Qed.

(** The text of a buffer that still starts with the command. *)
Lemma strstr_rest c c' nm rest' : allowed (txt nm) -> cstr rest' = [] -> key_of c <> key_of c' ->
  strstr (key_of c ++ txt nm ++ rest') (key_of c') = None.
Proof.
  intros Hv Hr Hc. unfold strstr. rewrite app_assoc, cstr_app, Hr, app_nil_r.
  - rewrite find_key; [by rewrite decide_False|]. by apply valid_not_in.
  - apply no_nul_app; [by destruct c; apply no_nul_literal|]. by apply valid_not_in.
Qed.

(** Writing one command runs it, once, with the name that was written; the
    result of a command that succeeds is the length that was written. *)
Lemma ctrl_write_command stack c nm pos s :
  allowed (txt nm) -> stack_ok stack (key_of c ++ txt nm) ->
  ctrl_write stack (key_of c ++ txt nm) pos false s =
  (let! r := run_of c nm in
   sret (if decide (0 <= r)%Z
         then (Z.of_nat (length (key_of c ++ txt nm)), (pos + Z.of_nat (length (key_of c ++ txt nm)))%Z)
         else (r, pos))) s.
Proof.
  intros Hv [Hlen [k Hk]]. unfold ctrl_write. rewrite write_buffer_short by done.
  rewrite <-app_assoc. set (rest := drop _ stack) in *.
  destruct (command_block_hit c nm rest k s Hv Hk) as (rest' & Hr & Hhit).
  assert (Hmiss : forall c' f m r s', key_of c <> key_of c' ->
    command_block (key_of c') f (key_of c ++ txt nm ++ rest', m, r) s' =
    Ret (key_of c ++ txt nm ++ rest', m, r) s') by (intros; by apply command_block_miss, strstr_rest).
  assert (Hmiss0 : forall c' f m r s', key_of c <> key_of c' ->
    command_block (key_of c') f (key_of c ++ txt nm ++ NUL :: rest, m, r) s' =
    Ret (key_of c ++ txt nm ++ NUL :: rest, m, r) s') by (intros; by apply command_block_miss, strstr_rest).
  change (command_block (txt "del=") _) with (command_block (key_of Del) (run_of Del)).
  change (command_block (txt "add=") _) with (command_block (key_of Add) (run_of Add)).
  change (command_block (txt "addtrack=") _) with (command_block (key_of AddTrack) (run_of AddTrack)).
  destruct c; unfold sbind; rewrite ?(Hmiss0 Del), ?(Hmiss0 Add) by done; rewrite Hhit; unfold sbind;
    (destruct (run_of _ nm s) as [r s'|w]; [|done]);
    unfold sret; cbv beta iota; repeat (rewrite Hmiss by done; cbv beta iota); done.
Qed.

(** The terminator counts as a valid character. *)
Lemma is_valid_spec c : is_valid_char c = true <-> c = NUL \/ c ∈ DAZUKOFS_ALLOWED_GROUPCHARS.
Proof. unfold is_valid_char, strchr_b. rewrite bool_decide_eq_true, elem_of_app, list_elem_of_singleton. tauto. Qed.

Definition nothing_stops (b : text) : Prop := Forall (fun c => c = NUL \/ c ∈ DAZUKOFS_ALLOWED_GROUPCHARS) b.
#[export] Instance nothing_stops_dec b : Decision (nothing_stops b).
Proof. unfold nothing_stops. apply _. Defined.

Lemma scan_valid_none b : scan_valid b = None <-> nothing_stops b.
Proof.
  unfold nothing_stops. induction b as [|c b IH]; simpl; [split; auto|]. rewrite Forall_cons, <-is_valid_spec, <-IH.
  destruct (is_valid_char c); [|naive_solver]. destruct (scan_valid b); naive_solver.
Qed.

(** If nothing behind the command stops the scan, it leaves the buffer. *)
Lemma ctrl_write_overrun stack c nm pos s : allowed (txt nm) -> length (key_of c ++ txt nm) < DAZUKOFS_MAX_WRITE_BUFFER ->
  nothing_stops (drop (length (key_of c ++ txt nm) + 1) stack) -> ctrl_write stack (key_of c ++ txt nm) pos false s = Stuck OutOfBounds.
Proof.
  intros Hv Hlen Hb%scan_valid_none. unfold ctrl_write. rewrite write_buffer_short by done. rewrite <-app_assoc.
  set (rest := drop _ stack) in *. set (buf := key_of c ++ txt nm ++ NUL :: rest).
  assert (Hf : forall c', strstr buf (key_of c') = if decide (key_of c = key_of c') then Some 0 else None).
  { intros c'. unfold strstr, buf. rewrite app_assoc, cstr_nul; [by apply find_key, valid_not_in|].
    apply no_nul_app; [by destruct c; apply no_nul_literal|]. by apply valid_not_in. }
  assert (Hmiss : forall c' f m r s', key_of c <> key_of c' -> command_block (key_of c') f (buf, m, r) s' = Ret (buf, m, r) s').
  { intros c' f m r s' Hne. apply command_block_miss. rewrite Hf. by rewrite decide_False. }
  assert (Hhit : forall f r s', command_block (key_of c) f (buf, false, r) s' = Stuck OutOfBounds).
  { intros f r s'. unfold command_block. rewrite decide_True by (by left). unfold sbind, process_command. rewrite Hf, decide_True by done.
    unfold buf. cbn [Nat.add]. rewrite drop_app_length, scan_valid_app by done. cbn [scan_valid]. change (is_valid_char NUL) with true.
    cbv iota. by rewrite Hb. }
  change (txt "del=") with (key_of Del). change (txt "add=") with (key_of Add). change (txt "addtrack=") with (key_of AddTrack).
  destruct c; unfold sbind at 1; rewrite ?(Hmiss Del) by done; rewrite ?Hhit; [done| |];
    unfold sbind at 1; rewrite ?(Hmiss Add) by done; rewrite ?Hhit; [done|]; unfold sbind at 1; by rewrite Hhit.
Qed.
