(* ===== verification/GroupDev.v ===== *)
(** * The group devices ([group_dev.c])

    A read hands an event to a registered process as text, a write takes the
    answer.  [simple_strtoul] is the kernel's and a parameter. *)

From S2P Require Import Prelude EventState EventOps CText GroupText.
From stdpp Require Import strings.
From Stdlib Require Import Ascii.

(** ** Open and release: [private_data] tells whether the file is tracked *)

Definition group_open (gid : Z) : M (Z * bool) :=
  let! r := dazukofs_group_open_tracking gid in
  sret (0%Z, bool_decide (r <> 0%Z)).

Definition group_release (gid : Z) (private_data : bool) : M Z :=
  do! (if private_data then dazukofs_group_release_tracking gid else sret tt) in
  sret 0%Z.

Definition group_poll (gid : Z) : M Z := dazukofs_poll gid.

(** ** Reading an event *)

Definition DAZUKOFS_MIN_READ_BUFFER : nat := 43.

(** ["id=%lu\nfd=%d\npid=%d\n"] *)
Definition event_text (id fd pid : Z) : text :=
  txt "id=" ++ fmt_lu id ++ NL :: txt "fd=" ++ fmt_d fd ++ NL :: txt "pid=" ++ fmt_d pid ++ [NL].

(** [dazukofs_group_read]: the return value, [*pos] and what the user gets.
    [get_event] is [dazukofs_get_event] for the group ([inl]: an error),
    [return_event] is [dazukofs_return_event] for it, [sys_close] closes a
    descriptor, [efault] tells whether [copy_to_user] fails. *)
Definition group_read {S : Type} (sys_close : Z -> SM S unit) (get_event : SM S (Z + Z * Z * Z))
    (return_event : Z -> dazukofs_response_t -> SM S Z) (length_ : nat) (pos : Z) (efault : bool) : SM S (Z * Z * text) :=
  if decide (0 < pos)%Z then sret (0%Z, pos, [])
  else if decide (length_ < DAZUKOFS_MIN_READ_BUFFER) then sret ((- EINVAL)%Z, pos, [])
  else
    let! r := get_event in
    match r with
    | inl err =>
        sret ((if decide (err = - ERESTARTSYS)%Z then (- EINTR)%Z
               else if decide (err = - ENFILE)%Z then (- EIO)%Z else err), pos, [])
    | inr (event_id, fd, pid) =>
        let out := snprintf (DAZUKOFS_MIN_READ_BUFFER - 1) (event_text event_id fd pid) in
        let tmp_used := out.2 in
        if decide (Z.of_nat DAZUKOFS_MIN_READ_BUFFER <= tmp_used)%Z then
          do! sys_close fd in
          do! return_event event_id REPOST in
          sret ((- EINVAL)%Z, pos, [])
        else if efault then
          do! sys_close fd in
          do! return_event event_id REPOST in
          sret ((- EFAULT)%Z, pos, [])
        else sret (tmp_used, tmp_used, take (Z.to_nat tmp_used) (out.1 ++ [NUL]))
    end.

(** ** Writing an answer *)

Definition DAZUKOFS_MAX_WRITE_BUFFER : nat := 19.

(** [dazukofs_group_write]: the return value and [*pos].  The characters of
    [tmp] behind the terminator are never looked at.  It touches no state itself. *)
Definition group_write {S : Type} (simple_strtoul : text -> Z * text)
    (return_event : Z -> dazukofs_response_t -> SM S Z) (data : text) (pos : Z) (efault : bool) : SM S (Z * Z) :=
  let length_ := if decide (DAZUKOFS_MAX_WRITE_BUFFER <= length data)
                 then DAZUKOFS_MAX_WRITE_BUFFER - 1 else length data in
  if efault then sret ((- EFAULT)%Z, pos)
  else
    let tmp := cstr (take length_ data ++ [NUL]) in
    match strstr tmp (txt "id=") with
    | None => sret ((- EINVAL)%Z, pos)
    | Some i =>
        let '(event_id, p2) := simple_strtoul (drop (i + 3) tmp) in
        match strstr p2 (txt "r=") with
        | None => sret ((- EINVAL)%Z, pos)
        | Some j =>
            let c := default NUL (p2 !! (j + 2)) in
            let response := if decide (c = "0"%char) then ALLOW else DENY in
            let! ret := return_event event_id response in
            sret (if decide (ret = 0%Z) then (Z.of_nat length_, (pos + Z.of_nat length_)%Z)
                  else if decide (ret = - ERESTARTSYS)%Z then ((- EINTR)%Z, pos) else (ret, pos))
        end
    end.

(** What [simple_strtoul] does with a decimal number and what follows it. *)
Definition strtoul_law (simple_strtoul : text -> Z * text) : Prop :=
  forall n t, (0 <= n < 2 ^ 64)%Z -> no_digit_first t -> simple_strtoul (fmt_lu n ++ t) = (n, t).
