(* ===== verification/UserLib.v ===== *)
(** * The user-space library ([test/lib/dazukofs.c])

    The functions a registered program calls.  The system calls are a record
    of operations on an abstract state, so that the library can be put on top
    of the model of the devices. *)

From S2P Require Import Prelude CText.
From stdpp Require Import strings.
From Stdlib Require Import Ascii.

(** [open], [read], [write], [close], [lseek(fd, 0, SEEK_SET)], [readlink] and
    whether an allocation succeeds. *)
Record sysops (S : Type) := mk_sysops {
  sys_open : text -> bool -> SM S Z;  (* the flag: for writing, too *)
  sys_read : Z -> nat -> SM S (Z * text);
  sys_write : Z -> text -> SM S Z;
  sys_close : Z -> SM S Z;
  sys_lseek : Z -> SM S unit;
  sys_readlink : text -> nat -> SM S (Z * text);
  sys_malloc : SM S bool
}.
Arguments sys_open {S}. Arguments sys_read {S}. Arguments sys_write {S}.
Arguments sys_close {S}. Arguments sys_lseek {S}. Arguments sys_readlink {S}. Arguments sys_malloc {S}.

(** [struct dazukofs_handle] and [struct dazukofs_access] *)
Record dazukofs_handle := mk_handle { dev_fd : Z; h_event_id : Z; group_name : text }.
Record dazukofs_access := mk_access { acc_deny : bool; acc_fd : Z; acc_pid : Z }.

(** ** Numbers *)

Definition is_space (c : ascii) : bool :=
  let n := nat_of_ascii c in bool_decide (n = 32 \/ 9 <= n <= 13).

Fixpoint skip_spaces (s : text) : text :=
  match s with [] => [] | c :: r => if is_space c then skip_spaces r else s end.

Definition ULONG_MAX : Z := 2 ^ 64 - 1.

(** [strtoul(s, &end, 10)]: leading space, a sign, digits. *)
Definition strtoul (s : text) : Z * text :=
  let s1 := skip_spaces s in
  let '(neg, s2) := match s1 with
                    | c :: r => if decide (c = "-"%char) then (true, r)
                                else if decide (c = "+"%char) then (false, r) else (false, s1)
                    | [] => (false, s1)
                    end in
  match s2 with
  | c :: _ =>
      if decide (digit_value c = None) then (0%Z, s)
      else let '(v, r) := read_digits s2 0 in
           (if decide (ULONG_MAX < v)%Z then ULONG_MAX
            else if neg then ulong_wrap (- v) else v, r)
  | [] => (0%Z, s)
  end.

Definition LONG_MAX : Z := 2 ^ 63 - 1.

(** [strtol(s, &end, 10)] *)
Definition strtol (s : text) : Z * text :=
  let s1 := skip_spaces s in
  let '(neg, s2) := match s1 with
                    | c :: r => if decide (c = "-"%char) then (true, r)
                                else if decide (c = "+"%char) then (false, r) else (false, s1)
                    | [] => (false, s1)
                    end in
  match s2 with
  | c :: _ =>
      if decide (digit_value c = None) then (0%Z, s)
      else let '(v, r) := read_digits s2 0 in
           ((if neg then Z.max (- v) (- LONG_MAX - 1) else Z.min v LONG_MAX), r)
  | [] => (0%Z, s)
  end.

(** ** [check_group_name] *)

Definition DAZUKOFS_ALLOWED_GROUPCHARS : text :=
  txt "abcdefghijklmnopqrstuvwxyzABCDEFGHIJKLMNOPQRSTUVWXYZ0123456789_-".

Definition check_group_name (gname : text) : Z :=
  if decide (20 < length gname) then (-1)%Z
  else if forallb (fun c => strchr_b DAZUKOFS_ALLOWED_GROUPCHARS c) gname then 0%Z else (-1)%Z.

Section lib.
Context {S : Type} (o : sysops S).

Definition ctrl_path : text := txt "/dev/dazukofs.ctrl".
Definition dev_path (gid : Z) : text := (snprintf 24 (txt "/dev/dazukofs." ++ fmt_d gid)).1.

(** The parsing of the list of groups by [dazukofs_open]: [gid]. *)
Definition find_gid (buf gname : text) : option Z :=
  let key := (snprintf 24 (":"%char :: gname ++ [NL])).1 in
  match strstr buf key with
  | None | Some O => None
  | Some (Datatypes.S p) =>
      c ← buf !! p;
      let gid := (Z.of_nat (nat_of_ascii c) - 48)%Z in
      if decide (gid < 0 \/ 9 < gid)%Z then None else Some gid
  end.

Definition close_none (fd : Z) : SM S (option dazukofs_handle) :=
  do! sys_close o fd in sret None.

(** [dazukofs_open] once the control device is open and the command written. *)
Definition dazukofs_open_group (fd : Z) (gname : text) : SM S (option dazukofs_handle) :=
  let! r := sys_read o fd 255 in
  if decide (r.1 = (-1)%Z) then close_none fd
  else
    match find_gid (r.2 ++ replicate (256 - length r.2) NUL) gname with
    | None => close_none fd
    | Some gid =>
        let! ok := sys_malloc o in
        if negb ok then close_none fd
        else
          let! ok2 := sys_malloc o in
          if negb ok2 then close_none fd
          else
            let! dfd := sys_open o (dev_path gid) true in
            if decide (dfd = (-1)%Z) then close_none fd
            else
              do! sys_close o fd in
              sret (Some (mk_handle dfd 0 gname))
    end.

(** [dazukofs_open]; [track] is the flag [DAZUKOFS_TRACK_GROUP]. *)
Definition dazukofs_open (gname : text) (track : bool) : SM S (option dazukofs_handle) :=
  if decide (check_group_name gname <> 0%Z) then sret None
  else
    let! fd := sys_open o ctrl_path true in
    if decide (fd = (-1)%Z) then
      let! fd' := sys_open o ctrl_path false in
      if decide (fd' = (-1)%Z) then sret None else dazukofs_open_group fd' gname
    else
      let buf := (snprintf 255 ((if track then txt "addtrack=" else txt "add=") ++ gname)).1 in
      let! w := sys_write o fd buf in
      if decide (w = (-1)%Z) then close_none fd
      else
        do! sys_lseek o fd in
        dazukofs_open_group fd gname.

(** [dazukofs_close]; [remove] is the flag [DAZUKOFS_REMOVE_GROUP]. *)
Definition dazukofs_close (hndl : dazukofs_handle) (remove : bool) : SM S Z :=
  let! ok :=
    (if remove then
       let! fd := sys_open o ctrl_path true in
       if decide (fd = (-1)%Z) then sret false
       else
         let buf := (snprintf 47 (txt "del=" ++ group_name hndl)).1 in
         let! w := sys_write o fd buf in
         do! sys_close o fd in
         sret (bool_decide (w <> (-1)%Z))
     else sret true) in
  if (ok : bool) then sys_close o (dev_fd hndl) else sret (-1)%Z.

(** The parsing of an event by [dazukofs_get_access]: the error, the event id of
    the handle and the access, each as far as it got. *)
Definition parse_event (buf : text) (event_id : Z) (acc : dazukofs_access) : Z * Z * dazukofs_access :=
  match strstr buf (txt "id=") with
  | None => ((-1)%Z, event_id, acc)
  | Some i =>
      let '(id, p) := strtoul (drop (i + 3) (cstr buf)) in
      match strstr p (txt "fd=") with
      | None => ((-1)%Z, id, acc)
      | Some j =>
          let '(fd, p') := strtol (drop (j + 3) p) in
          match strstr p' (txt "pid=") with
          | None => ((-1)%Z, id, mk_access (acc_deny acc) (int_wrap fd) (acc_pid acc))
          | Some k =>
              let '(pid, _) := strtoul (drop (k + 4) p') in
              (0%Z, id, mk_access false (int_wrap fd) pid)
          end
      end
  end.

(** [dazukofs_get_access]: the error, the handle and the access. *)
Definition dazukofs_get_access (hndl : dazukofs_handle) (acc : dazukofs_access)
    : SM S (Z * dazukofs_handle * dazukofs_access) :=
  let! r := sys_read o (dev_fd hndl) 47 in
  if decide (r.1 = (-1)%Z) then sret ((-1)%Z, hndl, acc)
  else
    let '(err, id, acc') := parse_event (r.2 ++ replicate (48 - length r.2) NUL) (h_event_id hndl) acc in
    sret (err, mk_handle (dev_fd hndl) id (group_name hndl), acc').

(** ["id=%lu r=%d"] *)
Definition answer_text (id : Z) (deny : bool) : text :=
  txt "id=" ++ fmt_lu id ++ txt " r=" ++ fmt_d (if deny then 1 else 0).

(** [dazukofs_return_access] *)
Definition dazukofs_return_access (hndl : dazukofs_handle) (acc : dazukofs_access) : SM S Z :=
  let! c := sys_close o (acc_fd acc) in
  if decide (c <> 0%Z) then sret (-1)%Z
  else
    let buf := (snprintf 47 (answer_text (h_event_id hndl) (acc_deny acc))).1 in
    let! w := sys_write o (dev_fd hndl) buf in
    if decide (w = (-1)%Z) then sret (-1)%Z
    else
      do! sys_lseek o (dev_fd hndl) in
      sret 0%Z.

(** [dazukofs_get_filename]: the return value and the buffer, which has [bufsiz]
    characters. *)
Definition dazukofs_get_filename (acc : dazukofs_access) (buf : text) : SM S (Z * text) :=
  let bufsiz := length buf in
  let proc := (snprintf 47 (txt "/proc/self/fd/" ++ fmt_d (acc_fd acc))).1 in
  if decide (bufsiz = 0) then sfail OutOfBounds
  else
    let! r := sys_readlink o proc (bufsiz - 1) in
    let buf1 := r.2 ++ drop (length r.2) buf in
    let buf2 := <[bufsiz - 1 := NUL]> buf1 in
    sret (r.1, if decide (0 < r.1)%Z then <[Z.to_nat r.1 := NUL]> buf2 else buf2).
End lib.
