(* ===== verification/DevText.v ===== *)
(** * What the text interfaces transport

    The formats the kernel prints and the library parses, and the other way
    round, fit together. *)

From S2P Require Import Prelude EventState EventOps CText GroupReg GroupText CtrlDev GroupDev UserLib.
From stdpp Require Import strings.
From Stdlib Require Import Ascii.

(** ** Answers *)

Lemma fmt_lu_no c n : (0 <= n)%Z -> nat_of_ascii c < 48 \/ 57 < nat_of_ascii c -> c ∉ fmt_lu n.
Proof.
  intros Hn Hc Hin. pose proof (fmt_lu_all n Hn) as Ha. rewrite Forall_forall in Ha.
  by apply (is_digit_ne c c (Ha c Hin)).
Qed.

Lemma no_nul_fmt n : (0 <= n)%Z -> no_nul (fmt_lu n).
Proof. intros. apply fmt_lu_no; [done|left; vm_compute; lia]. Qed.

(** An answer whose id has at most 11 digits arrives as it was given. *)
Lemma answer_arrives {S} simple_strtoul (return_event : Z -> dazukofs_response_t -> SM S Z) id deny pos s :
  strtoul_law simple_strtoul -> (0 <= id < 10 ^ 11)%Z ->
  group_write simple_strtoul return_event (answer_text id deny) pos false s =
  (let! r := return_event id (if deny then DENY else ALLOW) in
   sret (if decide (r = 0%Z)
         then (Z.of_nat (length (answer_text id deny)), (pos + Z.of_nat (length (answer_text id deny)))%Z)
         else if decide (r = - ERESTARTSYS)%Z then ((- EINTR)%Z, pos) else (r, pos))) s.
Proof.
  intros Hlaw Hid. pose proof (length_fmt_lu id 11 ltac:(simpl; lia) ltac:(lia)) as Hl.
  set (tl := txt " r=" ++ [if deny then "1"%char else "0"%char]).
  assert (Ea : answer_text id deny = txt "id=" ++ fmt_lu id ++ tl) by (by destruct deny).
  assert (Hlen : length (answer_text id deny) = 7 + length (fmt_lu id)).
  { rewrite Ea, !length_app. simpl. lia. }
  unfold group_write. rewrite decide_False by (unfold DAZUKOFS_MAX_WRITE_BUFFER; lia).
  rewrite take_ge by done.
  assert (Hc : cstr (answer_text id deny ++ [NUL]) = txt "id=" ++ fmt_lu id ++ tl).
  { rewrite Ea. apply cstr_nul. apply no_nul_app; [by apply no_nul_literal|].
    apply no_nul_app; [apply no_nul_fmt; lia|]. by destruct deny; apply no_nul_literal. }
  rewrite Hc. unfold strstr at 1. rewrite cstr_no_nul.
  2: { apply no_nul_app; [by apply no_nul_literal|].
       apply no_nul_app; [apply no_nul_fmt; lia|]. by destruct deny; apply no_nul_literal. }
  rewrite find_sub_here. change (drop (0 + 3) (txt "id=" ++ fmt_lu id ++ tl)) with (fmt_lu id ++ tl).
  rewrite Hlaw; [|lia|by destruct deny]. by destruct deny.
Qed.

(** The id of an event once [last_event_id] has become negative has 20 digits:
    the buffer of the write ends within the id. *)
Lemma long_id_unanswerable {S} simple_strtoul (return_event : Z -> dazukofs_response_t -> SM S Z) id deny pos s :
  strtoul_law simple_strtoul -> (10 ^ 19 <= id < 2 ^ 64)%Z ->
  group_write simple_strtoul return_event (answer_text id deny) pos false s = Ret ((- EINVAL)%Z, pos) s.
Proof.
  intros Hlaw Hid. pose proof (length_fmt_lu_exact 19 id ltac:(simpl; lia) ltac:(lia)) as Hlen.
  set (n := (id / 10 / 10 / 10 / 10 / 10)%Z).
  assert (Hn : (10 ^ 14 <= n < 10 ^ 15)%Z).
  { unfold n. rewrite !Z.div_div by lia. split; [apply Z.div_le_lower_bound; lia|].
    apply Z.div_lt_upper_bound; lia. }
  assert (En : exists t, fmt_lu id = fmt_lu n ++ t).
  { unfold n. do 5 (rewrite fmt_lu_snoc; [|rewrite ?Z.div_div by lia;
      split; [apply Z.div_le_lower_bound; lia|apply Z.div_lt_upper_bound; lia] || lia]).
    rewrite <-!app_assoc. eauto. }
  destruct En as [t En].
  pose proof (length_fmt_lu_exact 14 n ltac:(simpl; lia) ltac:(lia)) as Hln.
  assert (Ea : answer_text id deny = txt "id=" ++ fmt_lu id ++ txt " r=" ++ fmt_d (if deny then 1 else 0)) by done.
  unfold group_write. rewrite decide_True.
  2: { rewrite Ea, !length_app, Hlen. unfold DAZUKOFS_MAX_WRITE_BUFFER. simpl. lia. }
  assert (Et : take (DAZUKOFS_MAX_WRITE_BUFFER - 1) (answer_text id deny) = txt "id=" ++ fmt_lu n).
  { rewrite Ea, En, <-app_assoc, (app_assoc (txt "id=")). apply take_app_length'.
    rewrite length_app, Hln. done. }
  assert (Hnn : no_nul (txt "id=" ++ fmt_lu n)) by (apply no_nul_app; [by apply no_nul_literal|apply no_nul_fmt; lia]).
  rewrite Et, cstr_nul by done. unfold strstr at 1. rewrite cstr_no_nul, find_sub_here by done.
  change (drop (0 + 3) (txt "id=" ++ fmt_lu n)) with (fmt_lu n).
  rewrite <-(app_nil_r (fmt_lu n)), Hlaw by (done || lia). done.
Qed.

(** Reading digits as they are written keeps the law. *)
Definition simple_strtoul_digits (t : text) : Z * text := read_digits t 0.
Lemma simple_strtoul_digits_law : strtoul_law simple_strtoul_digits.
Proof. intros n t Hn Ht. apply read_fmt_lu; [lia|done]. Qed.

(** ** Events *)

(** The laws of the library's number parsers. *)
Lemma fmt_lu_head n : (0 <= n)%Z -> exists c r, fmt_lu n = c :: r /\ is_digit c.
Proof.
  intros Hn. pose proof (fmt_lu_all n Hn) as Ha. destruct (fmt_lu n) as [|c r] eqn:E.
  - by destruct (fmt_lu_nonempty n).
  - inversion Ha; subst. eauto.
Qed.

Lemma digit_plain c : is_digit c ->
  is_space c = false /\ c <> "-"%char /\ c <> "+"%char /\ digit_value c <> None.
Proof.
  intros H. pose proof (is_digit_code c H). split_and!.
  - unfold is_space. apply bool_decide_eq_false. lia.
  - apply is_digit_ne; [done|left; vm_compute; lia].
  - apply is_digit_ne; [done|left; vm_compute; lia].
  - destruct H as (d & Hd & ->). by rewrite digit_value_digit.
Qed.

Lemma strtoul_fmt n t : (0 <= n < 2 ^ 64)%Z -> no_digit_first t -> strtoul (fmt_lu n ++ t) = (n, t).
Proof.
  intros Hn Ht. pose proof (read_fmt_lu n t ltac:(lia) Ht) as Hr.
  destruct (fmt_lu_head n ltac:(lia)) as (c & r & E & Hc). rewrite E in *.
  destruct (digit_plain c Hc) as (H1 & H2 & H3 & H4). unfold strtoul. cbn [app skip_spaces].
  rewrite H1. rewrite !decide_False by done. change (c :: r ++ t) with ((c :: r) ++ t). rewrite Hr.
  rewrite decide_False by (unfold ULONG_MAX; lia). done.
Qed.

Lemma strtol_fmt n t : (0 <= n < 2 ^ 63)%Z -> no_digit_first t -> strtol (fmt_lu n ++ t) = (n, t).
Proof.
  intros Hn Ht. pose proof (read_fmt_lu n t ltac:(lia) Ht) as Hr.
  destruct (fmt_lu_head n ltac:(lia)) as (c & r & E & Hc). rewrite E in *.
  destruct (digit_plain c Hc) as (H1 & H2 & H3 & H4). unfold strtol. cbn [app skip_spaces].
  rewrite H1. rewrite !decide_False by done. change (c :: r ++ t) with ((c :: r) ++ t). rewrite Hr.
  unfold LONG_MAX. f_equal. lia.
Qed.

(** Texts without a NUL. *)
Ltac solve_no_nul :=
  repeat first
    [ apply no_nul_app | apply no_nul_fmt; lia | (apply no_nul_literal; reflexivity) ].

Lemma find_after_nl key t : key `prefix_of` t -> NL ∉ key -> key <> [] -> find_sub (NL :: t) key = Some 1.
Proof.
  intros Hp Hn Hne. cbn [find_sub]. rewrite decide_False.
  - by rewrite find_sub_prefix.
  - intros [k Hk]. destruct key as [|c key]; [done|]. simplify_eq. set_solver.
Qed.

(** The text of an event, as far as it fits, is parsed to what was printed. *)
Lemma parse_event_text id fd pid tl buf hid acc :
  (0 <= id < 2 ^ 64)%Z -> (0 <= fd < 2 ^ 31)%Z -> (0 <= pid < 2 ^ 31)%Z -> tl = [] \/ tl = [NL] ->
  cstr buf = txt "id=" ++ fmt_lu id ++ [NL] ++ txt "fd=" ++ fmt_lu fd ++ [NL] ++ txt "pid=" ++ fmt_lu pid ++ tl ->
  parse_event buf hid acc = (0%Z, id, mk_access false fd pid).
Proof.
  intros Hid Hfd Hpid Htl Hbuf. unfold parse_event. unfold strstr at 1. rewrite Hbuf, find_sub_here.
  set (t2 := [NL] ++ txt "pid=" ++ fmt_lu pid ++ tl).
  set (t1 := [NL] ++ txt "fd=" ++ fmt_lu fd ++ t2).
  change (drop (0 + 3) _) with (fmt_lu id ++ t1). rewrite strtoul_fmt by done.
  assert (Hn2 : no_nul t2) by (destruct Htl as [-> | ->]; solve_no_nul; apply not_elem_of_nil).
  assert (Hn1 : no_nul t1) by (destruct Htl as [-> | ->]; solve_no_nul; apply not_elem_of_nil).
  unfold strstr at 1. rewrite cstr_no_nul by done.
  assert (E1 : find_sub t1 (txt "fd=") = Some 1)
    by (apply (find_after_nl (txt "fd=") (txt "fd=" ++ fmt_lu fd ++ t2)); [by apply prefix_app_r|apply (bool_decide_unpack _); by vm_compute|done]).
  rewrite E1.
  change (drop (1 + 3) t1) with (fmt_lu fd ++ t2). rewrite strtol_fmt by (done || lia).
  unfold strstr. rewrite cstr_no_nul by done.
  assert (E2 : find_sub t2 (txt "pid=") = Some 1)
    by (apply (find_after_nl (txt "pid=") (txt "pid=" ++ fmt_lu pid ++ tl)); [by apply prefix_app_r|apply (bool_decide_unpack _); by vm_compute|done]).
  rewrite E2.
  change (drop (1 + 4) t2) with (fmt_lu pid ++ tl).
  rewrite strtoul_fmt; [|lia|by destruct Htl as [-> | ->]]. rewrite !int_wrap_small by lia. done.
Qed.

Lemma fmt_d_nonneg n : (0 <= n)%Z -> fmt_d n = fmt_lu n.
Proof. intros. unfold fmt_d. by rewrite decide_False by lia. Qed.

(** What [group_read] hands out and [get_access] reads into its zeroed buffer. *)
Lemma event_arrives {S} sys_close return_event id fd pid get_event len pos (s s1 : S) n pos' data s2 hid acc :
  (0 <= id < 2 ^ 64)%Z -> (0 <= fd < 2 ^ 31)%Z -> (0 <= pid < 2 ^ 31)%Z -> (pos <= 0)%Z ->
  get_event s = Ret (inr (id, fd, pid)) s1 ->
  group_read sys_close get_event return_event len pos false s = Ret (n, pos', data) s2 -> (0 <= n)%Z ->
  s2 = s1 /\ length data <= 47 /\
  parse_event (data ++ replicate (48 - length data) NUL) hid acc = (0%Z, id, mk_access false fd pid).
Proof.
  intros Hid Hfd Hpid Hpos Hge. unfold group_read.
  rewrite decide_False by lia. case_decide as Hlen; [by intros [= <- <- <- <-] ?|].
  unfold sbind at 1. rewrite Hge.
  remember (event_text id fd pid) as ev eqn:Hev. cbn [snprintf fst snd].
  case_decide as H43; [unfold sbind; destruct (sys_close _ _); [|done]; destruct (return_event _ _ _); by intros [= <- <- <- <-] ?|].
  intros [= <- <- <- <-] _. split; [done|].
  set (body := txt "id=" ++ fmt_lu id ++ [NL] ++ txt "fd=" ++ fmt_lu fd ++ [NL] ++ txt "pid=" ++ fmt_lu pid).
  assert (Eev : ev = body ++ [NL]).
  { subst ev. unfold event_text, body. rewrite !fmt_d_nonneg by lia. rewrite <-!app_assoc. done. }
  assert (Hnn : no_nul body) by (unfold body; solve_no_nul).
  assert (Hl : length ev = length body + 1) by (rewrite Eev, length_app; done).
  unfold DAZUKOFS_MIN_READ_BUFFER in *. rewrite Nat2Z.id.
  change (43 - 1 - 1) with 41. assert (length body <= 41) by lia.
  assert (Hcut : exists tl, (tl = [] \/ tl = [NL]) /\
    exists k, take (length ev) (take 41 ev ++ [NUL]) = body ++ tl ++ replicate k NUL /\ (length body + length tl + k <= 47)).
  { destruct (decide (length ev <= 41)).
    - exists [NL]. split; [by right|]. exists 0. rewrite (take_ge ev 41) by lia.
      rewrite take_app_length, Eev. split; [done|]. change (length [NL]) with 1. lia.
    - exists []. split; [by left|]. exists 1. rewrite (take_ge (take 41 ev ++ [NUL]))
        by (rewrite length_app, length_take; change (length [NUL]) with 1; lia).
      rewrite Eev, take_app_length' by lia. split; [done|]. change (length (@nil ascii)) with 0. lia. }
  destruct Hcut as (tl & Htl & k & E & Hk). rewrite E.
  split; [rewrite !length_app, length_replicate; lia|].
  apply (parse_event_text id fd pid tl); [done..|].
  rewrite <-!(app_assoc body), <-app_assoc, <-replicate_add, app_assoc.
  assert (Hnt : no_nul (body ++ tl)).
  { apply no_nul_app; [done|]. destruct Htl as [-> | ->]; [apply not_elem_of_nil|by apply no_nul_literal]. }
  rewrite cstr_padded; [|done|rewrite !length_app, length_replicate; lia].
  unfold body. rewrite <-!app_assoc. done.
Qed.
