(* ===== verification/UserOpen.v ===== *)
(** * Opening a group from user space, down to the registry

    [dazukofs_open] of the library on top of the control device: the handle a
    program gets is for the device of the group with the name it asked for. *)

From S2P Require Import Prelude EventState EventOps EventInv GroupReg EventFlow CText GroupText CtrlDev GroupDev UserLib DevText.
From stdpp Require Import strings.
From Stdlib Require Import Ascii.

(** ** Finding a group in the list *)

Lemma find_sub_skip_free h t c k : c ∉ h ->
  find_sub (h ++ t) (c :: k) = (fun i => length h + i) <$> find_sub t (c :: k).
Proof.
  induction h as [|a h IH]; intros Hc.
  - simpl. by destruct (find_sub t (c :: k)).
  - cbn [app find_sub]. rewrite decide_False.
    + rewrite IH by set_solver. by destruct (find_sub t (c :: k)).
    + intros [x Hx]. simplify_eq. set_solver.
Qed.

(** A name and its newline are found only as such. *)
Lemma line_prefix g nm rest : NL ∉ g -> NL ∉ nm -> (g ++ [NL]) `prefix_of` (nm ++ NL :: rest) -> g = nm.
Proof.
  revert nm. induction g as [|c g IH]; intros [|d nm] Hg Hn [k Hk]; simplify_eq/=; try done.
  - set_solver.
  - set_solver.
  - f_equal. apply IH; [set_solver|set_solver|]. exists k. done.
Qed.

Definition name_key (g : text) : text := ":"%char :: g ++ [NL].

(** Names as the library and the control device allow them, ids with a device. *)
Definition listable (r : Spec.registry) : Prop :=
  Forall (fun x => Forall (fun c => c ∈ CtrlDev.DAZUKOFS_ALLOWED_GROUPCHARS) (txt x.1) /\ (0 <= x.2 < 10)%Z) r.

Lemma list_line x : (0 <= x.2 < 10)%Z -> group_line x.2 x.1 = digit x.2 :: ":"%char :: txt x.1 ++ [NL].
Proof. intros Hx. unfold group_line. by rewrite fmt_lu_digit. Qed.

Lemma digit_not_colon i : (0 <= i < 10)%Z -> digit i <> ":"%char.
Proof. intros Hi. apply is_digit_ne; [by exists i|right; vm_compute; lia]. Qed.

Lemma find_in_list g r : NL ∉ g -> listable r ->
  match find_sub (registry_text r) (name_key g) with
  | None => g ∉ (fun x => txt x.1) <$> r
  | Some O => False
  | Some (S p) => exists i nm, (nm, i) ∈ r /\ txt nm = g /\ registry_text r !! p = Some (digit i)
  end.
Proof.
  intros Hg Hl. induction Hl as [|x r [Hn Hi] Hl IH]; [apply not_elem_of_nil|].
  rewrite registry_text_cons, list_line by done.
  assert (Hc : ":"%char ∉ txt x.1) by (by apply valid_not_in).
  assert (Hnl : NL ∉ txt x.1) by (by apply valid_not_in).
  cbn [app]. rewrite <-app_assoc. cbn [app find_sub].
  assert (H0 : ~ name_key g `prefix_of` digit x.2 :: ":"%char :: txt x.1 ++ NL :: registry_text r).
  { intros [k Hk]. unfold name_key in Hk. simpl in Hk. injection Hk as Hk _. by apply (digit_not_colon x.2). }
  rewrite decide_False by exact H0.
  destruct (decide (name_key g `prefix_of` ":"%char :: txt x.1 ++ NL :: registry_text r)) as [Hp|Hp].
  - destruct Hp as [k Hk]. unfold name_key in Hk. simpl in Hk. injection Hk as Hk.
    assert (g = txt x.1) as -> by (apply (line_prefix g _ (registry_text r)); [done|done|by exists k]).
    cbn [fmap option_fmap option_map]. exists x.2, x.1. split_and!; [destruct x; left|done|done].
  - change (txt x.1 ++ NL :: registry_text r) with (txt x.1 ++ [NL] ++ registry_text r).
    rewrite app_assoc. unfold name_key. rewrite find_sub_skip_free by (set_solver).
    change (":"%char :: g ++ [NL]) with (name_key g).
    destruct (find_sub (registry_text r) (name_key g)) as [[|p]|]; cbn [fmap option_fmap option_map].
    + done.
    + destruct IH as (i & nm & Hin & Hnm & Hlk). exists i, nm. split_and!; [by right|done|].
      change (digit x.2 :: ":"%char :: (txt x.1 ++ [NL]) ++ registry_text r) with
        ([digit x.2; ":"%char] ++ (txt x.1 ++ [NL]) ++ registry_text r).
      rewrite app_assoc, lookup_app_r by (rewrite !length_app; simpl; lia).
      rewrite <-Hlk. f_equal. rewrite !length_app. simpl. lia.
    + rewrite fmap_cons, not_elem_of_cons. split; [|done]. intros ->. apply Hp.
      unfold name_key. exists (registry_text r). simpl. by rewrite <-app_assoc.
Qed.

Lemma length_txt_fmt (x : string) : txt x <> [] -> x <> ""%string.
Proof. by intros ? ->. Qed.

(** [find_gid] on a buffer that holds the list. *)
Lemma find_gid_list buf g r : length g <= 20 -> NL ∉ g -> no_nul g -> listable r ->
  cstr buf = registry_text r ->
  match find_gid buf g with
  | Some i => exists nm, (nm, i) ∈ r /\ txt nm = g
  | None => g ∉ (fun x => txt x.1) <$> r
  end.
Proof.
  intros Hlen Hg Hnn Hl Hb. unfold find_gid. cbn [snprintf fst].
  rewrite take_ge by (simpl; rewrite length_app; simpl; lia).
  unfold strstr. rewrite Hb. change (":"%char :: g ++ [NL]) with (name_key g).
  pose proof (find_in_list g r Hg Hl) as H.
  destruct (find_sub (registry_text r) (name_key g)) as [[|p]|]; [done| |done].
  destruct H as (i & nm & Hin & Hnm & Hlk).
  assert (Hi : (0 <= i < 10)%Z).
  { unfold listable in Hl. rewrite Forall_forall in Hl. by apply (Hl (nm, i) Hin). }
  assert (Hbp : buf !! p = Some (digit i)).
  { rewrite <-Hb, cstr_take in Hlk. by apply lookup_take_Some in Hlk as [? _]. }
  rewrite Hbp. cbn [mbind option_bind].
  assert (Ed : (Z.of_nat (nat_of_ascii (digit i)) - 48 = i)%Z).
  { unfold digit. rewrite nat_ascii_embedding by lia. lia. }
  rewrite Ed, decide_False by lia. eauto.
Qed.

(** ** The system calls, on the model of the devices

    One control file is open at a time: its [private_data] and position are
    part of the state, and so is [errno].  The descriptor of group device [i]
    is [10 + i].  [stack] is what the kernel stack holds when a command is
    written.  Allocations of the library itself
    succeed; [readlink] is not modelled. *)
Record ustate := mk_ustate { u_k : kstate; u_pd : option text; u_pos : nat; u_errno : Z }.

Definition set_k (k : kstate) (u : ustate) : ustate := mk_ustate k (u_pd u) (u_pos u) (u_errno u).

Definition lift {A} (m : M A) : SM ustate A :=
  fun u => match m (u_k u) with Ret a k => Ret a (set_k k u) | Stuck w => Stuck w end.

(** A negative return value becomes [-1] and [errno]. *)
Definition syscall (r : Z) : SM ustate Z :=
  if decide (r < 0)%Z
  then do! smodify (fun u => mk_ustate (u_k u) (u_pd u) (u_pos u) (- r)) in sret (-1)%Z
  else sret r.

Definition group_of_path (path : text) : option Z :=
  find (fun i => bool_decide (dev_path i = path)) (Z.of_nat <$> seq 0 10).

Definition k_open (path : text) (w : bool) : SM ustate Z :=
  if decide (path = ctrl_path) then
    do! smodify (fun u => mk_ustate (u_k u) ctrl_open 0 (u_errno u)) in sret 3%Z
  else
    match group_of_path path with
    | Some i =>
        let! r := lift (group_open i) in
        sret (10 + i)%Z
    | None => syscall (- ENOENT)%Z
    end.

Definition k_write (stack : text) (fd : Z) (data : text) : SM ustate Z :=
  let! pos := sget u_pos in
  let! r := lift (ctrl_write stack data (Z.of_nat pos) false) in
  do! smodify (fun u => mk_ustate (u_k u) (u_pd u) (Z.to_nat r.2) (u_errno u)) in
  syscall r.1.

(** The list is read with one doubling of the buffer at most. *)
Definition k_read (fd : Z) (n : nat) : SM ustate (Z * text) :=
  let! pd := sget u_pd in
  let! pos := sget u_pos in
  let! r := lift (ctrl_read (dazukofs_get_groups 2) pd n pos false) in
  let '(ret, pd', pos', data) := r in
  do! smodify (fun u => mk_ustate (u_k u) pd' pos' (u_errno u)) in
  let! x := syscall ret in
  sret (x, data).

Definition kernel_ops (stack : text) : sysops ustate :=
  mk_sysops ustate k_open k_read (k_write stack) (fun _ => sret 0%Z)
    (fun _ => smodify (fun u => mk_ustate (u_k u) (u_pd u) 0 (u_errno u)))
    (fun _ _ => sret ((-1)%Z, [])) (sret true).

Lemma wp_lift {A} (m : M A) (Q : A -> ustate -> Prop) u :
  wp m (fun a k => Q a (set_k k u)) (u_k u) -> wp (lift m) Q u.
Proof. unfold wp, lift. by destruct (m (u_k u)). Qed.

Lemma wp_syscall r (Q : Z -> ustate -> Prop) u :
  ((0 <= r)%Z -> Q r u) -> ((r < 0)%Z -> Q (-1)%Z (mk_ustate (u_k u) (u_pd u) (u_pos u) (- r))) ->
  wp (syscall r) Q u.
Proof.
  intros H1 H2. unfold syscall. case_decide; [apply wp_bind, wp_modify, wp_ret; auto|].
  apply wp_ret, H1. lia.
Qed.

(** ** Reading the list *)

Definition named (s : kstate) : Prop :=
  forall g G, groups s !! g = Some G -> name_length G = Z.of_nat (String.length (name G)).

Lemma named_printable s : named s -> listable (registry_of s) -> printable s.
Proof.
  intros Hn Hl g G Hg HG Hd. split; [by eapply Hn|].
  unfold listable in Hl. rewrite Forall_forall in Hl.
  destruct (Hl (name G, group_id G)) as [Hv Hi].
  { unfold registry_of. apply list_elem_of_fmap. exists (g, name G, group_id G).
    split; [done|]. apply live_of_elem. eauto 10. }
  split; [by apply valid_not_in|done].
Qed.

Lemma ctrl_window_all b l : strlen b <= l -> 
  ctrl_window b l 0 = (cstr b, strlen b).
Proof.
  intros Hl. unfold ctrl_window. rewrite cstr_take, drop_0.
  case_decide as H0; [replace (strlen b) with 0 by lia; done|].
  rewrite Nat.sub_0_r. case_decide; [done|]. by replace l with (strlen b) by lia.
Qed.

Lemma wp_read_list gh u : grp_inv gh (u_k u) -> printable (u_k u) -> u_pd u = None -> u_pos u = 0 ->
  length (registry_text (registry_of (u_k u))) <= 255 ->
  wp (k_read 3 255) (fun r u' =>
    (r.1 = (-1)%Z /\ u_errno u' = ENOMEM) \/
    ((0 <= r.1)%Z /\ r.2 = registry_text (registry_of (u_k u)) /\ exists o, u_k u' = set_oom o (u_k u))) u.
Proof.
  intros I Hp Hpd Hpos Hlen. apply wp_bind, wp_get, wp_bind, wp_get, wp_bind, wp_lift.
  rewrite Hpd, Hpos. apply wp_bind. eapply wp_mono.
  { apply (wp_get_groups_try gh 2 256); [done|done|simpl; lia|lia|lia]. }
  intros [err ob] k ([o ->] & [Hr|(b & Hr & Hb)]); simplify_eq.
  - apply wp_ret, wp_bind, wp_modify, wp_bind, wp_syscall; [done|]. intros _. apply wp_ret. by left.
  - assert (Hs : strlen b = length (registry_text (registry_of (u_k u)))) by (unfold strlen; by rewrite Hb).
    set (t := registry_text (registry_of (u_k u))) in *.
    rewrite decide_False by (by intros []). rewrite (ctrl_window_all b 255) by lia.
    case_decide as He.
    + apply wp_ret, wp_bind, wp_modify, wp_bind, wp_syscall; [|lia]. intros _. apply wp_ret. right.
      split_and!; [done| |by exists o]. simpl. symmetry. apply length_zero_iff_nil. lia.
    + apply wp_ret, wp_bind, wp_modify, wp_bind, wp_syscall; [|simpl; lia]. intros _. apply wp_ret. right.
      simpl. split_and!; [lia|done|by exists o].
Qed.

(** ** The theorem's ingredients *)

(** Names the library accepts. *)
Definition lib_names (r : Spec.registry) : Prop :=
  Forall (fun x => Forall (fun c => c ∈ CtrlDev.DAZUKOFS_ALLOWED_GROUPCHARS) (txt x.1) /\
                   String.length x.1 <= 20) r.

Lemma lib_listable r : Spec.wf r -> lib_names r -> listable r.
Proof.
  intros [_ _ Hr] Hn. unfold lib_names, listable in *. rewrite Forall_forall in *.
  intros x Hx. split; [by apply Hn|]. unfold GROUP_COUNT in Hr.
  rewrite Forall_forall in Hr. apply Hr, list_elem_of_fmap. eauto.
Qed.

Lemma lib_text_length r : listable r -> lib_names r -> length (registry_text r) <= 23 * length r.
Proof.
  unfold lib_names. induction 1 as [|x r [_ Hi] _ IH]; intros Hn; [done|].
  apply Forall_cons in Hn as [[_ Hx] Hn]. specialize (IH Hn).
  rewrite registry_text_cons, length_app, length_group_line by done. simpl. lia.
Qed.

(** The list fits the 255 characters the library reads. *)
Lemma lib_text_fits r : Spec.wf r -> lib_names r -> length (registry_text r) <= 255.
Proof.
  intros W Hn. pose proof (lib_text_length r (lib_listable r W Hn) Hn).
  pose proof (Spec.wf_length r W) as Hl. unfold GROUP_COUNT in Hl. lia.
Qed.

Lemma add_lib_names nm r res r' : valid_name (txt nm) -> String.length nm <= 20 ->
  Spec.add nm r res r' -> lib_names r -> lib_names r'.
Proof.
  intros [_ Hv] Hl A Hr. destruct A; try done. apply Forall_app. split; [done|].
  apply Forall_singleton. by split.
Qed.

Lemma named_kept nm track s s' : grp_kept nm track s s' -> named s -> named s'.
Proof.
  intros K Hn g G' HG'. destruct (K g G' HG') as [(G & HG & [->| ->])|[id ->]]; [exact (Hn g G HG)|exact (Hn g G HG)|done].
Qed.

Lemma check_name_ok g : valid_name g -> length g <= 20 -> check_group_name g = 0%Z.
Proof.
  intros [_ Hv] Hl. unfold check_group_name. rewrite decide_False by lia.
  rewrite (proj2 (forallb_forall _ _)); [done|]. intros c Hc. unfold allowed in Hv. rewrite Forall_forall in Hv.
  apply is_valid_allowed, Hv. by apply list_elem_of_In.
Qed.

Lemma dev_path_group i : (0 <= i < 10)%Z -> dev_path i <> ctrl_path /\ group_of_path (dev_path i) = Some i.
Proof.
  intros Hi. assert (Hc : i ∈ Z.of_nat <$> seq 0 10).
  { apply list_elem_of_fmap. exists (Z.to_nat i). split; [lia|]. apply elem_of_seq. lia. }
  assert (Ha : Forall (fun j => dev_path j <> ctrl_path /\ group_of_path (dev_path j) = Some j)
    (Z.of_nat <$> seq 0 10)).
  { apply (bool_decide_unpack _). by vm_compute. }
  rewrite Forall_forall in Ha. by apply Ha.
Qed.

(** Opening a device keeps the registry. *)
Lemma wp_k_open_dev gh u i : (0 <= i < 10)%Z -> grp_inv gh (u_k u) ->
  wp (k_open (dev_path i) true) (fun fd u' => fd = (10 + i)%Z /\ u_errno u' = u_errno u /\
    registry_of (u_k u') = registry_of (u_k u) /\ group_count (u_k u') = group_count (u_k u) /\
    exists gh', grp_inv gh' (u_k u')) u.
Proof.
  intros Hi I. destruct (dev_path_group i Hi) as [Hne Hp]. unfold k_open.
  rewrite decide_False by done. rewrite Hp. apply wp_bind, wp_lift, wp_bind.
  eapply wp_mono; [by apply (wp_open_tracking gh)|]. intros r k [[K _] Hr]. apply wp_ret, wp_ret. simpl.
  assert (E : registry_of k = registry_of (u_k u)) by (unfold registry_of; by rewrite (op_keep_live _ _ _ K)).
  split_and!; try done; [apply (ok_count _ _ _ K)|].
  destruct Hr as [[_ ->]|[_ (g & G & _ & _ & _ & _ & I')]]; eauto.
Qed.

(** ** [dazukofs_open] *)

Definition open_command (track : bool) : command := if track then CtrlDev.AddTrack else CtrlDev.Add.

(** The outcome [dazukofs_open] promises. *)
Definition open_outcome (u : ustate) (nm : string) (r : option dazukofs_handle) (u' : ustate) : Prop :=
  match r with
  | Some h => exists id, h = mk_handle (10 + id) 0 (txt nm) /\ (nm, id) ∈ registry_of (u_k u')
  | None => u_errno u' = ENOMEM \/
      (u_errno u' = EPERM /\ nm ∉ Spec.names (registry_of (u_k u)) /\
       Z.of_nat (length (registry_of (u_k u))) = GROUP_COUNT)
  end.

(** What the next call relies on. *)
Definition ready (u : ustate) : Prop := (exists gh, grp_inv gh (u_k u)) /\ reg_inv (u_k u).

(** From the read on. *)
Lemma wp_open_group gh stack nm u u0 :
  grp_inv gh (u_k u) -> reg_inv (u_k u) -> named (u_k u) -> lib_names (registry_of (u_k u)) ->
  u_pd u = None -> u_pos u = 0 -> valid_name (txt nm) -> String.length nm <= 20 ->
  nm ∈ Spec.names (registry_of (u_k u)) ->
  wp (dazukofs_open_group (kernel_ops stack) 3 (txt nm)) (fun r u' => open_outcome u0 nm r u' /\ (is_Some r -> ready u')) u.
Proof.
  intros I R Hn Hl Hpd Hpos Hv Hlen Hin. pose proof (r_wf _ R) as W. pose proof (lib_listable _ W Hl) as Hls.
  apply wp_bind. eapply wp_mono.
  { apply (wp_read_list gh u I (named_printable _ Hn Hls) Hpd Hpos). by apply lib_text_fits. }
  intros [r data] u1 [[Hr He]|(Hr & Hd & o & E1)]; simpl in *; subst.
  { rewrite decide_True by done. apply wp_bind, wp_ret, wp_ret. split; [by left|by intros [? ?]]. }
  rewrite decide_False by lia. set (t := registry_text (registry_of (u_k u))).
  assert (Ht : length t <= 255) by (by apply lib_text_fits).
  assert (Hb : cstr (t ++ replicate (256 - length t) NUL) = t).
  { apply cstr_padded; [|lia]. apply no_nul_registry. by apply named_printable. }
  assert (Hg : no_nul (txt nm) /\ NL ∉ txt nm) by (split; apply valid_not_in; [apply Hv|done|apply Hv|done]).
  pose proof (find_gid_list _ (txt nm) _ ltac:(by rewrite length_txt) (proj2 Hg) (proj1 Hg) Hls Hb) as Hf.
  destruct (find_gid _ _) as [i|].
  2:{ exfalso. apply Hf. apply list_elem_of_fmap in Hin as (x & -> & Hx). apply list_elem_of_fmap. eauto. }
  destruct Hf as (nm' & Hi & Heq).
  assert (nm' = nm) as -> by (by rewrite <-(untxt_txt nm), <-Heq, untxt_txt).
  assert (Hir : (0 <= i < 10)%Z).
  { unfold listable in Hls. rewrite Forall_forall in Hls. apply (Hls _ Hi). }
  apply wp_bind, wp_ret. simpl. apply wp_bind, wp_ret. simpl. apply wp_bind.
  eapply wp_mono; [apply (wp_k_open_dev gh); [done|rewrite E1; by apply grp_inv_oom]|].
  intros fd u2 (-> & _ & E2 & E3 & I2). rewrite decide_False by lia.
  apply wp_bind, wp_ret, wp_ret. rewrite E1 in E2, E3. split; [exists i; split; [done|by rewrite E2]|].
  intros _. split; [exact I2|]. destruct R as [R1 R2]. split; rewrite E2; [exact R1|by rewrite E3].
Qed.

Lemma lift_ext {A} (m m' : M A) u : m (u_k u) = m' (u_k u) -> lift m u = lift m' u.
Proof. intros E. unfold lift. by rewrite E. Qed.

(** Writing the command. *)
Lemma wp_open_write gh stack track nm u :
  grp_inv gh (u_k u) -> reg_inv (u_k u) -> valid_name (txt nm) ->
  stack_ok stack (key_of (open_command track) ++ txt nm) ->
  wp (k_write stack 3 (key_of (open_command track) ++ txt nm)) (fun w u' =>
    u_pd u' = u_pd u /\ exists r,
    Spec.add nm (registry_of (u_k u)) r (registry_of (u_k u')) /\ grp_inv gh (u_k u') /\ reg_inv (u_k u') /\
    grp_kept nm track (u_k u) (u_k u') /\
    ((w = (-1)%Z /\ (r < 0)%Z /\ u_errno u' = (- r)%Z) \/ ((0 <= w)%Z /\ (0 <= r)%Z))) u.
Proof.
  intros I R Hv Hs. apply wp_bind, wp_get, wp_bind, wp_lift. unfold wp at 1.
  rewrite ctrl_write_command by (done || apply Hv).
  assert (Hrun : run_of (open_command track) nm = dazukofs_add_group nm track) by (by destruct track).
  rewrite Hrun. set (d := key_of (open_command track) ++ txt nm).
  match goal with |- match ?m _ with _ => _ end => change (wp m
    (fun a k => wp (do! smodify (fun u0 => mk_ustate (u_k u0) (u_pd u0) (Z.to_nat a.2) (u_errno u0)) in syscall a.1)
      (fun w u' => u_pd u' = u_pd u /\ exists r,
        Spec.add nm (registry_of (u_k u)) r (registry_of (u_k u')) /\ grp_inv gh (u_k u') /\ reg_inv (u_k u') /\
        grp_kept nm track (u_k u) (u_k u') /\
        ((w = (-1)%Z /\ (r < 0)%Z /\ u_errno u' = (- r)%Z) \/ ((0 <= w)%Z /\ (0 <= r)%Z))) (set_k k u)) (u_k u)) end.
  apply wp_bind. eapply wp_mono; [by apply (wp_add_group gh)|].
  intros r k (A & I' & R' & _ & K). apply wp_ret, wp_bind, wp_modify, wp_syscall; case_decide as Hr; simpl; intros Hw.
  - split; [done|]. exists r. split_and!; try done. by right.
  - lia.
  - lia.
  - split; [done|]. exists r. split_and!; try done. by left.
Qed.

(** The command that removes a group. *)
Lemma wp_del_write stack nm u : ready u -> allowed (txt nm) -> stack_ok stack (key_of Del ++ txt nm) ->
  wp (k_write stack 3 (key_of Del ++ txt nm)) (fun w u' =>
    (0 <= w)%Z /\ registry_of (u_k u') = Spec.remove nm (registry_of (u_k u)) /\ ready u') u.
Proof.
  intros [[gh I] R] Hv Hs. apply wp_bind, wp_get, wp_bind, wp_lift. unfold wp. rewrite ctrl_write_command by done.
  destruct (wp_run _ _ _ (wp_dazukofs_remove_group gh nm false _ I R)) as (r & k & E & -> & Er & I' & R').
  unfold run_of, sbind at 1. rewrite E. unfold sret at 1. rewrite decide_True by lia. unfold sbind, smodify, syscall. simpl.
  split; [lia|]. split; [exact Er|]. split; [by exists gh|exact R'].
Qed.

(** A program that asks for a group gets a handle for the device of the group
    of that name, or the documented error. *)
Lemma wp_dazukofs_open gh stack nm track u :
  grp_inv gh (u_k u) -> reg_inv (u_k u) -> named (u_k u) -> lib_names (registry_of (u_k u)) ->
  valid_name (txt nm) -> String.length nm <= 20 -> stack_ok stack (key_of (open_command track) ++ txt nm) ->
  wp (dazukofs_open (kernel_ops stack) (txt nm) track) (fun r u' => open_outcome u nm r u' /\ (is_Some r -> ready u')) u.
Proof.
  intros I R Hn Hl Hv Hlen Hs. unfold dazukofs_open.
  rewrite check_name_ok by (by rewrite ?length_txt). rewrite decide_False by (by intros []).
  apply wp_bind. simpl. unfold k_open. rewrite decide_True by done.
  apply wp_bind, wp_modify, wp_ret. rewrite decide_False by done.
  set (u1 := mk_ustate (u_k u) ctrl_open 0 (u_errno u)).
  assert (Ed : take 254 ((if track then txt "addtrack=" else txt "add=") ++ txt nm) =
    key_of (open_command track) ++ txt nm).
  { rewrite take_ge; [by destruct track|]. rewrite length_app, length_txt. destruct track; simpl; lia. }
  match goal with |- context [take 254 ?t] => replace (take 254 t)
    with (key_of (open_command track) ++ txt nm) by exact (eq_sym Ed) end.
  apply wp_bind. eapply wp_mono; [by apply (wp_open_write gh stack track nm u1)|].
  intros w u2 (Hpd & r & A & I2 & R2 & K & Hw). simpl in A, K, Hpd.
  destruct Hw as [(-> & Hr & He)|[Hw Hr]].
  - rewrite decide_True by done. apply wp_bind, wp_ret, wp_ret. simpl.
    split; [|by intros [? ?]]. inversion A; subst; [lia| |by left|lia]. right. split_and!; [done..|].
    assumption.
  - rewrite decide_False by lia. apply wp_bind, wp_modify.
    apply (wp_open_group gh); simpl; try done.
    + by eapply named_kept.
    + by eapply add_lib_names.
    + inversion A; subst; try done. unfold Spec.names. rewrite fmap_app. set_solver.
Qed.

(** If nothing behind the command stops the scan for the end of the name. *)
Lemma dazukofs_open_overrun stack nm track u : valid_name (txt nm) -> String.length nm <= 20 ->
  nothing_stops (drop (length (key_of (open_command track) ++ txt nm) + 1) stack) ->
  dazukofs_open (kernel_ops stack) (txt nm) track u = Stuck OutOfBounds.
Proof.
  intros Hv Hlen Hn. unfold dazukofs_open. rewrite check_name_ok by (by rewrite ?length_txt). rewrite decide_False by (by intros []).
  unfold sbind at 1. simpl sys_open. unfold k_open at 1. rewrite decide_True by done. unfold sbind at 1, smodify, sret at 1.
  rewrite decide_False by done.
  assert (Ed : (snprintf 255 ((if track then txt "addtrack=" else txt "add=") ++ txt nm)).1 = key_of (open_command track) ++ txt nm).
  { cbn [snprintf fst]. rewrite take_ge; [by destruct track|]. rewrite length_app, length_txt. destruct track; simpl; lia. }
  rewrite Ed. unfold sbind at 1. simpl sys_write. unfold k_write, sbind at 1, sget, sbind at 1, lift.
  rewrite ctrl_write_overrun; [done|apply Hv| |done].
  rewrite length_app, length_txt. unfold CtrlDev.DAZUKOFS_MAX_WRITE_BUFFER. destruct track; simpl; lia.
Qed.
