(* ===== verification/IgnDev.v ===== *)
(** * The ignore device ([ign_dev.c])

    A process that has the device open is not checked.  The device keeps one
    [struct dazukofs_proc] per open file, on a list that is searched by process. *)

From S2P Require Import Prelude.
From stdpp Require Import list gmap.

(** ** State *)

Abbreviation loc := positive.
Abbreviation pid := Z (only parsing).

(** The cache [dazukofs_ign_cachep] holds the [proc_id] of each structure;
    [pid_refs] counts the references to each [struct pid] that the device took;
    [ign_oom] tells which of the coming allocations fail. *)
Record istate := mk_istate {
  ign_procs : gmap loc pid;
  ign_list : list loc;
  pid_refs : gmap Z Z;
  ign_next : loc;
  ign_oom : list bool
}.

Abbreviation IM := (SM istate).

Definition with_refs r (s : istate) : istate :=
  mk_istate (ign_procs s) (ign_list s) r (ign_next s) (ign_oom s).
Definition with_list l (s : istate) : istate :=
  mk_istate (ign_procs s) l (pid_refs s) (ign_next s) (ign_oom s).

Definition refs_of (s : istate) (p : pid) : Z := default 0%Z (pid_refs s !! p).

(** [find_get_pid(task_pid_nr(current))] and [put_pid] *)
Definition find_get_pid (cur : pid) : IM pid :=
  do! smodify (fun s => with_refs (<[cur := (refs_of s cur + 1)%Z]> (pid_refs s)) s) in sret cur.
Definition put_pid (p : pid) : IM unit :=
  smodify (fun s => with_refs (<[p := (refs_of s p - 1)%Z]> (pid_refs s)) s).

Definition load_proc (l : loc) : IM pid :=
  fun s => match ign_procs s !! l with Some p => Ret p s | None => Stuck UseAfterFree end.
Definition free_proc (l : loc) : IM unit :=
  fun s => match ign_procs s !! l with
           | Some _ => Ret tt (mk_istate (delete l (ign_procs s)) (ign_list s) (pid_refs s) (ign_next s) (ign_oom s))
           | None => Stuck UseAfterFree
           end.
(** [kmem_cache_zalloc] *)
Definition alloc_proc : IM (option loc) :=
  fun s => match ign_oom s with
           | true :: o => Ret None (mk_istate (ign_procs s) (ign_list s) (pid_refs s) (ign_next s) o)
           | o => Ret (Some (ign_next s))
                    (mk_istate (<[ign_next s := 0%Z]> (ign_procs s)) (ign_list s) (pid_refs s)
                       (Pos.succ (ign_next s)) (tail o))
           end.
Definition store_proc (l : loc) (p : pid) : IM unit :=
  fun s => match ign_procs s !! l with
           | Some _ => Ret tt (mk_istate (<[l := p]> (ign_procs s)) (ign_list s) (pid_refs s) (ign_next s) (ign_oom s))
           | None => Stuck UseAfterFree
           end.

(** ** Operations *)

(** The search of the list for the structure of a process. *)
Fixpoint find_ign (pos : list loc) (p : pid) : IM (option loc) :=
  match pos with
  | [] => sret None
  | l :: q =>
      let! p' := load_proc l in
      if decide (p' = p) then sret (Some l) else find_ign q p
  end.

(** [dazukofs_check_ignore_process], for the current process. *)
Definition dazukofs_check_ignore_process (cur : pid) : IM Z :=
  let! cur_proc_id := find_get_pid cur in
  let! l := sget ign_list in
  let! found := find_ign l cur_proc_id in
  do! put_pid cur_proc_id in
  sret (match found with Some _ => 0 | None => 1 end)%Z.

(** [dazukofs_add_ign]: the return value and [file->private_data]. *)
Definition dazukofs_add_ign (cur : pid) : IM (Z * option loc) :=
  let! proc := alloc_proc in
  match proc with
  | None => sret ((- ENOMEM)%Z, None)
  | Some l =>
      let! p := find_get_pid cur in
      do! store_proc l p in
      do! smodify (fun s => with_list (l :: ign_list s) s) in
      sret (0%Z, Some l)
  end.

(** [dazukofs_remove_ign]: [file->private_data] afterwards. *)
Definition dazukofs_remove_ign (private_data : option loc) : IM (option loc) :=
  match private_data with
  | None => sret None
  | Some check_proc =>
      let! l := sget ign_list in
      (* the loop reads [check_proc->proc_id] in every round *)
      let! found :=
        match l with
        | [] => sret None
        | _ => let! p := load_proc check_proc in find_ign l p
        end in
      match found with
      | None => sret private_data
      | Some proc =>
          let! p := load_proc proc in
          do! put_pid p in
          do! smodify (fun s => with_list (filter (fun x => x <> proc) (ign_list s)) s) in
          do! free_proc proc in
          sret None
      end
  end.

Definition dazukofs_ign_open (cur : pid) : IM (Z * option loc) := dazukofs_add_ign cur.
Definition dazukofs_ign_release (private_data : option loc) : IM Z :=
  do! dazukofs_remove_ign private_data in sret 0%Z.

(** [dazukofs_destroy_ignlist] *)
Fixpoint destroy_ign (pos : list loc) : IM unit :=
  match pos with
  | [] => sret tt
  | l :: q =>
      do! smodify (fun s => with_list (filter (fun x => x <> l) (ign_list s)) s) in
      do! free_proc l in
      destroy_ign q
  end.
Definition dazukofs_destroy_ignlist : IM unit := let! l := sget ign_list in destroy_ign l.

(** [INIT_LIST_HEAD] in [dazukofs_ign_dev_init]; [o] are the allocations. *)
Definition ign_init (o : list bool) : istate := mk_istate ∅ [] ∅ 1%positive o.

(** ** Open files

    The files that are open on the device: the process that opened each, and
    its [private_data].  A file may be closed by another process, which
    inherited it. *)
Abbreviation files := (gmap nat (Z * option loc)) (only parsing).

Record isys := mk_isys { ign : istate; open_files : gmap nat (Z * option loc) }.

Inductive ign_call :=
| IOpen (f : nat) (cur : pid)
| IClose (f : nat)
| ICheck (cur : pid).

(** One call of the kernel into the device.  A failed open leaves no file. *)
Definition ign_exec (c : ign_call) (y : isys) : result isys Z :=
  match c with
  | IOpen f cur =>
      match dazukofs_ign_open cur (ign y) with
      | Ret (r, pd) s => Ret r (mk_isys s (if decide (r = 0%Z) then <[f := (cur, pd)]> (open_files y) else open_files y))
      | Stuck w => Stuck w
      end
  | IClose f =>
      match open_files y !! f with
      | None => Ret 0%Z y
      | Some (_, pd) =>
          match dazukofs_ign_release pd (ign y) with
          | Ret r s => Ret r (mk_isys s (delete f (open_files y)))
          | Stuck w => Stuck w
          end
      end
  | ICheck cur =>
      match dazukofs_check_ignore_process cur (ign y) with
      | Ret r s => Ret r (mk_isys s (open_files y))
      | Stuck w => Stuck w
      end
  end.

(** The calls one after the other, with the results. *)
Fixpoint ign_run (cs : list ign_call) (y : isys) : result isys (list Z) :=
  match cs with
  | [] => Ret [] y
  | c :: q =>
      match ign_exec c y with
      | Ret r y' => match ign_run q y' with Ret rs y'' => Ret (r :: rs) y'' | Stuck w => Stuck w end
      | Stuck w => Stuck w
      end
  end.

(** ** Abstract specification: which process has which file open *)

Module IgnSpec.
Abbreviation opened := (gmap nat Z) (only parsing).

Definition ignored (a : opened) (p : Z) : Prop := exists f, a !! f = Some p.

Inductive step : ign_call -> opened -> Z -> opened -> Prop :=
| open_ok f cur a : step (IOpen f cur) a 0 (<[f := cur]> a)
| open_nomem f cur a : step (IOpen f cur) a (- ENOMEM) a
| close f a : step (IClose f) a 0 (delete f a)
| check_yes cur a : ignored a cur -> step (ICheck cur) a 0 a
| check_no cur a : ~ ignored a cur -> step (ICheck cur) a 1 a.

Inductive run : list ign_call -> opened -> list Z -> opened -> Prop :=
| run_nil a : run [] a [] a
| run_cons c cs a r a' rs a'' : step c a r a' -> run cs a' rs a'' -> run (c :: cs) a (r :: rs) a''.
End IgnSpec.

Definition opened_of (y : isys) : gmap nat Z := fst <$> open_files y.

(** A process that has the device open does not open it again. *)
Definition call_ok (c : ign_call) (y : isys) : Prop :=
  match c with
  | IOpen f cur => open_files y !! f = None /\ ~ IgnSpec.ignored (opened_of y) cur
  | _ => True
  end.

Fixpoint disciplined (cs : list ign_call) (y : isys) : Prop :=
  match cs with
  | [] => True
  | c :: q => call_ok c y /\ match ign_exec c y with Ret _ y' => disciplined q y' | Stuck _ => True end
  end.

#[export] Instance ignored_dec a p : Decision (IgnSpec.ignored a p).
Proof.
  refine (cast_if (decide (map_Exists (fun _ q => q = p) a))); unfold IgnSpec.ignored, map_Exists in *; naive_solver.
Defined.
#[export] Instance call_ok_dec c y : Decision (call_ok c y).
Proof. destruct c; simpl; apply _. Defined.
#[export] Instance disciplined_dec cs : forall y, Decision (disciplined cs y).
Proof.
  induction cs as [|c q IH]; intros y; [left; exact I|]. simpl.
  apply and_dec; [apply _|]. destruct (ign_exec c y) as [? y'|]; [apply IH|left; exact I].
Defined.

(** ** Invariant *)

(** Structures of a process. *)
Definition pid_is (p q : Z) : nat := if decide (q = p) then 1 else 0.

Record ign_inv (y : isys) : Prop := {
  ii_list : forall l, l ∈ ign_list (ign y) <-> is_Some (ign_procs (ign y) !! l);
  ii_nodup : NoDup (ign_list (ign y));
  ii_next : forall l, is_Some (ign_procs (ign y) !! l) -> (l < ign_next (ign y))%positive;
  ii_file : forall f p pd, open_files y !! f = Some (p, pd) ->
    exists l, pd = Some l /\ ign_procs (ign y) !! l = Some p;
  ii_owner : forall l p, ign_procs (ign y) !! l = Some p -> exists f, open_files y !! f = Some (p, Some l);
  ii_single : forall f f' p pd pd', open_files y !! f = Some (p, pd) ->
    open_files y !! f' = Some (p, pd') -> f = f';
  ii_refs : forall p, refs_of (ign y) p = Z.of_nat (mcount (pid_is p) (ign_procs (ign y)))
}.

Lemma ignored_iff y p : IgnSpec.ignored (opened_of y) p <-> exists f pd, open_files y !! f = Some (p, pd).
Proof.
  unfold IgnSpec.ignored, opened_of. split.
  - intros [f Hf]. rewrite lookup_fmap in Hf. destruct (open_files y !! f) as [[p' pd]|] eqn:E; [|done].
    simplify_eq/=. eauto.
  - intros (f & pd & Hf). exists f. by rewrite lookup_fmap, Hf.
Qed.

Lemma wp_find_ign pos p s :
  (forall l, l ∈ pos -> is_Some (ign_procs s !! l)) ->
  wp (find_ign pos p) (fun r s' => s' = s /\
    match r with
    | Some l => l ∈ pos /\ ign_procs s !! l = Some p
    | None => forall l, l ∈ pos -> ign_procs s !! l <> Some p
    end) s.
Proof.
  induction pos as [|l q IH]; intros Hal.
  { apply wp_ret. split; [done|]. intros l Hl. by apply not_elem_of_nil in Hl. }
  destruct (Hal l) as [p' Hp']; [left|]. cbn [find_ign]. apply wp_bind.
  unfold wp at 1, load_proc. rewrite Hp'. fold (wp (S := istate) (A := option loc)). case_decide as Hp.
  - subst. apply wp_ret. split; [done|]. split; [left|done].
  - eapply wp_mono; [apply IH; intros; apply Hal; by right|].
    intros [l'|] s' [-> Hr]; (split; [done|]).
    + destruct Hr. split; [by right|done].
    + intros l' [->|Hl']%elem_of_cons; [congruence|auto].
Qed.

Lemma refs_insert s p n q : refs_of (with_refs (<[p := n]> (pid_refs s)) s) q =
  if decide (q = p) then n else refs_of s q.
Proof.
  unfold refs_of. simpl. case_decide as E; [subst; by rewrite lookup_insert_eq|by rewrite lookup_insert_ne].
Qed.

(** States that differ in the counts of references only, and not in those. *)
Definition same_but_refs (s s' : istate) : Prop :=
  ign_procs s' = ign_procs s /\ ign_list s' = ign_list s /\ ign_next s' = ign_next s /\
  forall p, refs_of s' p = refs_of s p.

Lemma ign_inv_same y s' : ign_inv y -> same_but_refs (ign y) s' -> ign_inv (mk_isys s' (open_files y)).
Proof.
  intros [] (Ep & El & En & Er). split; simpl; rewrite ?Ep, ?El, ?En; auto. intros p. by rewrite Er.
Qed.

(** [dazukofs_check_ignore_process] answers the question, and drops the
    reference it takes. *)
Lemma wp_check_ignore y cur : ign_inv y ->
  wp (dazukofs_check_ignore_process cur) (fun r s' => same_but_refs (ign y) s' /\
    ((r = 0%Z /\ IgnSpec.ignored (opened_of y) cur) \/ (r = 1%Z /\ ~ IgnSpec.ignored (opened_of y) cur))) (ign y).
Proof.
  intros I. apply wp_bind, wp_bind, wp_modify, wp_ret, wp_bind, wp_get, wp_bind.
  eapply wp_mono; [apply wp_find_ign; intros l Hl; by apply (ii_list _ I)|].
  intros r s' [-> Hr]. apply wp_bind, wp_modify, wp_ret. split.
  - split_and!; try done. intros p. rewrite refs_insert.
    case_decide; [subst|]; rewrite refs_insert; [|by rewrite decide_False].
    rewrite decide_True by done. lia.
  - rewrite ignored_iff. destruct r as [l|].
    + left. split; [done|]. destruct Hr as [_ Hl]. destruct (ii_owner _ I l cur Hl) as [f Hf]. eauto.
    + right. split; [done|]. intros (f & pd & Hf). destruct (ii_file _ I f cur pd Hf) as (l & _ & Hl).
      apply (Hr l); [|done]. apply (ii_list _ I). eauto.
Qed.

(** Opening adds the structure, for a process that had none. *)
Lemma wp_ign_open y f cur : ign_inv y -> call_ok (IOpen f cur) y ->
  wp (dazukofs_ign_open cur) (fun r s' =>
    (r.1 = (- ENOMEM)%Z /\ ign_inv (mk_isys s' (open_files y))) \/
    (r.1 = 0%Z /\ ign_inv (mk_isys s' (<[f := (cur, r.2)]> (open_files y))))) (ign y).
Proof.
  intros I [Hf Hc]. rewrite ignored_iff in Hc. pose proof (ii_next _ I) as Hn.
  assert (Hfr : ign_procs (ign y) !! ign_next (ign y) = None).
  { destruct (ign_procs (ign y) !! ign_next (ign y)) eqn:E; [|done].
    specialize (Hn (ign_next (ign y))). rewrite E in Hn. assert (ign_next (ign y) < ign_next (ign y))%positive by eauto. lia. }
  apply wp_bind. unfold wp at 1, alloc_proc.
  assert (Hnew : forall o, wp (let! p := find_get_pid cur in
      do! store_proc (ign_next (ign y)) p in
      do! smodify (fun s => with_list (ign_next (ign y) :: ign_list s) s) in
      sret (0%Z, Some (ign_next (ign y)))) (fun r s' =>
    (r.1 = (- ENOMEM)%Z /\ ign_inv (mk_isys s' (open_files y))) \/
    (r.1 = 0%Z /\ ign_inv (mk_isys s' (<[f := (cur, r.2)]> (open_files y)))))
    (mk_istate (<[ign_next (ign y) := 0%Z]> (ign_procs (ign y))) (ign_list (ign y)) (pid_refs (ign y))
       (Pos.succ (ign_next (ign y))) o)).
  { intros o. apply wp_bind, wp_bind, wp_modify, wp_ret, wp_bind.
    unfold wp at 1, store_proc. simpl. rewrite lookup_insert_eq, insert_insert_eq.
    apply wp_bind, wp_modify, wp_ret. right. split; [done|].
    destruct y as [s fs]; simpl in *. set (l := ign_next s) in *. destruct I; simpl in *. split; simpl.
    - intros l'. rewrite elem_of_cons, lookup_insert_is_Some', ii_list0. naive_solver.
    - apply NoDup_cons. split; [|done]. rewrite ii_list0, Hfr. by intros [? ?].
    - intros l' [<-|Hl']%lookup_insert_is_Some'; [lia|]. specialize (ii_next0 l' Hl'). lia.
    - intros f' p pd [[<- [= <- <-]]|[Hne Hf']]%lookup_insert_Some.
      + exists l. by rewrite lookup_insert_eq.
      + destruct (ii_file0 f' p pd Hf') as (l' & -> & Hl'). exists l'. split; [done|].
        rewrite lookup_insert_ne; [done|]. intros <-. congruence.
    - intros l' p [[<- <-]|[Hne Hl']]%lookup_insert_Some; [exists f; by rewrite lookup_insert_eq|].
      destruct (ii_owner0 l' p Hl') as [f' Hf']. exists f'. rewrite lookup_insert_ne; [done|].
      intros <-. congruence.
    - intros f1 f2 p pd pd' [[<- [= <- <-]]|[H1 Hf1]]%lookup_insert_Some
        [[<- Heq]|[H2 Hf2]]%lookup_insert_Some; [done| | |by eapply ii_single0]; exfalso; apply Hc; eauto.
      injection Heq as <- <-. eauto.
    - intros p. rewrite mcount_insert_fresh by done. unfold refs_of in *. simpl.
      unfold pid_is at 1. destruct (decide (cur = p)) as [<-|Hne].
      + rewrite lookup_insert_eq. simpl. rewrite ii_refs0. lia.
      + rewrite lookup_insert_ne by done. apply ii_refs0. }
  destruct (ign_oom (ign y)) as [|[] o]; [apply (Hnew [])| |apply (Hnew o)].
  apply wp_ret. left. split; [done|]. destruct I; split; auto.
Qed.

(** Releasing a file frees its own structure. *)
Lemma wp_ign_release y f p pd : ign_inv y -> open_files y !! f = Some (p, pd) ->
  wp (dazukofs_ign_release pd) (fun r s' => r = 0%Z /\ ign_inv (mk_isys s' (delete f (open_files y)))) (ign y).
Proof.
  intros I Hf. destruct (ii_file _ I f p pd Hf) as (l & -> & Hl).
  apply wp_bind. unfold dazukofs_remove_ign. apply wp_bind, wp_get, wp_bind.
  assert (Hin : l ∈ ign_list (ign y)) by (apply (ii_list _ I); eauto).
  destruct (ign_list (ign y)) as [|l0 q] eqn:El; [by apply not_elem_of_nil in Hin|]. rewrite <-El in *.
  apply wp_bind. unfold wp at 1, load_proc. rewrite Hl. fold (load_proc).
  eapply wp_mono; [apply wp_find_ign; intros l' Hl'; by apply (ii_list _ I)|].
  intros [l'|] s' [-> Hr]; [|by destruct (Hr l Hin)].
  destruct Hr as [_ Hl']. destruct (ii_owner _ I l' p Hl') as [f' Hf'].
  assert (f' = f) as -> by (by eapply (ii_single _ I)). simplify_eq.
  apply wp_bind. unfold wp at 1, load_proc. rewrite Hl.
  apply wp_bind, wp_modify, wp_bind, wp_modify, wp_bind.
  unfold wp at 1, free_proc. simpl. rewrite Hl. apply wp_ret, wp_ret. split; [done|].
  destruct y as [s fs]; simpl in *. destruct I; simpl in *. split; simpl.
  - intros l'. rewrite list_elem_of_filter, lookup_delete_is_Some, ii_list0. naive_solver.
  - by apply NoDup_filter.
  - intros l' [_ ?]%lookup_delete_is_Some. auto.
  - intros f' p' pd [Hne Hf1]%lookup_delete_Some. destruct (ii_file0 f' p' pd Hf1) as (l' & -> & Hl2).
    exists l'. split; [done|]. rewrite lookup_delete_ne; [done|]. intros <-. simplify_eq.
    apply Hne. by eapply ii_single0.
  - intros l' p' [Hne Hl2]%lookup_delete_Some. destruct (ii_owner0 l' p' Hl2) as [f' Hf1].
    exists f'. rewrite lookup_delete_ne; [done|]. intros <-. congruence.
  - intros f1 f2 p' pd pd' [_ H1]%lookup_delete_Some [_ H2]%lookup_delete_Some. by eapply ii_single0.
  - intros p'. pose proof (ii_refs0 p') as Hp. rewrite (mcount_delete _ _ _ _ Hl) in Hp.
    unfold refs_of in *. simpl. unfold pid_is at 1 in Hp. destruct (decide (p = p')) as [<-|Hne].
    + rewrite lookup_insert_eq. simpl. lia.
    + rewrite lookup_insert_ne by done. rewrite Hp. simpl. done.
Qed.

(** ** Refinement *)

(** One call does what the specification says, and does not get stuck. *)
Lemma ign_exec_refines c y : ign_inv y -> call_ok c y ->
  exists r y', ign_exec c y = Ret r y' /\ ign_inv y' /\ IgnSpec.step c (opened_of y) r (opened_of y').
Proof.
  intros I Hok. destruct c as [f cur|f|cur]; simpl.
  - pose proof (wp_ign_open y f cur I Hok) as W. unfold wp in W.
    destruct (dazukofs_ign_open cur (ign y)) as [[r pd] s'|w]; [|done]. simpl in W.
    destruct W as [[-> I']|[-> I']]; eexists _, _; (split; [done|]); simpl.
    + split; [done|]. apply IgnSpec.open_nomem.
    + split; [done|]. unfold opened_of. simpl. rewrite fmap_insert. apply IgnSpec.open_ok.
  - destruct (open_files y !! f) as [[p pd]|] eqn:Hf.
    + pose proof (wp_ign_release y f p pd I Hf) as W. unfold wp in W.
      destruct (dazukofs_ign_release pd (ign y)) as [r s'|w]; [|done].
      destruct W as [-> I']. eexists _, _. split; [done|]. split; [done|].
      unfold opened_of. simpl. rewrite fmap_delete. apply IgnSpec.close.
    + exists 0%Z, y. split_and!; [done|done|].
      replace (opened_of y) with (delete f (opened_of y)) at 2; [apply IgnSpec.close|].
      apply delete_id. unfold opened_of. by rewrite lookup_fmap, Hf.
  - pose proof (wp_check_ignore y cur I) as W. unfold wp in W.
    destruct (dazukofs_check_ignore_process cur (ign y)) as [r s'|w]; [|done].
    destruct W as [S' Hr]. exists r, (mk_isys s' (open_files y)). split_and!; [done|by apply ign_inv_same|].
    destruct Hr as [[-> Hi]|[-> Hi]]; [by apply IgnSpec.check_yes|by apply IgnSpec.check_no].
Qed.

Lemma ign_run_refines cs : forall y, ign_inv y -> disciplined cs y ->
  exists rs y', ign_run cs y = Ret rs y' /\ ign_inv y' /\ IgnSpec.run cs (opened_of y) rs (opened_of y').
Proof.
  induction cs as [|c cs IH]; intros y I D; simpl.
  { exists [], y. split_and!; [done|done|constructor]. }
  destruct D as [Hok D]. destruct (ign_exec_refines c y I Hok) as (r & y1 & E & I1 & H1).
  rewrite E in *. destruct (IH y1 I1 D) as (rs & y2 & E2 & I2 & H2). rewrite E2.
  exists (r :: rs), y2. split_and!; [done|done|]. by econstructor.
Qed.

Lemma ign_inv_init o : ign_inv (mk_isys (ign_init o) ∅).
Proof.
  split; simpl; try (intros; set_solver).
  - intros l. rewrite lookup_empty, elem_of_nil. split; [done|by intros [? ?]].
  - constructor.
  - intros l [? Hl]. by rewrite lookup_empty in Hl.
Qed.

(** The end of the device frees every structure. *)
Lemma wp_destroy_ign pos : forall s, NoDup pos -> ign_list s = pos ->
  (forall l, l ∈ pos <-> is_Some (ign_procs s !! l)) ->
  wp (destroy_ign pos) (fun _ s' => ign_list s' = [] /\ ign_procs s' = ∅) s.
Proof.
  induction pos as [|l q IH]; intros s Hnd Hl Hal.
  - apply wp_ret. split; [done|]. apply map_empty. intros l. apply eq_None_not_Some.
    rewrite <-Hal. apply not_elem_of_nil.
  - apply NoDup_cons in Hnd as [Hlq Hnd]. destruct (proj1 (Hal l)) as [p Hp]; [left|].
    apply wp_bind, wp_modify, wp_bind. unfold wp at 1, free_proc. simpl. rewrite Hp.
    apply IH; simpl; [done| |].
    + rewrite Hl, filter_cons, decide_False by tauto. apply filter_all. by intros x Hx ->.
    + intros l'. rewrite lookup_delete_is_Some, <-Hal, elem_of_cons. naive_solver.
Qed.
