(* ===== verification/DevInit.v ===== *)
(** * Start and end of the module

    [init_dazukofs_fs] and [exit_dazukofs_fs] of [super.c] with what they call:
    [dev.c], the [*_dev_init] and [*_dev_destroy] of the three kinds of
    devices, the slab caches of [event.c] and [super.c].  The model records what
    the kernel handed out and checks each release against it. *)

From S2P Require Import Prelude EventState EventOps EventInv GroupReg EventDestroy IgnDev.
From stdpp Require Import strings list gmap.

(** ** Resources *)

Inductive resource :=
| RCache (nm : string)              (* a slab cache *)
| RRegion (major minor : Z)         (* the device numbers *)
| RClass
| RCdev (cdev : string) (i : Z)     (* [ctrl_cdev], [ign_cdev], [groups_cdev[i]] *)
| RDevice (major minor : Z)
| RFilesystem.

#[export] Instance resource_eq_dec : EqDecision resource.
Proof. solve_decision. Defined.

(** [held] is what the module holds, [cachep] the static cache pointers that
    are not NULL; [answers] are the results of the coming registrations
    (negative: an error code; an empty list: success).  [ev] and [ign] are the
    states of the event layer and of the ignore device. *)
Record dstate := mk_dstate {
  held : list resource;
  cachep : list string;
  dev_major : Z;
  dev_minor_start : Z;
  dev_minor_end : Z;
  answers : list Z;
  ev : kstate;
  ign_st : istate
}.

Abbreviation DM := (SM dstate).

Definition set_held (x : list resource) (s : dstate) : dstate :=
  mk_dstate x (cachep s) (dev_major s) (dev_minor_start s) (dev_minor_end s) (answers s) (ev s) (ign_st s).
Definition set_cachep (x : list string) (s : dstate) : dstate :=
  mk_dstate (held s) x (dev_major s) (dev_minor_start s) (dev_minor_end s) (answers s) (ev s) (ign_st s).
Definition set_numbers (a b : Z) (s : dstate) : dstate :=
  mk_dstate (held s) (cachep s) a b (dev_minor_end s) (answers s) (ev s) (ign_st s).
Definition set_minor_end (x : Z) (s : dstate) : dstate :=
  mk_dstate (held s) (cachep s) (dev_major s) (dev_minor_start s) x (answers s) (ev s) (ign_st s).
Definition set_answers (x : list Z) (s : dstate) : dstate :=
  mk_dstate (held s) (cachep s) (dev_major s) (dev_minor_start s) (dev_minor_end s) x (ev s) (ign_st s).
Definition set_ev (x : kstate) (s : dstate) : dstate :=
  mk_dstate (held s) (cachep s) (dev_major s) (dev_minor_start s) (dev_minor_end s) (answers s) x (ign_st s).
Definition set_ign (x : istate) (s : dstate) : dstate :=
  mk_dstate (held s) (cachep s) (dev_major s) (dev_minor_start s) (dev_minor_end s) (answers s) (ev s) x.

(** A registration: 0, or the error code the kernel returns. *)
Definition acquire (r : resource) : DM Z :=
  fun s => let a := match answers s with a :: _ => a | [] => 0%Z end in
           let s1 := set_answers (tail (answers s)) s in
           if decide (a < 0)%Z then Ret a s1 else Ret 0%Z (set_held (r :: held s) s1).

Fixpoint remove_first (r : resource) (l : list resource) : option (list resource) :=
  match l with
  | [] => None
  | x :: q => if decide (x = r) then Some q else cons x <$> remove_first r q
  end.

(** Giving back what is not held is an error. *)
Definition release (r : resource) : DM unit :=
  fun s => match remove_first r (held s) with
           | Some l => Ret tt (set_held l s)
           | None => Stuck UseAfterFree
           end.

Definition in_ev {A} (m : SM kstate A) : DM A :=
  fun s => match m (ev s) with Ret a k => Ret a (set_ev k s) | Stuck w => Stuck w end.
Definition in_ign {A} (m : SM istate A) : DM A :=
  fun s => match m (ign_st s) with Ret a k => Ret a (set_ign k s) | Stuck w => Stuck w end.

(** ** Slab caches *)

(** [x_cachep = kmem_cache_create(...)]: whether the pointer is not NULL. *)
Definition kmem_cache_create (nm : string) : DM bool :=
  let! a := acquire (RCache nm) in
  if decide (a < 0)%Z then
    do! smodify (fun s => set_cachep (filter (fun x => x <> nm) (cachep s)) s) in sret false
  else
    do! smodify (fun s => set_cachep (nm :: cachep s) s) in sret true.

(** [if (x_cachep) kmem_cache_destroy(x_cachep)]; [clear] tells whether the
    pointer is set to NULL. *)
Definition destroy_if_set (clear : bool) (nm : string) : DM unit :=
  let! l := sget cachep in
  if decide (nm ∈ l) then
    do! release (RCache nm) in
    (if clear then smodify (fun s => set_cachep (filter (fun x => x <> nm) (cachep s)) s) else sret tt)
  else sret tt.

(** A sequence of creations up to the first that fails. *)
Fixpoint create_all (nms : list string) : DM bool :=
  match nms with
  | [] => sret true
  | nm :: q =>
      let! ok := kmem_cache_create nm in
      if negb ok then sret false else create_all q
  end.

Fixpoint destroy_all (clear : bool) (nms : list string) : DM unit :=
  match nms with
  | [] => sret tt
  | nm :: q => do! destroy_if_set clear nm in destroy_all clear q
  end.

Definition event_caches : list string :=
  ["dazukofs_group_cache"; "dazukofs_event_container_cache"; "dazukofs_event_cache"]%string.

(** [dazukofs_init_events] *)
Definition dazukofs_init_events : DM Z :=
  do! smodify (fun s => set_ev (set_proc_list [] (set_group_list [] (ev s))) s) in
  let! ok := create_all event_caches in
  if (ok : bool) then sret 0%Z
  else
    do! destroy_all false event_caches in
    sret (- ENOMEM)%Z.

(** [dazukofs_destroy_events] *)
Definition dazukofs_destroy_events_all : DM unit :=
  do! in_ev dazukofs_destroy_events in
  do! release (RCache "dazukofs_group_cache") in
  do! release (RCache "dazukofs_event_container_cache") in
  release (RCache "dazukofs_event_cache").

Definition fs_caches : list string :=
  ["dazukofs_inode_info_cache"; "dazukofs_sb_info_cache"; "dazukofs_dentry_info_cache";
   "dazukofs_file_info_cache"]%string.

(** [destroy_caches]: each pointer is NULL afterwards. *)
Definition destroy_caches : DM unit := destroy_all true fs_caches.

(** [init_caches] *)
Definition init_caches : DM Z :=
  let! ok := create_all fs_caches in
  if (ok : bool) then sret 0%Z
  else do! destroy_caches in sret (- ENOMEM)%Z.

(** ** The control and the ignore device *)

(** [dazukofs_ctrl_dev_init] *)
Definition dazukofs_ctrl_dev_init (major minor : Z) : DM Z :=
  let! err := acquire (RCdev "ctrl" 0) in
  if decide (err <> 0%Z) then sret err
  else
    let! dev := acquire (RDevice major minor) in
    if decide (dev < 0)%Z then do! release (RCdev "ctrl" 0) in sret dev
    else sret 0%Z.

(** [dazukofs_ctrl_dev_destroy] *)
Definition dazukofs_ctrl_dev_destroy (major minor : Z) : DM unit :=
  do! release (RDevice major minor) in release (RCdev "ctrl" 0).

(** [dazukofs_ign_dev_init] *)
Definition dazukofs_ign_dev_init (major minor : Z) : DM Z :=
  do! in_ign (smodify (with_list [])) in
  let! ok := kmem_cache_create "dazukofs_ign_cache" in
  if negb ok then sret (- ENOMEM)%Z
  else
    let! err := acquire (RCdev "ign" 0) in
    if decide (err <> 0%Z) then
      do! in_ign dazukofs_destroy_ignlist in
      do! release (RCache "dazukofs_ign_cache") in
      sret err
    else
      let! dev := acquire (RDevice major minor) in
      if decide (dev < 0)%Z then
        do! release (RCdev "ign" 0) in
        do! in_ign dazukofs_destroy_ignlist in
        do! release (RCache "dazukofs_ign_cache") in
        sret dev
      else sret 0%Z.

(** [dazukofs_ign_dev_destroy] *)
Definition dazukofs_ign_dev_destroy (major minor : Z) : DM unit :=
  do! release (RDevice major minor) in
  do! release (RCdev "ign" 0) in
  do! in_ign dazukofs_destroy_ignlist in
  release (RCache "dazukofs_ign_cache").

(** ** The group devices *)

(** The loop over [cdev_add], [n] rounds from [cdev_count]: [err] and [cdev_count]. *)
Fixpoint add_cdevs (n : nat) (cdev_count : Z) : DM (Z * Z) :=
  match n with
  | O => sret (0%Z, cdev_count)
  | S n' =>
      let! err := acquire (RCdev "group" cdev_count) in
      if decide (err <> 0%Z) then sret (err, cdev_count) else add_cdevs n' (cdev_count + 1)
  end.

(** The loop over [device_create]: [err] and [dev_minor_end]. *)
Fixpoint create_devices (n : nat) (major minor_end : Z) : DM (Z * Z) :=
  match n with
  | O => sret (0%Z, minor_end)
  | S n' =>
      let! dev := acquire (RDevice major minor_end) in
      if decide (dev < 0)%Z then sret (dev, minor_end) else create_devices n' major (minor_end + 1)
  end.

(** [for (i = from; i < from + n; i++)] over [device_destroy] and [cdev_del]. *)
Fixpoint destroy_devices (n : nat) (major i : Z) : DM unit :=
  match n with
  | O => sret tt
  | S n' => do! release (RDevice major i) in destroy_devices n' major (i + 1)
  end.
Fixpoint del_cdevs (n : nat) (i : Z) : DM unit :=
  match n with
  | O => sret tt
  | S n' => do! release (RCdev "group" i) in del_cdevs n' (i + 1)
  end.

(** [dazukofs_group_dev_init] *)
Definition dazukofs_group_dev_init (major minor_start : Z) : DM Z :=
  let! r := add_cdevs (Z.to_nat GROUP_COUNT) 0 in
  let '(err, cdev_count) := r in
  if decide (err <> 0%Z) then
    do! del_cdevs (Z.to_nat cdev_count) 0 in sret err
  else
    let! r2 := create_devices (Z.to_nat GROUP_COUNT) major minor_start in
    let '(err2, minor_end) := r2 in
    if decide (err2 <> 0%Z) then
      do! destroy_devices (Z.to_nat (minor_end - minor_start)) major minor_start in
      do! del_cdevs (Z.to_nat cdev_count) 0 in
      sret err2
    else sret minor_end.

(** [dazukofs_group_dev_destroy] *)
Definition dazukofs_group_dev_destroy (major minor_start minor_end : Z) : DM unit :=
  do! destroy_devices (Z.to_nat (minor_end - minor_start)) major minor_start in
  del_cdevs (Z.to_nat GROUP_COUNT) 0.

(** ** The module *)

Section module_.
(** The numbers [alloc_chrdev_region] gives. *)
Context (devt_major devt_minor : Z).

(** [dazukofs_dev_init] *)
Definition dazukofs_dev_init : DM Z :=
  let! err1 := dazukofs_init_events in
  if decide (err1 <> 0%Z) then sret err1
  else
    let! err2 := acquire (RRegion devt_major devt_minor) in
    if decide (err2 <> 0%Z) then do! dazukofs_destroy_events_all in sret err2
    else
      do! smodify (set_numbers devt_major devt_minor) in
      let! err3 := acquire RClass in
      if decide (err3 < 0)%Z then
        do! release (RRegion devt_major devt_minor) in
        do! dazukofs_destroy_events_all in sret err3
      else
        let! err4 := dazukofs_ctrl_dev_init devt_major devt_minor in
        if decide (err4 <> 0%Z) then
          do! release RClass in
          do! release (RRegion devt_major devt_minor) in
          do! dazukofs_destroy_events_all in sret err4
        else
          let! err5 := dazukofs_ign_dev_init devt_major (devt_minor + 1) in
          if decide (err5 <> 0%Z) then
            do! dazukofs_ctrl_dev_destroy devt_major devt_minor in
            do! release RClass in
            do! release (RRegion devt_major devt_minor) in
            do! dazukofs_destroy_events_all in sret err5
          else
            let! minor_end := dazukofs_group_dev_init devt_major (devt_minor + 2) in
            do! smodify (set_minor_end minor_end) in
            if decide (minor_end < 0)%Z then
              do! dazukofs_ign_dev_destroy devt_major (devt_minor + 1) in
              do! dazukofs_ctrl_dev_destroy devt_major devt_minor in
              do! release RClass in
              do! release (RRegion devt_major devt_minor) in
              do! dazukofs_destroy_events_all in sret minor_end
            else sret 0%Z.

(** [dazukofs_dev_destroy] *)
Definition dazukofs_dev_destroy : DM unit :=
  let! major := sget dev_major in
  let! start := sget dev_minor_start in
  let! end_ := sget dev_minor_end in
  do! dazukofs_group_dev_destroy major (start + 2) end_ in
  do! dazukofs_ign_dev_destroy major (start + 1) in
  do! dazukofs_ctrl_dev_destroy major start in
  do! release RClass in
  do! release (RRegion major start) in
  dazukofs_destroy_events_all.

(** [init_dazukofs_fs] *)
Definition init_dazukofs_fs : DM Z :=
  let! err1 := dazukofs_dev_init in
  if decide (err1 <> 0%Z) then sret err1
  else
    let! err2 := init_caches in
    if decide (err2 <> 0%Z) then do! dazukofs_dev_destroy in sret err2
    else
      let! err3 := acquire RFilesystem in
      if decide (err3 <> 0%Z) then
        do! destroy_caches in
        do! dazukofs_dev_destroy in sret err3
      else sret 0%Z.

(** [exit_dazukofs_fs] *)
Definition exit_dazukofs_fs : DM unit :=
  do! release RFilesystem in
  do! destroy_caches in
  dazukofs_dev_destroy.
End module_.
