(* ===== verification/DevInitSpec.v ===== *)
(** * What the module holds

    The proofs about [DevInit]: a failed start gives back everything it took, a
    successful one holds all of it, and the end of the module gives it back. *)

From S2P Require Import Prelude EventState EventOps EventInv GroupReg EventSafe EventDestroy IgnDev DevInit.
From stdpp Require Import strings list gmap.

(** ** Lists of resources *)

Definition caches (nms : list string) : list resource := RCache <$> nms.
Definition ctrl_res (major minor : Z) : list resource := [RDevice major minor; RCdev "ctrl" 0].
Definition ign_res (major minor : Z) : list resource :=
  [RDevice major minor; RCdev "ign" 0; RCache "dazukofs_ign_cache"].
Fixpoint devices (n : nat) (major i : Z) : list resource :=
  match n with O => [] | S n' => RDevice major i :: devices n' major (i + 1) end.
Fixpoint cdevs (n : nat) (i : Z) : list resource :=
  match n with O => [] | S n' => RCdev "group" i :: cdevs n' (i + 1) end.
Definition group_res (major start : Z) : list resource :=
  devices (Z.to_nat GROUP_COUNT) major start ++ cdevs (Z.to_nat GROUP_COUNT) 0.
Definition dev_res (major minor : Z) : list resource :=
  group_res major (minor + 2) ++ ign_res major (minor + 1) ++ ctrl_res major minor ++
  [RClass; RRegion major minor] ++ caches event_caches.
Definition module_res (major minor : Z) : list resource :=
  RFilesystem :: caches fs_caches ++ dev_res major minor.

(** ** What a state holds *)

(** The state without the resources. *)
Definition base (s : dstate) : dstate := set_held [] (set_cachep [] (set_answers [] s)).

Definition holds (l : list resource) (cs : list string) (b : dstate) (s : dstate) : Prop :=
  held s ≡ₚ l /\ cachep s = cs /\ base s = b.

Lemma remove_first_perm r l l' : l ≡ₚ r :: l' -> exists q, remove_first r l = Some q /\ q ≡ₚ l'.
Proof.
  revert l'. induction l as [|x l IH]; intros l' H; [by apply Permutation_nil_cons in H|]. simpl.
  case_decide as Hx.
  - subst. exists l. split; [done|]. by apply Permutation_cons_inv in H.
  - assert (Hin : r ∈ l).
    { assert (r ∈ x :: l) as [->|?]%elem_of_cons; [rewrite H; left|done|done]. }
    apply elem_of_Permutation in Hin as [k Hk]. destruct (IH k Hk) as (q & -> & Hq).
    exists (x :: q). split; [done|]. rewrite Hk in H. rewrite Hq.
    apply (Permutation_cons_inv (a := r)). rewrite <-H. apply perm_swap.
Qed.

Section rules.
Implicit Types (l : list resource) (cs : list string) (b s : dstate).

Lemma wp_acquire r l cs b Q s : holds l cs b s ->
  (forall s', holds (r :: l) cs b s' -> Q 0%Z s') ->
  (forall a s', (a < 0)%Z -> holds l cs b s' -> Q a s') -> wp (acquire r) Q s.
Proof.
  intros (Hh & Hc & Hb) H1 H2. unfold wp, acquire. case_decide as Ha.
  - apply H2; [done|]. by split_and!.
  - apply H1. split_and!; [simpl; by rewrite Hh|done|done].
Qed.

Lemma wp_release r l l' cs b Q s : holds l cs b s -> l ≡ₚ r :: l' ->
  (forall s', holds l' cs b s' -> Q tt s') -> wp (release r) Q s.
Proof.
  intros (Hh & Hc & Hb) Hl H. rewrite Hl in Hh. destruct (remove_first_perm r _ _ Hh) as (q & E & Hq).
  unfold wp, release. rewrite E. apply H. by split_and!.
Qed.

Lemma wp_release_head r l cs b Q s : holds (r :: l) cs b s ->
  (forall s', holds l cs b s' -> Q tt s') -> wp (release r) Q s.
Proof. intros H. by apply (wp_release r (r :: l) l cs b). Qed.

Lemma wp_in_ev {A} (m : SM kstate A) (Q : A -> dstate -> Prop) s :
  wp m (fun a k => Q a (set_ev k s)) (ev s) -> wp (in_ev m) Q s.
Proof. unfold wp, in_ev. by destruct (m (ev s)). Qed.
Lemma wp_in_ign {A} (m : SM istate A) (Q : A -> dstate -> Prop) s :
  wp m (fun a k => Q a (set_ign k s)) (ign_st s) -> wp (in_ign m) Q s.
Proof. unfold wp, in_ign. by destruct (m (ign_st s)). Qed.

Lemma holds_perm l l' cs b s : l ≡ₚ l' -> holds l cs b s -> holds l' cs b s.
Proof. intros H (Hh & ? & ?). split_and!; [by rewrite Hh|done|done]. Qed.

Lemma base_ev s b : base s = b -> ev s = ev b /\ ign_st s = ign_st b /\ dev_major s = dev_major b /\
  dev_minor_start s = dev_minor_start b /\ dev_minor_end s = dev_minor_end b.
Proof. by intros <-. Qed.
End rules.

(** ** Slab caches *)

Lemma wp_cache_create nm l cs b Q s : holds l cs b s -> nm ∉ cs ->
  (forall s', holds (RCache nm :: l) (nm :: cs) b s' -> Q true s') ->
  (forall s', holds l cs b s' -> Q false s') -> wp (kmem_cache_create nm) Q s.
Proof.
  intros H Hn H1 H2. apply wp_bind. apply (wp_acquire _ l cs b); [done| |].
  - intros s' (Hh & Hc & Hb). rewrite decide_False by lia. apply wp_bind, wp_modify, wp_ret, H1.
    split_and!; [done|by rewrite <-Hc|done].
  - intros a s' Ha (Hh & Hc & Hb). rewrite decide_True by done. apply wp_bind, wp_modify, wp_ret, H2.
    split_and!; [done| |done]. simpl. rewrite Hc. apply filter_all. by intros x Hx ->.
Qed.

(** All of them, or a first part of them. *)
Lemma wp_create_all nms b s : forall l cs, holds l cs b s -> NoDup nms -> (forall nm, nm ∈ nms -> nm ∉ cs) ->
  wp (create_all nms) (fun ok s' => exists got rest, nms = got ++ rest /\
    (if ok then rest = [] else True) /\ holds (caches got ++ l) (reverse got ++ cs) b s') s.
Proof.
  revert s. induction nms as [|nm q IH]; intros s l cs H Hnd Hn.
  { apply wp_ret. by exists [], []. }
  apply NoDup_cons in Hnd as [Hq Hnd].
  apply wp_bind. apply (wp_cache_create nm l cs b); [done|apply Hn; left| |].
  - intros s' H'. eapply wp_mono; [apply (IH s' _ _ H' Hnd)|].
    + intros x Hx [->|Hc]%elem_of_cons; [done|]. apply (Hn x); [by right|done].
    + intros ok s'' (got & rest & -> & Hok & Hh). exists (nm :: got), rest. split_and!; [done|done|].
      simpl. rewrite reverse_cons, <-app_assoc. eapply holds_perm; [|exact Hh]. symmetry. apply Permutation_middle.
  - intros s' H'. apply wp_ret. by exists [], (nm :: q).
Qed.

Lemma wp_destroy_all clear nms : forall got l cs b s,
  NoDup nms -> (forall nm, nm ∈ nms -> nm ∈ cs <-> nm ∈ got) -> NoDup got -> got ⊆ nms ->
  holds (caches got ++ l) cs b s ->
  wp (destroy_all clear nms) (fun _ s' => exists cs', holds l cs' b s') s.
Proof.
  induction nms as [|nm q IH]; intros got l cs b s Hnd Hin Hg Hsub H.
  { apply wp_ret. exists cs. destruct got as [|x got]; [done|].
    assert (x ∈ []) as []%not_elem_of_nil by (apply Hsub; left). }
  apply NoDup_cons in Hnd as [Hq Hnd].
  apply wp_bind, wp_bind, wp_get. rewrite (proj1 (proj2 H)). case_decide as Hc.
  - apply Hin in Hc as Hgot; [|left]. set (got' := filter (fun x => x <> nm) got).
    assert (Hp : got ≡ₚ nm :: got') by (by apply filter_ne_perm).
    apply wp_bind. eapply (wp_release _ _ (caches got' ++ l)); [exact H| |].
    { unfold caches. by rewrite Hp. }
    intros s1 (Hh & Hcs & Hb).
    assert (Hcont : forall cs1 s2, holds (caches got' ++ l) cs1 b s2 ->
      (forall x, x ∈ q -> x ∈ cs1 <-> x ∈ cs) ->
      wp (destroy_all clear q) (fun _ s' => exists cs', holds l cs' b s') s2).
    { intros cs1 s2 H2 Hcs1. apply (IH got' l cs1 b s2); [done| | | |exact H2].
      - intros x Hx. rewrite Hcs1, Hin by (done || by right). unfold got'.
        rewrite list_elem_of_filter. split; [|by intros []]. intros Hxg. split; [|done]. by intros ->.
      - by apply NoDup_filter.
      - intros x [Hne Hx]%list_elem_of_filter. apply Hsub in Hx as [->|Hx]%elem_of_cons; done. }
    destruct clear; [apply wp_modify|apply wp_ret].
    + apply (Hcont (filter (fun x => x <> nm) cs)); [by rewrite <-Hcs|].
      intros x Hx. rewrite list_elem_of_filter. split; [by intros []|]. intros Hxc. split; [|done]. by intros ->.
    + by apply (Hcont cs).
  - apply wp_ret. apply (IH got l cs b s); [done| |done| |done].
    + intros x Hx. apply Hin. by right.
    + intros x Hx. destruct (proj1 (elem_of_cons _ _ _) (Hsub x Hx)) as [->|?]; [|done].
      destruct Hc. apply Hin; [left|done].
Qed.

(** ** Devices *)

(** The outcome of an initialisation: [res] is held in addition, or nothing is. *)
Definition outcome (res l : list resource) (b : dstate) (r : Z) (s' : dstate) : Prop :=
  exists cs', (r = 0%Z /\ holds (res ++ l) cs' b s') \/ ((r < 0)%Z /\ holds l cs' b s').

Lemma wp_ctrl_init major minor l cs b s : holds l cs b s ->
  wp (dazukofs_ctrl_dev_init major minor) (fun r s' =>
    (r = 0%Z /\ holds (ctrl_res major minor ++ l) cs b s') \/ ((r < 0)%Z /\ holds l cs b s')) s.
Proof.
  intros H. apply wp_bind. apply (wp_acquire _ l cs b); [done| |].
  - intros s1 H1. rewrite decide_False by tauto. apply wp_bind.
    apply (wp_acquire _ (RCdev "ctrl" 0 :: l) cs b); [done| |].
    + intros s2 H2. rewrite decide_False by lia. apply wp_ret. by left.
    + intros a s2 Ha H2. rewrite decide_True by done. apply wp_bind.
      eapply wp_release_head; [exact H2|]. intros s3 H3. apply wp_ret. by right.
  - intros a s1 Ha H1. rewrite decide_True by lia. apply wp_ret. by right.
Qed.

Lemma wp_ctrl_destroy major minor l cs b Q s : holds (ctrl_res major minor ++ l) cs b s ->
  (forall s', holds l cs b s' -> Q tt s') -> wp (dazukofs_ctrl_dev_destroy major minor) Q s.
Proof.
  intros H HQ. apply wp_bind. eapply wp_release_head; [exact H|].
  intros s1 H1. eapply wp_release_head; [exact H1|done].
Qed.

(** The list of the ignore device and its structures go together. *)
Definition ign_ok (s : istate) : Prop :=
  NoDup (ign_list s) /\ forall l, l ∈ ign_list s <-> is_Some (ign_procs s !! l).

(** Destroying the list of the ignore device. *)
Lemma wp_destroy_ign_in l cs b Q s : holds l cs b s -> ign_ok (ign_st b) ->
  (forall s' i, holds l cs (set_ign i b) s' -> ign_list i = [] -> ign_procs i = ∅ ->
     (ign_list (ign_st b) = [] -> i = ign_st b) -> Q tt s') ->
  wp (in_ign dazukofs_destroy_ignlist) Q s.
Proof.
  intros (Hh & Hc & Hb) [Hnd Hl] HQ. destruct (base_ev s b Hb) as (_ & Ei & _).
  apply wp_in_ign. rewrite Ei.
  destruct (wp_run _ _ _ (wp_destroy_ign (ign_list (ign_st b)) (ign_st b) Hnd eq_refl Hl))
    as ([] & i & E & Hi & Hp).
  eapply (wp_of_run dazukofs_destroy_ignlist); [exact E|]. apply (HQ _ i); [|done|done|].
  - split_and!; [done|done|]. by rewrite <-Hb.
  - intros El. rewrite El in E. by injection E.
Qed.

Lemma set_ign_self b : set_ign (ign_st b) b = b.
Proof. by destruct b. Qed.

Section ign_dev.
Context (major minor : Z) (l : list resource) (b : dstate).

Lemma wp_ign_cleanup cs (Q : Z -> dstate -> Prop) s r : holds (RCache "dazukofs_ign_cache" :: l) cs b s ->
  ign_ok (ign_st b) -> ign_list (ign_st b) = [] -> (forall s', holds l cs b s' -> Q r s') ->
  wp (do! in_ign dazukofs_destroy_ignlist in do! release (RCache "dazukofs_ign_cache") in sret r) Q s.
Proof.
  intros H Hok Hnil HQ. apply wp_bind. eapply wp_destroy_ign_in; [exact H|done|].
  intros s1 i H1 _ _ Hi. rewrite Hi, set_ign_self in H1 by done.
  apply wp_bind. eapply wp_release_head; [exact H1|]. intros s2 H2. by apply wp_ret, HQ.
Qed.

Lemma wp_ign_init cs s : holds l cs b s -> "dazukofs_ign_cache" ∉ cs ->
  ign_ok (ign_st b) -> ign_list (ign_st b) = [] ->
  wp (dazukofs_ign_dev_init major minor) (fun r s' =>
    (r = 0%Z /\ holds (ign_res major minor ++ l) ("dazukofs_ign_cache"%string :: cs) b s') \/
    ((r < 0)%Z /\ exists cs', holds l cs' b s')) s.
Proof.
  intros H Hn Hok Hnil. apply wp_bind, wp_in_ign, wp_modify.
  assert (H0 : holds l cs b (set_ign (with_list [] (ign_st s)) s)).
  { destruct H as (Hh & Hc & Hb). split_and!; [done|done|]. destruct (base_ev s b Hb) as (_ & Ei & _).
    assert (E : with_list [] (ign_st s) = ign_st s).
    { unfold with_list. rewrite <-Ei in Hnil. rewrite <-Hnil. by destruct (ign_st s). }
    rewrite E. by destruct s. }
  apply wp_bind. apply (wp_cache_create _ l cs b); [done|done| |].
  2:{ intros s1 H1. apply wp_ret. right. split; [done|eauto]. }
  intros s1 H1. simpl. apply wp_bind. eapply wp_acquire; [exact H1| |].
  - intros s2 H2. rewrite decide_False by tauto. apply wp_bind. eapply wp_acquire; [exact H2| |].
    + intros s3 H3. rewrite decide_False by lia. apply wp_ret. by left.
    + intros a s3 Ha H3. rewrite decide_True by done. apply wp_bind.
      eapply wp_release_head; [exact H3|]. intros s4 H4.
      eapply wp_ign_cleanup; [exact H4|done|done|]. intros s5 H5. right. eauto.
  - intros a s2 Ha H2. rewrite decide_True by lia.
    eapply wp_ign_cleanup; [exact H2|done|done|]. intros s3 H3. right. eauto.
Qed.
End ign_dev.

Lemma wp_ign_destroy major minor l cs b Q s : holds (ign_res major minor ++ l) cs b s ->
  ign_ok (ign_st b) ->
  (forall s' i, holds l cs (set_ign i b) s' -> ign_list i = [] -> ign_procs i = ∅ ->
    (ign_list (ign_st b) = [] -> i = ign_st b) -> Q tt s') ->
  wp (dazukofs_ign_dev_destroy major minor) Q s.
Proof.
  intros H Hok HQ. apply wp_bind. eapply wp_release_head; [exact H|]. intros s1 H1.
  apply wp_bind. eapply wp_release_head; [exact H1|]. intros s2 H2.
  apply wp_bind. eapply wp_destroy_ign_in; [exact H2|done|]. intros s3 i H3 Hi Hp Hsame.
  eapply wp_release_head; [exact H3|]. intros s4 H4. eauto.
Qed.

Section group_dev.
Context (l : list resource) (cs : list string) (b : dstate).

(** The loops; the failure after [k] rounds holds what [k] rounds took. *)
Lemma wp_add_cdevs n : forall i l' s, holds l' cs b s ->
  wp (add_cdevs n i) (fun r s' =>
    (r = (0, i + Z.of_nat n)%Z /\ holds (cdevs n i ++ l') cs b s') \/
    (exists k, (r.1 < 0)%Z /\ r.2 = (i + Z.of_nat k)%Z /\ holds (cdevs k i ++ l') cs b s')) s.
Proof.
  induction n as [|n IH]; intros i l' s H; cbn [add_cdevs].
  { apply wp_ret. left. split; [f_equal; lia|done]. }
  apply wp_bind. eapply wp_acquire; [exact H| |].
  - intros s1 H1. rewrite decide_False by tauto. eapply wp_mono; [by apply IH|].
    intros r s' [[-> H2]|(k & Hr & Hk & H2)].
    + left. split; [f_equal; lia|]. eapply holds_perm; [|exact H2]. symmetry. apply Permutation_middle.
    + right. exists (S k). split_and!; [done|lia|]. eapply holds_perm; [|exact H2]. symmetry. apply Permutation_middle.
  - intros a s1 Ha H1. rewrite decide_True by lia. apply wp_ret. right. exists 0.
    split_and!; [done|simpl; lia|done].
Qed.

Lemma wp_create_devices n major : forall i l' s, holds l' cs b s ->
  wp (create_devices n major i) (fun r s' =>
    (r = (0, i + Z.of_nat n)%Z /\ holds (devices n major i ++ l') cs b s') \/
    (exists k, (r.1 < 0)%Z /\ r.2 = (i + Z.of_nat k)%Z /\ holds (devices k major i ++ l') cs b s')) s.
Proof.
  induction n as [|n IH]; intros i l' s H; cbn [create_devices].
  { apply wp_ret. left. split; [f_equal; lia|done]. }
  apply wp_bind. eapply wp_acquire; [exact H| |].
  - intros s1 H1. rewrite decide_False by lia. eapply wp_mono; [by apply IH|].
    intros r s' [[-> H2]|(k & Hr & Hk & H2)].
    + left. split; [f_equal; lia|]. eapply holds_perm; [|exact H2]. symmetry. apply Permutation_middle.
    + right. exists (S k). split_and!; [done|lia|]. eapply holds_perm; [|exact H2]. symmetry. apply Permutation_middle.
  - intros a s1 Ha H1. rewrite decide_True by lia. apply wp_ret. right. exists 0.
    split_and!; [done|simpl; lia|done].
Qed.

Lemma wp_del_cdevs n : forall i l' Q s, holds (cdevs n i ++ l') cs b s ->
  (forall s', holds l' cs b s' -> Q tt s') -> wp (del_cdevs n i) Q s.
Proof.
  induction n as [|n IH]; intros i l' Q s H HQ; cbn [del_cdevs]; [by apply wp_ret, HQ|].
  apply wp_bind. eapply wp_release_head; [exact H|]. intros s1 H1. by eapply IH.
Qed.

Lemma wp_destroy_devices n major : forall i l' Q s, holds (devices n major i ++ l') cs b s ->
  (forall s', holds l' cs b s' -> Q tt s') -> wp (destroy_devices n major i) Q s.
Proof.
  induction n as [|n IH]; intros i l' Q s H HQ; cbn [destroy_devices]; [by apply wp_ret, HQ|].
  apply wp_bind. eapply wp_release_head; [exact H|]. intros s1 H1. by eapply IH.
Qed.

Lemma wp_group_init major start s : holds l cs b s -> (0 <= start)%Z ->
  wp (dazukofs_group_dev_init major start) (fun r s' =>
    (r = (start + GROUP_COUNT)%Z /\ holds (group_res major start ++ l) cs b s') \/
    ((r < 0)%Z /\ holds l cs b s')) s.
Proof.
  intros H Hst. apply wp_bind. eapply wp_mono; [by apply wp_add_cdevs|].
  intros r s1 [[-> H1]|(k & Hr & Hk & H1)].
  - rewrite decide_False by tauto. apply wp_bind. eapply wp_mono; [by eapply wp_create_devices|].
    intros r s2 [[-> H2]|(k & Hr & Hk & H2)].
    + rewrite decide_False by tauto. apply wp_ret. left. split; [unfold GROUP_COUNT; lia|].
      unfold group_res. by rewrite <-app_assoc.
    + destruct r as [a e]; simpl in Hr, Hk; subst. rewrite decide_True by lia.
      apply wp_bind. replace (Z.to_nat (start + Z.of_nat k - start)) with k by lia.
      eapply wp_destroy_devices; [exact H2|]. intros s3 H3. apply wp_bind.
      eapply (wp_del_cdevs _ 0 l); [exact H3|]. intros s4 H4. apply wp_ret. by right.
  - destruct r as [a e]; simpl in Hr, Hk; subst. rewrite decide_True by lia. apply wp_bind.
    replace (Z.to_nat (0 + Z.of_nat k)) with k by lia. eapply wp_del_cdevs; [exact H1|].
    intros s2 H2. apply wp_ret. by right.
Qed.

Lemma wp_group_destroy major start Q s : holds (group_res major start ++ l) cs b s ->
  (forall s', holds l cs b s' -> Q tt s') ->
  wp (dazukofs_group_dev_destroy major start (start + GROUP_COUNT)) Q s.
Proof.
  intros H HQ. apply wp_bind. replace (start + GROUP_COUNT - start)%Z with GROUP_COUNT by lia.
  unfold group_res in H. rewrite <-app_assoc in H.
  eapply wp_destroy_devices; [exact H|]. intros s1 H1. by eapply wp_del_cdevs.
Qed.
End group_dev.

(** ** The event layer *)

Lemma wp_init_caches_of clear nms l cs b s :
  holds l cs b s -> NoDup nms -> (forall nm, nm ∈ nms -> nm ∉ cs) ->
  wp (let! ok := create_all nms in
      if (ok : bool) then sret 0%Z else do! destroy_all clear nms in sret (- ENOMEM)%Z) (fun r s' =>
    (r = 0%Z /\ holds (caches nms ++ l) (reverse nms ++ cs) b s') \/
    ((r < 0)%Z /\ exists cs', holds l cs' b s')) s.
Proof.
  intros H Hnd Hn. apply wp_bind. eapply wp_mono; [by apply (wp_create_all nms b s l cs)|].
  intros ok s1 (got & rest & -> & Hok & H1). destruct ok.
  - subst. rewrite app_nil_r in *. apply wp_ret. by left.
  - apply NoDup_app in Hnd as Hnd'. destruct Hnd' as (Hg & Hgr & _).
    apply wp_bind. eapply wp_mono.
    { apply (wp_destroy_all clear (got ++ rest) got l (reverse got ++ cs) b); [done| |done| |exact H1].
      - intros x Hx. rewrite elem_of_app, elem_of_reverse. split; [|tauto]. intros [?|Hc]; [done|].
        by destruct (Hn x Hx).
      - intros x Hx. apply elem_of_app. by left. }
    intros [] s2 [cs' H2]. apply wp_ret. right. split; [done|eauto].
Qed.

Lemma wp_destroy_events_in gh l cs b Q s : holds (caches event_caches ++ l) cs b s ->
  grp_inv gh (ev b) -> unused_groups gh ->
  (forall s' k, holds l cs (set_ev k b) s' -> group_list k = [] ->
     (group_list (ev b) = [] -> k = ev b) -> Q tt s') ->
  wp dazukofs_destroy_events_all Q s.
Proof.
  intros (Hh & Hc & Hb) I Hu HQ. destruct (base_ev s b Hb) as (Ee & _).
  apply wp_bind, wp_in_ev. rewrite Ee.
  destruct (wp_run _ _ _ (wp_destroy_events gh (ev b) I Hu)) as ([] & k & E & _ & Hk & _).
  eapply (wp_of_run dazukofs_destroy_events); [exact E|].
  assert (H1 : holds (caches event_caches ++ l) cs (set_ev k b) (set_ev k s)).
  { split_and!; [done|done|]. by rewrite <-Hb. }
  apply wp_bind. eapply wp_release_head; [exact H1|]. intros s2 H2.
  apply wp_bind. eapply wp_release_head; [exact H2|]. intros s3 H3.
  eapply wp_release_head; [exact H3|]. intros s4 H4. apply (HQ s4 k); [done|done|].
  intros El. unfold dazukofs_destroy_events, sbind, sget in E. rewrite El in E. by injection E.
Qed.

Lemma set_ev_self b : set_ev (ev b) b = b.
Proof. by destruct b. Qed.

(** The state of the two layers before anything happened. *)
Definition fresh_base (b : dstate) : Prop :=
  grp_inv no_ghost (ev b) /\ group_list (ev b) = [] /\ proc_list (ev b) = [] /\
  ign_ok (ign_st b) /\ ign_list (ign_st b) = [].

Section init.
Context (major minor : Z) (b : dstate) (Hfresh : fresh_base b) (Hminor : (0 <= minor)%Z).

(** Undoing from the event layer on, in a fresh state. *)
Lemma wp_undo_events l cs r (Q : Z -> dstate -> Prop) s b' :
  holds (caches event_caches ++ l) cs b' s -> ev b' = ev b -> (forall s', holds l cs b' s' -> Q r s') ->
  wp (do! dazukofs_destroy_events_all in sret r) Q s.
Proof.
  destruct Hfresh as (I & Hl & _). intros H E HQ. apply wp_bind.
  eapply wp_destroy_events_in; [exact H|by rewrite E|by intros g|].
  intros s' k H' _ Hk. rewrite E in Hk. rewrite Hk, <-E, set_ev_self in H' by done. by apply wp_ret, HQ.
Qed.

Lemma wp_init_events l s : holds l [] b s ->
  wp dazukofs_init_events (fun r s' =>
    (r = 0%Z /\ holds (caches event_caches ++ l) (reverse event_caches) b s') \/
    ((r < 0)%Z /\ exists cs', holds l cs' b s')) s.
Proof.
  destruct Hfresh as (_ & Hl & Hp & _). intros (Hh & Hc & Hb). apply wp_bind, wp_modify.
  apply (wp_init_caches_of false event_caches l [] b).
  - split_and!; [done|done|]. destruct (base_ev s b Hb) as (Ee & _).
    assert (E : set_proc_list [] (set_group_list [] (ev s)) = ev s).
    { rewrite <-Ee in Hl, Hp. destruct (ev s). simpl in *. by subst. }
    rewrite E, <-Hb. by destruct s.
  - by apply (bool_decide_unpack _).
  - intros nm _. apply not_elem_of_nil.
Qed.

(** Undoing from the class on. *)
Lemma wp_undo_class l cs r (Q : Z -> dstate -> Prop) s b' :
  holds ([RClass; RRegion major minor] ++ caches event_caches ++ l) cs b' s -> ev b' = ev b ->
  (forall s', holds l cs b' s' -> Q r s') ->
  wp (do! release RClass in
      do! release (RRegion major minor) in
      do! dazukofs_destroy_events_all in sret r) Q s.
Proof.
  intros H E HQ. apply wp_bind. eapply wp_release_head; [exact H|]. intros s1 H1.
  apply wp_bind. eapply wp_release_head; [exact H1|]. intros s2 H2. by eapply wp_undo_events.
Qed.

(** Undoing from the control device on. *)
Lemma wp_undo_ctrl l cs r (Q : Z -> dstate -> Prop) s b' :
  holds (ctrl_res major minor ++ [RClass; RRegion major minor] ++ caches event_caches ++ l) cs b' s ->
  ev b' = ev b -> (forall s', holds l cs b' s' -> Q r s') ->
  wp (do! dazukofs_ctrl_dev_destroy major minor in
      do! release RClass in
      do! release (RRegion major minor) in
      do! dazukofs_destroy_events_all in sret r) Q s.
Proof.
  intros H E HQ. apply wp_bind. eapply wp_ctrl_destroy; [exact H|]. intros s1 H1. by eapply wp_undo_class.
Qed.

Definition loaded_base : dstate := set_minor_end (minor + 2 + GROUP_COUNT) (set_numbers major minor b).

Lemma holds_numbers l cs x y s b' : holds l cs b' s -> holds l cs (set_numbers x y b') (set_numbers x y s).
Proof. intros (? & ? & <-). by split_and!. Qed.
Lemma holds_minor_end l cs x s b' : holds l cs b' s -> holds l cs (set_minor_end x b') (set_minor_end x s).
Proof. intros (? & ? & <-). by split_and!. Qed.

(** The devices, once region and class are there. *)
Definition dev_caches : list string := "dazukofs_ign_cache"%string :: reverse event_caches.

Lemma wp_dev_init l s : holds l [] b s ->
  wp (dazukofs_dev_init major minor) (fun r s' =>
    (r = 0%Z /\ holds (dev_res major minor ++ l) dev_caches loaded_base s') \/
    ((r < 0)%Z /\ held s' ≡ₚ l)) s.
Proof.
  intros H. destruct Hfresh as (_ & _ & _ & Hok & Hnil). set (b1 := set_numbers major minor b).
  assert (Hfail : forall cs b' s', holds l cs b' s' -> held s' ≡ₚ l) by (by intros ??? []).
  apply wp_bind. eapply wp_mono; [by apply wp_init_events|].
  intros r s1 [[-> H1]|[Hr [cs1 H1]]]; [|rewrite decide_True by lia; apply wp_ret; eauto].
  rewrite decide_False by tauto. apply wp_bind. eapply wp_acquire; [exact H1| |].
  2:{ intros a s2 Ha H2. rewrite decide_True by lia.
      eapply wp_undo_events; [exact H2|done|]. intros s3 H3. right. eauto. }
  intros s2 H2. rewrite decide_False by tauto. apply wp_bind, wp_modify.
  apply (holds_numbers _ _ major minor) in H2. fold b1 in H2.
  apply wp_bind. eapply wp_acquire; [exact H2| |].
  2:{ intros a s3 Ha H3. rewrite decide_True by done. apply wp_bind.
      eapply wp_release_head; [exact H3|]. intros s4 H4.
      eapply wp_undo_events; [exact H4|done|]. intros s5 H5. right. eauto. }
  intros s3 H3. rewrite decide_False by lia. apply wp_bind.
  eapply wp_mono; [eapply wp_ctrl_init, H3|].
  intros r s4 [[-> H4]|[Hr H4]].
  2:{ rewrite decide_True by lia. eapply wp_undo_class; [exact H4|done|]. intros s5 H5. right. eauto. }
  rewrite decide_False by tauto. apply wp_bind.
  eapply wp_mono; [eapply wp_ign_init; [exact H4| |exact Hok|exact Hnil]|].
  { by apply (bool_decide_unpack _). }
  intros r s5 [[-> H5]|[Hr [cs5 H5]]].
  2:{ rewrite decide_True by lia. eapply wp_undo_ctrl; [exact H5|done|]. intros s6 H6. right. eauto. }
  rewrite decide_False by tauto. apply wp_bind.
  eapply wp_mono; [eapply wp_group_init; [exact H5|lia]|].
  intros r s6 [[-> H6]|[Hr H6]]; apply wp_bind, wp_modify.
  - rewrite decide_False by (unfold GROUP_COUNT; lia). apply wp_ret. left. split; [done|].
    apply (holds_minor_end _ _ (minor + 2 + GROUP_COUNT)) in H6.
    eapply holds_perm; [|exact H6]. unfold dev_res. by rewrite <-!app_assoc.
  - rewrite decide_True by done. apply (holds_minor_end _ _ r) in H6. apply wp_bind.
    eapply wp_ign_destroy; [exact H6|done|]. intros s7 i H7 _ _ Hi.
    rewrite Hi in H7 by done. eapply wp_undo_ctrl; [exact H7|done|]. intros s8 H8. right. eauto.
Qed.
End init.

(** ** The module *)

Section module_.
Context (major minor : Z) (Hminor : (0 <= minor)%Z).

(** [dazukofs_dev_destroy] gives back what [dazukofs_dev_init] took, whatever
    happened in between, once nobody uses a group. *)
Lemma wp_dev_destroy gh l cs b s :
  holds (dev_res major minor ++ l) cs b s ->
  dev_major b = major -> dev_minor_start b = minor -> dev_minor_end b = (minor + 2 + GROUP_COUNT)%Z ->
  grp_inv gh (ev b) -> unused_groups gh -> ign_ok (ign_st b) ->
  wp dazukofs_dev_destroy (fun _ s' => held s' ≡ₚ l /\ group_list (ev s') = [] /\ ign_procs (ign_st s') = ∅) s.
Proof.
  intros H E1 E2 E3 I Hu Hok. pose proof (base_ev s b (proj2 (proj2 H))) as (_ & _ & F1 & F2 & F3).
  apply wp_bind, wp_get, wp_bind, wp_get, wp_bind, wp_get. rewrite F1, F2, F3, E1, E2, E3.
  unfold dev_res in H. rewrite <-!app_assoc in H.
  apply wp_bind. eapply wp_group_destroy; [exact H|]. intros s1 H1.
  apply wp_bind. eapply wp_ign_destroy; [exact H1|done|]. intros s2 i H2 _ Hi _.
  apply wp_bind. eapply wp_ctrl_destroy; [exact H2|]. intros s3 H3.
  apply wp_bind. eapply wp_release_head; [exact H3|]. intros s4 H4.
  apply wp_bind. eapply wp_release_head; [exact H4|]. intros s5 H5.
  eapply wp_destroy_events_in; [exact H5|exact I|done|].
  intros s6 k (Hh & _ & Hb) Hk _. destruct (base_ev _ _ Hb) as (-> & -> & _). by split_and!.
Qed.

(** The module is loaded: what [init_dazukofs_fs] leaves, whatever the event
    layer and the ignore device have done since. *)
Definition loaded (s : dstate) : Prop :=
  held s ≡ₚ module_res major minor /\ cachep s = reverse fs_caches ++ dev_caches /\
  dev_major s = major /\ dev_minor_start s = minor /\ dev_minor_end s = (minor + 2 + GROUP_COUNT)%Z.

Lemma fs_caches_apart nm : nm ∈ fs_caches -> nm ∉ dev_caches.
Proof.
  assert (H : Forall (fun x => x ∉ dev_caches) fs_caches) by by apply (bool_decide_unpack _).
  rewrite Forall_forall in H. apply H.
Qed.

Lemma wp_destroy_caches l b s :
  holds (caches fs_caches ++ l) (reverse fs_caches ++ dev_caches) b s ->
  wp destroy_caches (fun _ s' => exists cs', holds l cs' b s') s.
Proof.
  intros H. eapply wp_destroy_all; [| | | |exact H].
  - by apply (bool_decide_unpack _).
  - intros nm Hnm. rewrite elem_of_app, elem_of_reverse. split; [|tauto]. intros [?|Hd]; [done|].
    by destruct (fs_caches_apart nm).
  - by apply (bool_decide_unpack _).
  - done.
Qed.

(** A start either takes everything, or fails and holds nothing. *)
Lemma wp_init_module b s : fresh_base b -> holds [] [] b s ->
  wp (init_dazukofs_fs major minor) (fun r s' =>
    (r = 0%Z /\ loaded s' /\ ev s' = ev b /\ ign_st s' = ign_st b) \/ ((r < 0)%Z /\ held s' = [])) s.
Proof.
  intros Hf H. pose proof Hf as (I & _ & _ & Hok & _).
  assert (Hdestroy : forall cs r s', holds (dev_res major minor ++ []) cs (loaded_base major minor b) s' ->
    (r < 0)%Z -> wp (do! dazukofs_dev_destroy in sret r) (fun r s' =>
    (r = 0%Z /\ loaded s' /\ ev s' = ev b /\ ign_st s' = ign_st b) \/ ((r < 0)%Z /\ held s' = [])) s').
  { intros cs r s' H' Hr. apply wp_bind.
    eapply wp_mono; [by eapply (wp_dev_destroy no_ghost); [exact H'|done..]|].
    intros [] s'' (Hh & _). apply wp_ret. right. split; [done|]. by apply Permutation_nil_r. }
  apply wp_bind. eapply wp_mono; [by apply (wp_dev_init major minor b Hf Hminor [])|].
  intros r s1 [[-> H1]|[Hr H1]].
  2:{ rewrite decide_True by lia. apply wp_ret. right. split; [done|]. by apply Permutation_nil_r. }
  rewrite decide_False by tauto. apply wp_bind.
  eapply wp_mono; [apply (wp_init_caches_of true fs_caches _ _ _ _ H1)|].
  { by apply (bool_decide_unpack _). }
  { apply fs_caches_apart. }
  intros r s2 [[-> H2]|[Hr [cs2 H2]]]; [|rewrite decide_True by lia; by eapply Hdestroy].
  rewrite decide_False by tauto. apply wp_bind. eapply wp_acquire; [exact H2| |].
  - intros s3 (Hh & Hc & Hb). rewrite decide_False by tauto. apply wp_ret. left. split; [done|].
    destruct (base_ev _ _ Hb) as (E1 & E2 & E3 & E4 & E5). rewrite app_nil_r in Hh. by split_and!.
  - intros a s3 Ha H3. rewrite decide_True by lia. apply wp_bind.
    eapply wp_mono; [by eapply wp_destroy_caches|]. intros [] s4 [cs4 H4]. by eapply Hdestroy.
Qed.

(** The end of the module gives everything back. *)
Lemma wp_exit_module gh s : loaded s -> grp_inv gh (ev s) -> unused_groups gh -> ign_ok (ign_st s) ->
  wp exit_dazukofs_fs (fun _ s' => held s' = [] /\ group_list (ev s') = [] /\ ign_procs (ign_st s') = ∅) s.
Proof.
  intros (Hh & Hc & E1 & E2 & E3) I Hu Hok.
  assert (H : holds (module_res major minor) (reverse fs_caches ++ dev_caches) (base s) s) by (by split_and!).
  apply wp_bind. eapply wp_release_head; [exact H|]. intros s1 H1.
  apply wp_bind. eapply wp_mono; [by eapply wp_destroy_caches|]. intros [] s2 [cs2 H2].
  rewrite <-(app_nil_r (dev_res major minor)) in H2.
  eapply wp_mono; [by eapply (wp_dev_destroy gh); [exact H2|done..]|].
  intros [] s3 (Hh3 & ?). split; [|done]. by apply Permutation_nil_r.
Qed.
End module_.
