(* ===== verification/DevFiles.v ===== *)
(** * From a device file to its operations ([group_dev.c], [ctrl_dev.c],
    [ign_dev.c], [dev.c])

    The control and the ignore device have a table of operations each; each group has a
    device with file operations of its own, which the macro [DECLARE_GROUP_FOPS] makes
    from those of all groups.  The kernel finds the
    operations of a device number among the ranges that [cdev_add] registered. *)

From stdpp Require Import strings list gmap.
From S2P Require Import Prelude EventState EventOps CText GroupText CtrlDev GroupDev IgnDev DevInit DevInitSpec.

(** ** The tables of operations *)

Record group_file_operations := mk_group_fops {
  fop_open : M (Z * bool);
  fop_release : bool -> M Z;
  fop_read : nat -> Z -> bool -> M (Z * Z * text);
  fop_write : text -> Z -> bool -> M (Z * Z);
  fop_poll : M Z
}.

Section tables.
(** [dazukofs_get_event] and [dazukofs_return_event] of [event.c], by group, and
    [simple_strtoul]. *)
Context (get_event : Z -> M (Z + Z * Z * Z)) (return_event : Z -> Z -> dazukofs_response_t -> M Z).
Context (simple_strtoul : text -> Z * text).

(** [DECLARE_GROUP_FOPS(group_id)] *)
Definition declare_group_fops (group_id : Z) : group_file_operations := {|
  fop_open := group_open group_id;
  fop_release := group_release group_id;
  fop_read := group_read (fun fd => kcall_ (KSysClose fd)) (get_event group_id) (return_event group_id);
  fop_write := group_write simple_strtoul (return_event group_id);
  fop_poll := group_poll group_id
|}.

Definition group_fops : list group_file_operations :=
  [declare_group_fops 0; declare_group_fops 1; declare_group_fops 2; declare_group_fops 3; declare_group_fops 4;
   declare_group_fops 5; declare_group_fops 6; declare_group_fops 7; declare_group_fops 8; declare_group_fops 9].

Record ctrl_file_operations := mk_ctrl_fops {
  ctrl_fop_open : option text;
  ctrl_fop_release : option text -> list text;
  ctrl_fop_read : option text -> nat -> nat -> bool -> M (Z * option text * nat * text);
  ctrl_fop_write : text -> text -> Z -> bool -> M (Z * Z)
}.
(** [fuel] bounds how often [dazukofs_get_groups] tries a larger buffer. *)
Definition ctrl_fops (fuel : nat) : ctrl_file_operations := {|
  ctrl_fop_open := ctrl_open;
  ctrl_fop_release := ctrl_release;
  ctrl_fop_read := ctrl_read (dazukofs_get_groups fuel);
  ctrl_fop_write := ctrl_write
|}.

Record ign_file_operations := mk_ign_fops {
  ign_fop_open : Z -> IM (Z * option IgnDev.loc);
  ign_fop_release : option IgnDev.loc -> IM Z
}.
Definition ign_fops : ign_file_operations := {|
  ign_fop_open := dazukofs_ign_open;
  ign_fop_release := dazukofs_ign_release
|}.

Inductive file_operations :=
| CtrlFops (f : ctrl_file_operations)
| IgnFops (f : ign_file_operations)
| GroupFops (f : group_file_operations).

(** ** Device numbers *)

(** The character devices of the module: [ctrl_cdev], [ign_cdev] and
    [groups_cdev[i]], which has the operations [group_fops[i]]. *)
Inductive chrdev := CtrlDev | IgnDev | GroupDev (i : Z).
#[export] Instance chrdev_eq_dec : EqDecision chrdev.
Proof. solve_decision. Defined.

(** The operations [cdev_init] gave a device. *)
Definition cdev_ops (fuel : nat) (d : chrdev) : option file_operations :=
  match d with
  | CtrlDev => Some (CtrlFops (ctrl_fops fuel))
  | IgnDev => Some (IgnFops ign_fops)
  | GroupDev i => GroupFops <$> group_fops !! Z.to_nat i
  end.
End tables.

(** A registered range: its first minor number, its length and the device. *)
Abbreviation region := (Z * Z * chrdev)%type.

(** What [cdev_add] was called with for a device; [minor] is [dev_minor_start]. *)
Definition cdev_region (minor : Z) (r : resource) : option region :=
  match r with
  | RCdev "ctrl" _ => Some (minor, 1%Z, CtrlDev)
  | RCdev "ign" _ => Some ((minor + 1)%Z, 1%Z, IgnDev)
  | RCdev _ i => Some ((minor + 2 + i)%Z, GROUP_COUNT, GroupDev i)
  | _ => None
  end.

(** The ranges that are registered, latest first. *)
Definition cdev_map (minor : Z) (s : dstate) : list region := omap (cdev_region minor) (held s).

Definition covers (r : region) (dev : Z) : Prop := (r.1.1 <= dev < r.1.1 + r.1.2)%Z.
#[export] Instance covers_dec r dev : Decision (covers r dev).
Proof. unfold covers. apply _. Defined.

(** How the kernel looks up a device number ([kobj_lookup]): of the ranges that cover
    it, the shortest, and of several of the same length the one registered last. *)
Definition lookup_law (lookup : list region -> Z -> option chrdev) : Prop :=
  forall later r earlier dev, covers r dev ->
    (forall x, x ∈ later -> covers x dev -> (r.1.2 < x.1.2)%Z) ->
    (forall x, x ∈ earlier -> covers x dev -> (r.1.2 <= x.1.2)%Z) ->
    lookup (later ++ r :: earlier) dev = Some r.2.

(** ** What is held after a start, in the order it was taken *)

Section order.
Implicit Types s : dstate.

Lemma acquire_held r s a s' : acquire r s = Ret a s' -> (0 <= a)%Z -> a = 0%Z /\ held s' = r :: held s.
Proof. unfold acquire. case_decide; intros [= <- <-] Ha; [lia|done]. Qed.

Lemma cache_held nm s s' : kmem_cache_create nm s = Ret true s' -> held s' = RCache nm :: held s.
Proof.
  unfold kmem_cache_create, sbind. destruct (acquire _ s) as [a s1|] eqn:E; [|done]. case_decide; [done|].
  intros [= <-]. simpl. by apply (acquire_held _ _ _ _ E); lia.
Qed.

Lemma create_all_held nms s s' : create_all nms s = Ret true s' -> held s' = reverse (caches nms) ++ held s.
Proof.
  revert s. induction nms as [|nm nms IH]; intros s; cbn [create_all]; [by intros [= <-]|]. unfold sbind.
  destruct (kmem_cache_create nm s) as [[] s1|] eqn:E; [|done..]. intros E1%IH. rewrite E1, (cache_held _ _ _ E).
  change (caches (nm :: nms)) with (RCache nm :: caches nms). by rewrite reverse_cons, <-app_assoc.
Qed.

Lemma add_cdevs_held n i s err j s' : add_cdevs n i s = Ret (err, j) s' ->
  (err = 0%Z /\ held s' = reverse (cdevs n i) ++ held s) \/ (err < 0)%Z.
Proof.
  revert i s. induction n as [|n IH]; intros i s; cbn [add_cdevs]; [intros [= <- _ <-]; by left|]. unfold sbind.
  destruct (acquire _ s) as [a s1|] eqn:E; [|done]. case_decide as Ha.
  - intros [= <- _ _]. right. destruct (decide (a < 0)%Z); [done|]. by destruct (acquire_held _ _ _ _ E) as [-> _]; [lia|].
  - intros [[-> E1]|]%IH; [left|by right]. split; [done|]. rewrite E1. destruct (acquire_held _ _ _ _ E) as [_ ->]; [lia|].
    change (cdevs (S n) i) with (RCdev "group" i :: cdevs n (i + 1)). by rewrite reverse_cons, <-app_assoc.
Qed.

Lemma create_devices_held n major i s err j s' : create_devices n major i s = Ret (err, j) s' ->
  (err = 0%Z /\ held s' = reverse (devices n major i) ++ held s) \/ (err < 0)%Z.
Proof.
  revert i s. induction n as [|n IH]; intros i s; cbn [create_devices]; [intros [= <- _ <-]; by left|]. unfold sbind.
  destruct (acquire _ s) as [a s1|] eqn:E; [|done]. case_decide as Ha; [intros [= <- _ _]; by right|].
  intros [[-> E1]|]%IH; [left|by right]. split; [done|]. rewrite E1. destruct (acquire_held _ _ _ _ E) as [_ ->]; [lia|].
  change (devices (S n) major i) with (RDevice major i :: devices n major (i + 1)). by rewrite reverse_cons, <-app_assoc.
Qed.

(** The next part of a sequence that has returned. *)
Ltac next H x s1 E := apply run_bind_inv in H as (x & s1 & E & H).
(** An error path does not return 0. *)
Ltac failed H := exfalso; repeat (let x := fresh in let s1 := fresh in let E := fresh in next H x s1 E); unfold ENOMEM in H; injection H; lia.

Lemma init_events_held s s' : dazukofs_init_events s = Ret 0%Z s' -> held s' = reverse (caches event_caches) ++ held s.
Proof.
  intros H. next H x s1 E. injection E as _ <-. next H ok s2 E. destruct ok; [|failed H].
  injection H as <-. by rewrite (create_all_held _ _ _ E).
Qed.

Lemma ctrl_held major minor s s' : dazukofs_ctrl_dev_init major minor s = Ret 0%Z s' -> held s' = ctrl_res major minor ++ held s.
Proof.
  intros H. next H err s1 E. case_decide as He; [injection H; lia|]. next H dev s2 E2. case_decide as Hd; [failed H|].
  injection H as <-. destruct (acquire_held _ _ _ _ E2) as [_ ->]; [lia|]. destruct (acquire_held _ _ _ _ E) as [_ ->]; [lia|done].
Qed.

Lemma ign_held major minor s s' : dazukofs_ign_dev_init major minor s = Ret 0%Z s' -> held s' = ign_res major minor ++ held s.
Proof.
  intros H. next H x s1 E. injection E as _ <-. next H ok s2 E. destruct ok; [|failed H]. cbn [negb] in H.
  next H err s3 E3. case_decide as He; [failed H|]. next H dev s4 E4. case_decide as Hd; [failed H|].
  injection H as <-. destruct (acquire_held _ _ _ _ E4) as [_ ->]; [lia|]. destruct (acquire_held _ _ _ _ E3) as [_ ->]; [lia|].
  by rewrite (cache_held _ _ _ E).
Qed.

Lemma group_held major start s r s' : dazukofs_group_dev_init major start s = Ret r s' -> (0 <= r)%Z ->
  held s' = reverse (devices (Z.to_nat GROUP_COUNT) major start) ++ reverse (cdevs (Z.to_nat GROUP_COUNT) 0) ++ held s.
Proof.
  intros H Hr. next H out s1 E. destruct out as [err n]. destruct (add_cdevs_held _ _ _ _ _ _ E) as [[-> Eh]|Hn].
  2:{ rewrite decide_True in H by lia. failed H. }
  rewrite decide_False in H by tauto. next H out s2 E2. destruct out as [err2 m].
  destruct (create_devices_held _ _ _ _ _ _ _ E2) as [[-> Eh2]|Hn].
  2:{ rewrite decide_True in H by lia. failed H. }
  rewrite decide_False in H by tauto. injection H as _ <-. by rewrite Eh2, Eh.
Qed.

(** All that the module has taken when it has started, latest first. *)
Definition taken (major minor : Z) : list resource :=
  RFilesystem :: reverse (caches fs_caches) ++ reverse (devices (Z.to_nat GROUP_COUNT) major (minor + 2)) ++
  reverse (cdevs (Z.to_nat GROUP_COUNT) 0) ++ ign_res major (minor + 1) ++ ctrl_res major minor ++
  [RClass; RRegion major minor] ++ reverse (caches event_caches).

Lemma dev_init_held major minor s s' : dazukofs_dev_init major minor s = Ret 0%Z s' -> held s = [] ->
  held s' = drop 5 (taken major minor).
Proof.
  intros H Hs. next H e1 s1 E1. case_decide; [injection H; lia|]. assert (e1 = 0%Z) as -> by tauto.
  next H e2 s2 E2. case_decide; [failed H|]. next H x s3 E3. injection E3 as _ <-.
  next H e3 s4 E4. case_decide; [failed H|]. next H e4 s5 E5. case_decide; [failed H|]. assert (e4 = 0%Z) as -> by tauto.
  next H e5 s6 E6. case_decide; [failed H|]. assert (e5 = 0%Z) as -> by tauto.
  next H e7 s7 E7. next H x' s8 E8. injection E8 as _ <-. case_decide; [failed H|]. injection H as <-. simpl.
  rewrite (group_held _ _ _ _ _ E7), (ign_held _ _ _ _ E6), (ctrl_held _ _ _ _ E5) by lia.
  destruct (acquire_held _ _ _ _ E4) as [_ ->]; [lia|]. simpl. destruct (acquire_held _ _ _ _ E2) as [_ ->]; [lia|].
  by rewrite (init_events_held _ _ E1), Hs.
Qed.

Lemma init_held major minor s s' : init_dazukofs_fs major minor s = Ret 0%Z s' -> held s = [] -> held s' = taken major minor.
Proof.
  intros H Hs. next H e1 s1 E1. case_decide; [injection H; lia|]. assert (e1 = 0%Z) as -> by tauto.
  next H e2 s2 E2. case_decide; [failed H|]. next H e3 s3 E3. case_decide; [failed H|]. injection H as <-.
  destruct (acquire_held _ _ _ _ E3) as [_ ->]; [lia|]. next E2 ok s4 E4. destruct ok; [|failed E2]. injection E2 as _ <-.
  by rewrite (create_all_held _ _ _ E4), (dev_init_held _ _ _ _ E1 Hs).
Qed.
End order.

(** ** A lookup that has the law *)

Definition shortest (r : region) (best : option region) : Prop := match best with Some b => (r.1.2 < b.1.2)%Z | None => True end.
#[export] Instance shortest_dec r best : Decision (shortest r best).
Proof. unfold shortest. destruct best; apply _. Defined.
Definition shorter (dev : Z) (best : option region) (r : region) : option region :=
  if decide (covers r dev /\ shortest r best) then Some r else best.
Definition kobj_lookup (l : list region) (dev : Z) : option chrdev := snd <$> foldl (shorter dev) None l.

Lemma kobj_lookup_law : lookup_law kobj_lookup.
Proof.
  intros later r earlier dev Hr Hl He. unfold kobj_lookup. rewrite foldl_app. simpl.
  assert (Hbest : shortest r (foldl (shorter dev) None later)).
  { assert (Hg : forall best, shortest r best ->
      shortest r (foldl (shorter dev) best later)); [|by apply Hg].
    induction later as [|x later IH]; intros best Hb; [done|]. simpl. apply IH; [intros y Hy; apply Hl; by right|].
    unfold shorter. case_decide as Hx; [|done]. simpl. apply Hl; [left|apply Hx]. }
  unfold shorter at 2. rewrite decide_True by done.
  assert (Hg : foldl (shorter dev) (Some r) earlier = Some r); [|by rewrite Hg].
  induction earlier as [|x earlier IH]; [done|]. simpl. unfold shorter at 2. rewrite decide_False.
  - apply IH. intros y Hy. apply He. by right.
  - simpl. intros [Hx Hlt]. specialize (He x ltac:(left) Hx). lia.
Qed.

(** The ranges of a started module. *)
Lemma cdev_map_taken major minor s : held s = taken major minor -> cdev_map minor s =
  ((fun i => ((minor + 2 + i)%Z, GROUP_COUNT, GroupDev i)) <$> [9; 8; 7; 6; 5; 4; 3; 2; 1; 0]%Z) ++
  [((minor + 1)%Z, 1%Z, IgnDev); (minor, 1%Z, CtrlDev)].
Proof. intros E. unfold cdev_map. by rewrite E. Qed.

Lemma split_groups gid : (0 <= gid < GROUP_COUNT)%Z -> exists later earlier, [9; 8; 7; 6; 5; 4; 3; 2; 1; 0]%Z = later ++ gid :: earlier /\
  (forall j, j ∈ later -> (gid < j)%Z).
Proof.
  unfold GROUP_COUNT. intros Hg. exists (filter (fun j => (gid < j)%Z) [9; 8; 7; 6; 5; 4; 3; 2; 1; 0]%Z),
    (filter (fun j => (j < gid)%Z) [9; 8; 7; 6; 5; 4; 3; 2; 1; 0]%Z).
  split; [|by intros j [Hj _]%list_elem_of_filter].
  assert (Hc : (gid = 0 \/ gid = 1 \/ gid = 2 \/ gid = 3 \/ gid = 4 \/ gid = 5 \/ gid = 6 \/ gid = 7 \/ gid = 8 \/ gid = 9)%Z) by lia.
  by destruct_or! Hc; subst gid.
Qed.

(** What the law gives for them. *)
Lemma lookup_group lookup major minor s gid : lookup_law lookup -> held s = taken major minor -> (0 <= gid < GROUP_COUNT)%Z ->
  lookup (cdev_map minor s) (minor + 2 + gid)%Z = Some (GroupDev gid).
Proof.
  intros Law E Hg. rewrite (cdev_map_taken _ _ _ E). destruct (split_groups gid Hg) as (later & earlier & -> & Hl).
  rewrite fmap_app, fmap_cons, <-app_assoc. apply (Law (_ <$> later) ((minor + 2 + gid)%Z, GROUP_COUNT, GroupDev gid)).
  - unfold covers, GROUP_COUNT. simpl. lia.
  - intros x (j & -> & Hj)%list_elem_of_fmap Hc. specialize (Hl j Hj). unfold covers in Hc. simpl in Hc. lia.
  - intros x [(j & -> & _)%list_elem_of_fmap|Hx]%elem_of_app Hc; [done|]. unfold covers in Hc. simpl.
    apply elem_of_cons in Hx as [->|[->|[]%elem_of_nil]%elem_of_cons]; simpl in Hc; lia.
Qed.

Lemma groups_apart (minor dev : Z) ids (x : region) : (dev < minor + 2)%Z -> Forall (Z.le 0) ids ->
  x ∈ (fun i => ((minor + 2 + i)%Z, GROUP_COUNT, GroupDev i)) <$> ids -> ~ covers x dev.
Proof.
  intros Hd Hi (i & -> & Hin)%list_elem_of_fmap. unfold covers. simpl. apply (list.Forall_forall _ ids) with (x := i) in Hi; [lia|done].
Qed.

Lemma lookup_ctrl lookup major minor s : lookup_law lookup -> held s = taken major minor ->
  lookup (cdev_map minor s) minor = Some CtrlDev /\ lookup (cdev_map minor s) (minor + 1)%Z = Some IgnDev.
Proof.
  intros Law E. rewrite (cdev_map_taken _ _ _ E). set (ids := [9; 8; 7; 6; 5; 4; 3; 2; 1; 0]%Z).
  assert (Hi : Forall (Z.le 0) ids) by (apply (bool_decide_unpack _); vm_compute; exact I). split.
  - change [((minor + 1)%Z, 1%Z, IgnDev); (minor, 1%Z, CtrlDev)] with ([((minor + 1)%Z, 1%Z, IgnDev)] ++ [(minor, 1%Z, CtrlDev)]).
    rewrite app_assoc. apply (Law _ (minor, 1%Z, CtrlDev)); [unfold covers; simpl; lia| |by intros x []%elem_of_nil].
    intros x [Hx|Hx]%elem_of_app Hc; [by destruct (groups_apart minor minor ids x ltac:(lia) Hi Hx)|].
    apply list_elem_of_singleton in Hx as ->. unfold covers in Hc. simpl in Hc. lia.
  - apply (Law _ ((minor + 1)%Z, 1%Z, IgnDev)); [unfold covers; simpl; lia| |intros x Hx Hc; by apply list_elem_of_singleton in Hx as ->].
    intros x Hx Hc. by destruct (groups_apart minor (minor + 1) ids x ltac:(lia) Hi Hx).
Qed.

Lemma device_taken major minor gid : (0 <= gid < GROUP_COUNT)%Z -> RDevice major (minor + 2 + gid)%Z ∈ taken major minor.
Proof.
  assert (Hd : forall n i, (i <= gid < i + Z.of_nat n)%Z -> RDevice major (minor + 2 + gid)%Z ∈ devices n major (minor + 2 + i)%Z).
  { induction n as [|n IH]; intros i Hi; [lia|]. simpl. apply elem_of_cons. destruct (decide (gid = i)) as [->|]; [by left|right].
    replace (minor + 2 + i + 1)%Z with (minor + 2 + (i + 1))%Z by lia. apply IH. lia. }
  intros Hg. unfold taken. right. apply elem_of_app. right. apply elem_of_app. left. apply elem_of_reverse.
  specialize (Hd (Z.to_nat GROUP_COUNT) 0%Z). rewrite Z.add_0_r in Hd. apply Hd. unfold GROUP_COUNT in *. lia.
Qed.

Lemma group_fops_lookup get_event return_event strtoul gid : (0 <= gid < GROUP_COUNT)%Z ->
  group_fops get_event return_event strtoul !! Z.to_nat gid = Some (declare_group_fops get_event return_event strtoul gid).
Proof.
  unfold GROUP_COUNT. intros Hg.
  assert (Hc : (gid = 0 \/ gid = 1 \/ gid = 2 \/ gid = 3 \/ gid = 4 \/ gid = 5 \/ gid = 6 \/ gid = 7 \/ gid = 8 \/ gid = 9)%Z) by lia.
  by destruct_or! Hc; subst gid.
Qed.
