(* ===== verification/ShowFiles.v ===== *)
(** * The example program ([test/showfiles.c])

    It asks for each access in turn, prints it and allows it, until a signal comes
    or a call fails. *)

From stdpp Require Import strings list.
From S2P Require Import Prelude CText UserLib.
From Stdlib Require Import Ascii.

(** ["%05lu"] *)
Definition fmt_05lu (n : Z) : text := replicate (5 - length (fmt_lu n)) "0"%char ++ fmt_lu n.

(** What the program uses besides the library: [running], which a signal handler
    clears, standard output, and messages on standard error. *)
Record progops (S : Type) := mk_progops {
  running : SM S bool;
  printf : text -> SM S unit;
  complain : text -> SM S unit
}.
Arguments running {S}. Arguments printf {S}. Arguments complain {S}.

Section showfiles.
Context {S : Type} (o : sysops S) (e : progops S).

(** [print_access]; [filename] is the buffer on the stack. *)
Definition print_access (filename : text) (acc : dazukofs_access) : SM S unit :=
  let! r := dazukofs_get_filename o acc filename in
  if decide (0 < r.1)%Z then
    printf e (txt "pid:" ++ fmt_05lu (acc_pid acc) ++ txt " file:" ++ cstr r.2 ++ [NL])
  else
    do! complain e (txt "dazukofs_get_filename") in
    printf e (txt "pid:" ++ fmt_05lu (acc_pid acc) ++ txt " file:???" ++ [NL]).

(** The complaint of the loop, unless a signal interrupted the call. *)
Definition complain_running (what : text) : SM S unit :=
  let! go := running e in
  if (go : bool) then complain e what else sret tt.

(** The loop of [main], for at most [fuel] rounds. *)
Fixpoint show_loop (fuel : nat) (filename : text) (hndl : dazukofs_handle) (acc : dazukofs_access) : SM S dazukofs_handle :=
  match fuel with
  | O => sfail OutOfFuel
  | Datatypes.S fuel =>
      let! go := running e in
      if negb go then sret hndl
      else
        let! r := dazukofs_get_access o hndl acc in
        let '(err, hndl, acc) := r in
        if decide (err <> 0%Z) then
          do! complain_running (txt "dazukofs_get_access") in sret hndl
        else
          do! print_access filename acc in
          let! ret := dazukofs_return_access o hndl acc in
          if decide (ret <> 0%Z) then
            do! complain_running (txt "dazukofs_return_access") in sret hndl
          else show_loop fuel filename hndl acc
  end.

(** [main]; [acc] is uninitialised. *)
Definition show_main (fuel : nat) (filename : text) (acc : dazukofs_access) : SM S Z :=
  let! h := dazukofs_open o (txt "dazukofs_example") true in
  match h with
  | None => do! complain e (txt "dazukofs_open") in sret (-1)%Z
  | Some hndl =>
      let! hndl := show_loop fuel filename hndl acc in
      let! err := dazukofs_close o hndl true in
      do! (if decide (err <> 0%Z) then complain e (txt "dazukofs_close") else sret tt) in
      do! printf e (NL :: txt "Goodbye." ++ [NL]) in
      sret 0%Z
  end.
End showfiles.
