(* ===== verification/ShowThms.v ===== *)
(** * The example program on the devices

    The program of [test/showfiles.c], the library, the control device and the read and
    write functions of a group device together, on a queue of events. *)

From S2P Require Import Prelude EventState EventOps EventInv GroupReg EventFlow EventTasks EventSafe CText GroupText CtrlDev GroupDev UserLib DevText UserOpen ShowFiles.
From stdpp Require Import strings list.
From Stdlib Require Import Ascii.

(** ** The system the program runs on *)

(** What can be seen from outside: files of events that are closed, lines that are
    printed, complaints, and answers that [dazukofs_return_event] accepts. *)
Inductive deed := Closed (fd : Z) | Printed (t : text) | Complained (t : text) | Answered (id : Z) (r : dazukofs_response_t).

(** The control device and the registry behind it; the events to come, those handed out
    and not answered, the position of the file of the group device, and the deeds so
    far, latest first. *)
Record session := mk_session {
  ctl : ustate;
  inbox : list (Z * Z * Z);
  unanswered : list (Z * Z * Z);
  dev_pos : Z;
  deeds : list deed
}.
Definition set_ctl (u : ustate) (s : session) : session := mk_session u (inbox s) (unanswered s) (dev_pos s) (deeds s).
Definition at_pos (p : Z) (s : session) : session := mk_session (ctl s) (inbox s) (unanswered s) p (deeds s).
Definition done_ (d : deed) (s : session) : session := mk_session (ctl s) (inbox s) (unanswered s) (dev_pos s) (d :: deeds s).

Definition lift_ctl {A} (m : SM ustate A) : SM session A :=
  fun s => match m (ctl s) with Ret a u => Ret a (set_ctl u s) | Stuck w => Stuck w end.

Section session.
(** [simple_strtoul] of the kernel, what the stack holds when a command is written, and
    where the links of [/proc/self/fd] lead. *)
Context (simple_strtoul : text -> Z * text) (stack : text) (names : text -> text).

Definition ctrl_fd : Z := 3.

(** [dazukofs_get_event], seen from the device: the next event; when there is none a
    signal interrupts it. *)
Definition next_event : SM session (Z + Z * Z * Z) :=
  fun s =>
    match inbox s with
    | e :: q => Ret (inr e) (mk_session (ctl s) q (e :: unanswered s) (dev_pos s) (deeds s))
    | [] => Ret (inl (- ERESTARTSYS)%Z) s
    end.

(** [dazukofs_return_event], seen from the device: an event that was handed out is
    answered, or given back. *)
Definition take_answer (id : Z) (r : dazukofs_response_t) : SM session Z :=
  fun s =>
    match filter (fun e => e.1.1 = id) (unanswered s) with
    | [] => Ret (- EINVAL)%Z s
    | e :: _ =>
        let left := filter (fun e => e.1.1 <> id) (unanswered s) in
        Ret 0%Z (if decide (r = REPOST) then mk_session (ctl s) (e :: inbox s) left (dev_pos s) (deeds s)
                 else mk_session (ctl s) (inbox s) left (dev_pos s) (Answered id r :: deeds s))
    end.

Definition close_fd (fd : Z) : SM session unit := smodify (done_ (Closed fd)).

(** A negative result becomes [-1]. *)
Definition read_group (n : nat) : SM session (Z * text) :=
  let! pos := sget dev_pos in
  let! out := group_read close_fd next_event take_answer n pos false in
  do! smodify (at_pos out.1.2) in
  sret (if decide (out.1.1 < 0)%Z then ((-1)%Z, []) else (out.1.1, out.2)).
Definition write_group (t : text) : SM session Z :=
  let! pos := sget dev_pos in
  let! out := group_write simple_strtoul take_answer t pos false in
  do! smodify (at_pos out.2) in
  sret (if decide (out.1 < 0)%Z then (-1)%Z else out.1).

Definition session_ops : sysops session := {|
  sys_open path w := lift_ctl (k_open path w);
  sys_read fd n := if decide (fd = ctrl_fd) then lift_ctl (k_read fd n) else read_group n;
  sys_write fd t := if decide (fd = ctrl_fd) then lift_ctl (k_write stack fd t) else write_group t;
  sys_close fd := if decide (fd = ctrl_fd) then sret 0%Z else do! close_fd fd in sret 0%Z;
  sys_lseek fd := if decide (fd = ctrl_fd) then lift_ctl (sys_lseek (kernel_ops stack) fd) else smodify (at_pos 0);
  sys_readlink path n := let t := take n (names path) in sret (Z.of_nat (length t), t);
  sys_malloc := sret true
|}.
Definition session_prog : progops session := {|
  running := sget (fun s => bool_decide (inbox s <> []));
  printf t := smodify (done_ (Printed t));
  complain t := smodify (done_ (Complained t))
|}.

(** ** Events *)

(** An event the device can hand out: its text fits the buffer. *)
Definition fits (e : Z * Z * Z) : Prop :=
  let '(id, fd, pid) := e in
  (0 <= id < 2 ^ 64)%Z /\ (0 <= fd < 2 ^ 31)%Z /\ (0 <= pid < 2 ^ 31)%Z /\ length (event_text id fd pid) < DAZUKOFS_MIN_READ_BUFFER /\
  fd <> ctrl_fd.
(** Its id as the event layer gives it while [last_event_id] is not negative, and as it
    gives it afterwards. *)
Definition answerable (e : Z * Z * Z) : Prop := (e.1.1 < 10 ^ 11)%Z.
Definition too_long (e : Z * Z * Z) : Prop := (10 ^ 19 <= e.1.1)%Z.

Definition link_of (fd : Z) : text := names (txt "/proc/self/fd/" ++ fmt_d fd).

(** What the program does for an event, up to the answer. *)
Definition looked_at (e : Z * Z * Z) : list deed :=
  let '(id, fd, pid) := e in
  [Printed (txt "pid:" ++ fmt_05lu pid ++ txt " file:" ++ link_of fd ++ [NL]); Closed fd].
Definition answered (e : Z * Z * Z) : list deed := looked_at e ++ [Answered e.1.1 ALLOW].

Context (law : strtoul_law simple_strtoul).

(** ** One round *)

Lemma event_text_nonempty id fd pid : 0 < length (event_text id fd pid).
Proof. unfold event_text. simpl. lia. Qed.

Lemma read_event id fd pid u q una ds : fits (id, fd, pid) -> exists data,
  read_group 47 (mk_session u ((id, fd, pid) :: q) una 0 ds) =
    Ret (Z.of_nat (length (event_text id fd pid)), data)
      (mk_session u q ((id, fd, pid) :: una) (Z.of_nat (length (event_text id fd pid))) ds) /\
  forall hid acc, parse_event (data ++ replicate (48 - length data) NUL) hid acc = (0%Z, id, mk_access false fd pid).
Proof.
  intros (Hid & Hfd & Hpid & Hl & _). set (s := mk_session u ((id, fd, pid) :: q) una 0 ds).
  set (s1 := mk_session u q ((id, fd, pid) :: una) 0 ds). pose proof (event_text_nonempty id fd pid) as Hpos.
  assert (E : exists data, group_read close_fd next_event take_answer 47 0 false s =
    Ret (Z.of_nat (length (event_text id fd pid)), Z.of_nat (length (event_text id fd pid)), data) s1).
  { unfold group_read, sbind. remember (event_text id fd pid) as ev eqn:Hev.
    rewrite decide_False by lia. rewrite decide_False by (unfold DAZUKOFS_MIN_READ_BUFFER; lia). cbn [next_event s inbox ctl unanswered dev_pos deeds].
    cbn [snprintf fst snd]. rewrite <-Hev. rewrite decide_False by (unfold DAZUKOFS_MIN_READ_BUFFER in *; lia).
    eexists. reflexivity. }
  destruct E as [data E]. exists data. split.
  - unfold read_group, sbind at 1, sget. cbn [dev_pos s]. fold s. unfold sbind at 1. rewrite E. unfold sbind, smodify, sret. cbn [fst snd].
    by rewrite decide_False by lia.
  - intros hid acc. by destruct (event_arrives close_fd take_answer id fd pid next_event 47 0 s s1 _ _ data s1 hid acc Hid Hfd Hpid
      ltac:(lia) eq_refl E ltac:(lia)) as (_ & _ & ?).
Qed.

Lemma get_access_round id fd pid u q una ds dfd hid gname acc : fits (id, fd, pid) -> dfd <> ctrl_fd -> exists p,
  dazukofs_get_access session_ops (mk_handle dfd hid gname) acc (mk_session u ((id, fd, pid) :: q) una 0 ds) =
    Ret (0%Z, mk_handle dfd id gname, mk_access false fd pid) (mk_session u q ((id, fd, pid) :: una) p ds).
Proof.
  intros Hf Hne. destruct (read_event id fd pid u q una ds Hf) as (data & E & Hp). eexists.
  unfold dazukofs_get_access, sbind. cbn [dev_fd session_ops sys_read h_event_id group_name]. rewrite decide_False by done. rewrite E.
  cbn [fst snd]. rewrite decide_False by lia. by rewrite Hp.
Qed.

Lemma cstr_of_prefix (t l : text) : no_nul t -> take (length t) l = t -> l !! length t = Some NUL -> cstr l = t.
Proof. intros Hn Ht Hl. rewrite <-(take_drop_middle l _ _ Hl), Ht. by apply cstr_nul. Qed.

Lemma print_round (filename : text) fd pid s : link_of fd <> [] -> no_nul (link_of fd) -> length (link_of fd) < length filename ->
  (0 <= fd < 2 ^ 31)%Z ->
  print_access session_ops session_prog filename (mk_access false fd pid) s =
  Ret tt (done_ (Printed (txt "pid:" ++ fmt_05lu pid ++ txt " file:" ++ link_of fd ++ [NL])) s).
Proof.
  intros Hne Hn Hl Hfd. set (t := link_of fd) in *. assert (Hpos : 0 < length t) by (destruct t; [done|simpl; lia]).
  assert (Ep : (snprintf 47 (txt "/proc/self/fd/" ++ fmt_d fd)).1 = txt "/proc/self/fd/" ++ fmt_d fd).
  { cbn [snprintf fst]. apply take_ge. rewrite length_app, fmt_d_nonneg by lia. pose proof (length_fmt_lu fd 10 ltac:(lia) ltac:(lia)). simpl. lia. }
  assert (Et : take (length filename - 1) (names (txt "/proc/self/fd/" ++ fmt_d fd)) = t) by (apply take_ge; unfold t, link_of in *; lia).
  unfold print_access, dazukofs_get_filename, sbind. rewrite (decide_False (P := length filename = 0)) by lia.
  cbn [acc_fd]. rewrite Ep. cbn [session_ops sys_readlink acc_pid]. cbv zeta. rewrite Et. unfold sret. cbn [fst snd].
  rewrite !(decide_True (P := (0 < Z.of_nat (length t))%Z)) by lia. rewrite Nat2Z.id.
  assert (Ec : cstr (<[length t := NUL]> (<[length filename - 1 := NUL]> (t ++ drop (length t) filename))) = t); [|by rewrite Ec].
  apply cstr_of_prefix; [done| |].
  - rewrite !take_insert_ge by lia. apply take_app_length.
  - apply list_lookup_insert_eq. rewrite length_insert, length_app, length_drop. lia.
Qed.

Lemma answer_short id deny : (0 <= id < 2 ^ 64)%Z -> length (answer_text id deny) <= 46.
Proof.
  intros Hid. unfold answer_text. rewrite !length_app. pose proof (length_fmt_lu id 20 ltac:(lia) ltac:(lia)).
  assert (length (fmt_d (if deny then 1 else 0)) = 1) by (by destruct deny). cbn [length txt]. simpl in *. lia.
Qed.

(** The answer as it is written: accepted, or refused because its id is too long. *)
Lemma write_answer id fd pid u q p ds : (0 <= id < 10 ^ 11)%Z ->
  exists n p', (0 <= n)%Z /\ write_group (answer_text id false) (mk_session u q [(id, fd, pid)] p ds) =
    Ret n (mk_session u q [] p' (Answered id ALLOW :: ds)).
Proof.
  intros Hid. set (s := mk_session u q [(id, fd, pid)] p ds).
  pose proof (answer_arrives simple_strtoul take_answer id false p s law Hid) as E.
  assert (Et : take_answer id ALLOW s = Ret 0%Z (mk_session u q [] p (Answered id ALLOW :: ds))).
  { unfold take_answer, s. cbn [unanswered]. rewrite filter_cons_True by done. rewrite decide_False by done.
    rewrite filter_cons_False by (by intros []). done. }
  unfold sbind in E. cbn iota in E. rewrite Et in E. rewrite decide_True in E by done. unfold sret in E.
  unfold write_group, sbind at 1, sget. cbn [dev_pos s]. fold s. unfold sbind at 1. rewrite E. unfold sbind, smodify, sret. cbn [fst snd].
  rewrite decide_False by lia. eexists _, _. split; [|reflexivity]. lia.
Qed.
Lemma write_too_long id fd pid u q p ds : (10 ^ 19 <= id < 2 ^ 64)%Z ->
  write_group (answer_text id false) (mk_session u q [(id, fd, pid)] p ds) = Ret (-1)%Z (mk_session u q [(id, fd, pid)] p ds).
Proof.
  intros Hid. unfold write_group, sbind at 1, sget. cbn [dev_pos]. unfold sbind at 1. rewrite long_id_unanswerable by done.
  unfold sbind, smodify, sret. cbn [fst snd]. by rewrite decide_True by (unfold EINVAL; lia).
Qed.

Section loop.
Context (filename gname : text) (dfd : Z) (Hdfd : dfd <> ctrl_fd).
(** The links can be read and fit the buffer. *)
Definition readable (e : Z * Z * Z) : Prop := link_of e.1.2 <> [] /\ no_nul (link_of e.1.2) /\ length (link_of e.1.2) < length filename.

Lemma return_round id fd pid u q p ds : fits (id, fd, pid) -> exists s',
  dazukofs_return_access session_ops (mk_handle dfd id gname) (mk_access false fd pid) (mk_session u q [(id, fd, pid)] p ds) =
    (let! w := write_group (answer_text id false) in
     if decide (w = (-1)%Z) then sret (-1)%Z else do! smodify (at_pos 0) in sret 0%Z) s' /\
  s' = mk_session u q [(id, fd, pid)] p (Closed fd :: ds).
Proof.
  intros (Hid & _ & _ & _ & Hfd). eexists. split; [|reflexivity].
  unfold dazukofs_return_access, sbind at 1. cbn [dev_fd h_event_id acc_fd acc_deny session_ops sys_close sys_write sys_lseek].
  rewrite (decide_False (P := fd = ctrl_fd)) by done. unfold sbind at 1, close_fd, smodify, sret at 1. rewrite (decide_False (P := (0 <> 0)%Z)) by lia.
  cbn [snprintf fst]. rewrite (take_ge (answer_text id false)) by (pose proof (answer_short id false Hid); lia).
  by rewrite !(decide_False (P := dfd = ctrl_fd)) by done.
Qed.

(** A round takes one event and answers it. *)
Lemma show_round fuel id fd pid u q ds hid acc : fits (id, fd, pid) -> answerable (id, fd, pid) -> readable (id, fd, pid) ->
  exists acc', show_loop session_ops session_prog (S fuel) filename (mk_handle dfd hid gname) acc (mk_session u ((id, fd, pid) :: q) [] 0 ds) =
    show_loop session_ops session_prog fuel filename (mk_handle dfd id gname) acc' (mk_session u q [] 0 (reverse (answered (id, fd, pid)) ++ ds)).
Proof.
  intros Hf Ha (Hl1 & Hl2 & Hl3). pose proof Hf as (Hid & Hfd & _). destruct (get_access_round id fd pid u q [] ds dfd hid gname acc Hf Hdfd) as [p E].
  exists (mk_access false fd pid). cbn [show_loop]. unfold sbind at 1. cbn [session_prog running sget inbox]. rewrite bool_decide_true by done. cbn [negb].
  unfold sbind at 1. rewrite E. rewrite (decide_False (P := (0 <> 0)%Z)) by lia. unfold sbind at 1. rewrite print_round by done.
  unfold done_. cbn [ctl inbox unanswered dev_pos deeds]. unfold sbind at 1.
  destruct (return_round id fd pid u q p (Printed (txt "pid:" ++ fmt_05lu pid ++ txt " file:" ++ link_of fd ++ [NL]) :: ds) Hf) as (s' & -> & ->).
  destruct (write_answer id fd pid u q p (Closed fd :: Printed (txt "pid:" ++ fmt_05lu pid ++ txt " file:" ++ link_of fd ++ [NL]) :: ds))
    as (n & p' & Hn & Ew); [unfold answerable in Ha; simpl in Ha; lia|].
  unfold sbind. rewrite Ew. rewrite (decide_False (P := n = (-1)%Z)) by lia. done.
Qed.

(** The deeds of a round whose answer is refused; [more]: there are events left. *)
Definition refused (more : bool) (e : Z * Z * Z) : list deed :=
  looked_at e ++ (if more then [Complained (txt "dazukofs_return_access")] else []).
Lemma refused_round fuel id fd pid u q ds hid acc : fits (id, fd, pid) -> too_long (id, fd, pid) -> readable (id, fd, pid) ->
  exists p, show_loop session_ops session_prog (S fuel) filename (mk_handle dfd hid gname) acc (mk_session u ((id, fd, pid) :: q) [] 0 ds) =
    Ret (mk_handle dfd id gname) (mk_session u q [(id, fd, pid)] p (reverse (refused (bool_decide (q <> [])) (id, fd, pid)) ++ ds)).
Proof.
  intros Hf Ha (Hl1 & Hl2 & Hl3). pose proof Hf as (Hid & Hfd & _). destruct (get_access_round id fd pid u q [] ds dfd hid gname acc Hf Hdfd) as [p E].
  exists p. cbn [show_loop]. unfold sbind at 1. cbn [session_prog running sget inbox]. rewrite bool_decide_true by done. cbn [negb].
  unfold sbind at 1. rewrite E. rewrite (decide_False (P := (0 <> 0)%Z)) by lia. unfold sbind at 1. rewrite print_round by done.
  unfold done_. cbn [ctl inbox unanswered dev_pos deeds]. unfold sbind at 1.
  destruct (return_round id fd pid u q p (Printed (txt "pid:" ++ fmt_05lu pid ++ txt " file:" ++ link_of fd ++ [NL]) :: ds) Hf) as (s' & -> & ->).
  unfold too_long in Ha. simpl in Ha. unfold sbind. rewrite write_too_long by lia. rewrite (decide_True (P := (-1 = -1)%Z)) by done.
  unfold sret at 1. rewrite (decide_True (P := (-1 <> 0)%Z)) by lia. unfold complain_running, sbind, sret. cbn [session_prog running complain sget inbox].
  by destruct q.
Qed.

(** The deeds for all events, and what is left of the queue: the loop ends with the
    queue, or with the first event whose answer is refused. *)
Definition rest_deeds (late : list (Z * Z * Z)) : list deed :=
  match late with [] => [] | e :: q => refused (bool_decide (q <> [])) e end.
Lemma show_all good late : Forall (fun e => fits e /\ readable e) (good ++ late) -> Forall answerable good ->
  (forall e, head late = Some e -> too_long e) -> forall fuel ds hid acc u, length good < fuel -> exists hid' p,
    show_loop session_ops session_prog fuel filename (mk_handle dfd hid gname) acc (mk_session u (good ++ late) [] 0 ds) =
    Ret (mk_handle dfd hid' gname) (mk_session u (tail late) (option_list (head late)) p
      (reverse ((good ≫= answered) ++ rest_deeds late) ++ ds)).
Proof.
  intros Hf Ha Hlate. induction Ha as [|[[id fd] pid] good He Ha IH]; intros fuel ds hid acc u Hl; (destruct fuel as [|fuel]; [simpl in Hl; lia|]).
  - destruct late as [|[[id fd] pid] q]; [by exists hid, 0%Z|]. destruct (Forall_inv Hf) as [Hf0 Hr]; clear Hf; rename Hf0 into Hf.
    destruct (refused_round fuel id fd pid u q ds hid acc Hf (Hlate _ eq_refl) Hr) as [p E]. exists id, p. exact E.
  - pose proof (Forall_inv_tail Hf) as Hrest. destruct (Forall_inv Hf) as [Hf0 Hr]. clear Hf. rename Hf0 into Hf. cbn [app].
    destruct (show_round fuel id fd pid u (good ++ late) ds hid acc Hf He Hr) as (a1 & ->).
    destruct (IH Hrest fuel (reverse (answered (id, fd, pid)) ++ ds) id a1 u) as (h2 & p & ->); [simpl in Hl; lia|].
    exists h2, p. f_equal. f_equal. rewrite bind_cons, <-(app_assoc (answered _)), (reverse_app (answered _)), <-app_assoc.
    done.
Qed.
End loop.

(** ** The program *)

Lemma open_ctrl w u : k_open ctrl_path w u = Ret ctrl_fd (mk_ustate (u_k u) ctrl_open 0 (u_errno u)).
Proof. unfold k_open. by rewrite decide_True. Qed.

(** While no group device is used, the library works on the control device alone. *)
Lemma open_lifted nm track s : dazukofs_open session_ops nm track s = lift_ctl (dazukofs_open (kernel_ops stack) nm track) s.
Proof.
  unfold dazukofs_open, lift_ctl. case_decide as Hn; [by destruct s|]. unfold sbind. cbn [session_ops kernel_ops sys_open sys_write sys_lseek].
  unfold lift_ctl. rewrite !open_ctrl. rewrite !(decide_False (P := ctrl_fd = (-1)%Z)) by done.
  assert (Hg : forall s, dazukofs_open_group session_ops ctrl_fd nm s = lift_ctl (dazukofs_open_group (kernel_ops stack) ctrl_fd nm) s).
  { clear s. intros s. unfold dazukofs_open_group, lift_ctl, sbind. cbn [session_ops kernel_ops sys_read sys_malloc sys_open sys_close].
    rewrite decide_True by done. unfold lift_ctl. destruct (k_read ctrl_fd 255 (ctl s)) as [[r data] u|w]; [|done]. cbn [fst snd].
    unfold close_none, sbind. cbn [session_ops kernel_ops sys_close]. rewrite !(decide_True (P := ctrl_fd = ctrl_fd)) by done. unfold sret.
    case_decide; [done|]. destruct (find_gid _ _) as [gid|]; [|done]. cbn [negb]. unfold lift_ctl. cbn [ctl set_ctl].
    destruct (k_open (dev_path gid) true u) as [dfd u'|w]; [|done]. by case_decide. }
  rewrite !(decide_True (P := ctrl_fd = ctrl_fd)) by done. unfold lift_ctl. cbn [ctl set_ctl].
  destruct (k_write stack ctrl_fd _ _) as [w u|w]; [|done]. case_decide.
  { unfold close_none, sbind. cbn [session_ops kernel_ops sys_close]. by rewrite decide_True. }
  unfold smodify. cbn [ctl set_ctl]. rewrite Hg. done.
Qed.

Definition example : string := "dazukofs_example".

Lemma group_fd_other r nm gid : Spec.wf r -> (nm, gid) ∈ r -> (10 + gid)%Z <> ctrl_fd.
Proof.
  intros W Hin. assert (Hid : gid ∈ Spec.ids r) by (apply list_elem_of_fmap; by exists (nm, gid)).
  pose proof (Spec.wf_range _ W) as Hf. rewrite Forall_forall in Hf. specialize (Hf gid Hid). unfold ctrl_fd. lia.
Qed.

(** Removing the group and closing its device. *)
Lemma close_removes dfd hid s : dfd <> ctrl_fd -> ready (ctl s) -> stack_ok stack (txt "del=dazukofs_example") ->
  exists u, dazukofs_close session_ops (mk_handle dfd hid (txt example)) true s = Ret 0%Z (done_ (Closed dfd) (set_ctl u s)) /\
    registry_of (u_k u) = Spec.remove example (registry_of (u_k (ctl s))).
Proof.
  intros Hne [[gh I] R] Hs. assert (Hc1 : ctrl_fd <> (-1)%Z) by done. set (u0 := mk_ustate (u_k (ctl s)) ctrl_open 0 (u_errno (ctl s))).
  assert (Hw : wp (k_write stack ctrl_fd (key_of Del ++ txt example)) (fun w u' =>
    (0 <= w)%Z /\ registry_of (u_k u') = Spec.remove example (registry_of (u_k u0)) /\ ready u') u0).
  { apply wp_del_write; [split; [by exists gh|exact R]|apply (bool_decide_unpack _); by vm_compute|exact Hs]. }
  destruct (wp_run _ _ _ Hw) as (w & u & E & Hge & Er & _). exists u. split; [|exact Er].
  unfold dazukofs_close, sbind. cbn [session_ops sys_open sys_write sys_close]. unfold lift_ctl. rewrite open_ctrl. fold u0.
  rewrite (decide_False (P := ctrl_fd = (-1)%Z)) by exact Hc1. rewrite !(decide_True (P := ctrl_fd = ctrl_fd)) by reflexivity.
  assert (Et : (snprintf 47 (txt "del=" ++ group_name (mk_handle dfd hid (txt example)))).1 = key_of Del ++ txt example) by reflexivity.
  rewrite Et. cbn [ctl set_ctl]. rewrite E. unfold sret. rewrite bool_decide_true by lia. cbn [dev_fd].
  rewrite (decide_False (P := dfd = ctrl_fd)) by exact Hne. reflexivity.
Qed.

(** C31.  The example program on the control device and on the device of its group.
    If it does not get its group, for want of memory or of room for a new group, it
    complains and does nothing else.  Otherwise it asks for the events of the queue in
    order; for each it prints the pid and the name of the file, closes the file of the
    event, once, and before it asks for the next one answers that the access is
    allowed, and the device takes the answer, once.  This goes on to the end of the
    queue, or to the first event whose id, as [unsigned long], has 20 digits: the
    device refuses that answer, and the program leaves the loop with the event
    unanswered.  At last the group is removed from the registry and the device closed.
    One round for each event that can be answered and one more are enough.  (Of each
    event the text fits the buffer of the device, and its link in [/proc] is not empty
    and fits the buffer of the program; behind the commands the kernel stack holds
    something that ends a name; the groups there are have names that the library
    accepts.) *)
Theorem showfiles_answers_each_event gh fuel filename acc u good late :
  grp_inv gh (u_k u) -> reg_inv (u_k u) -> named (u_k u) -> lib_names (registry_of (u_k u)) ->
  stack_ok stack (txt "addtrack=dazukofs_example") -> stack_ok stack (txt "del=dazukofs_example") ->
  Forall (fun e => fits e /\ readable filename e) (good ++ late) -> Forall answerable good ->
  (forall e, head late = Some e -> too_long e) -> length good < fuel ->
  exists r s', show_main session_ops session_prog fuel filename acc (mk_session u (good ++ late) [] 0 []) = Ret r s' /\
    ((r = (-1)%Z /\ open_outcome u example None (ctl s') /\ inbox s' = good ++ late /\ deeds s' = [Complained (txt "dazukofs_open")]) \/
     (r = 0%Z /\ inbox s' = tail late /\ unanswered s' = option_list (head late) /\
      example ∉ Spec.names (registry_of (u_k (ctl s'))) /\
      exists gid u1, (example, gid) ∈ registry_of (u_k u1) /\
        dazukofs_open (kernel_ops stack) (txt example) true u = Ret (Some (mk_handle (10 + gid) 0 (txt example))) u1 /\
        reverse (deeds s') = (good ≫= answered) ++ rest_deeds late ++ [Closed (10 + gid); Printed (NL :: txt "Goodbye." ++ [NL])])).
Proof.
  intros I R Hn Hln Hs1 Hs2 Hf Ha Hlate Hl. set (s0 := mk_session u (good ++ late) [] 0 []).
  assert (Hw : wp (dazukofs_open (kernel_ops stack) (txt example) true) (fun r u' => open_outcome u example r u' /\ (is_Some r -> ready u')) u).
  { apply (wp_dazukofs_open gh); try done; [split; [done|apply (bool_decide_unpack _); by vm_compute]|vm_compute; lia]. }
  destruct (wp_run _ _ _ Hw) as (h & u1 & Eo & Ho & Hr). unfold show_main, sbind at 1.
  change (txt "dazukofs_example") with (txt example). rewrite open_lifted. unfold lift_ctl. change (ctl s0) with u. rewrite Eo.
  destruct h as [h|].
  2:{ unfold sbind, sret. cbn [session_prog complain smodify]. eexists _, _. split; [reflexivity|]. left. by split_and!. }
  destruct Ho as (gid & -> & Hin). specialize (Hr ltac:(by eexists)).
  pose proof (group_fd_other _ _ _ (r_wf _ (proj2 Hr)) Hin) as Hgid.
  destruct (show_all filename (txt example) (10 + gid) Hgid good late Hf Ha Hlate fuel [] 0%Z acc u1 Hl) as (hid & p & E).
  unfold sbind at 1. change (set_ctl u1 s0) with (mk_session u1 (good ++ late) [] 0 []). rewrite E.
  set (s1 := mk_session u1 _ _ _ _). destruct (close_removes (10 + gid) hid s1 Hgid Hr Hs2) as (u2 & Ec & Er).
  unfold sbind at 1. rewrite Ec. rewrite (decide_False (P := (0 <> 0)%Z)) by lia. unfold sbind, sret. cbn [session_prog printf smodify].
  eexists _, _. split; [reflexivity|]. right. cbn [inbox unanswered ctl deeds done_ set_ctl s1]. split_and!; [done..| |].
  - rewrite Er. unfold Spec.names, Spec.remove. intros ([x i] & Hx & Hxf)%list_elem_of_fmap. apply list_elem_of_filter in Hxf as [Hne _]. by apply Hne.
  - exists gid, u1. split; [exact Hin|]. split; [reflexivity|]. rewrite !reverse_cons, app_nil_r, reverse_involutive, <-!app_assoc. done.
Qed.
End session.

(** The first event is answered, the second has an id that is too long. *)
Definition example_stack : text := replicate 32 SP.
Definition example_names (path : text) : text := txt "/tmp/f".
Definition example_user : ustate := mk_ustate init_state None 0 0.
Definition long_id : Z := 2 ^ 64 - 2 ^ 31.

Lemma showfiles_answers_each_event_witness :
  exists s', show_main (session_ops simple_strtoul_digits example_stack example_names) session_prog 2 (replicate 1024 "x"%char)
      (mk_access true 7 8) (mk_session example_user [(1, 5, 20); (long_id, 6, 33); (7, 8, 9)]%Z [] 0 []) = Ret 0%Z s' /\
    inbox s' = [(7, 8, 9)]%Z /\ unanswered s' = [(long_id, 6, 33)]%Z /\ Answered 1 ALLOW ∈ reverse (deeds s').
Proof.
  destruct (showfiles_answers_each_event simple_strtoul_digits example_stack example_names simple_strtoul_digits_law no_ghost 2
    (replicate 1024 "x"%char) (mk_access true 7 8) example_user [(1, 5, 20)]%Z [(long_id, 6, 33); (7, 8, 9)]%Z) as (r & s' & E & H).
  - apply grp_inv_init.
  - split; [split; simpl; try apply NoDup_nil_2; apply Forall_nil_2|reflexivity].
  - by intros g G HG.
  - apply Forall_nil_2.
  - split; [vm_compute; lia|vm_compute; eauto].
  - split; [vm_compute; lia|vm_compute; eauto].
  - repeat apply Forall_cons_2; [..|apply Forall_nil_2]; (split; [unfold fits, long_id; split_and!; try lia; try done; vm_compute; lia|]);
      (split_and!; [done|by apply no_nul_literal|vm_compute; lia]).
  - apply Forall_cons_2; [unfold answerable; simpl; lia|apply Forall_nil_2].
  - intros e [= <-]. unfold too_long, long_id. simpl. lia.
  - simpl. lia.
  - destruct H as [(-> & Ho & _)|(-> & Hi & Hu & _ & gid & u1 & _ & _ & Hd)].
    + exfalso. revert E. vm_compute. by intros [=].
    + exists s'. split; [exact E|]. split; [exact Hi|]. split; [exact Hu|]. rewrite Hd. apply elem_of_app. left. simpl.
      right. right. left.
Defined.
