(* ===== verification/DevThms.v ===== *)
(** * What the devices and the library guarantee

    The properties of [ctrl_dev.c], [group_dev.c], [ign_dev.c], [dev.c], the
    start and end of the module, the end of the event layer included, and
    [test/lib/dazukofs.c]. *)

From S2P Require Import Prelude EventState EventOps EventInv GroupReg EventFlow EventTasks EventConc EventSafe EventDestroy EventThms CText GroupText CtrlDev GroupDev UserLib DevText UserOpen IgnDev DevInit DevInitSpec DevFiles.
From stdpp Require Import strings list gmap.
From Stdlib Require Import Ascii.

(** ** The list of groups *)

(** C37. As long as every id has one digit, the length on record of a name is its
    length and no name holds a NUL, [dazukofs_get_groups] ends, within [fuel] doublings
    of its buffer, with [-ENOMEM] or with a terminated buffer that holds exactly one
    line for each live group, in the order of the list; the groups do not change.  (A
    group can get the id 10 when a tracked file of another is closed meanwhile:
    [EventThms.group_without_device]; what is printed then is in
    [Flaws.two_digit_group_runs_into_next].) *)
Theorem get_groups_prints gh fuel s :
  grp_inv gh s -> printable s -> 0 < fuel ->
  length (registry_text (registry_of s)) + 1 < 256 * 2 ^ (fuel - 1) ->
  wp (dazukofs_get_groups fuel) (fun r s' => grp_inv gh s' /\ registry_of s' = registry_of s /\
    (r = ((- ENOMEM)%Z, None) \/
     exists b, r = (0%Z, Some b) /\ cstr b = registry_text (registry_of s))) s.
Proof.
  intros I Hp Hf Hl. eapply wp_mono; [apply (wp_get_groups_try gh fuel 256); [done|done|done|done|lia]|].
  intros r s' [[o ->] Hr]. split_and!; [by apply grp_inv_oom|done|exact Hr].
Qed.

Lemma one_group_named : named one_group /\ lib_names (registry_of one_group).
Proof.
  split; [|by apply (bool_decide_unpack _); vm_compute].
  assert (H : map_Forall (fun _ G => name_length G = Z.of_nat (String.length (name G))) (groups one_group)).
  { apply (bool_decide_unpack _). by vm_compute. }
  intros g G HG. by apply (H g G).
Qed.

Lemma get_groups_prints_witness :
  wp (dazukofs_get_groups 1) (fun r s' => grp_inv no_ghost s' /\ registry_of s' = registry_of one_group /\
    (r = ((- ENOMEM)%Z, None) \/
     exists b, r = (0%Z, Some b) /\ cstr b = registry_text (registry_of one_group))) one_group.
Proof.
  apply (get_groups_prints no_ghost 1 one_group).
  - apply one_group_inv.
  - apply named_printable; [apply one_group_named|]. apply lib_listable; [apply one_group_inv|apply one_group_named].
  - lia.
  - vm_compute. lia.
Defined.

(** ** Reading the control device *)

(** Reads of one open file, each after other tasks have changed the state in some way,
    and each with the number of characters asked for and whether the user's memory can
    be written: what is returned and what the user gets. *)
Record one_read := mk_read { before_it : kstate -> kstate; asked : nat; efault : bool }.
Fixpoint ctrl_session (get_groups : M (Z * option text)) (reads : list one_read) (pd : option text) (pos : nat) : M (list (Z * text)) :=
  match reads with
  | [] => sret []
  | r :: q =>
      do! smodify (before_it r) in
      let! out := ctrl_read get_groups pd (asked r) pos (efault r) in
      let '(ret, pd', pos', data) := out in
      let! rest := ctrl_session get_groups q pd' pos' in
      sret ((ret, data) :: rest)
  end.

(** What the reads hand out of a text from a position on. *)
Definition served (r : one_read) : nat := if efault r then 0 else asked r.
(** A read returns how much it hands out, or [-EFAULT] and nothing. *)
Definition honest (r : one_read) (out : Z * text) : Prop :=
  out.1 = Z.of_nat (length out.2) \/ efault r = true /\ out = ((- EFAULT)%Z, []).

(** Reads that find no text: each asks for it again, and returns the error. *)
Fixpoint refused_reads (get_groups : M (Z * option text)) (reads : list one_read) (s : kstate) (errs : list Z) (s' : kstate) : Prop :=
  match reads, errs with
  | [], [] => s' = s
  | r :: q, e :: errs => exists b s1, get_groups (before_it r s) = Ret (e, b) s1 /\ e <> 0%Z /\ refused_reads get_groups q s1 errs s'
  | _, _ => False
  end.

Lemma ctrl_read_window gg buf n pos f s :
  ctrl_read gg (Some buf) n pos f s =
  Ret (if decide (strlen buf <= pos) then (0%Z, Some buf, pos, [])
       else if f then ((- EFAULT)%Z, Some buf, pos, [])
       else (Z.of_nat ((ctrl_window buf n pos).2 - pos), Some buf, (ctrl_window buf n pos).2, (ctrl_window buf n pos).1)) s.
Proof.
  unfold ctrl_read, sbind, sret. rewrite decide_False by tauto. case_decide; [done|]. by destruct f.
Qed.
Lemma ctrl_read_fails gg n pos f s e b s1 : gg s = Ret (e, b) s1 -> e <> 0%Z ->
  ctrl_read gg None n pos f s = Ret (e, None, pos, []) s1.
Proof. intros E He. unfold ctrl_read, sbind. rewrite E. destruct b; [by rewrite decide_True|done]. Qed.
Lemma ctrl_read_fetches gg n pos f s buf s1 : gg s = Ret (0%Z, Some buf) s1 ->
  ctrl_read gg None n pos f s = ctrl_read gg (Some buf) n pos f s1.
Proof. intros E. unfold ctrl_read, sbind, sret. rewrite E. by rewrite !decide_False by tauto. Qed.
Lemma ctrl_window_end buf n pos : strlen buf <= pos -> ctrl_window buf n pos = ([], pos).
Proof. intros H. unfold ctrl_window. by rewrite decide_True. Qed.
Lemma ctrl_window_none buf pos : ctrl_window buf 0 pos = ([], pos).
Proof. unfold ctrl_window. case_decide; [done|]. rewrite decide_False by lia. by rewrite Nat.add_0_r. Qed.
Lemma length_window buf n pos : length (ctrl_window buf n pos).1 = (ctrl_window buf n pos).2 - pos.
Proof.
  unfold ctrl_window. case_decide as He; [simpl; lia|]. pose proof (strlen_le buf). cbn [fst snd].
  rewrite length_take, length_drop. case_decide; lia.
Qed.

(** With its text, a file hands it out piece by piece. *)
Lemma ctrl_session_text gg buf reads pos s : exists out s', ctrl_session gg reads (Some buf) pos s = Ret out s' /\
  concat out.*2 = ctrl_reads buf (served <$> reads) pos /\ Forall2 honest reads out.
Proof.
  revert pos s. induction reads as [|r q IH]; intros pos s; [by exists [], s|].
  cbn [ctrl_session fmap list_fmap ctrl_reads]. unfold sbind at 1, smodify. unfold sbind at 1. rewrite ctrl_read_window.
  case_decide as Hend; [|destruct (efault r) eqn:Ef].
  - destruct (IH pos (before_it r s)) as (out & s' & E & Ho & Hh). unfold sbind at 1. rewrite E. eexists _, _. split; [done|].
    rewrite ctrl_window_end by done. split; [exact Ho|]. constructor; [by left|exact Hh].
  - destruct (IH pos (before_it r s)) as (out & s' & E & Ho & Hh). unfold sbind at 1. rewrite E. eexists _, _. split; [done|].
    assert (Es : served r = 0) by (unfold served; by rewrite Ef). rewrite Es, ctrl_window_none. split; [exact Ho|]. constructor; [by right|exact Hh].
  - destruct (IH (ctrl_window buf (asked r) pos).2 (before_it r s)) as (out & s' & E & Ho & Hh). unfold sbind at 1. rewrite E.
    eexists _, _. split; [done|]. assert (Es : served r = asked r) by (unfold served; by rewrite Ef).
    rewrite Es. split; [cbn [fmap list_fmap concat snd]; exact (f_equal (app _) Ho)|].
    constructor; [left; simpl; by rewrite length_window|exact Hh].
Qed.

(** C34. Reads of a file of the control device from [open] on, with any changes of the
    groups in between, any sizes, and user memory that may fault.  Reads that fail to
    get the list of groups return its error and hand out nothing, and the next one asks
    again.  From the first that gets a list, that list is handed out piece by piece,
    without gap or repetition, as it was then, and never asked for again; each read
    returns how much it hands out, or [-EFAULT]. *)
Theorem ctrl_reads_are_a_snapshot gg failing errs r later buf s s1 s2 :
  refused_reads gg failing s errs s1 -> gg (before_it r s1) = Ret (0%Z, Some buf) s2 ->
  exists out s', ctrl_session gg (failing ++ r :: later) ctrl_open 0 s = Ret (((fun e => (e, [])) <$> errs) ++ out) s' /\
    concat out.*2 = take (Nat.min (sum_list (served <$> r :: later)) (strlen buf)) (cstr buf) /\
    Forall2 honest (r :: later) out.
Proof.
  revert errs s. induction failing as [|r0 q IH]; intros [|e errs] s Hf Hg; simpl in Hf; try done.
  - subst s1. destruct (ctrl_session_text gg buf (mk_read (fun _ => s2) (asked r) (efault r) :: later) 0 s) as (out & s' & E & Ho & Hh).
    exists out, s'. split; [|split].
    + cbn [ctrl_session app] in E |- *. unfold ctrl_open, smodify, sbind at 1 2. unfold smodify, sbind at 1 2 in E.
      cbn [before_it asked efault] in E. by rewrite (ctrl_read_fetches gg _ _ _ _ buf s2).
    + change (served <$> _ :: later) with (served <$> r :: later) in Ho. rewrite Ho, ctrl_reads_spec by lia.
      by rewrite Nat.sub_0_r, drop_0.
    + inversion Hh; subst. by constructor.
  - destruct Hf as (b & s0 & Eg & Hne & Hf). destruct (IH errs s0 Hf Hg) as (out & s' & E & H). exists out, s'. split; [|exact H].
    cbn [ctrl_session app]. unfold smodify, ctrl_open, sbind at 1 2. rewrite (ctrl_read_fails _ _ _ _ _ e b s0) by done.
    unfold sbind. unfold ctrl_open in E. by rewrite E.
Qed.

(** There is no memory at first; then the group goes, and the user's memory faults. *)
Lemma ctrl_reads_are_a_snapshot_witness :
  exists out s', ctrl_session (dazukofs_get_groups 1)
      ([mk_read (set_oom [true]) 3 false] ++ mk_read id 3 false :: [mk_read (set_group_list []) 2 true; mk_read id 9 false])
      ctrl_open 0 one_group = Ret ([((- ENOMEM)%Z, [])] ++ out) s' /\
    concat out.*2 = txt "0:scan" ++ [NL].
Proof.
  destruct (ctrl_reads_are_a_snapshot (dazukofs_get_groups 1) [mk_read (set_oom [true]) 3 false] [(- ENOMEM)%Z] (mk_read id 3 false)
    [mk_read (set_group_list []) 2 true; mk_read id 9 false] (txt "0:scan" ++ NL :: replicate 249 NUL) one_group
    one_group one_group) as (out & s' & E & Ho & _).
  - exists None, one_group. split; [vm_compute; reflexivity|done].
  - vm_compute. reflexivity.
  - exists out, s'. split; [exact E|]. rewrite Ho. vm_compute. reflexivity.
Defined.

(** ** Commands *)

(** C35. Writing one command with a name of allowed characters, shorter than the
    command buffer together, runs exactly that command, once, with exactly the name that
    was written; the write returns the length of the command, or the error of the
    command: provided that behind the command the stack holds, before the buffer ends, a
    character that ends a name, which nothing guarantees ([terminator_counts_as_valid]). *)
Theorem command_runs_once stack c nm pos s :
  valid_name (txt nm) -> stack_ok stack (key_of c ++ txt nm) ->
  ctrl_write stack (key_of c ++ txt nm) pos false s =
  (let! r := run_of c nm in
   sret (if decide (0 <= r)%Z
         then (Z.of_nat (length (key_of c ++ txt nm)), (pos + Z.of_nat (length (key_of c ++ txt nm)))%Z)
         else (r, pos))) s.
Proof. intros [_ Hv]. by apply ctrl_write_command. Qed.

(** A stack with a space behind the command. *)
Definition clean_stack : text := replicate 32 SP.

Lemma command_runs_once_witness :
  ctrl_write clean_stack (key_of Del ++ txt "scan") 0 false one_group =
  (let! r := run_of Del "scan" in
   sret (if decide (0 <= r)%Z
         then (Z.of_nat (length (key_of Del ++ txt "scan")), (0 + Z.of_nat (length (key_of Del ++ txt "scan")))%Z)
         else (r, 0%Z))) one_group.
Proof.
  apply command_runs_once; [split; [done|apply (bool_decide_unpack _); by vm_compute]|].
  split; [vm_compute; lia|vm_compute; eauto].
Defined.

(** C36. The terminator counts as a valid character of a name, so that the search for
    the end of the name passes it.  When all that the stack held in the rest of the
    command buffer is zero or allowed in names, a command with any name of allowed
    characters leaves the buffer.  Otherwise a command without a name is not refused: it
    is run with the empty name; [add=] then adds a group with that name, if there is room
    and memory for one. *)
Theorem terminator_counts_as_valid stack c nm pos s :
  allowed (txt nm) -> length (key_of c ++ txt nm) < CtrlDev.DAZUKOFS_MAX_WRITE_BUFFER ->
  (nothing_stops (drop (length (key_of c ++ txt nm) + 1) stack) ->
     ctrl_write stack (key_of c ++ txt nm) pos false s = Stuck OutOfBounds) /\
  (~ nothing_stops (drop (length (key_of c) + 1) stack) ->
     ctrl_write stack (key_of c) pos false s =
       (let! r := run_of c "" in
        sret (if decide (0 <= r)%Z then (Z.of_nat (length (key_of c)), (pos + Z.of_nat (length (key_of c)))%Z) else (r, pos))) s /\
     forall gh, grp_inv gh s -> reg_inv s -> c <> Del ->
       wp (ctrl_write stack (key_of c) pos false) (fun _ s' => exists r, Spec.add "" (registry_of s) r (registry_of s')) s).
Proof.
  intros Hv Hl. split; [by apply ctrl_write_overrun|]. intros Hn.
  assert (E : ctrl_write stack (key_of c) pos false s = (let! r := run_of c "" in
    sret (if decide (0 <= r)%Z then (Z.of_nat (length (key_of c)), (pos + Z.of_nat (length (key_of c)))%Z) else (r, pos))) s).
  { pose proof (ctrl_write_command stack c "" pos s) as Hw. change (txt "") with (@nil ascii) in Hw. rewrite app_nil_r in Hw.
    apply Hw; [apply Forall_nil_2|]. split; [unfold CtrlDev.DAZUKOFS_MAX_WRITE_BUFFER; destruct c; simpl; lia|].
    destruct (scan_valid _) as [k|] eqn:Ek; [by exists k|]. by apply scan_valid_none in Ek. }
  split; [exact E|]. intros gh I R Hc. unfold wp. rewrite E. clear E.
  assert (Er : exists track, run_of c "" = dazukofs_add_group "" track) by (destruct c; [done|by exists false|by exists true]).
  destruct Er as [track ->]. destruct (wp_run _ _ _ (wp_add_group gh "" track s I R)) as (r & s' & E & A & _).
  unfold sbind. rewrite E. by exists r.
Qed.
(** A stack full of zeroes; and one of spaces, where [add=] makes a group without a
    name. *)
Lemma terminator_counts_as_valid_witness :
  ctrl_write (replicate 32 NUL) (key_of CtrlDev.Add ++ txt "scan") 0 false init_state = Stuck OutOfBounds /\
  exists s', ctrl_write clean_stack (key_of CtrlDev.Add) 0 false init_state = Ret (4%Z, 4%Z) s' /\ registry_of s' = [(""%string, 0%Z)].
Proof.
  split.
  - apply (proj1 (terminator_counts_as_valid (replicate 32 NUL) CtrlDev.Add "scan" 0 init_state
      ltac:(apply (bool_decide_unpack _); by vm_compute) ltac:(vm_compute; lia))).
    apply (bool_decide_unpack _). by vm_compute.
  - destruct (proj2 (terminator_counts_as_valid clean_stack CtrlDev.Add "" 0 init_state
      ltac:(apply (bool_decide_unpack _); by vm_compute) ltac:(vm_compute; lia))) as [E _].
    { apply (bool_decide_unpack _). by vm_compute. }
    rewrite E. eexists. split; vm_compute; reflexivity.
Defined.

(** ** Events and answers as text *)

(** C32. An event arrives as it was sent: when a read of a group device
    succeeds, the library finds in the text exactly the id, the descriptor and
    the pid that [dazukofs_get_event] returned; the text fits its buffer. *)
Theorem event_text_arrives {S} sys_close return_event id fd pid get_event len pos (s s1 : S) n pos' data s2 hid acc :
  (0 <= id < 2 ^ 64)%Z -> (0 <= fd < 2 ^ 31)%Z -> (0 <= pid < 2 ^ 31)%Z -> (pos <= 0)%Z ->
  get_event s = Ret (inr (id, fd, pid)) s1 ->
  group_read sys_close get_event return_event len pos false s = Ret (n, pos', data) s2 -> (0 <= n)%Z ->
  s2 = s1 /\ length data <= 47 /\
  parse_event (data ++ replicate (48 - length data) NUL) hid acc = (0%Z, id, mk_access false fd pid).
Proof. apply event_arrives. Qed.

Lemma event_text_arrives_witness :
  one_group = one_group /\ length (event_text 17 4 1234) <= 47 /\
  parse_event (event_text 17 4 1234 ++ replicate (48 - length (event_text 17 4 1234)) NUL) 0 (mk_access true 0 0) =
    (0%Z, 17%Z, mk_access false 4 1234).
Proof.
  apply (event_text_arrives (fun fd => kcall_ (KSysClose fd)) (fun _ _ => sret 0%Z) 17 4 1234 (sret (inr (17%Z, 4%Z, 1234%Z))) 47 0
    one_group one_group 20 20 (event_text 17 4 1234) one_group); [lia..|done| |lia].
  vm_compute. reflexivity.
Defined.

(** C33. An answer arrives as it was given: what the library writes for an id of
    at most 11 digits makes the device call [dazukofs_return_event] once, with
    that id and that verdict, and the write reports its success.  But once
    [last_event_id] has become negative its ids, converted to [unsigned long], have 20
    digits, and no answer to them is accepted: the write always fails with [-EINVAL]. *)
Theorem answer_text_arrives {S} simple_strtoul (return_event : Z -> dazukofs_response_t -> SM S Z) id deny pos s :
  strtoul_law simple_strtoul ->
  ((0 <= id < 10 ^ 11)%Z ->
   group_write simple_strtoul return_event (answer_text id deny) pos false s =
   (let! r := return_event id (if deny then DENY else ALLOW) in
    sret (if decide (r = 0%Z)
          then (Z.of_nat (length (answer_text id deny)), (pos + Z.of_nat (length (answer_text id deny)))%Z)
          else if decide (r = - ERESTARTSYS)%Z then ((- EINTR)%Z, pos) else (r, pos))) s) /\
  ((10 ^ 19 <= id < 2 ^ 64)%Z ->
   group_write simple_strtoul return_event (answer_text id deny) pos false s = Ret ((- EINVAL)%Z, pos) s).
Proof. intros Law. split; [by apply answer_arrives|by apply long_id_unanswerable]. Qed.

Lemma answer_text_arrives_witness :
  group_write simple_strtoul_digits (dazukofs_return_event 0) (answer_text 99999999999 true) 0 false one_group =
  (let! r := dazukofs_return_event 0 99999999999 DENY in
   sret (if decide (r = 0%Z) then (18%Z, 18%Z)
         else if decide (r = - ERESTARTSYS)%Z then ((- EINTR)%Z, 0%Z) else (r, 0%Z))) one_group /\
  group_write simple_strtoul_digits (dazukofs_return_event 0) (answer_text (2 ^ 64 - 2 ^ 31) false) 0 false one_group =
  Ret ((- EINVAL)%Z, 0%Z) one_group.
Proof.
  split.
  - apply (proj1 (answer_text_arrives simple_strtoul_digits (dazukofs_return_event 0) 99999999999 true 0 one_group
      simple_strtoul_digits_law)). lia.
  - apply (proj2 (answer_text_arrives simple_strtoul_digits (dazukofs_return_event 0) (2 ^ 64 - 2 ^ 31) false 0 one_group
      simple_strtoul_digits_law)). lia.
Defined.

(** ** The library on top of the devices *)

(** C30. [dazukofs_open], down to the registry, with a name that the library accepts and
    on groups that all have such names.  If behind the command the kernel stack holds,
    before the command buffer ends, a character that ends a name, a program that asks for
    a group gets a handle for the device of the group of that name, which is in the
    registry, or an error that says why: no memory, or no room for a new group.  Nothing
    guarantees that it does; if it does not, the write of the command leaves the buffer. *)
Theorem open_finds_the_group gh stack nm track u :
  grp_inv gh (u_k u) -> reg_inv (u_k u) -> named (u_k u) -> lib_names (registry_of (u_k u)) ->
  valid_name (txt nm) -> String.length nm <= 20 ->
  (~ nothing_stops (drop (length (key_of (open_command track) ++ txt nm) + 1) stack) ->
     wp (dazukofs_open (kernel_ops stack) (txt nm) track) (open_outcome u nm) u) /\
  (nothing_stops (drop (length (key_of (open_command track) ++ txt nm) + 1) stack) ->
     dazukofs_open (kernel_ops stack) (txt nm) track u = Stuck OutOfBounds).
Proof.
  intros I R Hn Hl Hv Hlen. split; [|by apply dazukofs_open_overrun]. intros Hs.
  eapply wp_mono; [apply (wp_dazukofs_open gh); [done..|]|by intros r u' [? _]]. split.
  - rewrite length_app, length_txt. unfold CtrlDev.DAZUKOFS_MAX_WRITE_BUFFER. destruct track; simpl; lia.
  - destruct (scan_valid _) as [k|] eqn:Ek; [by exists k|]. by apply scan_valid_none in Ek.
Qed.

Definition user_one_group : ustate := mk_ustate one_group None 0 0.

Lemma open_finds_the_group_witness :
  wp (dazukofs_open (kernel_ops clean_stack) (txt "other") true) (open_outcome user_one_group "other") user_one_group /\
  dazukofs_open (kernel_ops (replicate 32 NUL)) (txt "other") true user_one_group = Stuck OutOfBounds.
Proof.
  assert (Hv : valid_name (txt "other")) by (split; [done|apply (bool_decide_unpack _); by vm_compute]).
  assert (Hl : String.length "other" <= 20) by (vm_compute; lia).
  assert (Ho : forall stack, _) by (intros stack; exact (open_finds_the_group no_ghost stack "other" true user_one_group
    (proj1 one_group_inv) (proj2 one_group_inv) (proj1 one_group_named) (proj2 one_group_named) Hv Hl)).
  split; [apply (proj1 (Ho clean_stack))|apply (proj2 (Ho (replicate 32 NUL)))]; apply (bool_decide_unpack _); by vm_compute.
Defined.

(** ** The ignore device *)




(** ** Start and end *)

(** The module before it is loaded; [a] are the results of the registrations. *)
Definition unloaded (a : list Z) : dstate := mk_dstate [] [] 0 0 0 a init_state (ign_init []).

Lemma unloaded_fresh a : fresh_base (base (unloaded a)) /\ holds [] [] (base (unloaded a)) (unloaded a).
Proof.
  split; [|by split_and!]. split_and!; [apply grp_inv_init|done..| |done].
  split; [apply NoDup_nil_2|]. intros l. simpl. rewrite lookup_empty, elem_of_nil. split; [done|by intros [? ?]].
Qed.

(** The module after a group has been added. *)
Definition loaded_state : dstate :=
  match init_dazukofs_fs 250 0 (unloaded []) with Ret _ s => set_ev one_group s | Stuck _ => unloaded [] end.

(** C39. Whichever registration fails, [init_dazukofs_fs] takes everything or
    nothing: it returns 0 and holds every cache, number, class and device once,
    or a negative error and holds nothing; it never releases what it does not
    hold.  [exit_dazukofs_fs] gives back everything it took, whatever the event layer
    and the ignore device did in between, provided that no task uses a group any more:
    nothing is held, no group and no structure of the ignore device is left, nothing is
    released twice. *)
Theorem module_takes_all_and_gives_it_back major minor a :
  (0 <= minor)%Z ->
  (exists r s', init_dazukofs_fs major minor (unloaded a) = Ret r s' /\
     ((r = 0%Z /\ loaded major minor s' /\ group_list (ev s') = []) \/ ((r < 0)%Z /\ held s' = []))) /\
  (forall gh s, loaded major minor s -> grp_inv gh (ev s) -> unused_groups gh -> ign_ok (ign_st s) ->
     wp exit_dazukofs_fs (fun _ s' => held s' = [] /\ group_list (ev s') = [] /\ ign_procs (ign_st s') = ∅) s).
Proof.
  intros Hm. split; [|apply wp_exit_module]. destruct (unloaded_fresh a) as [Hf Hh].
  destruct (wp_run _ _ _ (wp_init_module major minor Hm _ _ Hf Hh)) as (r & s' & E & [(-> & L & Ee & _)|?]);
    exists r, s' || exists 0%Z, s'; (split; [done|]); [left|by right].
  split_and!; [done|done|]. by rewrite Ee.
Qed.

(** The 20th registration fails: some of the group devices are there by then. *)
Lemma module_takes_all_and_gives_it_back_witness :
  (exists r s', init_dazukofs_fs 250 0 (unloaded (replicate 21 0 ++ [-12])%Z) = Ret r s' /\
     ((r = 0%Z /\ loaded 250 0 s' /\ group_list (ev s') = []) \/ ((r < 0)%Z /\ held s' = []))) /\
  wp exit_dazukofs_fs (fun _ s' => held s' = [] /\ group_list (ev s') = [] /\ ign_procs (ign_st s') = ∅) loaded_state.
Proof.
  split; [apply (module_takes_all_and_gives_it_back 250 0 (replicate 21 0 ++ [-12])%Z); lia|].
  assert (H : loaded 250 0 loaded_state /\ ev loaded_state = one_group /\ ign_st loaded_state = ign_init []).
  { unfold loaded_state. destruct (unloaded_fresh []) as [Hf Hh].
    destruct (wp_run _ _ _ (wp_init_module 250 0 ltac:(lia) _ _ Hf Hh)) as (r & s' & E & [(-> & L & Ee & Ei)|[Hr _]]).
    - rewrite E. split; [|split; [reflexivity|exact Ei]]. destruct L as (L1 & L2 & L3 & L4 & L5).
      split; [exact L1|split; [exact L2|split; [exact L3|split; [exact L4|exact L5]]]].
    - exfalso. assert (Ez : match init_dazukofs_fs 250 0 (unloaded []) with Ret r _ => r | Stuck _ => 1%Z end = 0%Z)
        by (by vm_compute). rewrite E in Ez. lia. }
  destruct H as (L & Ee & Ei).
  apply (proj2 (module_takes_all_and_gives_it_back 250 0 [] ltac:(lia)) no_ghost); [done| |by intros g|].
  - rewrite Ee. apply one_group_inv.
  - rewrite Ei. apply (unloaded_fresh []).
Defined.

(** C40. Once the module has started, the kernel finds for the number of the control
    and of the ignore device their operations, and for the device [dazukofs.<gid>],
    which is there, those that work on the group [gid].  But each of the [GROUP_COUNT]
    devices registered [GROUP_COUNT] numbers: it is the order of registration that
    tells them apart, and the last of them claims numbers that the module does not own. *)
Theorem device_files_reach_their_groups lookup major minor get_event return_event simple_strtoul fuel s s' :
  lookup_law lookup -> held s = [] -> init_dazukofs_fs major minor s = Ret 0%Z s' ->
  let finds dev := lookup (cdev_map minor s') dev ≫= cdev_ops get_event return_event simple_strtoul fuel in
  finds minor = Some (CtrlFops (ctrl_fops fuel)) /\ finds (minor + 1)%Z = Some (IgnFops ign_fops) /\
  (forall gid, (0 <= gid < GROUP_COUNT)%Z -> RDevice major (minor + 2 + gid)%Z ∈ held s' /\
     finds (minor + 2 + gid)%Z = Some (GroupFops (declare_group_fops get_event return_event simple_strtoul gid))) /\
  (exists r, r ∈ cdev_map minor s' /\ covers r (minor + (2 + GROUP_COUNT))%Z).
Proof.
  intros Law Hs H finds. pose proof (init_held _ _ _ _ H Hs) as E. unfold finds.
  destruct (lookup_ctrl _ _ _ _ Law E) as [-> ->]. split_and!; [done|done| |].
  - intros gid Hg. split; [rewrite E; by apply device_taken|].
    rewrite (lookup_group _ _ _ _ gid Law E Hg). cbn [mbind option_bind cdev_ops]. by rewrite group_fops_lookup.
  - exists ((minor + 2 + 9)%Z, GROUP_COUNT, GroupDev 9). rewrite (cdev_map_taken _ _ _ E). split; [left|].
    unfold covers, GROUP_COUNT. simpl. lia.
Qed.
Lemma device_files_reach_their_groups_witness :
  let s' := match init_dazukofs_fs 250 0 (unloaded []) with Ret _ s' => s' | Stuck _ => unloaded [] end in
  let get_event := fun _ => sret (inl 0%Z) in let return_event := fun _ _ _ => sret 0%Z in let strtoul := fun t => (0%Z, t) in
  RDevice 250 5 ∈ held s' /\ (kobj_lookup (cdev_map 0 s') 5 ≫= cdev_ops get_event return_event strtoul 20) =
    Some (GroupFops (declare_group_fops get_event return_event strtoul 3)).
Proof.
  cbv zeta. assert (Ez : match init_dazukofs_fs 250 0 (unloaded []) with Ret r _ => r | Stuck _ => 1%Z end = 0%Z)
    by (vm_compute; reflexivity).
  destruct (init_dazukofs_fs 250 0 (unloaded [])) as [r s'|w] eqn:E; [|done]. subst r.
  destruct (device_files_reach_their_groups kobj_lookup 250 0 (fun _ => sret (inl 0%Z)) (fun _ _ _ => sret 0%Z) (fun t => (0%Z, t)) 20
    (unloaded []) s' kobj_lookup_law eq_refl E) as (_ & _ & Hg & _).
  assert (H3 : (0 <= 3 < GROUP_COUNT)%Z) by (unfold GROUP_COUNT; lia).
  destruct (Hg 3%Z H3) as (Hd & Hl). split; [exact Hd|exact Hl].
Defined.

(** C4. When the module goes, no call uses a group any more and no file of a tracking
    group is open, but accesses may still wait.  From every state that an orderly run
    reaches and where that is so, [dazukofs_destroy_events] completes without touching
    freed memory; it unlinks and frees every group; and each access that waits finds
    that no group is left to answer its event. *)
Theorem destroy_events_frees_groups σ :
  orderly_reachable σ ->
  (forall t cur p, tasks σ !! t = Some (cur, p) -> group_of p = None /\ forall gid g, p <> Tracked gid g) ->
  wp dazukofs_destroy_events (fun _ s' => group_list s' = [] /\
    (forall g, g ∈ group_list (mem σ) -> groups s' !! g = None) /\
    forall t cur evt, tasks σ !! t = Some (cur, CA_sleep evt) -> event_is s' evt (fun ev => assigned ev = 0%Z)) (mem σ).
Proof.
  intros R Hp. set (gh := ghost_of (tasks σ)).
  assert (Hnone : forall (f : pc -> nat), (forall p, group_of p = None -> (forall gid g, p <> Tracked gid g) -> f p = 0) ->
    mcount (fun x => f x.2) (tasks σ) = 0).
  { intros f Hf. apply mcount_zero. intros t [cur p] Ht. destruct (Hp t cur p Ht). by apply Hf. }
  assert (Hu : unused_groups gh).
  { intros g. unfold gh. simpl. rewrite (Hnone (fun p => c_hold p g)), (Hnone (fun p => c_tracked p g)); [done|..]; intros p Hg Ht.
    - destruct p; try done. by edestruct Ht.
    - unfold c_hold. by rewrite Hg. }
  eapply wp_mono; [apply (wp_destroy_events gh); [apply (inv_reachable σ R)|exact Hu]|]. intros [] s' (I' & Hl & Hg & Ha).
  split_and!; [exact Hl|exact Hg|]. intros t cur evt Ht.
  assert (is_Some (events s' !! evt)) as [ev He].
  { apply (m_own _ _ (proj1 I') evt). pose proof (share_own _ _ _ Ht evt) as Hs. unfold c_own in Hs. simpl in Hs. rewrite one_refl in Hs.
    exact Hs. }
  exists ev. split; [done|]. rewrite (Ha evt ev He). unfold gh. simpl. rewrite (Hnone (fun p => c_pend p evt)); [done|]. by intros [].
Qed.

(** A group with an event on its list that a task waits for. *)
Lemma destroy_events_frees_groups_witness :
  wp dazukofs_destroy_events (fun _ s' => group_list s' = [] /\ groups s' !! 1%positive = None /\
    event_is s' 2 (fun ev => assigned ev = 0%Z)) (mem (state_of waiting)).
Proof.
  assert (R : orderly_reachable (state_of waiting)) by (apply state_of_reachable; vm_compute; eauto).
  assert (Et : map_Forall (fun _ x => group_of x.2 = None /\ match x.2 with Tracked _ _ => False | _ => True end) (tasks (state_of waiting))).
  { apply map_Forall_to_list. vm_compute. repeat constructor. }
  eapply wp_mono.
  - apply (destroy_events_frees_groups (state_of waiting) R). intros t cur p Ht. destruct (Et t _ Ht) as [Hg Hn].
    split; [exact Hg|]. intros gid g E. simpl in Hn. by rewrite E in Hn.
  - intros r s' (Hl & Hg & He). split; [exact Hl|]. split.
    + apply Hg. apply (bool_decide_unpack _). vm_compute. exact I.
    + apply (He 2%positive 20%Z). vm_compute. reflexivity.
Defined.
