(* ===== verification/FsState.v ===== *)
(** * The stacked file system: state and kernel interface

    DazukoFS lays each of its dentries, inodes and files over a lower one.  The
    model keeps these links, the references the file system holds on lower
    objects, and the mutexes it holds; the lower file system and the VFS are
    parameters. *)

From S2P Require Import Prelude EventState.
From stdpp Require Import list gmap.

(** ** Objects *)

(** Lower objects with a reference count. *)
Abbreviation obj := (N * ptr)%type.
Definition ODentry (d : ptr) : obj := (0%N, d).
Definition OMnt (m : ptr) : obj := (1%N, m).
Definition OInode (i : ptr) : obj := (2%N, i).
Definition OFile (f : ptr) : obj := (3%N, f).
(** A buffer of [kmalloc], which is allocated once. *)
Definition OBuf (p : ptr) : obj := (5%N, p).

(** The fields of a [struct inode] that are copied. *)
Record attr := mk_attr {
  a_mode : Z;
  a_nlink : Z;
  a_owner : Z * Z;
  a_rdev : Z;
  a_atime : Z;
  a_mtime : Z;
  a_ctime : Z;
  a_size : Z;
  a_blocks : Z
}.
Definition attr0 : attr := mk_attr 0 0 (0, 0)%Z 0 0 0 0 0 0.
#[export] Instance attr_eq_dec : EqDecision attr.
Proof. solve_decision. Defined.

Definition set_nlink (n : Z) (a : attr) : attr :=
  mk_attr (a_mode a) n (a_owner a) (a_rdev a) (a_atime a) (a_mtime a) (a_ctime a) (a_size a) (a_blocks a).
Definition set_size (n : Z) (a : attr) : attr :=
  mk_attr (a_mode a) (a_nlink a) (a_owner a) (a_rdev a) (a_atime a) (a_mtime a) (a_ctime a) n (a_blocks a).
Definition set_blocks (n : Z) (a : attr) : attr :=
  mk_attr (a_mode a) (a_nlink a) (a_owner a) (a_rdev a) (a_atime a) (a_mtime a) (a_ctime a) (a_size a) n.

(** The tables of operations the source installs in an inode: [i_op] and [i_fop];
    [SpecialFops] are those of [init_special_inode]. *)
Inductive iops := MainOps | SymlinkOps | DirOps.
Inductive fops := MainFops | DirFops | SpecialFops.
#[export] Instance iops_eq_dec : EqDecision iops.
Proof. solve_decision. Defined.
#[export] Instance fops_eq_dec : EqDecision fops.
Proof. solve_decision. Defined.

(** ** The kernel and the lower file system *)

(** Operations of a lower inode that may be missing. *)
Inductive iop := Op_readlink | Op_getattr | Op_setxattr | Op_getxattr | Op_listxattr | Op_removexattr.

(** What the lower [create] gets besides the mode: since Linux 3.6 whether the file
    must not exist, before a nameidata that holds a path. *)
Inductive create_ctx := Excl (excl : bool) | Nd (path_dentry path_mnt : ptr).

(** Calls into the lower file system; directories are inodes, nodes dentries. *)
Inductive lcall :=
| Lookup_one (name : list Z) (parent : ptr)
| Mknod (dir dentry : ptr) (mode dev : Z)
| Mkdir (dir dentry : ptr) (mode : Z)
| Create (dir dentry : ptr) (mode : Z) (ctx : create_ctx)
| Symlink (dir dentry : ptr) (symname : Z)
| Link (old_dentry dir new_dentry : ptr)
| Unlink (dir dentry : ptr)
| Rmdir (dir dentry : ptr)
| Rename (old_dir old_dentry new_dir new_dentry : ptr)
| Readlink (dentry : ptr) (bufsiz : Z)
| Permission (inode : ptr) (mask : Z)
| Getattr (mnt dentry : ptr)
| Notify_change (dentry : ptr) (ia_valid : Z)
| Setxattr (dentry : ptr) (name value size flags : Z)
| Getxattr (dentry : ptr) (name value size : Z)
| Listxattr (dentry : ptr) (buf size : Z)
| Removexattr (dentry : ptr) (name : Z)
| Statfs (dentry : ptr)
| Path_lookup (parent mnt : ptr) (name : list Z)
| Revalidate (dentry : ptr)
| Revalidate_nd (dentry nd_dentry nd_mnt : ptr)
| Dentry_open (dentry mnt : ptr) (flags : Z).

(** The mutexes of lower inodes a call must be made under. *)
Definition must_hold (inode : ptr -> ptr) (c : lcall) : list ptr :=
  match c with
  | Lookup_one _ p => [inode p]
  | Mknod d _ _ _ | Mkdir d _ _ | Create d _ _ _ | Symlink d _ _ | Link _ d _ | Unlink d _ | Rmdir d _ => [d]
  | Rename d _ d' _ => [d; d']
  | Notify_change e _ | Setxattr e _ _ _ _ | Removexattr e _ => [inode e]
  | _ => []
  end.

(** What the code calls, over a state [L] of the lower file system.  A call
    returns a number: an error if it is negative, else 0, a length or a
    pointer.  [k_d_hash] and [k_d_compare] are the functions of a lower dentry
    that has them: a hash function takes a name and its hash, and returns an
    error number and the new hash.  [k_link] is the text a lower [readlink] has
    written, [k_stat] what a lower [getattr] has filled in.  [k_iget5] is what
    [iget5_locked] finds among the cached inodes with a test, or the place of a new
    inode. *)
Record fs_kernel (L : Type) := mk_kernel {
  k_parent : L -> ptr -> ptr;
  k_inode : L -> ptr -> ptr;
  k_sb : L -> ptr -> ptr;
  k_dentry_sb : L -> ptr -> ptr;
  k_attr : L -> ptr -> attr;
  k_ino : L -> ptr -> Z;
  k_maxbytes : L -> ptr -> Z;
  k_link : L -> ptr -> list Z;
  k_stat : L -> ptr -> ptr -> attr;
  k_igrab : L -> ptr -> bool;
  k_has : L -> ptr -> iop -> bool;
  k_has_revalidate : L -> ptr -> bool;
  k_has_statfs : L -> ptr -> bool;
  k_d_hash : L -> ptr -> option (list Z -> Z -> Z * Z);
  k_d_compare : L -> ptr -> option (list Z -> list Z -> Z);
  k_call : lcall -> L -> Z * L;
  k_iget5 : gset ptr -> (ptr -> bool) -> option ptr;
  s_isdir : Z -> bool;
  s_islnk : Z -> bool;
  special_file : Z -> bool;
  copy_attr_all : attr -> attr -> attr;
  copy_attr_times : attr -> attr -> attr;
  copy_attr_atime : attr -> attr -> attr;
  copy_inode_size : attr -> attr -> attr
}.
Arguments k_parent {L}. Arguments k_inode {L}. Arguments k_sb {L}. Arguments k_dentry_sb {L}.
Arguments k_attr {L}. Arguments k_ino {L}. Arguments k_maxbytes {L}. Arguments k_link {L}. Arguments k_stat {L}.
Arguments k_igrab {L}. Arguments k_has {L}. Arguments k_has_revalidate {L}. Arguments k_has_statfs {L}. Arguments k_d_hash {L}. Arguments k_d_compare {L}. Arguments k_call {L}.
Arguments k_iget5 {L}. Arguments s_isdir {L}. Arguments s_islnk {L}. Arguments special_file {L}.
Arguments copy_attr_all {L}. Arguments copy_attr_times {L}. Arguments copy_attr_atime {L}.
Arguments copy_inode_size {L}.

(** ** State *)

(** What DazukoFS writes into objects of the VFS: the dentries with its table of
    operations [dazukofs_dops], and those that are hashed; the number of an inode;
    the buffer and the text [nd_set_link] left in a nameidata; the root and the
    largest file size of a super block. *)
Record vfs_fields := mk_vfs {
  d_op : gset ptr;
  hashed : gset ptr;
  i_ino : gmap ptr Z;
  nd_link : gmap ptr (ptr * list Z);
  s_root : gmap ptr ptr;
  s_maxbytes : gmap ptr Z
}.
Definition vfs0 : vfs_fields := mk_vfs ∅ ∅ ∅ ∅ ∅ ∅.
Definition set_d_op (x : gset ptr) (v : vfs_fields) : vfs_fields :=
  mk_vfs x (hashed v) (i_ino v) (nd_link v) (s_root v) (s_maxbytes v).
Definition set_hashed (x : gset ptr) (v : vfs_fields) : vfs_fields :=
  mk_vfs (d_op v) x (i_ino v) (nd_link v) (s_root v) (s_maxbytes v).
Definition set_ino (x : gmap ptr Z) (v : vfs_fields) : vfs_fields :=
  mk_vfs (d_op v) (hashed v) x (nd_link v) (s_root v) (s_maxbytes v).
Definition set_nd_link (x : gmap ptr (ptr * list Z)) (v : vfs_fields) : vfs_fields :=
  mk_vfs (d_op v) (hashed v) (i_ino v) x (s_root v) (s_maxbytes v).
Definition set_s_root (x : gmap ptr ptr) (v : vfs_fields) : vfs_fields :=
  mk_vfs (d_op v) (hashed v) (i_ino v) (nd_link v) x (s_maxbytes v).
Definition set_maxbytes (x : gmap ptr Z) (v : vfs_fields) : vfs_fields :=
  mk_vfs (d_op v) (hashed v) (i_ino v) (nd_link v) (s_root v) x.

(** [refs] counts the references DazukoFS took minus those it dropped;
    [d_fsdata] holds the lower dentry and mount of a dentry, [inode_info] the
    lower inode of an inode, [i_op] its tables of operations, [files] the lower file of an open file, [sb_info]
    the lower super block; [locks] are the mutexes held; [fs_oom] tells which
    allocations fail. *)
Record fstate (L : Type) := mk_fstate {
  lower : L;
  refs : gmap obj Z;
  locks : list ptr;
  d_fsdata : gmap ptr (ptr * ptr);
  d_inode : gmap ptr ptr;
  vfs : vfs_fields;
  inode_info : gmap ptr ptr;
  i_op : gmap ptr (iops * fops);
  i_attr : gmap ptr attr;
  files : gmap ptr ptr;
  sb_info : gmap ptr ptr;
  fs_oom : list bool
}.
Arguments mk_fstate {L}. Arguments lower {L}. Arguments refs {L}. Arguments locks {L}.
Arguments d_fsdata {L}. Arguments d_inode {L}. Arguments vfs {L}. Arguments inode_info {L}.
Arguments i_op {L}. Arguments i_attr {L}. Arguments files {L}. Arguments sb_info {L}. Arguments fs_oom {L}.

Section setters.
Context {L : Type}.
Implicit Types s : fstate L.

Definition set_lower (x : L) s : fstate L :=
  mk_fstate x (refs s) (locks s) (d_fsdata s) (d_inode s) (vfs s) (inode_info s) (i_op s) (i_attr s) (files s) (sb_info s) (fs_oom s).
Definition set_refs (x : gmap obj Z) s : fstate L :=
  mk_fstate (lower s) x (locks s) (d_fsdata s) (d_inode s) (vfs s) (inode_info s) (i_op s) (i_attr s) (files s) (sb_info s) (fs_oom s).
Definition set_locks (x : list ptr) s : fstate L :=
  mk_fstate (lower s) (refs s) x (d_fsdata s) (d_inode s) (vfs s) (inode_info s) (i_op s) (i_attr s) (files s) (sb_info s) (fs_oom s).
Definition set_fsdata (x : gmap ptr (ptr * ptr)) s : fstate L :=
  mk_fstate (lower s) (refs s) (locks s) x (d_inode s) (vfs s) (inode_info s) (i_op s) (i_attr s) (files s) (sb_info s) (fs_oom s).
Definition set_d_inode (x : gmap ptr ptr) s : fstate L :=
  mk_fstate (lower s) (refs s) (locks s) (d_fsdata s) x (vfs s) (inode_info s) (i_op s) (i_attr s) (files s) (sb_info s) (fs_oom s).
Definition set_vfs (x : vfs_fields) s : fstate L :=
  mk_fstate (lower s) (refs s) (locks s) (d_fsdata s) (d_inode s) x (inode_info s) (i_op s) (i_attr s) (files s) (sb_info s) (fs_oom s).
Definition set_inode_info (x : gmap ptr ptr) s : fstate L :=
  mk_fstate (lower s) (refs s) (locks s) (d_fsdata s) (d_inode s) (vfs s) x (i_op s) (i_attr s) (files s) (sb_info s) (fs_oom s).
Definition set_i_op (x : gmap ptr (iops * fops)) s : fstate L :=
  mk_fstate (lower s) (refs s) (locks s) (d_fsdata s) (d_inode s) (vfs s) (inode_info s) x (i_attr s) (files s) (sb_info s) (fs_oom s).
Definition set_i_attr (x : gmap ptr attr) s : fstate L :=
  mk_fstate (lower s) (refs s) (locks s) (d_fsdata s) (d_inode s) (vfs s) (inode_info s) (i_op s) x (files s) (sb_info s) (fs_oom s).
Definition set_files (x : gmap ptr ptr) s : fstate L :=
  mk_fstate (lower s) (refs s) (locks s) (d_fsdata s) (d_inode s) (vfs s) (inode_info s) (i_op s) (i_attr s) x (sb_info s) (fs_oom s).
Definition set_sb_info (x : gmap ptr ptr) s : fstate L :=
  mk_fstate (lower s) (refs s) (locks s) (d_fsdata s) (d_inode s) (vfs s) (inode_info s) (i_op s) (i_attr s) (files s) x (fs_oom s).
Definition set_fs_oom (x : list bool) s : fstate L :=
  mk_fstate (lower s) (refs s) (locks s) (d_fsdata s) (d_inode s) (vfs s) (inode_info s) (i_op s) (i_attr s) (files s) (sb_info s) x.
End setters.

Abbreviation FM L := (SM (fstate L)) (only parsing).

(** ** Primitives *)

Section prims.
Context {L : Type} (K : fs_kernel L).

Definition refs_at (s : fstate L) (o : obj) : Z := default 0%Z (refs s !! o).

(** [dget], [mntget] and [dput], [mntput], [iput], [fput]; NULL is let pass. *)
Definition get_ref (o : obj) : FM L unit :=
  if decide (o.2 = NULL) then sret tt
  else smodify (fun s => set_refs (<[o := (refs_at s o + 1)%Z]> (refs s)) s).
Definition put_ref (o : obj) : FM L unit :=
  if decide (o.2 = NULL) then sret tt
  else smodify (fun s => set_refs (<[o := (refs_at s o - 1)%Z]> (refs s)) s).

(** [mutex_lock] and [mutex_unlock] on the [i_mutex] of an inode. *)
Definition mutex_lock (i : ptr) : FM L unit :=
  fun s => if decide (i = NULL) then Stuck NullDeref
           else if decide (i ∈ locks s) then Stuck LockMisuse
           else Ret tt (set_locks (i :: locks s) s).
Definition mutex_unlock (i : ptr) : FM L unit :=
  fun s => if decide (i ∈ locks s) then Ret tt (set_locks (filter (fun x => x <> i) (locks s)) s)
           else Stuck LockMisuse.

(** A call of the lower file system, made without a mutex it needs, is an error. *)
Definition call (c : lcall) : FM L Z :=
  fun s => if decide (must_hold (k_inode K (lower s)) c ⊆ locks s) then
             let '(r, l) := k_call K c (lower s) in Ret r (set_lower l s)
           else Stuck LockMisuse.

(** The accessors of [dazukofs_fs.h]; the private data of a dentry, of a file or of a
    super block may be NULL, that of an inode is embedded; fresh private data is
    zeroed. *)
Definition get_lower_dentry (dentry : ptr) : FM L ptr :=
  fun s => match d_fsdata s !! dentry with Some (d, _) => Ret d s | None => Stuck NullDeref end.
Definition get_lower_mnt (dentry : ptr) : FM L ptr :=
  fun s => match d_fsdata s !! dentry with Some (_, m) => Ret m s | None => Stuck NullDeref end.
Definition get_lower_inode (inode : ptr) : FM L ptr := sget (fun s => default NULL (inode_info s !! inode)).
Definition get_lower_file (file : ptr) : FM L ptr :=
  fun s => match files s !! file with Some f => Ret f s | None => Stuck NullDeref end.
Definition get_lower_sb (sb : ptr) : FM L ptr :=
  fun s => match sb_info s !! sb with Some x => Ret x s | None => Stuck NullDeref end.
Definition set_lower_dentry (dentry d m : ptr) : FM L unit :=
  fun s => match d_fsdata s !! dentry with
           | Some _ => Ret tt (set_fsdata (<[dentry := (d, m)]> (d_fsdata s)) s)
           | None => Stuck NullDeref
           end.

Definition set_dentry_private (dentry : ptr) : FM L unit :=
  smodify (fun s => set_fsdata (<[dentry := (NULL, NULL)]> (d_fsdata s)) s).
Definition set_lower_inode (inode lower_inode : ptr) : FM L unit :=
  smodify (fun s => set_inode_info (<[inode := lower_inode]> (inode_info s)) s).
Definition set_sb_private (sb : ptr) : FM L unit := smodify (fun s => set_sb_info (<[sb := NULL]> (sb_info s)) s).
Definition set_lower_sb (sb lower_sb : ptr) : FM L unit := smodify (fun s => set_sb_info (<[sb := lower_sb]> (sb_info s)) s).
Definition set_file_private (file : ptr) : FM L unit := smodify (fun s => set_files (<[file := NULL]> (files s)) s).
Definition set_lower_file (file lower_file : ptr) : FM L unit :=
  smodify (fun s => set_files (<[file := lower_file]> (files s)) s).

(** [dentry->d_inode] of an upper and of a lower dentry, [dentry->d_parent] of
    a lower one. *)
Definition upper_inode (dentry : ptr) : FM L ptr := sget (fun s => default NULL (d_inode s !! dentry)).
Definition lower_d_inode (d : ptr) : FM L ptr :=
  if decide (d = NULL) then sfail NullDeref else sget (fun s => k_inode K (lower s) d).
Definition lower_d_parent (d : ptr) : FM L ptr :=
  if decide (d = NULL) then sfail NullDeref else sget (fun s => k_parent K (lower s) d).

(** Fields of VFS objects: [dentry->d_op = &dazukofs_dops], and hashing. *)
Definition upd_vfs (f : vfs_fields -> vfs_fields) : FM L unit := smodify (fun s => set_vfs (f (vfs s)) s).
Definition set_dops (dentry : ptr) : FM L unit := upd_vfs (fun v => set_d_op ({[ dentry ]} ∪ d_op v) v).
Definition d_rehash (dentry : ptr) : FM L unit := upd_vfs (fun v => set_hashed ({[ dentry ]} ∪ hashed v) v).
Definition d_drop (dentry : ptr) : FM L unit := upd_vfs (fun v => set_hashed (hashed v ∖ {[ dentry ]}) v).

(** [d_instantiate(dentry, inode)], where the inode may be NULL, and [d_add]. *)
Definition d_instantiate (dentry inode : ptr) : FM L unit :=
  smodify (fun s => set_d_inode (if decide (inode = NULL) then delete dentry (d_inode s)
                                 else <[dentry := inode]> (d_inode s)) s).
Definition d_add (dentry inode : ptr) : FM L unit := do! d_instantiate dentry inode in d_rehash dentry.

Definition attr_of (s : fstate L) (i : ptr) : attr := default attr0 (i_attr s !! i).

(** [fsstack_copy_*(inode, lower_inode)], and other updates of an inode's fields. *)
Definition upd_attr (inode : ptr) (f : attr -> attr) : FM L unit :=
  fun s => if decide (inode = NULL) then Stuck NullDeref
           else Ret tt (set_i_attr (<[inode := f (attr_of s inode)]> (i_attr s)) s).
Definition copy (f : attr -> attr -> attr) (inode lower_inode : ptr) : FM L unit :=
  let! a := sget (fun s => k_attr K (lower s) lower_inode) in
  if decide (lower_inode = NULL) then sfail NullDeref
  else upd_attr inode (fun x => f x a).

(** [kmem_cache_zalloc]: whether it succeeds. *)
Definition zalloc : FM L bool :=
  fun s => match fs_oom s with b :: o => Ret (negb b) (set_fs_oom o s) | [] => Ret true s end.
End prims.
