(* ===== verification/FsInode.v ===== *)
(** * Inode operations ([inode.c])

    Each operation is forwarded to the lower file system under the mutex of the
    lower directory, and its effect is copied up. *)

From S2P Require Import Prelude EventState FsState.
From stdpp Require Import list gmap.

Definition ESTALE : Z := 116.
Definition EXDEV : Z := 18.
Definition EACCES : Z := 13.
Definition EOPNOTSUPP : Z := 95.
Definition ENOSYS : Z := 38.

Section inode.
Context {L : Type} (K : fs_kernel L).

(** ** [dazukofs_interpose] *)

Definition dazukofs_inode_test (info : gmap ptr ptr) (candidate_lower_inode inode : ptr) : bool :=
  bool_decide (info !! inode = Some candidate_lower_inode).

Definition dazukofs_init_inode (inode lower_inode : ptr) : FM L unit :=
  do! set_lower_inode inode lower_inode in
  let! ino := sget (fun s => k_ino K (lower s) lower_inode) in
  do! upd_vfs (fun v => set_ino (<[inode := ino]> (i_ino v)) v) in
  smodify (fun s => set_i_op (<[inode := (MainOps, MainFops)]> (i_op s)) s).
Definition dazukofs_inode_set (inode lower_inode : ptr) : FM L Z :=
  do! dazukofs_init_inode inode lower_inode in sret 0%Z.

(** [dazukofs_alloc_inode]: whether there is memory for an inode. *)
Definition dazukofs_alloc_inode : FM L bool := zalloc.

(** [iget5_locked] with these: the inode, and whether it is new ([I_NEW]). *)
Definition iget5_locked (lower_inode : ptr) : FM L (option (ptr * bool)) :=
  let! info := sget inode_info in
  match k_iget5 K (dom info) (dazukofs_inode_test info lower_inode) with
  | None => sret None
  | Some inode =>
      if decide (info !! inode = None) then
        let! ok := dazukofs_alloc_inode in
        if negb ok then sret None
        else
          let! err := dazukofs_inode_set inode lower_inode in
          if decide (err <> 0%Z) then sret None else sret (Some (inode, true))
      else sret (Some (inode, false))
  end.

(** [igrab] *)
Definition igrab (i : ptr) : FM L ptr :=
  let! ok := sget (fun s => k_igrab K (lower s) i) in
  if decide (i = NULL) then sfail NullDeref
  else if (ok : bool) then do! get_ref (OInode i) in sret i
  else sret NULL.

(** The tables for the kind of inode, by the lower mode; [init_special_inode] sets
    [i_fop]. *)
Definition upd_ops (inode : ptr) (f : iops * fops -> iops * fops) : FM L unit :=
  smodify (fun s => set_i_op (<[inode := f (default (MainOps, MainFops) (i_op s !! inode))]> (i_op s)) s).
Definition set_ops (inode : ptr) (mode : Z) : FM L unit :=
  do! (if s_islnk K mode then upd_ops inode (fun o => (SymlinkOps, o.2))
       else if s_isdir K mode then upd_ops inode (fun o => (DirOps, o.2))
       else sret tt) in
  do! (if s_isdir K mode then upd_ops inode (fun o => (o.1, DirFops)) else sret tt) in
  if special_file K mode then upd_ops inode (fun o => (o.1, SpecialFops)) else sret tt.

Definition dazukofs_interpose (lower_dentry dentry sb : ptr) (already_hashed : bool) : FM L Z :=
  let! li := lower_d_inode K lower_dentry in
  let! lower_inode := igrab li in
  if decide (lower_inode = NULL) then sret (- ESTALE)%Z
  else
    let! lsb := get_lower_sb sb in
    let! isb := sget (fun s => k_sb K (lower s) lower_inode) in
    if decide (isb <> lsb) then
      do! put_ref (OInode lower_inode) in sret (- EXDEV)%Z
    else
      let! r := iget5_locked lower_inode in
      match r with
      | None => do! put_ref (OInode lower_inode) in sret (- EACCES)%Z
      | Some (inode, is_new) =>
          do! (if (is_new : bool) then sret tt else put_ref (OInode lower_inode)) in
          let! a := sget (fun s => k_attr K (lower s) lower_inode) in
          do! set_ops inode (a_mode a) in
          do! set_dops dentry in
          do! (if already_hashed then d_add dentry inode else d_instantiate dentry inode) in
          do! copy K (copy_attr_all K) inode lower_inode in
          do! copy K (copy_inode_size K) inode lower_inode in
          sret 0%Z
      end.

(** ** [dazukofs_lookup] *)

(** The test for the names "." and "..". *)
Definition is_dots (name : list Z) : bool :=
  if decide (length name = 1) then bool_decide (name !! 0 = Some 46%Z)
  else if decide (length name = 2) then bool_decide (name !! 0 = Some 46%Z /\ name !! 1 = Some 46%Z)
  else false.

(** [parent] is [dentry->d_parent], [sb] is [dir->i_sb]. *)
Definition dazukofs_lookup (dir dentry parent sb : ptr) (name : list Z) : FM L Z :=
  if is_dots name then do! d_drop dentry in sret 0%Z
  else
    do! set_dops dentry in
    let! lower_dentry_parent := get_lower_dentry parent in
    let! pi := lower_d_inode K lower_dentry_parent in
    do! mutex_lock pi in
    let! lower_dentry := call K (Lookup_one name lower_dentry_parent) in
    let! pi' := lower_d_inode K lower_dentry_parent in
    do! mutex_unlock pi' in
    if decide (lower_dentry < 0)%Z then do! d_drop dentry in sret lower_dentry
    else
      (* [lookup_one_len] returned a reference *)
      do! get_ref (ODentry lower_dentry) in
      let! ok := zalloc in
      if negb ok then
        do! put_ref (ODentry lower_dentry) in
        do! d_drop dentry in sret (- ENOMEM)%Z
      else
        do! set_dentry_private dentry in
        let! pi'' := lower_d_inode K lower_dentry_parent in
        do! copy K (copy_attr_atime K) dir pi'' in
        let! lower_mnt := get_lower_mnt parent in
        do! get_ref (OMnt lower_mnt) in
        do! set_lower_dentry dentry lower_dentry lower_mnt in
        let! i := lower_d_inode K lower_dentry in
        if decide (i = NULL) then
          do! d_add dentry NULL in sret 0%Z
        else
          let! err := dazukofs_interpose lower_dentry dentry sb true in
          if decide (err <> 0%Z) then
            do! put_ref (ODentry lower_dentry) in
            do! d_drop dentry in sret err
          else sret 0%Z.

(** ** Operations that add a name *)

(** Common to [mknod], [mkdir], [create], [symlink] and [link]: [c] is the call
    for the lower directory, [pre] and [post] surround it, [after] follows the
    copying. *)
Definition add_name (dir dentry sb lower_dentry : ptr) (pre : FM L unit) (c : ptr -> lcall) (post : FM L unit)
    (after : ptr -> FM L unit) : FM L Z :=
  let! lower_dentry_parent := lower_d_parent K lower_dentry in
  do! get_ref (ODentry lower_dentry_parent) in
  let! parent_inode := lower_d_inode K lower_dentry_parent in
  do! mutex_lock parent_inode in
  do! pre in
  let! err := call K (c parent_inode) in
  do! post in
  let! err :=
    (if decide (err <> 0%Z) then sret err
     else
       let! err := dazukofs_interpose lower_dentry dentry sb false in
       if decide (err <> 0%Z) then sret err
       else
         do! copy K (copy_attr_times K) dir parent_inode in
         do! copy K (copy_inode_size K) dir parent_inode in
         do! after parent_inode in
         sret 0%Z) in
  do! mutex_unlock parent_inode in
  do! put_ref (ODentry lower_dentry_parent) in
  sret err.

Definition dazukofs_mknod (dir dentry sb : ptr) (mode dev : Z) : FM L Z :=
  let! lower_dentry := get_lower_dentry dentry in
  add_name dir dentry sb lower_dentry (sret tt) (fun p => Mknod p lower_dentry mode dev) (sret tt) (fun _ => sret tt).

Definition dazukofs_mkdir (dir dentry sb : ptr) (mode : Z) : FM L Z :=
  let! lower_dentry := get_lower_dentry dentry in
  add_name dir dentry sb lower_dentry (sret tt) (fun p => Mkdir p lower_dentry mode) (sret tt)
    (fun p => copy K (fun a l => set_nlink (a_nlink l) a) dir p).

Definition dazukofs_symlink (dir dentry sb symname : ptr) : FM L Z :=
  let! lower_dentry := get_lower_dentry dentry in
  add_name dir dentry sb lower_dentry (sret tt) (fun p => Symlink p lower_dentry symname) (sret tt) (fun _ => sret tt).

Definition dazukofs_link (old_dentry dir new_dentry sb : ptr) : FM L Z :=
  let! lower_old_dentry := get_lower_dentry old_dentry in
  let! lower_new_dentry := get_lower_dentry new_dentry in
  add_name dir new_dentry sb lower_new_dentry (sret tt) (fun p => Link lower_old_dentry p lower_new_dentry)
    (sret tt) (fun _ => sret tt).

(** [v36]: compiled for Linux 3.6 or later, where [excl] is handed down; before,
    [nd->path] holds the lower path during the call, with references of its own. *)
Definition dazukofs_create (v36 : bool) (dir dentry sb : ptr) (mode : Z) (excl : bool) : FM L Z :=
  let! lower_mnt := get_lower_mnt dentry in
  let! lower_dentry := get_lower_dentry dentry in
  add_name dir dentry sb lower_dentry
    (if v36 then sret tt else do! get_ref (OMnt lower_mnt) in get_ref (ODentry lower_dentry))
    (fun p => Create p lower_dentry mode (if v36 then Excl excl else Nd lower_dentry lower_mnt))
    (do! put_ref (OMnt lower_mnt) in put_ref (ODentry lower_dentry)) (fun _ => sret tt).

(** ** Operations that remove a name *)

Definition remove_name (lower_dentry : ptr) (c : ptr -> lcall) (after : ptr -> FM L unit) : FM L Z :=
  let! lower_dentry_parent := lower_d_parent K lower_dentry in
  do! get_ref (ODentry lower_dentry_parent) in
  let! parent_inode := lower_d_inode K lower_dentry_parent in
  do! mutex_lock parent_inode in
  let! err := call K (c parent_inode) in
  do! (if decide (err <> 0%Z) then sret tt else after parent_inode) in
  do! mutex_unlock parent_inode in
  do! put_ref (ODentry lower_dentry_parent) in
  sret err.

(** [set_nlink(inode, get_lower_inode(inode)->i_nlink)] *)
Definition copy_nlink (inode : ptr) : FM L unit :=
  let! li := get_lower_inode inode in
  copy K (fun a l => set_nlink (a_nlink l) a) inode li.

Definition dazukofs_unlink (dir dentry : ptr) : FM L Z :=
  let! lower_dentry := get_lower_dentry dentry in
  remove_name lower_dentry (fun p => Unlink p lower_dentry) (fun p =>
    do! copy K (copy_attr_times K) dir p in
    let! i := upper_inode dentry in
    do! copy_nlink i in
    let! a := sget (fun s => attr_of s dir) in
    upd_attr i (fun x => copy_attr_times K x a)).

Definition dazukofs_rmdir (dir dentry : ptr) : FM L Z :=
  let! lower_dentry := get_lower_dentry dentry in
  let! err := remove_name lower_dentry (fun p => Rmdir p lower_dentry) (fun p =>
    do! copy K (copy_attr_times K) dir p in
    do! copy K (fun a l => set_nlink (a_nlink l) a) dir p in
    let! i := upper_inode dentry in
    copy_nlink i) in
  do! (if decide (err = 0%Z) then d_drop dentry else sret tt) in
  sret err.

(** ** [dazukofs_rename] *)

(** [lock_rename] and [unlock_rename] on two lower dentries. *)
Definition lock_rename (a b : ptr) : FM L unit :=
  do! mutex_lock a in if decide (a = b) then sret tt else mutex_lock b.
Definition unlock_rename (a b : ptr) : FM L unit :=
  do! mutex_unlock a in if decide (a = b) then sret tt else mutex_unlock b.

Definition dazukofs_rename (old_dir old_dentry new_dir new_dentry : ptr) : FM L Z :=
  let! lower_old_dentry := get_lower_dentry old_dentry in
  let! lower_new_dentry := get_lower_dentry new_dentry in
  let! old_parent := lower_d_parent K lower_old_dentry in
  do! get_ref (ODentry old_parent) in
  let! new_parent := lower_d_parent K lower_new_dentry in
  do! get_ref (ODentry new_parent) in
  let! old_parent_inode := lower_d_inode K old_parent in
  let! new_parent_inode := lower_d_inode K new_parent in
  let! err :=
    (if decide (old_parent_inode = NULL) then do! d_drop old_dentry in sret (- ENOENT)%Z
     else if decide (new_parent_inode = NULL) then do! d_drop new_dentry in sret (- ENOENT)%Z
     else
       do! lock_rename old_parent_inode new_parent_inode in
       let! err := call K (Rename old_parent_inode lower_old_dentry new_parent_inode lower_new_dentry) in
       do! unlock_rename old_parent_inode new_parent_inode in
       if decide (err <> 0%Z) then sret err
       else
         do! copy K (copy_attr_all K) new_dir new_parent_inode in
         do! (if decide (new_dir <> old_dir) then copy K (copy_attr_all K) old_dir old_parent_inode
              else sret tt) in
         sret 0%Z) in
  do! put_ref (ODentry old_parent) in
  do! put_ref (ODentry new_parent) in
  sret err.

(** ** Links, attributes, extended attributes *)

(** The result and what was written to the buffer. *)
Definition dazukofs_readlink (dentry : ptr) (bufsiz : Z) : FM L (Z * list Z) :=
  let! lower_dentry := get_lower_dentry dentry in
  let! i := lower_d_inode K lower_dentry in
  if decide (i = NULL) then do! d_drop dentry in sret ((- ENOENT)%Z, [])
  else
    let! has := sget (fun s => k_has K (lower s) i Op_readlink) in
    if negb has then sret ((- EINVAL)%Z, [])
    else
      let! err := call K (Readlink lower_dentry bufsiz) in
      let! text := sget (fun s => k_link K (lower s) lower_dentry) in
      if decide (err <> 0%Z) then sret (err, text)
      else
        let! u := upper_inode dentry in
        do! copy K (copy_attr_times K) u i in
        sret (err, text).

Definition PAGE_SIZE : Z := 4096.

(** [dazukofs_follow_link]; [buf] is what [kmalloc] gives.  The text handed to the
    VFS ends where the terminator is stored; storing it may leave the buffer. *)
Definition dazukofs_follow_link (dentry nd buf : ptr) : FM L Z :=
  if decide (buf = NULL) then sret (- ENOMEM)%Z
  else
    do! get_ref (OBuf buf) in
    let! out := dazukofs_readlink dentry PAGE_SIZE in
    let '(rc, text) := out in
    if decide (rc < 0)%Z then do! put_ref (OBuf buf) in sret rc
    else if decide (PAGE_SIZE <= rc)%Z then sfail OutOfBounds
    else
      do! upd_vfs (fun v => set_nd_link (<[nd := (buf, take (Z.to_nat rc) text)]> (nd_link v)) v) in
      sret 0%Z.

(** [dazukofs_put_link]: [kfree(nd_get_link(nd))] *)
Definition dazukofs_put_link (nd : ptr) : FM L unit :=
  let! l := sget (fun s => nd_link (vfs s) !! nd) in
  match l with
  | None => sfail NullDeref
  | Some (buf, _) =>
      do! put_ref (OBuf buf) in
      upd_vfs (fun v => set_nd_link (delete nd (nd_link v)) v)
  end.

Definition dazukofs_permission (inode : ptr) (mask : Z) : FM L Z :=
  let! lower_inode := get_lower_inode inode in
  call K (Permission lower_inode mask).

(** The result and the [kstat]: [generic_fillattr] fills it from the inode, the lower
    [getattr] in its own way. *)
Definition dazukofs_getattr (dentry : ptr) : FM L (Z * attr) :=
  let! inode := upper_inode dentry in
  let! lower_inode := get_lower_inode inode in
  let! has := sget (fun s => k_has K (lower s) lower_inode Op_getattr) in
  if negb has then
    let! stat := sget (fun s => attr_of s inode) in sret (0%Z, stat)
  else
    let! lower_mnt := get_lower_mnt dentry in
    do! get_ref (OMnt lower_mnt) in
    let! lower_dentry := get_lower_dentry dentry in
    let! err := call K (Getattr lower_mnt lower_dentry) in
    let! stat := sget (fun s => k_stat K (lower s) lower_mnt lower_dentry) in
    do! put_ref (OMnt lower_mnt) in
    sret (err, stat).

Definition ATTR_MODE : Z := 1.
Definition ATTR_KILL_SUID : Z := 2 ^ 11.
Definition ATTR_KILL_SGID : Z := 2 ^ 12.

(** What [setattr] makes of [ia_valid]. *)
Definition setattr_valid (ia_valid : Z) : Z :=
  if decide (Z.land ia_valid (Z.lor ATTR_KILL_SUID ATTR_KILL_SGID) <> 0%Z)
  then Z.land ia_valid (Z.lnot ATTR_MODE) else ia_valid.

Definition dazukofs_setattr (dentry : ptr) (ia_valid : Z) : FM L Z :=
  let! lower_dentry := get_lower_dentry dentry in
  let! inode := upper_inode dentry in
  let! lower_inode := get_lower_inode inode in
  do! mutex_lock lower_inode in
  let! err := call K (Notify_change lower_dentry (setattr_valid ia_valid)) in
  do! mutex_unlock lower_inode in
  do! copy K (copy_attr_all K) inode lower_inode in
  do! copy K (copy_inode_size K) inode lower_inode in
  sret err.

(** The four operations on extended attributes: [c] the call, [locked] whether
    it is made under the mutex, [after] what follows it. *)
Definition xattr_op (dentry : ptr) (op : iop) (c : ptr -> lcall) (locked : bool) (after : ptr -> FM L unit)
    : FM L Z :=
  let! lower_dentry := get_lower_dentry dentry in
  let! i := lower_d_inode K lower_dentry in
  if decide (i = NULL) then do! d_drop dentry in sret (- ENOENT)%Z
  else
    let! has := sget (fun s => k_has K (lower s) i op) in
    if negb has then sret (- EOPNOTSUPP)%Z
    else
      do! (if locked then mutex_lock i else sret tt) in
      let! err := call K (c lower_dentry) in
      do! (if locked then mutex_unlock i else sret tt) in
      do! after i in
      sret err.

Definition dazukofs_setxattr (dentry : ptr) (name value size flags : Z) : FM L Z :=
  xattr_op dentry Op_setxattr (fun d => Setxattr d name value size flags) true (fun i =>
    let! u := upper_inode dentry in
    do! copy K (copy_attr_all K) u i in
    copy K (copy_inode_size K) u i).
Definition dazukofs_getxattr (dentry : ptr) (name value size : Z) : FM L Z :=
  xattr_op dentry Op_getxattr (fun d => Getxattr d name value size) false (fun _ => sret tt).
Definition dazukofs_listxattr (dentry : ptr) (list size : Z) : FM L Z :=
  xattr_op dentry Op_listxattr (fun d => Listxattr d list size) false (fun _ => sret tt).
Definition dazukofs_removexattr (dentry : ptr) (name : Z) : FM L Z :=
  xattr_op dentry Op_removexattr (fun d => Removexattr d name) true (fun _ => sret tt).
End inode.
