(* ===== verification/FsSpec.v ===== *)
(** * Who owns which reference

    Rules for the primitives of [FsState]: a state [holds] some references of
    its own, beyond those that its dentries, inodes and files own. *)

From S2P Require Import Prelude EventState FsState FsInode.
From stdpp Require Import list gmap.

(** ** Ownership *)

Section owned.
Context {L : Type}.
Implicit Types (s b : fstate L) (hs : list obj).

Definition one_if (P : Prop) `{Decision P} : nat := if decide P then 1 else 0.

(** How many structures own [o]: each dentry its lower dentry and mount, each
    inode its lower inode, each open file its lower file, each nameidata the buffer
    with the text of a link. *)
Definition owned b (o : obj) : nat :=
  mcount (fun x => one_if (ODentry x.1 = o) + one_if (OMnt x.2 = o)) (d_fsdata b) +
  mcount (fun i => one_if (OInode i = o)) (inode_info b) +
  mcount (fun f => one_if (OFile f = o)) (files b) +
  mcount (fun l => one_if (OBuf l.1 = o)) (nd_link (vfs b)).

Definition times_in (o : obj) (hs : list obj) : nat := length (filter (fun x => x = o) hs).

(** The state without the counts of references and the coming allocations. *)
Definition base s : fstate L := set_refs ∅ (set_fs_oom [] s).

(** [hs] are references held beyond the owned ones. *)
Definition holds hs b s : Prop :=
  base s = b /\ forall o, o.2 <> NULL -> refs_at s o = Z.of_nat (owned b o + times_in o hs).

Lemma holds_base hs b s : holds hs b s -> base s = b.
Proof. by intros []. Qed.

Lemma times_in_cons o x hs : times_in o (x :: hs) = one_if (x = o) + times_in o hs.
Proof. unfold times_in, one_if. rewrite filter_cons. by case_decide. Qed.

Lemma fs_holds_perm hs hs' b s : hs ≡ₚ hs' -> holds hs b s -> holds hs' b s.
Proof.
  intros Hp [Hb Hr]. split; [done|]. intros o Ho. rewrite (Hr o Ho). unfold times_in. by rewrite Hp.
Qed.

Lemma refs_at_insert o n s o' : refs_at (set_refs (<[o := n]> (refs s)) s) o' = if decide (o' = o) then n else refs_at s o'.
Proof.
  unfold refs_at. simpl. case_decide; [subst; by rewrite lookup_insert_eq|by rewrite lookup_insert_ne].
Qed.

Lemma wp_get_ref o hs b Q s : holds hs b s -> (forall s', holds (o :: hs) b s' -> Q tt s') -> wp (get_ref o) Q s.
Proof.
  intros [Hb Hr] HQ. unfold get_ref. case_decide as Ho.
  - apply wp_ret, HQ. split; [done|]. intros o' Ho'. rewrite (Hr o' Ho'), times_in_cons.
    unfold one_if. rewrite decide_False; [done|]. congruence.
  - apply wp_modify, HQ. split; [by rewrite <-Hb|]. intros o' Ho'.
    rewrite refs_at_insert, times_in_cons. unfold one_if. case_decide as E.
    + subst. rewrite (Hr o) by done. rewrite decide_True by done. lia.
    + rewrite (Hr o') by done. rewrite decide_False by congruence. done.
Qed.

Lemma wp_put_ref o hs b Q s : holds (o :: hs) b s -> (forall s', holds hs b s' -> Q tt s') -> wp (put_ref o) Q s.
Proof.
  intros [Hb Hr] HQ. unfold put_ref. case_decide as Ho.
  - apply wp_ret, HQ. split; [done|]. intros o' Ho'. rewrite (Hr o' Ho'), times_in_cons.
    unfold one_if. rewrite decide_False; [done|]. congruence.
  - apply wp_modify, HQ. split; [by rewrite <-Hb|]. intros o' Ho'.
    rewrite refs_at_insert. specialize (Hr o' Ho'). rewrite times_in_cons in Hr. unfold one_if in Hr.
    case_decide as E.
    + subst. rewrite Hr. rewrite decide_True by done. lia.
    + rewrite Hr. rewrite decide_False by congruence. done.
Qed.

(** An update of the state that owns what it owned before, and [gone]
    references less of its own. *)
Lemma holds_update (f : fstate L -> fstate L) hs hs' b s : holds hs b s ->
  (forall s, base (f s) = f (base s)) -> (forall s, refs (f s) = refs s) ->
  (forall o, o.2 <> NULL -> owned (f b) o + times_in o hs' = owned b o + times_in o hs) ->
  holds hs' (f b) (f s).
Proof.
  intros [Hb Hr] Hf Hrf Ho. split; [by rewrite Hf, Hb|]. intros o Hno. unfold refs_at. rewrite Hrf.
  rewrite (Ho o Hno). by apply Hr.
Qed.

(** Reading the state. *)
Lemma wp_read {A} (f : fstate L -> A) hs b Q s : holds hs b s -> (forall s, f (base s) = f s) ->
  Q (f b) s -> wp (sget f) Q s.
Proof. intros [<- _] Hf HQ. apply wp_get. by rewrite <-Hf. Qed.

(** Updates that touch no owner. *)
Lemma holds_same (f : fstate L -> fstate L) hs b s : holds hs b s ->
  (forall s, base (f s) = f (base s)) -> (forall s, refs (f s) = refs s) ->
  (forall o, owned (f b) o = owned b o) -> holds hs (f b) (f s).
Proof. intros H Hf Hr Ho. eapply holds_update; [exact H|done|done|]. intros o _. by rewrite Ho. Qed.

Lemma wp_zalloc hs b Q s : holds hs b s -> (forall ok s', holds hs b s' -> Q ok s') -> wp zalloc Q s.
Proof.
  intros H HQ. unfold wp, zalloc. destruct (fs_oom s) as [|x o]; apply HQ; [done|].
  destruct H as [Hb Hr]. by split.
Qed.

(** Whether the next allocation fails. *)
Definition next_fails s : bool := default false (head (fs_oom s)).
Lemma wp_zalloc_next hs b Q s : holds hs b s -> (forall s', holds hs b s' -> Q (negb (next_fails s)) s') -> wp zalloc Q s.
Proof.
  intros H HQ. unfold wp, zalloc, next_fails in *. destruct (fs_oom s) as [|x o]; apply HQ; [done|].
  destruct H as [Hb Hr]. by split.
Qed.

Lemma wp_mutex_lock i hs b Q s : holds hs b s -> i <> NULL -> i ∉ locks b ->
  (forall s', holds hs (set_locks (i :: locks b) b) s' -> Q tt s') -> wp (mutex_lock i) Q s.
Proof.
  intros H Hi Hl HQ. unfold wp, mutex_lock. rewrite decide_False by done.
  assert (E : locks s = locks b) by (by rewrite <-(holds_base _ _ _ H)). rewrite E, decide_False by done.
  apply HQ. by apply (holds_same (fun s => set_locks (i :: locks b) s)).
Qed.

(** Releasing any of the mutexes held. *)
Lemma wp_mutex_unlock_in i hs b Q s : holds hs b s -> i ∈ locks b ->
  (forall s', holds hs (set_locks (filter (fun x => x <> i) (locks b)) b) s' -> Q tt s') -> wp (mutex_unlock i) Q s.
Proof.
  intros H Hi HQ. unfold wp, mutex_unlock.
  assert (E : locks s = locks b) by (by rewrite <-(holds_base _ _ _ H)). rewrite E, decide_True by done.
  apply HQ. by apply (holds_same (fun s => set_locks (filter (fun x => x <> i) (locks b)) s)).
Qed.

Lemma wp_mutex_unlock i ls hs b Q s : holds hs b s -> locks b = i :: ls -> i ∉ ls ->
  (forall s', holds hs (set_locks ls b) s' -> Q tt s') -> wp (mutex_unlock i) Q s.
Proof.
  intros H Hl Hi HQ. eapply wp_mutex_unlock_in; [exact H|rewrite Hl; left|].
  rewrite Hl, filter_cons, decide_False by tauto. by rewrite filter_all by (by intros x Hx ->).
Qed.

Section kernel.
Context (K : fs_kernel L).

Lemma wp_lower_d_inode d hs b Q s : holds hs b s -> d <> NULL -> Q (k_inode K (lower b) d) s ->
  wp (lower_d_inode K d) Q s.
Proof. intros H Hd HQ. unfold lower_d_inode. rewrite decide_False by done. by eapply wp_read. Qed.
Lemma wp_lower_d_parent d hs b Q s : holds hs b s -> d <> NULL -> Q (k_parent K (lower b) d) s ->
  wp (lower_d_parent K d) Q s.
Proof. intros H Hd HQ. unfold lower_d_parent. rewrite decide_False by done. by eapply wp_read. Qed.

Lemma wp_call c hs b Q s : holds hs b s -> must_hold (k_inode K (lower b)) c ⊆ locks b ->
  (forall s', holds hs (set_lower (k_call K c (lower b)).2 b) s' -> Q (k_call K c (lower b)).1 s') ->
  wp (call K c) Q s.
Proof.
  intros H Hl HQ. unfold wp, call.
  assert (El : lower s = lower b /\ locks s = locks b) by (by rewrite <-(holds_base _ _ _ H)).
  destruct El as [-> ->]. rewrite decide_True by done. destruct (k_call K c (lower b)) as [r l].
  apply HQ. by apply (holds_same (fun s => set_lower l s)).
Qed.

Lemma wp_get_lower_dentry u d m hs b Q s : holds hs b s -> d_fsdata b !! u = Some (d, m) -> Q d s ->
  wp (get_lower_dentry u) Q s.
Proof.
  intros H Hu HQ. unfold wp, get_lower_dentry. replace (d_fsdata s) with (d_fsdata b) by (by rewrite <-(holds_base _ _ _ H)).
  by rewrite Hu.
Qed.
Lemma wp_get_lower_mnt u d m hs b Q s : holds hs b s -> d_fsdata b !! u = Some (d, m) -> Q m s ->
  wp (get_lower_mnt u) Q s.
Proof.
  intros H Hu HQ. unfold wp, get_lower_mnt. replace (d_fsdata s) with (d_fsdata b) by (by rewrite <-(holds_base _ _ _ H)).
  by rewrite Hu.
Qed.
Lemma wp_get_lower_sb u x hs b Q s : holds hs b s -> sb_info b !! u = Some x -> Q x s -> wp (get_lower_sb u) Q s.
Proof.
  intros H Hu HQ. unfold wp, get_lower_sb. replace (sb_info s) with (sb_info b) by (by rewrite <-(holds_base _ _ _ H)).
  by rewrite Hu.
Qed.

Definition set_attr (i : ptr) (a : attr) (b : fstate L) : fstate L := set_i_attr (<[i := a]> (i_attr b)) b.

Lemma wp_upd_attr i f hs b Q s : holds hs b s -> i <> NULL ->
  (forall s', holds hs (set_attr i (f (attr_of b i)) b) s' -> Q tt s') -> wp (upd_attr i f) Q s.
Proof.
  intros H Hi HQ. unfold wp, upd_attr. rewrite decide_False by done. apply HQ.
  assert (E : attr_of s i = attr_of b i) by (by rewrite <-(holds_base _ _ _ H)). rewrite E.
  by apply (holds_same (fun s => set_i_attr (<[i := f (attr_of b i)]> (i_attr s)) s)).
Qed.

Lemma wp_copy f i li hs b Q s : holds hs b s -> i <> NULL -> li <> NULL ->
  (forall s', holds hs (set_attr i (f (attr_of b i) (k_attr K (lower b) li)) b) s' -> Q tt s') ->
  wp (copy K f i li) Q s.
Proof.
  intros H Hi Hli HQ. apply wp_bind. eapply wp_read; [exact H|done|]. rewrite decide_False by done.
  by apply (wp_upd_attr i _ hs b).
Qed.

(** Updates of VFS objects that leave the links in nameidatas. *)
Lemma wp_upd_vfs f hs b Q s : holds hs b s -> nd_link (f (vfs b)) = nd_link (vfs b) ->
  (forall s', holds hs (set_vfs (f (vfs b)) b) s' -> Q tt s') -> wp (upd_vfs f) Q s.
Proof.
  intros H Hf HQ. apply wp_modify, HQ.
  assert (E : vfs s = vfs b) by (by rewrite <-(holds_base _ _ _ H)). rewrite E.
  apply (holds_same (fun s => set_vfs (f (vfs b)) s)); [done|done|done|].
  intros o. unfold owned. simpl. by rewrite Hf.
Qed.
Lemma wp_d_drop u hs b Q s : holds hs b s ->
  (forall s', holds hs (set_vfs (set_hashed (hashed (vfs b) ∖ {[ u ]}) (vfs b)) b) s' -> Q tt s') -> wp (d_drop u) Q s.
Proof. intros H HQ. by eapply wp_upd_vfs. Qed.

Lemma wp_d_instantiate u i hs b Q s : holds hs b s -> i <> NULL ->
  (forall s', holds hs (set_d_inode (<[u := i]> (d_inode b)) b) s' -> Q tt s') -> wp (d_instantiate u i) Q s.
Proof.
  intros H Hi HQ. apply wp_modify. rewrite decide_False by done. apply HQ.
  assert (E : d_inode s = d_inode b) by (by rewrite <-(holds_base _ _ _ H)). rewrite E.
  by apply (holds_same (fun s => set_d_inode (<[u := i]> (d_inode b)) s)).
Qed.
End kernel.
End owned.

(** ** Changes of ownership *)

Section owners.
Context {L : Type}.
Implicit Types (s b : fstate L) (hs : list obj).

(** A new inode takes over the reference to its lower inode. *)
Lemma holds_new_inode i li hs b s : holds (OInode li :: hs) b s -> inode_info b !! i = None ->
  holds hs (set_inode_info (<[i := li]> (inode_info b)) b) (set_inode_info (<[i := li]> (inode_info s)) s).
Proof.
  intros H Hi. assert (E : inode_info s = inode_info b) by (by rewrite <-(holds_base _ _ _ H)). rewrite E.
  apply (holds_update (fun s => set_inode_info (<[i := li]> (inode_info b)) s) (OInode li :: hs)); [done|done|done|].
  intros o _. unfold owned. simpl. rewrite mcount_insert_fresh, times_in_cons by done. lia.
Qed.

(** The zeroed private data of a dentry owns nothing. *)
Lemma one_if_null o (n : N) : o.2 <> NULL -> one_if ((n, NULL) = o) = 0.
Proof. intros Ho. unfold one_if. rewrite decide_False; [done|]. by intros <-. Qed.

Lemma holds_new_info u hs b s : holds hs b s -> d_fsdata b !! u = None ->
  holds hs (set_fsdata (<[u := (NULL, NULL)]> (d_fsdata b)) b) (set_fsdata (<[u := (NULL, NULL)]> (d_fsdata s)) s).
Proof.
  intros H Hu. assert (E : d_fsdata s = d_fsdata b) by (by rewrite <-(holds_base _ _ _ H)). rewrite E.
  apply (holds_update (fun s => set_fsdata (<[u := (NULL, NULL)]> (d_fsdata b)) s) hs); [done|done|done|].
  intros o Ho. unfold owned. simpl. rewrite mcount_insert_fresh by done. cbn [fst snd].
  unfold ODentry, OMnt. rewrite !one_if_null by done. done.
Qed.

(** It takes over the references to the lower dentry and its mount. *)
Lemma wp_set_lower_dentry u d m hs b Q s : holds (OMnt m :: ODentry d :: hs) b s -> d_fsdata b !! u = Some (NULL, NULL) ->
  (forall s', holds hs (set_fsdata (<[u := (d, m)]> (d_fsdata b)) b) s' -> Q tt s') ->
  wp (set_lower_dentry u d m) Q s.
Proof.
  intros H Hu HQ. assert (E : d_fsdata s = d_fsdata b) by (by rewrite <-(holds_base _ _ _ H)).
  unfold wp, set_lower_dentry. rewrite E, Hu. apply HQ.
  apply (holds_update (fun s => set_fsdata (<[u := (d, m)]> (d_fsdata b)) s) (OMnt m :: ODentry d :: hs)); [done|done|done|].
  intros o Ho. unfold owned. simpl. rewrite !times_in_cons.
  pose proof (mcount_insert (fun x : ptr * ptr => one_if (ODentry x.1 = o) + one_if (OMnt x.2 = o))
    (d_fsdata b) u (NULL, NULL) (d, m) Hu) as Hm. cbn [fst snd] in Hm.
  unfold ODentry, OMnt in *. rewrite !one_if_null in Hm by done. lia.
Qed.

End owners.

(** ** What the code relies on *)

(** The dentry a call gives an inode. *)
Definition creates (c : lcall) : option ptr :=
  match c with
  | Mknod _ d _ _ | Mkdir _ d _ | Create _ d _ _ | Symlink _ d _ | Link _ _ d => Some d
  | _ => None
  end.

Record kernel_laws {L : Type} (K : fs_kernel L) : Prop := {
  (** The inode [iget5_locked] finds passes the test; it is new only if no cached
      inode does. *)
  law_iget5 cached test i : k_iget5 K cached test = Some i ->
    i <> NULL /\ ((i ∈ cached /\ test i = true) \/ (i ∉ cached /\ forall j, j ∈ cached -> test j = false));
  (** What was created has an inode. *)
  law_made c l d : creates c = Some d -> (k_call K c l).1 = 0%Z -> k_inode K (k_call K c l).2 d <> NULL;
  (** A dentry has a parent, and that has an inode. *)
  law_parent l d : d <> NULL -> k_parent K l d <> NULL /\ k_inode K l (k_parent K l d) <> NULL;
  (** [lookup_one_len] returns a dentry or an error, and keeps the directory. *)
  law_lookup l n p : (k_call K (Lookup_one n p) l).1 <> NULL /\
    k_inode K (k_call K (Lookup_one n p) l).2 p = k_inode K l p;
  (** The copies are complete, and the times are copied. *)
  law_copy x y : copy_inode_size K (copy_attr_all K x y) y = y;
  law_times x y : a_mtime (copy_attr_times K x y) = a_mtime y /\ a_ctime (copy_attr_times K x y) = a_ctime y;
  law_size x y : a_size (copy_inode_size K x y) = a_size y /\
    a_mtime (copy_inode_size K x y) = a_mtime x /\ a_ctime (copy_inode_size K x y) = a_ctime x
}.

(** With the test of DazukoFS: the inode over the lower inode asked for. *)
Lemma iget5_lower {L} (K : fs_kernel L) info li i : kernel_laws K ->
  k_iget5 K (dom info) (dazukofs_inode_test info li) = Some i ->
  i <> NULL /\ (info !! i = Some li \/ (info !! i = None /\ forall j, info !! j <> Some li)).
Proof.
  intros laws [Hi H]%(law_iget5 K laws). split; [done|]. unfold dazukofs_inode_test in H. setoid_rewrite bool_decide_eq_false in H.
  rewrite bool_decide_eq_true in H. destruct H as [[_ H]|[Hn H]]; [by left|right].
  split; [by apply not_elem_of_dom|]. intros j Hj. apply (H j); [|done]. by eapply elem_of_dom_2.
Qed.

(** ** [dazukofs_interpose] *)

Section interpose.
Context {L : Type} (K : fs_kernel L) (laws : kernel_laws K).
Implicit Types (s b : fstate L) (hs : list obj).

(** The tables of an inode, and those of the kind of a mode. *)
Definition ops_at (m : gmap ptr (iops * fops)) (i : ptr) : iops * fops := default (MainOps, MainFops) (m !! i).
Definition new_ops (mode : Z) (o : iops * fops) : iops * fops :=
  let o1 := if s_islnk K mode then (SymlinkOps, o.2) else if s_isdir K mode then (DirOps, o.2) else o in
  let o2 := if s_isdir K mode then (o1.1, DirFops) else o1 in
  if special_file K mode then (o2.1, SpecialFops) else o2.
Definition kind_ops (mode : Z) : iops * fops := new_ops mode (MainOps, MainFops).

Lemma new_ops_kind mode : new_ops mode (kind_ops mode) = kind_ops mode.
Proof. unfold kind_ops, new_ops. by repeat case_match. Qed.

(** An inode has one kind for as long as it exists. *)
Definition kinds_stable : Prop := forall l l' li, kind_ops (a_mode (k_attr K l li)) = kind_ops (a_mode (k_attr K l' li)).

(** The fields of VFS objects afterwards. *)
Record vfs_interposed (li u i : ptr) (add : bool) (b b' : fstate L) : Prop := {
  iv_dops : d_op (vfs b') = {[ u ]} ∪ d_op (vfs b);
  iv_hashed : hashed (vfs b') = if add then {[ u ]} ∪ hashed (vfs b) else hashed (vfs b);
  iv_ino : i_ino (vfs b') = if decide (inode_info b !! i = None) then <[i := k_ino K (lower b) li]> (i_ino (vfs b))
                            else i_ino (vfs b)
}.

(** The dentry [u] has got the inode [i] over [li]; it is hashed if [add] is set. *)
Record interposed (li u i : ptr) (add : bool) (b b' : fstate L) : Prop := {
  ip_inode : i <> NULL;
  ip_lower : lower b' = lower b;
  ip_locks : locks b' = locks b;
  ip_fsdata : d_fsdata b' = d_fsdata b;
  ip_files : files b' = files b;
  ip_sb : sb_info b' = sb_info b;
  ip_vfs : vfs_interposed li u i add b b';
  ip_d_inode : d_inode b' = <[u := i]> (d_inode b);
  ip_info : inode_info b' = <[i := li]> (inode_info b);
  ip_only : inode_info b !! i = Some li \/ (inode_info b !! i = None /\ forall j, inode_info b !! j <> Some li);
  ip_attr : attr_of b' i = k_attr K (lower b) li;
  ip_others : forall j, j <> i -> attr_of b' j = attr_of b j;
  ip_ops : ops_at (i_op b') i = new_ops (a_mode (k_attr K (lower b) li))
    (if decide (inode_info b !! i = None) then (MainOps, MainFops) else ops_at (i_op b) i);
  ip_other_ops : forall j, j <> i -> ops_at (i_op b') j = ops_at (i_op b) j
}.

Lemma attr_set_eq i a b : attr_of (set_attr i a b) i = a.
Proof. unfold attr_of, set_attr. simpl. by rewrite lookup_insert_eq. Qed.
Lemma attr_set_ne i j a b : j <> i -> attr_of (set_attr i a b) j = attr_of b j.
Proof. intros. unfold attr_of, set_attr. simpl. by rewrite lookup_insert_ne. Qed.

Lemma wp_upd_ops_if i (c : bool) f hs b Q s : holds hs b s ->
  (forall m s', holds hs (set_i_op m b) s' -> ops_at m i = (if c then f (ops_at (i_op b) i) else ops_at (i_op b) i) ->
    (forall j, j <> i -> ops_at m j = ops_at (i_op b) j) -> Q tt s') ->
  wp (if c then upd_ops i f else sret tt) Q s.
Proof.
  intros H HQ. assert (E : i_op s = i_op b) by (by rewrite <-(holds_base _ _ _ H)). destruct c.
  - apply wp_modify. rewrite E. apply (holds_same (fun s => set_i_op (<[i := f (ops_at (i_op b) i)]> (i_op b)) s)) in H; [|done..].
    eapply HQ; [exact H|unfold ops_at; by rewrite lookup_insert_eq|]. intros j Hj. unfold ops_at. by rewrite lookup_insert_ne.
  - apply wp_ret. apply (HQ (i_op b)); [|done|done]. by destruct b.
Qed.

Lemma wp_set_ops i mode hs b Q s : holds hs b s ->
  (forall m s', holds hs (set_i_op m b) s' -> ops_at m i = new_ops mode (ops_at (i_op b) i) ->
    (forall j, j <> i -> ops_at m j = ops_at (i_op b) j) -> Q tt s') ->
  wp (set_ops K i mode) Q s.
Proof.
  intros H HQ. apply wp_bind.
  assert (Hfirst : wp (if s_islnk K mode then upd_ops i (fun o => (SymlinkOps, o.2))
      else if s_isdir K mode then upd_ops i (fun o => (DirOps, o.2)) else sret tt) (fun _ s' => exists m, holds hs (set_i_op m b) s' /\
      ops_at m i = (let o := ops_at (i_op b) i in if s_islnk K mode then (SymlinkOps, o.2) else if s_isdir K mode then (DirOps, o.2) else o) /\
      (forall j, j <> i -> ops_at m j = ops_at (i_op b) j)) s).
  { destruct (s_islnk K mode).
    - apply (wp_upd_ops_if i true _ hs b); [exact H|]. intros m s' H' Ho Hn. by exists m.
    - apply (wp_upd_ops_if i (s_isdir K mode) _ hs b); [exact H|]. intros m s' H' Ho Hn. by exists m. }
  eapply wp_mono; [exact Hfirst|]. intros [] s1 (m1 & H1 & O1 & N1).
  apply wp_bind. eapply wp_upd_ops_if; [exact H1|]. simpl. intros m2 s2 H2 O2 N2.
  eapply wp_upd_ops_if; [exact H2|]. simpl. intros m3 s3 H3 O3 N3. apply (HQ m3); [exact H3| |].
  - rewrite O3, O2, O1. reflexivity.
  - intros j Hj. by rewrite N3, N2, N1.
Qed.

(** From the inode on: it is attached to the dentry and gets its attributes. *)
Lemma wp_attach u i li (add : bool) hs b s : holds hs b s -> i <> NULL -> li <> NULL ->
  wp (let! a := sget (fun s => k_attr K (lower s) li) in
      do! set_ops K i (a_mode a) in
      do! set_dops u in
      do! (if add then d_add u i else d_instantiate u i) in
      do! copy K (copy_attr_all K) i li in
      do! copy K (copy_inode_size K) i li in
      sret 0%Z) (fun r s' => r = 0%Z /\ exists b', holds hs b' s' /\
        lower b' = lower b /\ locks b' = locks b /\ d_fsdata b' = d_fsdata b /\ files b' = files b /\
        sb_info b' = sb_info b /\
        (d_op (vfs b') = {[ u ]} ∪ d_op (vfs b) /\ hashed (vfs b') = (if add then {[ u ]} ∪ hashed (vfs b) else hashed (vfs b)) /\
         i_ino (vfs b') = i_ino (vfs b)) /\
        d_inode b' = <[u := i]> (d_inode b) /\
        inode_info b' = inode_info b /\ attr_of b' i = k_attr K (lower b) li /\
        (forall j, j <> i -> attr_of b' j = attr_of b j) /\
        ops_at (i_op b') i = new_ops (a_mode (k_attr K (lower b) li)) (ops_at (i_op b) i) /\
        (forall j, j <> i -> ops_at (i_op b') j = ops_at (i_op b) j)) s.
Proof.
  intros H Hi Hli. apply wp_bind. eapply wp_read; [exact H|done|].
  apply wp_bind. eapply wp_set_ops; [exact H|]. intros mo s0 H0 Ho Hno. set (b0 := set_i_op _ b) in H0.
  apply wp_bind. eapply wp_upd_vfs; [exact H0|done|]. intros s1 H1. set (b1 := set_vfs _ b0) in H1.
  apply wp_bind. eapply (wp_mono _ (fun _ s' => holds hs (set_vfs (set_hashed
    (if add then {[ u ]} ∪ hashed (vfs b) else hashed (vfs b)) (vfs b1)) (set_d_inode (<[u := i]> (d_inode b)) b1)) s')).
  { destruct add.
    - apply wp_bind. eapply wp_d_instantiate; [exact H1|done|]. intros s2 H2. eapply wp_upd_vfs; [exact H2|done|]. done.
    - eapply wp_d_instantiate; [exact H1|done|]. intros s2 H2. exact H2. }
  intros [] s2 H2. set (b2 := set_vfs _ _) in H2.
  apply wp_bind. eapply wp_copy; [exact H2|done|done|]. intros s3 H3.
  apply wp_bind. eapply wp_copy; [exact H3|done|done|]. intros s4 H4.
  apply wp_ret. split; [done|]. eexists. split; [exact H4|]. rewrite !attr_set_eq. split_and!; try done.
  - simpl. apply (law_copy K laws).
  - intros j Hj. by rewrite !attr_set_ne.
Qed.

(** A new inode takes over the reference to its lower inode. *)
Lemma wp_init_inode i li hs b Q s : holds (OInode li :: hs) b s -> inode_info b !! i = None ->
  (forall s', holds hs (set_i_op (<[i := (MainOps, MainFops)]> (i_op b))
    (set_vfs (set_ino (<[i := k_ino K (lower b) li]> (i_ino (vfs b))) (vfs b))
      (set_inode_info (<[i := li]> (inode_info b)) b))) s' -> Q tt s') ->
  wp (dazukofs_init_inode K i li) Q s.
Proof.
  intros H Hi HQ. apply wp_bind, wp_modify. apply (holds_new_inode i) in H; [|done].
  apply wp_bind. eapply wp_read; [exact H|done|]. apply wp_bind. eapply wp_upd_vfs; [exact H|done|]. intros s1 H1.
  apply wp_modify. set (b1 := set_vfs _ _) in H1.
  assert (E : i_op s1 = i_op b1) by (by rewrite <-(holds_base _ _ _ H1)). rewrite E.
  apply HQ. by apply (holds_same (fun s => set_i_op (<[i := (MainOps, MainFops)]> (i_op b1)) s)).
Qed.

(** The errors of [dazukofs_interpose]. *)
Definition interpose_errors : list Z := [(- ESTALE)%Z; (- EXDEV)%Z; (- EACCES)%Z].

Lemma interpose_error_neg r : r ∈ interpose_errors -> (r < 0)%Z.
Proof. unfold interpose_errors, ESTALE, EXDEV, EACCES. rewrite !elem_of_cons, elem_of_nil. lia. Qed.

Lemma interpose_result ld u sb add : returns (fun r => r = 0%Z \/ r ∈ interpose_errors) (dazukofs_interpose K ld u sb add).
Proof.
  unfold dazukofs_interpose, interpose_errors.
  repeat first [ apply returns_bind; intros ? | case_match | apply returns_ret; first [by left | right; set_solver] ].
Qed.

Lemma wp_interpose ld u sb lsb (add : bool) hs b s :
  holds hs b s -> ld <> NULL -> k_inode K (lower b) ld <> NULL -> sb_info b !! sb = Some lsb ->
  wp (dazukofs_interpose K ld u sb add) (fun r s' =>
    ((r < 0)%Z /\ holds hs b s') \/
    (r = 0%Z /\ exists i b', holds hs b' s' /\ interposed (k_inode K (lower b) ld) u i add b b')) s.
Proof.
  intros H Hld Hli Hsb. set (li := k_inode K (lower b) ld) in *.
  apply wp_bind. eapply wp_lower_d_inode; [exact H|done|]. fold li.
  apply wp_bind, wp_bind. eapply wp_read; [exact H|done|]. rewrite decide_False by done.
  destruct (k_igrab K (lower b) li); [|apply wp_ret; rewrite decide_True by done; apply wp_ret; by left].
  apply wp_bind. eapply wp_get_ref; [exact H|]. intros s1 H1. apply wp_ret.
  rewrite decide_False by done. apply wp_bind. eapply wp_get_lower_sb; [exact H1|done|].
  assert (Hfail : forall (err : Z) s', (err < 0)%Z -> holds (OInode li :: hs) b s' ->
    wp (do! put_ref (OInode li) in sret err) (fun r s' => ((r < 0)%Z /\ holds hs b s') \/
      (r = 0%Z /\ exists i b', holds hs b' s' /\ interposed li u i add b b')) s').
  { intros err s' Herr H'. apply wp_bind. eapply wp_put_ref; [exact H'|]. intros s2 H2. apply wp_ret. by left. }
  apply wp_bind. eapply wp_read; [exact H1|done|]. case_decide; [by apply Hfail|].
  apply wp_bind, wp_bind. eapply wp_read; [exact H1|done|].
  destruct (k_iget5 K _ _) as [i|] eqn:Ei; [|by apply wp_ret, Hfail].
  destruct (iget5_lower K _ _ _ laws Ei) as [Hi Hnew]. case_decide as Hn.
  - (* a new inode keeps the reference *)
    apply wp_bind. eapply wp_zalloc; [exact H1|]. intros ok s2 H2. destruct ok; cbn [negb]; [|by apply wp_ret, Hfail].
    apply wp_bind, wp_bind. eapply wp_init_inode; [exact H2|done|]. intros s3 H3. apply wp_ret.
    rewrite decide_False by tauto. apply wp_ret, wp_bind, wp_ret. eapply wp_mono; [by eapply wp_attach|].
    intros r s4 [-> (b' & H4 & ? & ? & ? & ? & ? & (V1 & V2 & V3) & ? & ? & ? & ? & Eo & En)]. right. split; [done|].
    exists i, b'. split; [exact H4|]. split; try done; [split; [done|done|by rewrite decide_True]| |].
    + rewrite Eo, decide_True by done. simpl. unfold ops_at. by rewrite lookup_insert_eq.
    + intros j Hj. rewrite (En j Hj). simpl. unfold ops_at. by rewrite lookup_insert_ne.
  - destruct Hnew as [Hnew|[? _]]; [|done]. apply wp_ret, wp_bind.
    eapply wp_put_ref; [exact H1|]. intros s2 H2. eapply wp_mono; [by eapply wp_attach|].
    intros r s3 [-> (b' & H3 & ? & ? & ? & ? & ? & (V1 & V2 & V3) & ? & E & ? & ? & Eo & En)]. right. split; [done|].
    exists i, b'. split; [exact H3|]. split; try done; [split; [done|done|by rewrite decide_False]|by rewrite insert_id|by left|by rewrite Eo, decide_False].
Qed.
End interpose.
