(* ===== verification/FsFile.v ===== *)
(** * Opening files, dentries, super blocks ([file.c], [dentry.c], [super.c])

    The operations in which references to lower dentries, mounts, inodes and
    files change hands. *)

From S2P Require Import Prelude EventState FsState FsInode.
From stdpp Require Import list gmap.

Section file.
Context {L : Type} (K : fs_kernel L).

(** ** Files *)

(** [dazukofs_open] up to the call of [dazukofs_check_access]: the lower dentry and
    mount, with a reference each. *)
Definition open_before (dentry : ptr) : FM L (ptr * ptr) :=
  let! lower_dentry := get_lower_dentry dentry in
  do! get_ref (ODentry lower_dentry) in
  let! lower_mnt := get_lower_mnt dentry in
  do! get_ref (OMnt lower_mnt) in
  sret (lower_dentry, lower_mnt).

(** From there on: [check] is what [dazukofs_check_access] returned; [takes_over]
    tells whether [dentry_open] takes over the references to the dentry and the
    mount, as it did before Linux 3.6, whether or not it succeeds. *)
Definition open_after (takes_over : bool) (check lower_dentry lower_mnt file : ptr) (f_flags : Z) : FM L Z :=
  if decide (check <> 0%Z) then
    do! put_ref (ODentry lower_dentry) in
    do! put_ref (OMnt lower_mnt) in sret check
  else
    let! ok := zalloc in
    if negb ok then
      do! put_ref (ODentry lower_dentry) in
      do! put_ref (OMnt lower_mnt) in sret (- ENOMEM)%Z
    else
      do! set_file_private file in
      let! lower_file := call K (Dentry_open lower_dentry lower_mnt f_flags) in
      do! (if takes_over then do! put_ref (ODentry lower_dentry) in put_ref (OMnt lower_mnt) else sret tt) in
      if decide (lower_file < 0)%Z then sret lower_file
      else
        do! get_ref (OFile lower_file) in
        do! set_lower_file file lower_file in
        sret 0%Z.

(** [dazukofs_open]; [Guard] runs other operations between the two halves, while the
    access check waits. *)
Definition dazukofs_open (takes_over : bool) (check : Z) (dentry file : ptr) (f_flags : Z) : FM L Z :=
  let! lower := open_before dentry in
  open_after takes_over check lower.1 lower.2 file f_flags.

(** [dazukofs_release] *)
Definition dazukofs_release (inode file : ptr) : FM L Z :=
  let! lower_inode := get_lower_inode inode in
  let! lower_file := get_lower_file file in
  do! put_ref (OFile lower_file) in
  do! copy K (fun a l => set_blocks (a_blocks l) a) inode lower_inode in
  do! smodify (fun s => set_files (delete file (files s)) s) in
  sret 0%Z.

(** ** Dentries *)

(** The lower revalidation: of a path that is looked up for it and held until
    [path_put], or with the lower path in a nameidata that is given ([nd], before
    Linux 3.6).  [parent] and [name] are those of the dentry. *)
Definition revalidate_path (lower_dentry parent : ptr) (name : list Z) : FM L (option Z) :=
  let! lower_mnt_parent := get_lower_mnt parent in
  let! lower_dentry_parent := get_lower_dentry parent in
  let! path := call K (Path_lookup lower_dentry_parent lower_mnt_parent name) in
  if decide (path < 0)%Z then sret None
  else
    do! get_ref (ODentry path) in
    do! get_ref (OMnt lower_mnt_parent) in
    let! valid := call K (Revalidate lower_dentry) in
    do! put_ref (ODentry path) in
    do! put_ref (OMnt lower_mnt_parent) in
    sret (Some valid).
Definition revalidate_nd (dentry lower_dentry : ptr) : FM L (option Z) :=
  let! lower_mnt := get_lower_mnt dentry in
  do! get_ref (OMnt lower_mnt) in
  do! get_ref (ODentry lower_dentry) in
  let! valid := call K (Revalidate_nd lower_dentry lower_dentry lower_mnt) in
  do! put_ref (OMnt lower_mnt) in
  do! put_ref (ODentry lower_dentry) in
  sret (Some valid).

(** [dazukofs_d_revalidate]; since Linux 3.6 there is no nameidata. *)
Definition dazukofs_d_revalidate (nd : bool) (dentry parent : ptr) (name : list Z) : FM L Z :=
  let! lower_dentry := get_lower_dentry dentry in
  let! has := sget (fun s => k_has_revalidate K (lower s) lower_dentry) in
  if negb has then sret 1%Z
  else
    let! valid := (if nd then revalidate_nd dentry lower_dentry else revalidate_path lower_dentry parent name) in
    match valid with
    | None => sret (- EINVAL)%Z
    | Some valid =>
        let! inode := upper_inode dentry in
        do! (if decide (inode <> NULL) then
               let! lower_inode := get_lower_inode inode in
               copy K (copy_attr_all K) inode lower_inode
             else sret tt) in
        sret valid
    end.

(** [dazukofs_d_hash]: an error number and the hash. *)
Definition dazukofs_d_hash (dentry : ptr) (name : list Z) (hash : Z) : FM L (Z * Z) :=
  let! lower_dentry := get_lower_dentry dentry in
  let! h := sget (fun s => k_d_hash K (lower s) lower_dentry) in
  match h with None => sret (0%Z, hash) | Some f => sret (f name hash) end.

(** [dazukofs_d_release] *)
Definition dazukofs_d_release (dentry : ptr) : FM L unit :=
  let! info := sget (fun s => d_fsdata s !! dentry) in
  match info with
  | None => sret tt
  | Some _ =>
      let! lower_dentry := get_lower_dentry dentry in
      do! put_ref (ODentry lower_dentry) in
      let! lower_mnt := get_lower_mnt dentry in
      do! put_ref (OMnt lower_mnt) in
      smodify (fun s => set_fsdata (delete dentry (d_fsdata s)) s)
  end.

(** The last [dput] of a dentry: the VFS takes its inode off, calls [d_release] if
    the dentry has the table of DazukoFS, and frees it. *)
Definition dput_last (dentry : ptr) : FM L unit :=
  do! smodify (fun s => set_d_inode (delete dentry (d_inode s)) s) in
  let! ours := sget (fun s => bool_decide (dentry ∈ d_op (vfs s))) in
  do! (if ours : bool then dazukofs_d_release dentry else sret tt) in
  do! smodify (fun s => set_fsdata (delete dentry (d_fsdata s)) s) in
  upd_vfs (fun v => set_hashed (hashed v ∖ {[ dentry ]}) (set_d_op (d_op v ∖ {[ dentry ]}) v)).

(** ** Inodes and super blocks *)

(** [dazukofs_evict_inode], then [dazukofs_destroy_inode]. *)
Definition dazukofs_evict_inode (inode : ptr) : FM L unit :=
  let! lower_inode := get_lower_inode inode in
  put_ref (OInode lower_inode).
Definition dazukofs_destroy_inode (inode : ptr) : FM L unit :=
  smodify (fun s => set_inode_info (delete inode (inode_info s)) s).
Definition evict_and_destroy (inode : ptr) : FM L unit :=
  do! dazukofs_evict_inode inode in dazukofs_destroy_inode inode.

(** [dazukofs_statfs] *)
Definition dazukofs_statfs (dentry : ptr) : FM L Z :=
  let! lower_dentry := get_lower_dentry dentry in
  do! get_ref (ODentry lower_dentry) in
  let! has := sget (fun s => k_has_statfs K (lower s) lower_dentry) in
  if negb has then sret (- ENOSYS)%Z
  else call K (Statfs lower_dentry).

(** [sb->s_root] *)
Definition get_s_root (sb : ptr) : FM L ptr :=
  fun s => match s_root (vfs s) !! sb with Some r => Ret r s | None => Stuck NullDeref end.

(** [dazukofs_fill_super]; [root] is what [d_alloc] gives. *)
Definition dazukofs_fill_super (sb root : ptr) : FM L Z :=
  let! ok := zalloc in
  if negb ok then sret (- ENOMEM)%Z
  else if decide (root = NULL) then sret (- ENOMEM)%Z
  else
    do! upd_vfs (fun v => set_s_root (<[sb := root]> (s_root v)) v) in
    do! set_dops root in
    let! ok2 := zalloc in
    if negb ok2 then do! dput_last root in sret (- ENOMEM)%Z
    else
      do! set_dentry_private root in
      do! set_sb_private sb in
      sret 0%Z.

(** [dazukofs_read_super]; the path [kern_path] finds is held until
    [path_put]. *)
Definition dazukofs_read_super (sb path_dentry path_mnt : ptr) : FM L Z :=
  if decide (path_dentry < 0)%Z then sret path_dentry
  else
    do! get_ref (ODentry path_dentry) in
    do! get_ref (OMnt path_mnt) in
    (* [dget] and [mntget] *)
    do! get_ref (ODentry path_dentry) in
    do! get_ref (OMnt path_mnt) in
    let! i := lower_d_inode K path_dentry in
    let! a := sget (fun s => k_attr K (lower s) i) in
    let! err :=
      (if decide (i = NULL) then sret (- ENOENT)%Z
       else if s_isdir K (a_mode a) then
         let! lsb := sget (fun s => k_dentry_sb K (lower s) path_dentry) in
         do! set_lower_sb sb lsb in
         let! max := sget (fun s => k_maxbytes K (lower s) lsb) in
         do! upd_vfs (fun v => set_maxbytes (<[sb := max]> (s_maxbytes v)) v) in
         let! root := get_s_root sb in
         do! set_lower_dentry root path_dentry path_mnt in
         dazukofs_interpose K path_dentry root sb false
       else sret (- EINVAL)%Z) in
    do! (if decide (err <> 0%Z) then do! put_ref (ODentry path_dentry) in put_ref (OMnt path_mnt)
         else sret tt) in
    do! put_ref (ODentry path_dentry) in
    do! put_ref (OMnt path_mnt) in
    sret err.

(** [dazukofs_put_super] *)
Definition dazukofs_put_super (sb : ptr) : FM L unit :=
  let! sbi := sget (fun s => sb_info s !! sb) in
  match sbi with
  | None => sret tt
  | Some _ => smodify (fun s => set_sb_info (delete sb (sb_info s)) s)
  end.

(** [dazukofs_get_sb]: since Linux 2.6.39 ([mount_nodev]) it only fills the
    super block; before, it also reads the lower one, and gives the super block
    up when that fails: [dput] and [deactivate_super] free the root and the super
    block.  [dazukofs_parse_mount_options] accepts everything. *)
Definition dazukofs_parse_mount_options : FM L Z := sret 0%Z.
Definition dazukofs_get_sb (v39 : bool) (sb root path_dentry path_mnt : ptr) : FM L Z :=
  let! err := dazukofs_fill_super sb root in
  if decide (err <> 0%Z) then sret err
  else if v39 then sret 0%Z
  else
    let! err := dazukofs_parse_mount_options in
    let! err := (if decide (err <> 0%Z) then sret err else dazukofs_read_super sb path_dentry path_mnt) in
    if decide (err <> 0%Z) then
      let! root := get_s_root sb in
      do! dput_last root in
      do! dazukofs_put_super sb in
      sret err
    else sret 0%Z.
End file.

(** ** Names *)

(** [memcmp]: whether the arrays differ in their first [n] bytes; it reads both. *)
Fixpoint memcmp (n : nat) (a b : list Z) : SM unit bool :=
  match n, a, b with
  | O, _, _ => sret false
  | S n', x :: a', y :: b' => if decide (x = y) then memcmp n' a' b' else sret true
  | S _, _, _ => sfail OutOfBounds
  end.

(** [dazukofs_d_compare] since Linux 3.6; the names as they lie in memory, with
    their lengths. *)
Definition dazukofs_d_compare (len : nat) (str : list Z) (name_len : nat) (name : list Z) : SM unit Z :=
  if decide (len <> name_len) then sret 1%Z
  else let! d := memcmp len str name in sret (if d : bool then 1%Z else 0%Z).

(** Before, the lower dentry of the parent was asked. *)
Definition dazukofs_d_compare_lower (lower_compare : option (list Z -> list Z -> Z)) (len : nat) (str : list Z)
    (name_len : nat) (name : list Z) : SM unit Z :=
  match lower_compare with
  | Some f => sret (f (take len str) (take name_len name))
  | None => dazukofs_d_compare len str name_len name
  end.
