(* ===== verification/FsFrame.v ===== *)
(** * What an operation of the file system does not see

    No operation reads a count of references: what somebody else holds changes
    neither its result nor what it does ([Framed]).  And none but an open adds an
    open file ([KeepsFiles]).  Both are interfaces that every primitive implements
    and that sequences and choices inherit. *)

From S2P Require Import Prelude EventState FsState FsInode FsSpec FsFile.
From stdpp Require Import list gmap.

Section frame.
Context {L : Type}.
Implicit Types s : fstate L.

(** ** Interfaces *)

(** The states are the same but for the counts of references, which are higher by
    [d] in the first. *)
Record differ (d : obj -> Z) s s0 : Prop := {
  df_base : set_refs ∅ s = set_refs ∅ s0;
  df_refs : forall o, o.2 <> NULL -> refs_at s o = (refs_at s0 o + d o)%Z
}.

Definition same_result {A} (d : obj -> Z) (r r0 : result (fstate L) A) : Prop :=
  match r, r0 with
  | Ret a s, Ret a0 s0 => a = a0 /\ differ d s s0
  | Stuck w, Stuck w0 => w = w0
  | _, _ => False
  end.

Class Framed {A} (m : FM L A) : Prop := framed : forall d s s0, differ d s s0 -> same_result d (m s) (m s0).

Class KeepsFiles {A} (m : FM L A) : Prop := keeps_files : forall s a s', m s = Ret a s' -> files s' ⊆ files s.

(** ** Sequences *)

#[export] Instance framed_ret {A} (a : A) : Framed (sret a).
Proof. intros d s s0 H. by split. Qed.
#[export] Instance framed_fail {A} w : Framed (sfail w : FM L A).
Proof. done. Qed.
#[export] Instance framed_bind {A B} (m : FM L A) (k : A -> FM L B) :
  Framed m -> (forall a, Framed (k a)) -> Framed (sbind m k).
Proof.
  intros Hm Hk d s s0 H. specialize (Hm d s s0 H). unfold sbind.
  destruct (m s) as [a s'|w], (m s0) as [a0 s0'|w0]; simpl in Hm; try done.
  destruct Hm as [-> H']. by apply Hk.
Qed.

#[export] Instance keeps_ret {A} (a : A) : KeepsFiles (sret a).
Proof. by intros s a' s' [= <- <-]. Qed.
#[export] Instance keeps_fail {A} w : KeepsFiles (sfail w : FM L A).
Proof. done. Qed.
#[export] Instance keeps_bind {A B} (m : FM L A) (k : A -> FM L B) :
  KeepsFiles m -> (forall a, KeepsFiles (k a)) -> KeepsFiles (sbind m k).
Proof.
  intros Hm Hk s b s'. unfold sbind. destruct (m s) as [a s1|w] eqn:E; [|done].
  intros E'. etrans; [by eapply Hk|by eapply Hm].
Qed.

(** ** Primitives *)

(** A computation that commutes with changes of the counts. *)
Lemma framed_blind {A} (m : FM L A) :
  (forall s x, m (set_refs x s) = match m s with Ret a s' => Ret a (set_refs x s') | Stuck w => Stuck w end) ->
  (forall s a s', m s = Ret a s' -> refs s' = refs s) -> Framed m.
Proof.
  intros Hx Hr d s s0 [Hb Hd]. pose proof (Hx s ∅) as E. pose proof (Hx s0 ∅) as E0. rewrite Hb, E0 in E.
  destruct (m s) as [a s'|w] eqn:Em, (m s0) as [a0 s0'|w0] eqn:Em0; simpl; try congruence.
  assert (Ha : a0 = a /\ set_refs ∅ s0' = set_refs ∅ s') by (split; congruence). destruct Ha as [-> Eb].
  split; [done|]. split; [done|]. intros o Ho. unfold refs_at. rewrite (Hr _ _ _ Em), (Hr _ _ _ Em0). by apply Hd.
Qed.

Lemma framed_get {A} (f : fstate L -> A) : (forall s x, f (set_refs x s) = f s) -> Framed (sget f).
Proof. intros Hf. apply framed_blind; [intros s x; unfold sget; by rewrite Hf|by intros s a s' [= _ <-]]. Qed.
Lemma framed_modify (f : fstate L -> fstate L) : (forall s x, f (set_refs x s) = set_refs x (f s)) ->
  (forall s, refs (f s) = refs s) -> Framed (smodify f).
Proof. intros Hf Hr. apply framed_blind; [intros s x; unfold smodify; by rewrite Hf|by intros s a s' [= _ <-]]. Qed.
Lemma keeps_get {A} (f : fstate L -> A) : KeepsFiles (sget f).
Proof. by intros s a s' [= _ <-]. Qed.
Lemma keeps_modify (f : fstate L -> fstate L) : (forall s, files (f s) ⊆ files s) -> KeepsFiles (smodify f).
Proof. intros Hf s a s' [= _ <-]. apply Hf. Qed.

#[export] Instance framed_get_ref o : Framed (get_ref o : FM L unit).
Proof.
  intros d s s0 [Hb Hd]. unfold get_ref. case_decide as Ho; [by split|]. split; [done|]. split; [done|].
  intros o' Ho'. rewrite !refs_at_insert. specialize (Hd o' Ho'). case_decide; [subst|]; lia.
Qed.
#[export] Instance framed_put_ref o : Framed (put_ref o : FM L unit).
Proof.
  intros d s s0 [Hb Hd]. unfold put_ref. case_decide as Ho; [by split|]. split; [done|]. split; [done|].
  intros o' Ho'. rewrite !refs_at_insert. specialize (Hd o' Ho'). case_decide; [subst|]; lia.
Qed.
#[export] Instance keeps_get_ref o : KeepsFiles (get_ref o : FM L unit).
Proof. unfold get_ref. case_decide; [apply _|by apply keeps_modify]. Qed.
#[export] Instance keeps_put_ref o : KeepsFiles (put_ref o : FM L unit).
Proof. unfold put_ref. case_decide; [apply _|by apply keeps_modify]. Qed.
End frame.

(** Choices. *)
#[export] Hint Extern 1 (Framed (match ?x with _ => _ end)) => destruct x : typeclass_instances.
#[export] Hint Extern 1 (KeepsFiles (match ?x with _ => _ end)) => destruct x : typeclass_instances.
#[export] Hint Extern 2 (Framed (sget _)) => apply framed_get; reflexivity : typeclass_instances.
#[export] Hint Extern 2 (Framed (smodify _)) => apply framed_modify; reflexivity : typeclass_instances.
#[export] Hint Extern 2 (KeepsFiles (sget _)) => apply keeps_get : typeclass_instances.
#[export] Hint Extern 2 (KeepsFiles (smodify _)) =>
  apply keeps_modify; first [reflexivity | intros ?; apply delete_subseteq] : typeclass_instances.

(** A primitive defined on states. *)
Ltac open_prim :=
  cbv beta delta [call mutex_lock mutex_unlock zalloc upd_attr get_lower_dentry get_lower_mnt get_lower_sb get_lower_file
    set_lower_dentry get_s_root]; simpl; repeat case_match; try congruence; try done; try (by intros [= _ <-]).
Ltac blind := first [apply framed_blind; [intros [] ?|intros [] ? ?]; open_prim | intros [] ? ?; open_prim].

Section prims.
Context {L : Type} (K : fs_kernel L).

#[export] Instance framed_mutex_lock i : Framed (mutex_lock i : FM L unit). Proof. blind. Qed.
#[export] Instance framed_mutex_unlock i : Framed (mutex_unlock i : FM L unit). Proof. blind. Qed.
#[export] Instance framed_call c : Framed (call K c). Proof. blind. Qed.
#[export] Instance framed_zalloc : Framed (zalloc : FM L bool). Proof. blind. Qed.
#[export] Instance framed_lower_dentry u : Framed (get_lower_dentry u : FM L ptr). Proof. blind. Qed.
#[export] Instance framed_lower_mnt u : Framed (get_lower_mnt u : FM L ptr). Proof. blind. Qed.
#[export] Instance framed_lower_sb u : Framed (get_lower_sb u : FM L ptr). Proof. blind. Qed.
#[export] Instance framed_lower_file u : Framed (get_lower_file u : FM L ptr). Proof. blind. Qed.
#[export] Instance framed_set_lower_dentry u d m : Framed (set_lower_dentry u d m : FM L unit). Proof. blind. Qed.
#[export] Instance framed_s_root u : Framed (get_s_root u : FM L ptr). Proof. blind. Qed.
#[export] Instance framed_upd_attr i f : Framed (upd_attr i f : FM L unit). Proof. blind. Qed.

#[export] Instance keeps_mutex_lock i : KeepsFiles (mutex_lock i : FM L unit). Proof. blind. Qed.
#[export] Instance keeps_mutex_unlock i : KeepsFiles (mutex_unlock i : FM L unit). Proof. blind. Qed.
#[export] Instance keeps_call c : KeepsFiles (call K c). Proof. blind. Qed.
#[export] Instance keeps_zalloc : KeepsFiles (zalloc : FM L bool). Proof. blind. Qed.
#[export] Instance keeps_lower_dentry u : KeepsFiles (get_lower_dentry u : FM L ptr). Proof. blind. Qed.
#[export] Instance keeps_lower_mnt u : KeepsFiles (get_lower_mnt u : FM L ptr). Proof. blind. Qed.
#[export] Instance keeps_lower_sb u : KeepsFiles (get_lower_sb u : FM L ptr). Proof. blind. Qed.
#[export] Instance keeps_lower_file u : KeepsFiles (get_lower_file u : FM L ptr). Proof. blind. Qed.
#[export] Instance keeps_set_lower_dentry u d m : KeepsFiles (set_lower_dentry u d m : FM L unit). Proof. blind. Qed.
#[export] Instance keeps_s_root u : KeepsFiles (get_s_root u : FM L ptr). Proof. blind. Qed.
#[export] Instance keeps_upd_attr i f : KeepsFiles (upd_attr i f : FM L unit). Proof. blind. Qed.
End prims.

(** ** Operations *)

(** Unfolding an operation down to its primitives. *)
Ltac by_parts :=
  cbv beta delta [dazukofs_interpose iget5_locked igrab dazukofs_alloc_inode dazukofs_inode_set dazukofs_init_inode
    upd_ops set_ops set_dentry_private set_lower_inode set_sb_private set_lower_sb set_file_private set_lower_file set_dops d_rehash d_drop upd_vfs d_instantiate d_add copy copy_nlink lower_d_inode lower_d_parent
    upper_inode get_lower_inode add_name remove_name lock_rename unlock_rename xattr_op revalidate_path revalidate_nd
    dazukofs_readlink dazukofs_fill_super dazukofs_read_super dazukofs_parse_mount_options dazukofs_put_super
    dput_last dazukofs_d_release dazukofs_evict_inode dazukofs_destroy_inode evict_and_destroy
    dazukofs_lookup dazukofs_mknod dazukofs_mkdir dazukofs_symlink dazukofs_link dazukofs_create dazukofs_unlink
    dazukofs_rmdir dazukofs_rename dazukofs_follow_link dazukofs_put_link dazukofs_permission dazukofs_getattr
    dazukofs_setattr dazukofs_setxattr dazukofs_getxattr dazukofs_listxattr dazukofs_removexattr
    dazukofs_open open_before open_after dazukofs_release dazukofs_d_revalidate dazukofs_get_sb dazukofs_statfs].

Section ops.
Context {L : Type} (K : fs_kernel L).
Implicit Types s : fstate L.

#[export] Instance keeps_open_before u : KeepsFiles (open_before u : FM L (ptr * ptr)).
Proof. by_parts; apply _. Qed.
#[export] Instance framed_open_before u : Framed (open_before u : FM L (ptr * ptr)).
Proof. by_parts; apply _. Qed.
#[export] Instance framed_open_after takes_over check ld m f flags : Framed (open_after K takes_over check ld m f flags).
Proof. by_parts; apply _. Qed.
#[export] Instance framed_open takes_over check u f flags : Framed (dazukofs_open K takes_over check u f flags).
Proof. by_parts; apply _. Qed.
#[export] Instance framed_create v36 dir u sb mode excl : Framed (dazukofs_create K v36 dir u sb mode excl).
Proof. by_parts; apply _. Qed.
#[export] Instance framed_lookup dir u parent sb name : Framed (dazukofs_lookup K dir u parent sb name).
Proof. by_parts; apply _. Qed.
#[export] Instance framed_follow_link u nd buf : Framed (dazukofs_follow_link K u nd buf).
Proof. by_parts; apply _. Qed.
#[export] Instance framed_put_link nd : Framed (dazukofs_put_link nd : FM L unit).
Proof. by_parts; apply _. Qed.
End ops.
