(* ===== verification/FsInodeSpec.v ===== *)
(** * The operations of [inode.c] keep their references

    Every operation gives back the references it takes and releases the mutexes
    it locks, on every path, and makes its calls under the mutexes they need;
    the exceptions are in [FsThms]. *)

From S2P Require Import Prelude EventState FsState FsInode FsSpec.
From stdpp Require Import list gmap.

Section inode.
Context {L : Type} (K : fs_kernel L) (laws : kernel_laws K).
Implicit Types (s b : fstate L) (hs : list obj).

(** ** Adding a name *)

(** Only attributes of [dir] change, and not its times or its size. *)
Record dir_touched (dir : ptr) (b b' : fstate L) : Prop := {
  dt_base : exists m, b' = set_i_attr m b;
  dt_others : forall j, j <> dir -> attr_of b' j = attr_of b j;
  dt_times : a_mtime (attr_of b' dir) = a_mtime (attr_of b dir) /\ a_ctime (attr_of b' dir) = a_ctime (attr_of b dir);
  dt_size : a_size (attr_of b' dir) = a_size (attr_of b dir)
}.

Definition after_ok (dir p : ptr) (after : FM L unit) : Prop :=
  forall hs b s, holds hs b s -> dir <> NULL -> p <> NULL ->
    wp after (fun _ s' => exists b', holds hs b' s' /\ dir_touched dir b b') s.

Lemma after_ret dir p : after_ok dir p (sret tt).
Proof. intros hs b s H _ _. apply wp_ret. exists b. split; [done|]. split; try done. exists (i_attr b). by destruct b. Qed.

Lemma after_nlink dir p : after_ok dir p (copy K (fun a l => set_nlink (a_nlink l) a) dir p).
Proof.
  intros hs b s H Hd Hp. eapply wp_copy; [exact H|done|done|]. intros s' H'. eexists. split; [exact H'|].
  split; rewrite ?attr_set_eq; [by eexists|intros j Hj; by rewrite attr_set_ne|done|done].
Qed.

(** [dir] shows the times and the size [a]; nothing else has changed. *)
Record dir_shows (dir : ptr) (a : attr) (b b' : fstate L) : Prop := {
  ds_base : exists m, b' = set_i_attr m b;
  ds_others : forall j, j <> dir -> attr_of b' j = attr_of b j;
  ds_times : a_mtime (attr_of b' dir) = a_mtime a /\ a_ctime (attr_of b' dir) = a_ctime a;
  ds_size : a_size (attr_of b' dir) = a_size a
}.

Lemma wp_copy_dir dir p after (k : FM L Z) Q hs b s : holds hs b s -> dir <> NULL -> p <> NULL -> after_ok dir p after ->
  (forall b' s', holds hs b' s' -> dir_shows dir (k_attr K (lower b) p) b b' -> wp k Q s') ->
  wp (do! copy K (copy_attr_times K) dir p in do! copy K (copy_inode_size K) dir p in do! after in k) Q s.
Proof.
  intros H Hd Hp Ha HQ. apply wp_bind. eapply wp_copy; [exact H|done|done|]. intros s1 H1.
  apply wp_bind. eapply wp_copy; [exact H1|done|done|]. intros s2 H2.
  apply wp_bind. eapply wp_mono; [by apply Ha|]. intros [] s3 (b3 & H3 & [[m ->] To [Tm Tc] Ts]).
  eapply HQ; [exact H3|]. rewrite !attr_set_eq in Tm, Tc, Ts.
  change (lower (set_attr dir (copy_attr_times K (attr_of b dir) (k_attr K (lower b) p)) b)) with (lower b) in *.
  set (x := attr_of b dir) in *. set (a := k_attr K (lower b) p) in *.
  destruct (law_times K laws x a) as [M1 C1]. destruct (law_size K laws (copy_attr_times K x a) a) as (S2 & M2 & C2).
  split; [by eexists| |split; (etrans; [eassumption|congruence])|etrans; [exact Ts|congruence]].
  intros j Hj. etrans; [exact (To j Hj)|]. by rewrite !attr_set_ne.
Qed.

(** The inode [i] has got the tables for the kind of [li] and its number, and its
    dentry [u] the table of dentry operations. *)
Record attached (u i li : ptr) (b b' : fstate L) : Prop := {
  at_ops : exists l, ops_at (i_op b') i = new_ops K (a_mode (k_attr K l li))
    (if decide (inode_info b !! i = None) then (MainOps, MainFops) else ops_at (i_op b) i);
  at_other_ops : forall j, j <> i -> ops_at (i_op b') j = ops_at (i_op b) j;
  at_dops : d_op (vfs b') = {[ u ]} ∪ d_op (vfs b);
  at_ino : exists l, i_ino (vfs b') = if decide (inode_info b !! i = None) then <[i := k_ino K l li]> (i_ino (vfs b))
                                      else i_ino (vfs b)
}.
Lemma interposed_attached li u i add b b' : interposed K li u i add b b' -> attached u i li b b'.
Proof. intros []. destruct ip_vfs. split; [by eexists|done|done|by eexists]. Qed.

(** [u] has become the name of the new lower inode, and [dir] shows the times
    and the size of the lower directory [p]. *)
Record name_added (ld u dir p : ptr) (l' : L) (b b' : fstate L) : Prop := {
  na_lower : lower b' = l';
  na_locks : locks b' = locks b;
  na_fsdata : d_fsdata b' = d_fsdata b;
  na_files : files b' = files b;
  na_made : k_inode K l' ld <> NULL;
  na_inode : exists i, i <> NULL /\ d_inode b' = <[u := i]> (d_inode b) /\
    inode_info b' = <[i := k_inode K l' ld]> (inode_info b) /\
    (inode_info b !! i = Some (k_inode K l' ld) \/
      (inode_info b !! i = None /\ forall j, inode_info b !! j <> Some (k_inode K l' ld))) /\
    attached u i (k_inode K l' ld) b b' /\
    (i <> dir -> attr_of b' i = k_attr K l' (k_inode K l' ld));
  na_times : a_mtime (attr_of b' dir) = a_mtime (k_attr K l' p) /\ a_ctime (attr_of b' dir) = a_ctime (k_attr K l' p);
  na_size : a_size (attr_of b' dir) = a_size (k_attr K l' p)
}.

(** What surrounds the call finds [before], has [extra] during the call, and leaves
    neither. *)
Definition pre_ok (before extra : list obj) (pre post : FM L unit) : Prop :=
  (forall hs b s, holds (before ++ hs) b s -> wp pre (fun _ s' => holds (extra ++ hs) b s') s) /\
  (forall hs b s, holds (extra ++ hs) b s -> wp post (fun _ s' => holds hs b s') s).

Lemma wp_add_name before extra pre post after c ld u dir sb lsb hs b s :
  holds (before ++ hs) b s -> locks b = [] -> ld <> NULL -> dir <> NULL -> sb_info b !! sb = Some lsb ->
  (forall f p, must_hold f (c p) = [p]) -> (forall p, creates (c p) = Some ld) ->
  pre_ok before extra pre post -> (forall p, after_ok dir p (after p)) ->
  let p := k_inode K (lower b) (k_parent K (lower b) ld) in
  let l' := (k_call K (c p) (lower b)).2 in
  wp (add_name K dir u sb ld pre c post after) (fun r s' =>
    (r <> 0%Z /\ exists b', holds hs b' s' /\ b' = set_lower l' b) \/
    (r = 0%Z /\ exists b', holds hs b' s' /\ name_added ld u dir p l' b b')) s.
Proof.
  intros H Hl Hld Hdir Hsb Hmust Hcr [Hpre Hpost] Hafter p l'.
  destruct (law_parent K laws (lower b) ld Hld) as [Hpar Hp]. fold p in Hp.
  apply wp_bind. eapply wp_lower_d_parent; [exact H|done|]. apply wp_bind. eapply wp_get_ref; [exact H|]. intros s1 H1.
  apply wp_bind. eapply wp_lower_d_inode; [exact H1|done|]. fold p.
  apply wp_bind. eapply wp_mutex_lock; [exact H1|done|by rewrite Hl; apply not_elem_of_nil|]. intros s2 H2.
  rewrite Hl in H2. apply wp_bind. eapply wp_mono; [apply (Hpre (ODentry (k_parent K (lower b) ld) :: hs));
    eapply fs_holds_perm; [apply Permutation_middle|exact H2]|]. intros [] s3 H3.
  apply wp_bind. eapply wp_call; [exact H3|rewrite Hmust; set_solver|]. intros s4 H4.
  apply wp_bind. eapply wp_mono; [by apply Hpost|]. intros [] s5 H5. simpl in H5. clear s1 s2 s3 s4 H1 H2 H3 H4.
  (* what is left once the mutex is to be released *)
  assert (Hend : forall (r : Z) b' s', holds (ODentry (k_parent K (lower b) ld) :: hs) b' s' -> locks b' = [p] ->
    wp (do! mutex_unlock p in do! put_ref (ODentry (k_parent K (lower b) ld)) in sret r)
      (fun r' s' => r' = r /\ holds hs (set_locks [] b') s') s').
  { intros r b' s' H' Hl'. apply wp_bind. eapply wp_mutex_unlock; [exact H'|exact Hl'|apply not_elem_of_nil|].
    intros s6 H6. apply wp_bind. eapply wp_put_ref; [exact H6|]. intros s7 H7. by apply wp_ret. }
  change (lower (set_locks [p] b)) with (lower b) in *. fold l' in H5. set (b5 := set_lower l' (set_locks [p] b)) in *.
  assert (Hfail : set_locks [] b5 = set_lower l' b) by (rewrite <-Hl; by destruct b).
  set (err := (k_call K (c p) (lower b)).1). apply wp_bind.
  destruct (decide (err <> 0%Z)) as [He|He].
  { apply wp_ret. eapply wp_mono; [by apply Hend|]. intros r s' [-> H']. left. rewrite Hfail in H'. eauto. }
  assert (Hmade : k_inode K l' ld <> NULL).
  { apply (law_made K laws (c p)); [done|]. by destruct (decide (err = 0%Z)). }
  apply wp_bind. eapply wp_mono; [by apply (wp_interpose K laws ld u sb lsb false _ b5 s5 H5)|].
  intros r s6 [[Hr H6]|[-> (i & b6 & H6 & P)]].
  { rewrite decide_True by lia. apply wp_ret. eapply wp_mono; [by apply Hend|]. intros r' s' [-> H'].
    left. rewrite Hfail in H'. split; [lia|eauto]. }
  rewrite decide_False by tauto. pose proof (interposed_attached _ _ _ _ _ _ P) as Hops. destruct P.
  eapply wp_copy_dir; [exact H6|done|done|apply Hafter|]. intros b9 s9 H9 [[m ->] To Tt Ts].
  apply wp_ret. eapply wp_mono; [apply (Hend 0%Z); [exact H9|exact ip_locks]|]. intros r' s' [-> H'].
  right. split; [done|]. eexists. split; [exact H'|]. rewrite ip_lower in *.
  split; try done.
  exists i. split; [done|]. split; [done|]. split; [done|]. split; [done|]. split; [by destruct Hops|].
  intros Hi. etrans; [exact (To i Hi)|done].
Qed.

(** ** Well-formed states *)

(** A linked dentry has a lower dentry and the table of dentry operations, an inode
    a lower inode of its own, the operations of the kind of that and its number. *)
Record wf (b : fstate L) : Prop := {
  wf_dentry : forall u d m, d_fsdata b !! u = Some (d, m) -> d <> NULL;
  wf_inode : forall i li, inode_info b !! i = Some li -> i <> NULL /\ li <> NULL;
  wf_d_inode : forall u i, d_inode b !! u = Some i -> is_Some (inode_info b !! i);
  wf_unique : forall i j li, inode_info b !! i = Some li -> inode_info b !! j = Some li -> i = j;
  wf_ops : kinds_stable K -> forall i li l, inode_info b !! i = Some li -> ops_at (i_op b) i = kind_ops K (a_mode (k_attr K l li));
  wf_dops : forall u, is_Some (d_fsdata b !! u) -> u ∈ d_op (vfs b);
  wf_ino : forall i li, inode_info b !! i = Some li -> exists l, i_ino (vfs b) !! i = Some (k_ino K l li)
}.

(** Between two operations: no mutex is held, and the references held are
    exactly those that the dentries, inodes and files own. *)
Definition good (s : fstate L) : Prop := exists b, holds [] b s /\ locks b = [] /\ wf b.

(** The parts of a state that are linked to lower objects. *)
Definition same_links (b b' : fstate L) : Prop :=
  locks b' = locks b /\ d_fsdata b' = d_fsdata b /\ d_inode b' = d_inode b /\ inode_info b' = inode_info b /\ i_op b' = i_op b /\
  i_ino (vfs b') = i_ino (vfs b) /\
  (forall u, is_Some (d_fsdata b !! u) -> u ∈ d_op (vfs b) -> u ∈ d_op (vfs b')).

Lemma wf_same b b' : same_links b b' -> wf b -> wf b'.
Proof. intros (_ & E1 & E2 & E3 & E4 & E5 & E6) []. split; rewrite ?E1, ?E2, ?E3, ?E4, ?E5; auto. Qed.

Lemma good_same b b' s : holds [] b' s -> same_links b b' -> locks b = [] -> wf b -> good s.
Proof. intros H E Hl W. exists b'. split_and!; [done|by rewrite (proj1 E)|by eapply wf_same]. Qed.

Lemma wf_attach b b' u i li : wf b -> i <> NULL -> li <> NULL -> d_fsdata b' = d_fsdata b ->
  d_inode b' = <[u := i]> (d_inode b) -> inode_info b' = <[i := li]> (inode_info b) ->
  (inode_info b !! i = Some li \/ (inode_info b !! i = None /\ forall j, inode_info b !! j <> Some li)) ->
  attached u i li b b' -> wf b'.
Proof.
  intros [] Hi Hli E1 E2 E3 Honly [[l0 Ho] Hno Hd [l1 Hn]]. split; rewrite ?E1, ?E2, ?E3; [done| | | | | |].
  - intros j lj [[<- <-]|[_ ?]]%lookup_insert_Some; eauto.
  - intros v j Hv. apply lookup_insert_is_Some'.
    apply lookup_insert_Some in Hv as [[_ <-]|[_ Hv]]; [by left|right; eauto].
  - intros j k lj Hj Hk. apply lookup_insert_Some in Hj as [[<- <-]|[Hj Hj']]; apply lookup_insert_Some in Hk as [[<- Hk]|[Hk Hk']].
    + done.
    + destruct Honly as [?|[_ ?]]; [eauto|by destruct (H k)].
    + subst. destruct Honly as [?|[_ ?]]; [eauto|by destruct (H j)].
    + eauto.
  - intros Hst j lj l Hj. apply lookup_insert_Some in Hj as [[<- <-]|[Hj Hj']]; [|rewrite Hno by done; eauto].
    rewrite (Hst l l0 li), Ho. destruct Honly as [Hs|[Hn' _]].
    + rewrite decide_False by congruence. rewrite (wf_ops0 Hst i li l0 Hs). apply new_ops_kind.
    + by rewrite decide_True.
  - intros v Hv. rewrite Hd. apply elem_of_union_r. by apply wf_dops0.
  - intros j lj [[<- <-]|[Hj Hj']]%lookup_insert_Some; rewrite Hn.
    + case_decide as E; [exists l1; by rewrite lookup_insert_eq|]. destruct Honly as [Hs|[? _]]; [by eapply wf_ino0|done].
    + case_decide; [rewrite lookup_insert_ne by done|]; by eapply wf_ino0.
Qed.

Lemma wf_name_added ld u dir p l' b b' : wf b -> name_added ld u dir p l' b b' -> wf b'.
Proof. intros W [_ _ ? _ ? (i & ? & ? & ? & ? & ? & _) _ _]. by apply (wf_attach b b' u i (k_inode K l' ld)). Qed.

(** ** The operations *)

(** An operation on a dentry with the lower dentry [ld]. *)
Lemma wp_with_lower u ld m (k : ptr -> FM L Z) Q hs b s : holds hs b s -> d_fsdata b !! u = Some (ld, m) ->
  wp (k ld) Q s -> wp (let! d := get_lower_dentry u in k d) Q s.
Proof. intros H Hu Hk. apply wp_bind. by eapply wp_get_lower_dentry. Qed.

Definition make_ok (sb dir u : ptr) (b : fstate L) : Prop :=
  dir <> NULL /\ is_Some (sb_info b !! sb) /\ is_Some (d_fsdata b !! u).

(** What an operation that adds a name guarantees when it succeeds, [c] being the call
    it makes. *)
Definition made_post (c : ptr -> lcall) (ld u dir : ptr) (b : fstate L) (r : Z) (s' : fstate L) : Prop :=
  let p := k_inode K (lower b) (k_parent K (lower b) ld) in
  let l' := (k_call K (c p) (lower b)).2 in
  r = 0%Z -> exists b', base s' = b' /\ name_added ld u dir p l' b b'.
Definition make_post (c : ptr -> lcall) (ld u dir : ptr) (b : fstate L) (r : Z) (s' : fstate L) : Prop :=
  good s' /\ made_post c ld u dir b r s'.

Lemma wp_add_name_good before extra pre post after c ld m u dir sb b s :
  holds (before ++ []) b s -> locks b = [] -> wf b -> d_fsdata b !! u = Some (ld, m) -> make_ok sb dir u b ->
  (forall f p, must_hold f (c p) = [p]) -> (forall p, creates (c p) = Some ld) ->
  pre_ok before extra pre post -> (forall p, after_ok dir p (after p)) ->
  wp (add_name K dir u sb ld pre c post after) (make_post c ld u dir b) s.
Proof.
  intros H Hl W Hu (Hd & [lsb Hsb] & _) Hm Hc Hpre Ha.
  eapply wp_mono; [apply (wp_add_name before extra pre post after c ld u dir sb lsb [] b s H Hl); try done; by eapply wf_dentry|].
  intros r s' [(Hr & b' & H' & ->)|(-> & b' & H' & N)]; (split; [|unfold made_post; intros ?; try done]).
  - by eapply (good_same b); [exact H'|by repeat split|done|done].
  - exists b'. split_and!; [done|by rewrite (na_locks _ _ _ _ _ _ _ N)|by eapply wf_name_added].
  - exists b'. split; [apply H'|done].
Qed.

Section make.
Context (dir u sb ld m : ptr) (b s : fstate L).
Context (H : holds [] b s) (Hl : locks b = []) (W : wf b).
Context (Hu : d_fsdata b !! u = Some (ld, m)) (Hok : make_ok sb dir u b).

Lemma wp_mknod mode dev : wp (dazukofs_mknod K dir u sb mode dev) (make_post (fun p => Mknod p ld mode dev) ld u dir b) s.
Proof.
  eapply wp_with_lower; [exact H|exact Hu|].
  by eapply (wp_add_name_good [] []); try done; intros; apply after_ret.
Qed.

Lemma wp_mkdir mode : wp (dazukofs_mkdir K dir u sb mode) (make_post (fun p => Mkdir p ld mode) ld u dir b) s.
Proof.
  eapply wp_with_lower; [exact H|exact Hu|].
  by eapply (wp_add_name_good [] []); try done; intros; apply after_nlink.
Qed.

Lemma wp_symlink symname : wp (dazukofs_symlink K dir u sb symname) (make_post (fun p => Symlink p ld symname) ld u dir b) s.
Proof.
  eapply wp_with_lower; [exact H|exact Hu|].
  by eapply (wp_add_name_good [] []); try done; intros; apply after_ret.
Qed.

Lemma wp_link old lo mo : d_fsdata b !! old = Some (lo, mo) ->
  wp (dazukofs_link K old dir u sb) (make_post (fun p => Link lo p ld) ld u dir b) s.
Proof.
  intros Ho. eapply wp_with_lower; [exact H|exact Ho|]. eapply wp_with_lower; [exact H|exact Hu|].
  by eapply (wp_add_name_good [] []); try done; intros; apply after_ret.
Qed.

(** Before Linux 3.6: the references [nd->path] gets are given back. *)
Lemma wp_create mode excl :
  wp (dazukofs_create K false dir u sb mode excl) (make_post (fun p => Create p ld mode (Nd ld m)) ld u dir b) s.
Proof.
  apply wp_bind. eapply wp_get_lower_mnt; [exact H|exact Hu|]. eapply wp_with_lower; [exact H|exact Hu|].
  eapply (wp_add_name_good [] [ODentry ld; OMnt m]); try done; [|intros; apply after_ret].
  split; intros hs b' s' H'.
  - apply wp_bind. eapply wp_get_ref; [exact H'|]. intros s1 H1. by eapply wp_get_ref.
  - apply wp_bind. eapply wp_put_ref; [eapply fs_holds_perm; [|exact H']; apply perm_swap|].
    intros s1 H1. by eapply wp_put_ref.
Qed.
End make.

(** Since Linux 3.6 they are given back without having been taken. *)
Lemma wp_create_held dir u sb ld m mode excl b s : holds [ODentry ld; OMnt m] b s -> locks b = [] -> wf b ->
  d_fsdata b !! u = Some (ld, m) -> make_ok sb dir u b ->
  wp (dazukofs_create K true dir u sb mode excl) (make_post (fun p => Create p ld mode (Excl excl)) ld u dir b) s.
Proof.
  intros H Hl W Hu Hok. apply wp_bind. eapply wp_get_lower_mnt; [exact H|exact Hu|]. eapply wp_with_lower; [exact H|exact Hu|].
  eapply (wp_add_name_good [ODentry ld; OMnt m] [ODentry ld; OMnt m]); try done; [|intros; apply after_ret].
  split; intros hs b' s' H'; [by apply wp_ret|].
  apply wp_bind. eapply wp_put_ref; [eapply fs_holds_perm; [|exact H']; apply perm_swap|].
  intros s1 H1. by eapply wp_put_ref.
Qed.

(** ** Removing a name *)

(** Only attributes change. *)
Definition attrs_only (b b' : fstate L) : Prop := exists m, b' = set_i_attr m b.
Lemma attrs_only_refl b : attrs_only b b.
Proof. exists (i_attr b). by destruct b. Qed.
Definition attrs_ok (m : FM L unit) (b : fstate L) : Prop :=
  forall hs s, holds hs b s -> wp m (fun _ s' => exists b', holds hs b' s' /\ attrs_only b b') s.

Lemma attrs_ret b : attrs_ok (sret tt) b.
Proof. intros hs s H. apply wp_ret. exists b. split; [done|]. exists (i_attr b). by destruct b. Qed.

Lemma attrs_copy f i li b : i <> NULL -> li <> NULL -> attrs_ok (copy K f i li) b.
Proof. intros Hi Hli hs s H. eapply wp_copy; [exact H|done|done|]. intros s' H'. eexists. split; [exact H'|by eexists]. Qed.

Lemma attrs_upd f i b : i <> NULL -> attrs_ok (upd_attr i f) b.
Proof. intros Hi hs s H. eapply wp_upd_attr; [exact H|done|]. intros s' H'. eexists. split; [exact H'|by eexists]. Qed.

Lemma attrs_seq m m' b : attrs_ok m b -> (forall b', attrs_only b b' -> attrs_ok m' b') -> attrs_ok (do! m in m') b.
Proof.
  intros Hm Hm' hs s H. apply wp_bind. eapply wp_mono; [by apply Hm|]. intros [] s1 (b1 & H1 & E1).
  eapply wp_mono; [by eapply Hm'|]. intros [] s2 (b2 & H2 & [m2 ->]). eexists. split; [exact H2|].
  destruct E1 as [m1 ->]. by exists m2.
Qed.

Lemma attrs_read {A} (f : fstate L -> A) (k : A -> FM L unit) b : (forall s, f (base s) = f s) ->
  attrs_ok (k (f b)) b -> attrs_ok (let! x := sget f in k x) b.
Proof. intros Hf Hk hs s H. apply wp_bind. eapply wp_read; [exact H|exact Hf|]. by apply Hk. Qed.

Lemma wp_remove_name ld c after hs b s :
  holds hs b s -> locks b = [] -> ld <> NULL -> (forall f p, must_hold f (c p) = [p]) ->
  let p := k_inode K (lower b) (k_parent K (lower b) ld) in
  let l' := (k_call K (c p) (lower b)).2 in
  attrs_ok (after p) (set_lower l' (set_locks [p] b)) ->
  wp (remove_name K ld c after) (fun r s' => exists b', holds hs b' s' /\ attrs_only (set_lower l' b) b') s.
Proof.
  intros H Hl Hld Hm p l' Ha. destruct (law_parent K laws (lower b) ld Hld) as [Hpar Hp]. fold p in Hp.
  apply wp_bind. eapply wp_lower_d_parent; [exact H|done|]. apply wp_bind. eapply wp_get_ref; [exact H|]. intros s1 H1.
  apply wp_bind. eapply wp_lower_d_inode; [exact H1|done|]. fold p.
  apply wp_bind. eapply wp_mutex_lock; [exact H1|done|by rewrite Hl; apply not_elem_of_nil|]. intros s2 H2.
  rewrite Hl in H2. apply wp_bind. eapply wp_call; [exact H2|rewrite Hm; set_solver|]. intros s3 H3.
  change (lower (set_locks [p] b)) with (lower b) in *. fold l' in H3.
  apply wp_bind. eapply (wp_mono _ (fun _ s' => exists m,
    holds (ODentry (k_parent K (lower b) ld) :: hs) (set_i_attr m (set_lower l' (set_locks [p] b))) s')).
  { case_decide.
    - apply wp_ret. exists (i_attr b). by destruct b.
    - eapply wp_mono; [by eapply Ha|]. intros [] s' (b' & H' & [m ->]). eauto. }
  intros [] s4 [m H4]. apply wp_bind.
  eapply (wp_mutex_unlock _ []); [exact H4|done|apply not_elem_of_nil|]. intros s5 H5.
  apply wp_bind. eapply wp_put_ref; [exact H5|]. intros s6 H6. apply wp_ret.
  eexists. split; [exact H6|]. exists m. by rewrite <-Hl.
Qed.

(** An inode of DazukoFS over an inode. *)
Definition is_positive (b : fstate L) (u i : ptr) : Prop := d_inode b !! u = Some i /\ is_Some (inode_info b !! i).

Lemma good_attrs l b b' s : holds [] b' s -> attrs_only (set_lower l b) b' -> locks b = [] -> wf b -> good s.
Proof. intros H [m ->] Hl W. eapply (good_same b); [exact H|by repeat split|done|done]. Qed.

Section ops.
Context (b s : fstate L) (H : holds [] b s) (Hl : locks b = []) (W : wf b).
Context (u ld m : ptr) (Hu : d_fsdata b !! u = Some (ld, m)).

Lemma attrs_copy_nlink i b' : is_Some (inode_info b !! i) -> inode_info b' = inode_info b -> attrs_ok (copy_nlink K i) b'.
Proof.
  intros [li Hi] E. destruct (wf_inode b W i li Hi). apply attrs_read; [done|]. rewrite E, Hi. by apply attrs_copy.
Qed.

Lemma wp_unlink dir i : dir <> NULL -> is_positive b u i -> wp (dazukofs_unlink K dir u) (fun _ s' => good s') s.
Proof.
  intros Hd [Hi Hinfo]. eapply wp_with_lower; [exact H|exact Hu|].
  assert (Hld : ld <> NULL) by (by eapply wf_dentry).
  assert (Hin : i <> NULL) by (destruct Hinfo as [li E]; by apply (wf_inode b W i li)).
  eapply wp_mono; [eapply (wp_remove_name ld); [exact H|done|done|done|]|].
  - apply attrs_seq; [apply attrs_copy; [done|by apply (law_parent K laws)]|]. intros b1 [m1 ->].
    apply attrs_read; [done|]. simpl. rewrite Hi. simpl.
    apply attrs_seq; [by apply attrs_copy_nlink|]. intros b2 [m2 ->].
    apply attrs_read; [done|]. by apply attrs_upd.
  - intros r s' (b' & H' & A). by eapply good_attrs.
Qed.

Lemma wp_rmdir dir i : dir <> NULL -> is_positive b u i -> wp (dazukofs_rmdir K dir u) (fun _ s' => good s') s.
Proof.
  intros Hd [Hi Hinfo]. eapply wp_with_lower; [exact H|exact Hu|].
  assert (Hld : ld <> NULL) by (by eapply wf_dentry). apply wp_bind.
  eapply wp_mono; [eapply (wp_remove_name ld); [exact H|done|done|done|]|].
  - apply attrs_seq; [apply attrs_copy; [done|by apply (law_parent K laws)]|]. intros b1 [m1 ->].
    apply attrs_seq; [apply attrs_copy; [done|by apply (law_parent K laws)]|]. intros b2 [m2 ->].
    apply attrs_read; [done|]. simpl. rewrite Hi. simpl. by apply attrs_copy_nlink.
  - intros r s' (b' & H' & A). apply wp_bind. case_decide.
    + eapply wp_d_drop; [exact H'|]. intros s2 H2. apply wp_ret. destruct A as [m' ->].
      eapply (good_same b); [exact H2|by repeat split|done|done].
    + apply wp_ret, wp_ret. by eapply good_attrs.
Qed.

(** ** Renaming *)

Lemma wp_rename_call a c na nc hs l ls b0 s0 (k : Z -> FM L Z) Q :
  holds hs b0 s0 -> locks b0 = [] -> a <> NULL -> c <> NULL -> lower b0 = l ->
  ls = set_lower (k_call K (Rename a na c nc) l).2 b0 ->
  (forall s', holds hs ls s' -> wp (k (k_call K (Rename a na c nc) l).1) Q s') ->
  wp (do! lock_rename a c in
      let! err := call K (Rename a na c nc) in
      do! unlock_rename a c in k err) Q s0.
Proof.
  intros H0 Hl0 Ha Hc <- -> HQ. apply wp_bind, wp_bind.
  eapply wp_mutex_lock; [exact H0|done|by rewrite Hl0; apply not_elem_of_nil|]. intros s1 H1. rewrite Hl0 in H1.
  assert (E : forall l', set_locks [] (set_lower l' b0) = set_lower l' b0) by (intros l'; rewrite <-Hl0; by destruct b0).
  case_decide as Hac.
  - subst. apply wp_ret, wp_bind. eapply wp_call; [exact H1|set_solver|]. intros s2 H2.
    apply wp_bind, wp_bind. eapply (wp_mutex_unlock _ []); [exact H2|done|apply not_elem_of_nil|].
    intros s3 H3. rewrite decide_True by done. apply wp_ret, HQ. rewrite <-E. exact H3.
  - eapply wp_mutex_lock; [exact H1|done|simpl; set_solver|]. intros s2 H2.
    apply wp_bind. eapply wp_call; [exact H2|simpl; set_solver|]. intros s3 H3.
    apply wp_bind, wp_bind. eapply wp_mutex_unlock_in; [exact H3|simpl; set_solver|].
    intros s4 H4. rewrite decide_False by done. simpl in H4.
    rewrite !filter_cons, decide_True, decide_False in H4 by congruence.
    eapply (wp_mutex_unlock _ []); [exact H4|done|apply not_elem_of_nil|]. intros s5 H5. apply HQ. rewrite <-E. exact H5.
Qed.

Lemma wp_rename old_dir new_dir u2 ld2 m2 : d_fsdata b !! u2 = Some (ld2, m2) -> old_dir <> NULL -> new_dir <> NULL ->
  wp (dazukofs_rename K old_dir u new_dir u2) (fun _ s' => good s') s.
Proof.
  intros Hu2 Hod Hnd. eapply wp_with_lower; [exact H|exact Hu|]. eapply wp_with_lower; [exact H|exact Hu2|].
  pose proof (wf_dentry b W u ld m Hu) as Hld1. pose proof (wf_dentry b W u2 ld2 m2 Hu2) as Hld2.
  destruct (law_parent K laws (lower b) ld Hld1) as [Hq1 Hp1].
  destruct (law_parent K laws (lower b) ld2 Hld2) as [Hq2 Hp2].
  apply wp_bind. eapply wp_lower_d_parent; [exact H|done|]. apply wp_bind. eapply wp_get_ref; [exact H|]. intros s1 H1.
  apply wp_bind. eapply wp_lower_d_parent; [exact H1|done|]. apply wp_bind. eapply wp_get_ref; [exact H1|]. intros s2 H2.
  apply wp_bind. eapply wp_lower_d_inode; [exact H2|done|]. apply wp_bind. eapply wp_lower_d_inode; [exact H2|done|].
  rewrite !decide_False by done. apply wp_bind.
  eapply (wp_mono _ (fun _ s' => exists l' b', attrs_only (set_lower l' b) b' /\
    holds [ODentry (k_parent K (lower b) ld2); ODentry (k_parent K (lower b) ld)] b' s')).
  - eapply wp_rename_call; [exact H2|done|done|done|done|done|]. intros s3 H3.
    case_decide as Hz; [apply wp_ret; eexists _, _; split; [|exact H3]; apply attrs_only_refl|].
    apply wp_bind. eapply wp_mono; [by eapply attrs_copy|]. intros [] s4 (b4 & H4 & [m4 ->]).
    apply wp_bind. case_decide as Hz2.
    + eapply wp_mono; [by eapply attrs_copy|]. intros [] s5 (b5 & H5 & [m5 ->]). apply wp_ret.
      eexists _, _. split; [|exact H5]. by exists m5.
    + apply wp_ret, wp_ret. eexists _, _. split; [|exact H4]. by exists m4.
  - intros r s3 (l' & b' & A & H3). apply wp_bind. eapply wp_put_ref.
    { eapply fs_holds_perm; [|exact H3]. apply perm_swap. }
    intros s4 H4. apply wp_bind. eapply wp_put_ref; [exact H4|]. intros s5 H5. apply wp_ret. by eapply good_attrs.
Qed.

(** ** Links and attributes *)

Lemma good_lower l s' : holds [] (set_lower l b) s' -> good s'.
Proof. intros H'. eapply (good_same b); [exact H'|by repeat split|done|done]. Qed.
Lemma good_dropped x s' : holds [] (set_vfs (set_hashed x (vfs b)) b) s' -> good s'.
Proof. intros H'. eapply (good_same b); [exact H'|by repeat split|done|done]. Qed.

(** What a [readlink] returns and has written, [hs] being held meanwhile. *)
Definition link_read (bufsiz : Z) (out : Z * list Z) (b' : fstate L) : Prop :=
  let l' := (k_call K (Readlink ld bufsiz) (lower b)).2 in
  (out.1 < 0)%Z /\ (exists x, attrs_only (set_vfs (set_hashed x (vfs b)) b) b') \/
  out = ((k_call K (Readlink ld bufsiz) (lower b)).1, k_link K l' ld) /\ attrs_only (set_lower l' b) b'.

Lemma wp_readlink hs s0 bufsiz i : holds hs b s0 -> is_positive b u i ->
  wp (dazukofs_readlink K u bufsiz) (fun out s' => exists b', holds hs b' s' /\ link_read bufsiz out b') s0.
Proof.
  intros H0 [Hi [li Hli]]. destruct (wf_inode b W i li Hli) as [Hin _].
  pose proof (wf_dentry b W u ld m Hu) as Hld. apply wp_bind. eapply wp_get_lower_dentry; [exact H0|exact Hu|].
  assert (Hsame : attrs_only (set_vfs (set_hashed (hashed (vfs b)) (vfs b)) b) b)
    by (exists (i_attr b); by destruct b as [? ? ? ? ? []]).
  apply wp_bind. eapply wp_lower_d_inode; [exact H0|done|]. case_decide as Hz.
  { apply wp_bind. eapply wp_d_drop; [exact H0|]. intros s1 H1. apply wp_ret. eexists. split; [exact H1|].
    left. split; [simpl; unfold ENOENT; lia|]. eexists. apply attrs_only_refl. }
  apply wp_bind. eapply wp_read; [exact H0|done|].
  destruct (k_has _ _ _ _); simpl;
    [|apply wp_ret; exists b; split; [exact H0|left; split; [simpl; unfold EINVAL; lia|by eexists]]].
  apply wp_bind. eapply wp_call; [exact H0|simpl; set_solver|]. intros s1 H1.
  apply wp_bind. eapply wp_read; [exact H1|done|]. simpl.
  case_decide as Hz2; [apply wp_ret; eexists; split; [exact H1|right; split; [done|apply attrs_only_refl]]|].
  apply wp_bind. eapply wp_read; [exact H1|done|]. simpl. rewrite Hi. simpl.
  apply wp_bind. eapply wp_mono; [by eapply attrs_copy|]. intros [] s2 (b2 & H2 & A). apply wp_ret.
  exists b2. split; [exact H2|by right].
Qed.

Lemma link_read_good bufsiz out b' s' : holds [] b' s' -> link_read bufsiz out b' -> good s'.
Proof.
  intros H' [[_ [x [m' ->]]]|[_ A]]; [|by eapply good_attrs].
  eapply (good_same b); [exact H'|by repeat split|done|done].
Qed.

Lemma wp_permission i mask : is_Some (inode_info b !! i) -> wp (dazukofs_permission K i mask) (fun _ s' => good s') s.
Proof.
  clear u ld m Hu. intros _. apply wp_bind. eapply wp_read; [exact H|done|].
  eapply wp_call; [exact H|simpl; set_solver|]. intros s1 H1. by eapply good_lower.
Qed.

(** What [getattr] returns. *)
Definition getattr_result (i : ptr) : Z * attr :=
  let l' := (k_call K (Getattr m ld) (lower b)).2 in
  if k_has K (lower b) (default NULL (inode_info b !! i)) Op_getattr
  then ((k_call K (Getattr m ld) (lower b)).1, k_stat K l' m ld) else (0%Z, attr_of b i).

Lemma wp_getattr i : is_positive b u i -> wp (dazukofs_getattr K u) (fun out s' => good s' /\ out = getattr_result i) s.
Proof.
  intros [Hi [li Hli]]. apply wp_bind. eapply wp_read; [exact H|done|].
  apply wp_bind. eapply wp_read; [exact H|done|]. apply wp_bind. eapply wp_read; [exact H|done|].
  destruct (k_has K (lower b) _ _) eqn:Eh; simpl;
    [|apply wp_bind; eapply wp_read; [exact H|done|]; apply wp_ret; split; [by eapply (good_same b)|]].
  2:{ unfold getattr_result. rewrite Hi. simpl. rewrite Hli. simpl. rewrite Hi in Eh. simpl in Eh. rewrite Hli in Eh. simpl in Eh. by rewrite Eh. }
  apply wp_bind. eapply wp_get_lower_mnt; [exact H|exact Hu|]. apply wp_bind. eapply wp_get_ref; [exact H|].
  intros s1 H1. apply wp_bind. eapply wp_get_lower_dentry; [exact H1|exact Hu|].
  apply wp_bind. eapply wp_call; [exact H1|simpl; set_solver|]. intros s2 H2.
  apply wp_bind. eapply wp_read; [exact H2|done|].
  apply wp_bind. eapply wp_put_ref; [exact H2|]. intros s3 H3. apply wp_ret. split; [by eapply good_lower|].
  unfold getattr_result. rewrite Hi in *. simpl in *. rewrite Hli in *. simpl in *. by rewrite Eh.
Qed.

(** The inode of the dentry lies over the inode of its lower dentry. *)
Definition coherent (i : ptr) : Prop :=
  d_inode b !! u = Some i /\ inode_info b !! i = Some (k_inode K (lower b) ld).

(** Afterwards the inode shows all attributes of the lower one. *)
Lemma wp_setattr valid i : coherent i ->
  wp (dazukofs_setattr K u valid) (fun _ s' => good s' /\
    attr_of s' i = k_attr K (lower s') (k_inode K (lower b) ld)) s.
Proof.
  intros [Hi Hli]. destruct (wf_inode b W i _ Hli) as [Hin Hlin].
  eapply wp_with_lower; [exact H|exact Hu|]. apply wp_bind. eapply wp_read; [exact H|done|].
  apply wp_bind. eapply wp_read; [exact H|done|]. rewrite Hi. simpl. rewrite Hli. simpl.
  apply wp_bind. eapply wp_mutex_lock; [exact H|done|by rewrite Hl; apply not_elem_of_nil|]. intros s1 H1. rewrite Hl in H1.
  apply wp_bind. eapply wp_call; [exact H1|simpl; set_solver|]. intros s2 H2.
  apply wp_bind. eapply (wp_mutex_unlock _ []); [exact H2|done|apply not_elem_of_nil|]. intros s3 H3.
  apply wp_bind. eapply wp_copy; [exact H3|done|done|]. intros s4 H4.
  apply wp_bind. eapply wp_copy; [exact H4|done|done|]. intros s5 H5. apply wp_ret. split.
  - eapply (good_same b); [exact H5|split; [by rewrite Hl|by repeat split]|done|done].
  - change (attr_of (base s5) i = k_attr K (lower (base s5)) (k_inode K (lower b) ld)).
    rewrite (holds_base _ _ _ H5), !attr_set_eq. apply (law_copy K laws).
Qed.

Lemma wp_xattr op c locked after : (forall l, must_hold (k_inode K l) (c ld) ⊆ if locked : bool then [k_inode K l ld] else []) ->
  (forall b', same_links b b' -> k_inode K (lower b) ld <> NULL -> attrs_ok (after (k_inode K (lower b) ld)) b') ->
  wp (xattr_op K u op c locked after) (fun _ s' => good s') s.
Proof.
  intros Hm Ha. pose proof (wf_dentry b W u ld m Hu) as Hld. eapply wp_with_lower; [exact H|exact Hu|].
  apply wp_bind. eapply wp_lower_d_inode; [exact H|done|]. case_decide as Hz.
  { apply wp_bind. eapply wp_d_drop; [exact H|]. intros s1 H1. apply wp_ret. by eapply good_dropped. }
  apply wp_bind. eapply wp_read; [exact H|done|].
  destruct (k_has _ _ _ _); simpl; [|apply wp_ret; by eapply (good_same b)].
  set (i := k_inode K (lower b) ld) in *. apply wp_bind.
  eapply (wp_mono _ (fun _ s' => holds [] (set_locks (if locked then [i] else []) b) s')).
  { destruct locked; [|apply wp_ret; by rewrite <-Hl; destruct b].
    eapply wp_mutex_lock; [exact H|done|by rewrite Hl; apply not_elem_of_nil|]. intros s1 H1. by rewrite Hl in H1. }
  intros [] s1 H1. apply wp_bind. eapply wp_call; [exact H1|simpl; etrans; [apply Hm|by destruct locked]|].
  intros s2 H2. apply wp_bind.
  eapply (wp_mono _ (fun _ s' => holds [] (set_lower (k_call K (c ld) (lower b)).2 (set_locks [] b)) s')).
  { destruct locked; [|by apply wp_ret].
    eapply (wp_mutex_unlock _ []); [exact H2|done|apply not_elem_of_nil|]. done. }
  intros [] s3 H3. apply wp_bind. eapply wp_mono; [eapply Ha; [|done|exact H3]|].
  { split; [by rewrite Hl|by repeat split]. }
  intros [] s4 (b4 & H4 & [m4 ->]). apply wp_ret.
  eapply (good_same b); [exact H4|split; [by rewrite Hl|by repeat split]|done|done].
Qed.

Lemma wp_setxattr name value size flags i : is_positive b u i -> wp (dazukofs_setxattr K u name value size flags) (fun _ s' => good s') s.
Proof.
  intros [Hi [li Hli]]. destruct (wf_inode b W i li Hli) as [Hin _]. apply wp_xattr; [done|].
  intros b' (_ & _ & E & _) Hn. apply attrs_read; [done|]. rewrite E, Hi. simpl.
  apply attrs_seq; [by apply attrs_copy|]. intros b2 _. by apply attrs_copy.
Qed.
Lemma wp_removexattr name : wp (dazukofs_removexattr K u name) (fun _ s' => good s') s.
Proof. apply wp_xattr; [done|]. intros b' _ _. apply attrs_ret. Qed.
Lemma wp_getxattr name value size : wp (dazukofs_getxattr K u name value size) (fun _ s' => good s') s.
Proof. apply wp_xattr; [done|]. intros b' _ _. apply attrs_ret. Qed.
Lemma wp_listxattr buf size : wp (dazukofs_listxattr K u buf size) (fun _ s' => good s') s.
Proof. apply wp_xattr; [done|]. intros b' _ _. apply attrs_ret. Qed.
End ops.

(** ** Following a link *)

(** The nameidata takes over the buffer. *)
Lemma wp_nd_set_link nd buf text hs b Q s : holds (OBuf buf :: hs) b s -> nd_link (vfs b) !! nd = None ->
  (forall s', holds hs (set_vfs (set_nd_link (<[nd := (buf, text)]> (nd_link (vfs b))) (vfs b)) b) s' -> Q tt s') ->
  wp (upd_vfs (fun v => set_nd_link (<[nd := (buf, text)]> (nd_link v)) v)) Q s.
Proof.
  intros H Hn HQ. apply wp_modify, HQ. assert (E : vfs s = vfs b) by (by rewrite <-(holds_base _ _ _ H)). rewrite E.
  apply (holds_update (fun s => set_vfs (set_nd_link (<[nd := (buf, text)]> (nd_link (vfs b))) (vfs b)) s) (OBuf buf :: hs));
    [done|done|done|].
  intros o _. unfold owned. simpl. rewrite mcount_insert_fresh, times_in_cons by done. cbn [fst]. lia.
Qed.

(** The terminator fits as long as the lower [readlink] fills less than a page.
    The text the VFS then follows is the one the lower [readlink] wrote. *)
Lemma wp_follow_link u ld m i nd buf b s : holds [] b s -> locks b = [] -> wf b -> d_fsdata b !! u = Some (ld, m) ->
  is_positive b u i -> nd_link (vfs b) !! nd = None ->
  let out := k_call K (Readlink ld PAGE_SIZE) (lower b) in
  (out.1 < PAGE_SIZE)%Z ->
  wp (dazukofs_follow_link K u nd buf) (fun r s' => good s' /\
    (r = 0%Z -> nd_link (vfs s') = <[nd := (buf, take (Z.to_nat out.1) (k_link K out.2 ld))]> (nd_link (vfs b))) /\
    (r <> 0%Z -> (r < 0)%Z /\ nd_link (vfs s') = nd_link (vfs b))) s.
Proof.
  intros H Hl W Hu Hi Hnd out Hr. unfold dazukofs_follow_link. case_decide as Hb.
  { apply wp_ret. split; [by eapply (good_same b)|]. split; [by unfold ENOMEM|]. split; [by unfold ENOMEM|]. by rewrite <-(holds_base _ _ _ H). }
  apply wp_bind. eapply wp_get_ref; [exact H|]. intros s1 H1.
  apply wp_bind. eapply wp_mono; [by eapply wp_readlink|]. intros [rc text] s2 (b2 & H2 & R). simpl.
  case_decide as Hneg.
  { apply wp_bind. eapply wp_put_ref; [exact H2|]. intros s3 H3. apply wp_ret. split; [by eapply link_read_good|]. split; [lia|]. split; [done|].
    change (vfs s3) with (vfs (base s3)). rewrite (holds_base _ _ _ H3). by destruct R as [[_ [x [m' ->]]]|[_ [m' ->]]]. }
  destruct R as [[? _]|[[= -> ->] [m2 ->]]]; [simpl in *; lia|]. fold out.
  rewrite decide_False by (fold out; lia). apply wp_bind. eapply wp_nd_set_link; [exact H2|exact Hnd|].
  intros s3 H3. apply wp_ret. split; [eapply (good_same b); [exact H3|by repeat split|done|done]|].
  split; [|done]. intros _. change (vfs s3) with (vfs (base s3)). by rewrite (holds_base _ _ _ H3).
Qed.
End inode.
