(* ===== verification/FsFileSpec.v ===== *)
(** * Lookups, files, dentries and mounts keep their references

    The operations of [file.c], [dentry.c] and [super.c] in which references
    change hands, and [dazukofs_lookup]. *)

From S2P Require Import Prelude EventState FsState FsInode FsSpec FsInodeSpec FsFile.
From stdpp Require Import list gmap.

Section file.
Context {L : Type} (K : fs_kernel L) (laws : kernel_laws K).
Implicit Types (s b : fstate L) (hs : list obj).

(** ** References put before their owner is gone *)

(** References of the owners [b] has were dropped already. *)
Definition owes (ds : list obj) b s : Prop :=
  base s = b /\ forall o, o.2 <> NULL -> (refs_at s o + Z.of_nat (times_in o ds) = Z.of_nat (owned b o))%Z.

Lemma holds_owes b s : holds [] b s -> owes [] b s.
Proof. intros [Hb Hr]. split; [done|]. intros o Ho. rewrite (Hr o Ho). unfold times_in. simpl. lia. Qed.
Lemma owes_holds b s : owes [] b s -> holds [] b s.
Proof. intros [Hb Hr]. split; [done|]. intros o Ho. specialize (Hr o Ho). unfold times_in in *. simpl in *. lia. Qed.

Lemma wp_put_owned o ds b Q s : owes ds b s -> (forall s', owes (o :: ds) b s' -> Q tt s') -> wp (put_ref o) Q s.
Proof.
  intros [Hb Hr] HQ. unfold put_ref. case_decide as Ho.
  - apply wp_ret, HQ. split; [done|]. intros o' Ho'. rewrite times_in_cons. specialize (Hr o' Ho').
    unfold one_if. rewrite decide_False; [lia|]. congruence.
  - apply wp_modify, HQ. split; [by rewrite <-Hb|]. intros o' Ho'. specialize (Hr o' Ho').
    rewrite refs_at_insert, times_in_cons. unfold one_if. case_decide as E.
    + subst. rewrite decide_True by done. lia.
    + rewrite decide_False by congruence. lia.
Qed.

Lemma owes_update (f : fstate L -> fstate L) ds ds' b s : owes ds b s ->
  (forall s, base (f s) = f (base s)) -> (forall s, refs (f s) = refs s) ->
  (forall o, o.2 <> NULL -> owned b o + times_in o ds' = owned (f b) o + times_in o ds) ->
  owes ds' (f b) (f s).
Proof.
  intros [Hb Hr] Hf Hrf Ho. split; [by rewrite Hf, Hb|]. intros o Hno. unfold refs_at. rewrite Hrf.
  specialize (Hr o Hno). specialize (Ho o Hno). unfold refs_at in Hr. lia.
Qed.

Lemma owes_read {A} (f : fstate L -> A) ds b Q s : owes ds b s -> (forall s, f (base s) = f s) ->
  Q (f b) s -> wp (sget f) Q s.
Proof. intros [<- _] Hf HQ. apply wp_get. by rewrite <-Hf. Qed.

Lemma owes_copy f i li ds b Q s : owes ds b s -> i <> NULL -> li <> NULL ->
  (forall s', owes ds (set_attr i (f (attr_of b i) (k_attr K (lower b) li)) b) s' -> Q tt s') ->
  wp (copy K f i li) Q s.
Proof.
  intros H Hi Hli HQ. apply wp_bind. eapply owes_read; [exact H|done|]. rewrite decide_False by done.
  unfold wp, upd_attr. rewrite decide_False by done. apply HQ.
  assert (E : attr_of s i = attr_of b i) by (by rewrite <-(proj1 H)). rewrite E.
  by apply (owes_update (fun s => set_i_attr (<[i := f (attr_of b i) (k_attr K (lower b) li)]> (i_attr s)) s) ds).
Qed.

Lemma owes_drop_file f lf b s : owes [OFile lf] b s -> files b !! f = Some lf ->
  owes [] (set_files (delete f (files b)) b) (set_files (delete f (files s)) s).
Proof.
  intros H Hf. assert (E : files s = files b) by (by rewrite <-(proj1 H)). rewrite E.
  apply (owes_update (fun s => set_files (delete f (files b)) s) [OFile lf]); [done|done|done|].
  intros o _. unfold owned. simpl. rewrite (mcount_delete _ (files b) f lf), times_in_cons by done. lia.
Qed.
Lemma owes_drop_info u d m ds b s : owes (OMnt m :: ODentry d :: ds) b s -> d_fsdata b !! u = Some (d, m) ->
  owes ds (set_fsdata (delete u (d_fsdata b)) b) (set_fsdata (delete u (d_fsdata s)) s).
Proof.
  intros H Hu. assert (E : d_fsdata s = d_fsdata b) by (by rewrite <-(proj1 H)). rewrite E.
  apply (owes_update (fun s => set_fsdata (delete u (d_fsdata b)) s) (OMnt m :: ODentry d :: ds)); [done|done|done|].
  intros o _. unfold owned. simpl. rewrite (mcount_delete _ (d_fsdata b) u (d, m)), !times_in_cons by done.
  cbn [fst snd]. lia.
Qed.
Lemma owes_drop_inode i li b s : owes [OInode li] b s -> inode_info b !! i = Some li ->
  owes [] (set_inode_info (delete i (inode_info b)) b) (set_inode_info (delete i (inode_info s)) s).
Proof.
  intros H Hi. assert (E : inode_info s = inode_info b) by (by rewrite <-(proj1 H)). rewrite E.
  apply (owes_update (fun s => set_inode_info (delete i (inode_info b)) s) [OInode li]); [done|done|done|].
  intros o _. unfold owned. simpl. rewrite (mcount_delete _ (inode_info b) i li), times_in_cons by done. lia.
Qed.

(** ** Well-formed states *)

Lemma wf_unlinked u b : wf K b -> wf K (set_fsdata (delete u (d_fsdata b)) b).
Proof.
  intros []. split; simpl; try done.
  - intros v d m [_ Hv]%lookup_delete_Some. eauto.
  - intros v [_ Hv]%lookup_delete_is_Some. eauto.
Qed.
Lemma wf_linked u ld m b : wf K b -> ld <> NULL -> u ∈ d_op (vfs b) -> wf K (set_fsdata (<[u := (ld, m)]> (d_fsdata b)) b).
Proof.
  intros [] Hld Hu. split; simpl; try done.
  - intros v d m' [[_ [= <- _]]|[_ Hv]]%lookup_insert_Some; eauto.
  - intros v [<-|Hv]%lookup_insert_is_Some'; eauto.
Qed.
Lemma wf_negative u b : wf K b -> wf K (set_d_inode (delete u (d_inode b)) b).
Proof. intros []. split; simpl; try done. intros v i [_ Hv]%lookup_delete_Some. eauto. Qed.
Lemma wf_destroyed i b : wf K b -> (forall u, d_inode b !! u <> Some i) -> wf K (set_inode_info (delete i (inode_info b)) b).
Proof.
  intros [] Hno. split; simpl; try done.
  - intros j lj [_ Hj]%lookup_delete_Some. eauto.
  - intros u j Hu. rewrite lookup_delete_ne; [eauto|]. intros ->. by eapply Hno.
  - intros j k lj [_ Hj]%lookup_delete_Some [_ Hk]%lookup_delete_Some. eauto.
  - intros Hst j lj l [_ Hj]%lookup_delete_Some. eauto.
  - intros j lj [_ Hj]%lookup_delete_Some. eauto.
Qed.
Lemma wf_with_vfs v b : wf K b -> i_ino v = i_ino (vfs b) -> d_op (vfs b) ⊆ d_op v -> wf K (set_vfs v b).
Proof. intros W E1 E2. eapply wf_same; [|exact W]. repeat split; try done. intros u _ Hu. by apply E2. Qed.

(** ** Files *)

(** A fresh file, or one whose private data holds no lower file yet. *)
Definition no_file (b : fstate L) (f : ptr) : Prop := default NULL (files b !! f) = NULL.

Lemma owned_set_file b f lf o : no_file b f -> o.2 <> NULL ->
  owned (set_files (<[f := lf]> (files b)) b) o = owned b o + one_if (OFile lf = o).
Proof.
  unfold no_file, owned. intros Hf Ho. simpl. destruct (files b !! f) as [x|] eqn:E; simpl in Hf.
  - subst x. pose proof (mcount_insert (fun f => one_if (OFile f = o)) (files b) f NULL lf E) as Hm. simpl in Hm.
    pose proof (one_if_null o 3 Ho) as Hz. unfold OFile in *. lia.
  - rewrite mcount_insert_fresh by done. lia.
Qed.

Lemma holds_set_file f lf hs b s : holds (OFile lf :: hs) b s -> no_file b f ->
  holds hs (set_files (<[f := lf]> (files b)) b) (set_files (<[f := lf]> (files s)) s).
Proof.
  intros H Hf. assert (E : files s = files b) by (by rewrite <-(holds_base _ _ _ H)). rewrite E.
  apply (holds_update (fun s => set_files (<[f := lf]> (files b)) s) (OFile lf :: hs)); [done|done|done|].
  intros o Ho. rewrite owned_set_file, times_in_cons by done. lia.
Qed.
Lemma holds_null_file f hs b s : holds hs b s -> no_file b f ->
  holds hs (set_files (<[f := NULL]> (files b)) b) (set_files (<[f := NULL]> (files s)) s).
Proof.
  intros H Hf. assert (E : files s = files b) by (by rewrite <-(holds_base _ _ _ H)). rewrite E.
  apply (holds_update (fun s => set_files (<[f := NULL]> (files b)) s) hs); [done|done|done|].
  intros o Ho. rewrite owned_set_file by done. pose proof (one_if_null o 3 Ho) as Hz. unfold OFile in *. lia.
Qed.

Lemma wp_get_lower_file f lf hs b Q s : holds hs b s -> files b !! f = Some lf -> Q lf s -> wp (get_lower_file f) Q s.
Proof.
  intros H Hf HQ. unfold wp, get_lower_file. replace (files s) with (files b) by (by rewrite <-(holds_base _ _ _ H)).
  by rewrite Hf.
Qed.

Section ops.
Context (b s : fstate L) (H : holds [] b s) (Hl : locks b = []) (W : wf K b).

(** [dazukofs_open]: an open file owns its lower file. *)
Lemma wp_open_before u ld m hs s0 : holds hs b s0 -> d_fsdata b !! u = Some (ld, m) ->
  wp (open_before u) (fun r s' => r = (ld, m) /\ holds (OMnt m :: ODentry ld :: hs) b s') s0.
Proof.
  intros H0 Hu. apply wp_bind. eapply wp_get_lower_dentry; [exact H0|exact Hu|].
  apply wp_bind. eapply wp_get_ref; [exact H0|]. intros s1 H1.
  apply wp_bind. eapply wp_get_lower_mnt; [exact H1|exact Hu|].
  apply wp_bind. eapply wp_get_ref; [exact H1|]. intros s2 H2. by apply wp_ret.
Qed.

(** Giving both references back. *)
Lemma wp_put_both ld m (r : Z) hs b0 s0 : holds (OMnt m :: ODentry ld :: hs) b0 s0 ->
  wp (do! put_ref (ODentry ld) in do! put_ref (OMnt m) in sret r) (fun r' s' => r' = r /\ holds hs b0 s') s0.
Proof.
  intros H0. apply wp_bind. eapply wp_put_ref; [eapply fs_holds_perm; [apply perm_swap|exact H0]|].
  intros s1 H1. apply wp_bind. eapply wp_put_ref; [exact H1|]. intros s2 H2. by apply wp_ret.
Qed.

(** The references that an open leaves behind: those to the lower dentry and mount, if
    [dentry_open] was called and does not take them over, as since Linux 3.6. *)
Definition left_open (takes_over : bool) (check ld m : ptr) (s : fstate L) : list obj :=
  if takes_over || bool_decide (check <> 0%Z) || next_fails s then [] else [OMnt m; ODentry ld].

Lemma wp_open_after takes_over check ld m f flags hs s0 : holds (OMnt m :: ODentry ld :: hs) b s0 -> no_file b f ->
  wp (open_after K takes_over check ld m f flags) (fun r s' =>
    (exists b', holds (left_open takes_over check ld m s0 ++ hs) b' s' /\ same_links b b' /\ files b' = files s') /\
    (check <> 0%Z -> r = check /\ base s' = b) /\
    (r <> 0%Z -> files s' = files b \/ files s' = <[f := NULL]> (files b)) /\
    (r = 0%Z -> exists lf, files s' = <[f := lf]> (files b) /\ (0 <= lf)%Z /\
       lf = (k_call K (Dentry_open ld m flags) (lower b)).1)) s0.
Proof.
  clear s H Hl W laws. intros H2 Hf. unfold left_open.
  assert (Hback : forall (r : Z) hs s', r <> 0%Z -> holds (OMnt m :: ODentry ld :: hs) b s' ->
    (check <> 0%Z -> r = check) ->
    wp (do! put_ref (ODentry ld) in do! put_ref (OMnt m) in sret r) (fun r s' =>
      (exists b', holds hs b' s' /\ same_links b b' /\ files b' = files s') /\
      (check <> 0%Z -> r = check /\ base s' = b) /\
      (r <> 0%Z -> files s' = files b \/ files s' = <[f := NULL]> (files b)) /\
      (r = 0%Z -> exists lf, files s' = <[f := lf]> (files b) /\ (0 <= lf)%Z /\
         lf = (k_call K (Dentry_open ld m flags) (lower b)).1)) s').
  { intros r hs' s' Hr H' Hrc. eapply wp_mono; [by apply wp_put_both|]. intros r' s'' [-> H''].
    assert (E : files s'' = files b) by (by rewrite <-(holds_base _ _ _ H'')). split_and!; [|intros Hc; split; [by apply Hrc|apply H'']|by left|done].
    exists b. split; [exact H''|]. split; [by repeat split|done]. }
  unfold open_after. case_decide as Hc; [rewrite bool_decide_true, orb_true_r by done; by apply Hback|].
  assert (check = 0%Z) as -> by (destruct (decide (check = 0%Z)); tauto).
  rewrite bool_decide_false, orb_false_r by tauto.
  apply wp_bind. eapply wp_zalloc_next; [exact H2|]. intros s3 H3. destruct (next_fails s0) eqn:Eo; cbn [negb].
  { rewrite orb_true_r. apply Hback; [unfold ENOMEM; lia|done|done]. }
  rewrite orb_false_r. apply wp_bind, wp_modify. apply (holds_null_file f) in H3; [|done].
  apply wp_bind. eapply wp_call; [exact H3|simpl; set_solver|]. intros s4 H4. simpl in H4. simpl.
  set (lf := (k_call K (Dentry_open ld m flags) (lower b)).1) in *. set (l' := (k_call K _ _).2) in *.
  set (rest := (if takes_over then [] else [OMnt m; ODentry ld]) ++ hs).
  apply wp_bind. eapply (wp_mono _ (fun _ s' => holds rest (set_lower l' (set_files (<[f := NULL]> (files b)) b)) s')).
  { unfold rest. destruct takes_over; [|by apply wp_ret].
    apply wp_bind. eapply wp_put_ref; [eapply fs_holds_perm; [apply perm_swap|exact H4]|].
    intros s5 H5. by eapply wp_put_ref; [exact H5|]. }
  intros [] s6 H6.
  assert (E6 : files s6 = <[f := NULL]> (files b)) by (change (files (base s6) = <[f := NULL]> (files b)); by rewrite (holds_base _ _ _ H6)).
  case_decide as Hneg.
  { apply wp_ret. split_and!; [eexists; split; [exact H6|split; [by repeat split|by rewrite E6]]|done|by right|lia]. }
  apply wp_bind. eapply wp_get_ref; [exact H6|]. intros s7 H7. apply wp_bind, wp_modify.
  assert (E7 : files s7 = <[f := NULL]> (files b)) by (change (files (base s7) = <[f := NULL]> (files b)); by rewrite (holds_base _ _ _ H7)).
  apply (holds_set_file f lf) in H7; [|unfold no_file; simpl; by rewrite lookup_insert_eq].
  apply wp_ret. simpl. rewrite E7, insert_insert_eq in *. split_and!; [|done|done|].
  - eexists. split; [exact H7|]. split; [by repeat split|]. simpl. by rewrite insert_insert_eq.
  - intros _. exists lf. split_and!; [done|lia|done].
Qed.

Lemma open_before_oom u s1 lw s2 : open_before u s1 = Ret lw s2 -> fs_oom s2 = fs_oom s1.
Proof.
  unfold open_before, sbind, get_lower_dentry, get_lower_mnt, get_ref, smodify, sret.
  destruct (d_fsdata s1 !! u) as [[ld m]|] eqn:E; [|done].
  repeat (case_decide || (simpl; rewrite E) || simpl); by intros [= _ <-].
Qed.

(** The whole of it. *)
Lemma wp_open takes_over check u ld m f flags : d_fsdata b !! u = Some (ld, m) -> no_file b f ->
  wp (dazukofs_open K takes_over check u f flags) (fun r s' =>
    (exists b', holds (left_open takes_over check ld m s) b' s' /\ same_links b b') /\
    (check <> 0%Z -> r = check /\ base s' = b) /\
    (r = 0%Z -> exists lf, files s' !! f = Some lf /\ (0 <= lf)%Z /\
       lf = (k_call K (Dentry_open ld m flags) (lower b)).1)) s.
Proof.
  intros Hu Hf. apply wp_bind.
  eapply wp_mono; [apply wp_ran; by apply wp_open_before|]. intros [? ?] s1 [[[= -> ->] H1] E1].
  eapply wp_mono; [by apply wp_open_after|]. intros r s' ((b' & H' & Hsame & _) & Hd & _ & Hok).
  assert (Eo : left_open takes_over check ld m s1 = left_open takes_over check ld m s)
    by (unfold left_open, next_fails; by rewrite (open_before_oom _ _ _ _ E1)).
  cbn [fst snd] in H'. rewrite app_nil_r, Eo in H'. split_and!; [by exists b'|done|].
  intros Hr. destruct (Hok Hr) as (lf & E & ? & ?). exists lf. rewrite E, lookup_insert_eq. by split_and!.
Qed.

(** [dazukofs_release] *)
Lemma wp_close_file inode f lf : files b !! f = Some lf -> is_Some (inode_info b !! inode) ->
  wp (dazukofs_release K inode f) (fun r s' => r = 0%Z /\ good K s' /\ files s' !! f = None) s.
Proof.
  intros Hf [li Hi]. destruct (wf_inode K b W inode li Hi) as [Hin Hlin].
  apply wp_bind. eapply wp_read; [exact H|done|]. rewrite Hi. simpl.
  apply wp_bind. eapply wp_get_lower_file; [exact H|exact Hf|].
  apply wp_bind. eapply wp_put_owned; [by apply holds_owes|]. intros s1 H1.
  apply wp_bind. eapply owes_copy; [exact H1|done|done|]. intros s2 H2. apply wp_bind, wp_modify, wp_ret.
  apply (owes_drop_file f lf) in H2; [|done]. split; [done|]. split; [|apply lookup_delete_eq].
  eapply (good_same K b); [apply owes_holds, H2|by repeat split|done|done].
Qed.

(** ** Dentries and inodes *)

(** [dazukofs_d_release], of any dentry. *)
Lemma wp_d_release_owes u ds b' s' : owes ds b' s' ->
  wp (dazukofs_d_release u) (fun _ s'' => owes ds (set_fsdata (delete u (d_fsdata b')) b') s'') s'.
Proof.
  intros H0. apply wp_bind. eapply owes_read; [exact H0|done|]. destruct (d_fsdata b' !! u) as [[ld m]|] eqn:Hu.
  2:{ apply wp_ret. rewrite delete_id by done. by destruct b'. }
  apply wp_bind. unfold wp at 1, get_lower_dentry.
  replace (d_fsdata s') with (d_fsdata b') by (by rewrite <-(proj1 H0)). rewrite Hu.
  apply wp_bind. eapply wp_put_owned; [exact H0|]. intros s1 H1.
  apply wp_bind. unfold wp at 1, get_lower_mnt.
  replace (d_fsdata s1) with (d_fsdata b') by (by rewrite <-(proj1 H1)). rewrite Hu.
  apply wp_bind. eapply wp_put_owned; [exact H1|]. intros s2 H2. apply wp_modify. by eapply owes_drop_info.
Qed.

Lemma wp_d_release u : wp (dazukofs_d_release u) (fun _ s' => good K s' /\ d_fsdata s' !! u = None) s.
Proof.
  eapply wp_mono; [by apply wp_d_release_owes, holds_owes|]. intros [] s1 H1. split.
  2:{ change (d_fsdata (base s1) !! u = None). rewrite (proj1 H1). apply lookup_delete_eq. }
  apply owes_holds in H1. eexists. split_and!; [exact H1|done|]. by apply wf_unlinked.
Qed.

(** An inode goes when no dentry has it. *)
Lemma wp_evict i : is_Some (inode_info b !! i) -> (forall u, d_inode b !! u <> Some i) ->
  wp (evict_and_destroy i) (fun _ s' => good K s' /\ inode_info s' !! i = None) s.
Proof.
  intros [li Hi] Hno. apply wp_bind, wp_bind. eapply wp_read; [exact H|done|]. rewrite Hi. simpl.
  eapply wp_put_owned; [by apply holds_owes|]. intros s1 H1. apply wp_modify.
  apply (owes_drop_inode i li) in H1; [|done]. split; [|apply lookup_delete_eq].
  apply owes_holds in H1. eexists. split_and!; [exact H1|done|]. by apply wf_destroyed.
Qed.

Lemma wp_revalidate nd u ld m parent lp mp name : d_fsdata b !! u = Some (ld, m) -> d_fsdata b !! parent = Some (lp, mp) ->
  wp (dazukofs_d_revalidate K nd u parent name) (fun _ s' => good K s') s.
Proof.
  intros Hu Hp. eapply wp_with_lower; [exact H|exact Hu|]. apply wp_bind. eapply wp_read; [exact H|done|].
  destruct (k_has_revalidate K (lower b) ld); cbn [negb]; [|apply wp_ret; by eapply (good_same K b)].
  apply wp_bind. eapply (wp_mono _ (fun _ s' => exists l, holds [] (set_lower l b) s')).
  { destruct nd.
    - apply wp_bind. eapply wp_get_lower_mnt; [exact H|exact Hu|].
      apply wp_bind. eapply wp_get_ref; [exact H|]. intros s1 H1. apply wp_bind. eapply wp_get_ref; [exact H1|]. intros s2 H2.
      apply wp_bind. eapply wp_call; [exact H2|simpl; set_solver|]. intros s3 H3.
      apply wp_bind. eapply wp_put_ref; [eapply fs_holds_perm; [apply perm_swap|exact H3]|]. intros s4 H4.
      apply wp_bind. eapply wp_put_ref; [exact H4|]. intros s5 H5. apply wp_ret. by eexists.
    - apply wp_bind. eapply wp_get_lower_mnt; [exact H|exact Hp|]. apply wp_bind. eapply wp_get_lower_dentry; [exact H|exact Hp|].
      apply wp_bind. eapply wp_call; [exact H|simpl; set_solver|]. intros s1 H1. case_decide; [apply wp_ret; by eexists|].
      apply wp_bind. eapply wp_get_ref; [exact H1|]. intros s2 H2. apply wp_bind. eapply wp_get_ref; [exact H2|]. intros s3 H3.
      apply wp_bind. eapply wp_call; [exact H3|simpl; set_solver|]. intros s4 H4.
      apply wp_bind. eapply wp_put_ref; [eapply fs_holds_perm; [apply perm_swap|exact H4]|]. intros s5 H5.
      apply wp_bind. eapply wp_put_ref; [exact H5|]. intros s6 H6. apply wp_ret. by eexists. }
  intros valid s1 [l H1]. destruct valid as [valid|]; [|apply wp_ret; by eapply good_lower].
  apply wp_bind. eapply wp_read; [exact H1|done|]. simpl. destruct (d_inode b !! u) as [i|] eqn:Hi; simpl.
  2:{ apply wp_bind, wp_ret, wp_ret. by eapply good_lower. }
  destruct (wf_d_inode K b W u i Hi) as [li Hli]. destruct (wf_inode K b W i li Hli) as [Hin Hlin].
  rewrite decide_True by done. apply wp_bind, wp_bind. eapply wp_read; [exact H1|done|]. simpl. rewrite Hli. simpl.
  eapply wp_copy; [exact H1|done|done|]. intros s2 H2. apply wp_ret.
  eapply (good_same K b); [exact H2|by repeat split|done|done].
Qed.

(** ** [dazukofs_lookup] *)

(** What a successful lookup leaves: the dentry is hashed and lies over what the
    lower lookup found, its inode over the inode of that, if there is one.  Failed
    lookups leave the dentry unhashed. *)
Definition looked_up (u parent : ptr) (name : list Z) (s' : fstate L) : Prop :=
  exists lp mp, d_fsdata b !! parent = Some (lp, mp) /\
    let ld := (k_call K (Lookup_one name lp) (lower b)).1 in
    let li := k_inode K (lower s') ld in
    lower s' = (k_call K (Lookup_one name lp) (lower b)).2 /\
    d_fsdata s' !! u = Some (ld, mp) /\
    u ∈ hashed (vfs s') /\
    if decide (li = NULL) then d_inode s' !! u = None
    else exists i, d_inode s' !! u = Some i /\ inode_info s' !! i = Some li /\ attr_of s' i = k_attr K (lower s') li.

Definition lookup_post (u parent : ptr) (name : list Z) (r : Z) (s' : fstate L) : Prop :=
  (good K s' /\ (r = 0%Z -> is_dots name = false -> looked_up u parent name s') /\
    ((r < 0)%Z -> d_fsdata s' !! u = None) /\
    ((r < 0)%Z \/ is_dots name = true -> u ∉ hashed (vfs s'))) \/
  ((r < 0)%Z /\ u ∉ hashed (vfs s') /\
    exists ld m b', d_fsdata s' !! u = Some (ld, m) /\ owes [ODentry ld] b' s' /\ locks b' = [] /\ wf K b').

Lemma not_hashed u v : u ∉ hashed (set_hashed (hashed v ∖ {[ u ]}) v).
Proof. simpl. set_solver. Qed.
Lemma vfs_base hs b' s' : holds hs b' s' -> vfs s' = vfs b'.
Proof. intros H'. by rewrite <-(holds_base _ _ _ H'). Qed.

(** The lower file system has no such name: a negative dentry. *)
Lemma wp_lookup_negative u parent name lp mp b1 s1 : holds [] b1 s1 -> locks b1 = [] -> wf K b1 ->
  d_fsdata b !! parent = Some (lp, mp) -> is_dots name = false ->
  let ld := (k_call K (Lookup_one name lp) (lower b)).1 in
  lower b1 = (k_call K (Lookup_one name lp) (lower b)).2 -> d_fsdata b1 !! u = Some (ld, mp) -> k_inode K (lower b1) ld = NULL ->
  wp (do! d_add u NULL in sret 0%Z) (lookup_post u parent name) s1.
Proof.
  intros H1 Hl1 W1 Hp Hdots ld Hlo Hfs Hneg. apply wp_bind, wp_bind, wp_modify. rewrite decide_True by done.
  pose proof (holds_same (fun s => set_d_inode (delete u (d_inode b1)) s) [] b1 s1 H1
    ltac:(done) ltac:(done) ltac:(done)) as H2. cbn beta in H2.
  assert (E : d_inode s1 = d_inode b1) by (by rewrite <-(holds_base _ _ _ H1)). rewrite E.
  eapply wp_upd_vfs; [exact H2|done|]. intros s2 H3. apply wp_ret. left. split_and!; [| |lia|by rewrite Hdots; intros [?|?]].
  - eexists. split_and!; [exact H3|done|]. apply wf_with_vfs; [by apply wf_negative|done|done].
  - intros _ _. exists lp, mp. fold ld. cbn zeta.
    assert (E2 : lower s2 = lower b1 /\ d_fsdata s2 !! u = Some (ld, mp) /\ u ∈ hashed (vfs s2) /\ d_inode s2 !! u = None).
    { rewrite <-Hfs. change (lower s2) with (lower (base s2)). change (d_fsdata s2) with (d_fsdata (base s2)).
      change (vfs s2) with (vfs (base s2)). change (d_inode s2) with (d_inode (base s2)). rewrite (holds_base _ _ _ H3).
      simpl. rewrite lookup_delete_eq. set_solver. }
    destruct E2 as (-> & -> & ? & ?). by rewrite decide_True.
Qed.

(** The lookup with its error path: it puts the lower dentry, which the dentry
    has taken over, once more when interposing fails. *)
Lemma wp_lookup_interpose u parent sb lsb name lp mp m v b1 s1 : holds [] b1 s1 -> d_fsdata b !! parent = Some (lp, mp) ->
  let ld := (k_call K (Lookup_one name lp) (lower b)).1 in
  let l' := (k_call K (Lookup_one name lp) (lower b)).2 in
  ld <> NULL -> sb_info b !! sb = Some lsb -> is_dots name = false ->
  i_ino v = i_ino (vfs b) -> d_op v = {[ u ]} ∪ d_op (vfs b) ->
  b1 = set_fsdata (<[u := (ld, mp)]> (d_fsdata b)) (set_i_attr m (set_lower l' (set_vfs v b))) ->
  wp (let! i := lower_d_inode K ld in
      if decide (i = NULL) then
        do! d_add u NULL in sret 0%Z
      else
        let! err := dazukofs_interpose K ld u sb true in
        if decide (err <> 0%Z) then
          do! put_ref (ODentry ld) in
          do! d_drop u in sret err
        else sret 0%Z) (lookup_post u parent name) s1.
Proof.
  intros H1 Hp ld l' Hld Hsb Hdots Ev1 Ev2 Hb1.
  assert (Hfs : d_fsdata b1 !! u = Some (ld, mp)) by (rewrite Hb1; apply lookup_insert_eq).
  assert (Hl1 : locks b1 = []) by (by rewrite Hb1). assert (Hlo : lower b1 = l') by (by rewrite Hb1).
  assert (W1 : wf K b1).
  { rewrite Hb1. apply (wf_linked u ld mp (set_i_attr m (set_lower l' (set_vfs v b)))); [|done|simpl; rewrite Ev2; set_solver].
    eapply (wf_same K (set_vfs v b)); [by repeat split|]. apply wf_with_vfs; [done|done|rewrite Ev2; set_solver]. }
  apply wp_bind. eapply wp_lower_d_inode; [exact H1|done|]. rewrite Hlo. case_decide as Hneg.
  { eapply (wp_lookup_negative u parent name lp mp b1); try done. by rewrite Hlo. }
  apply wp_bind. eapply wp_mono; [apply (wp_interpose K laws ld u sb lsb true [] b1 s1 H1 Hld)|].
  { by rewrite Hlo. }
  { by rewrite Hb1. }
  rewrite Hlo. intros r s2 [[Hr H2]|(-> & i & b2 & H2 & P)].
  - rewrite decide_True by lia. apply wp_bind. eapply wp_put_owned; [by apply holds_owes|]. intros s3 H3.
    apply wp_bind, wp_modify, wp_ret. right. split; [done|]. split; [apply not_hashed|].
    set (v3 := set_hashed (hashed (vfs s3) ∖ {[ u ]}) (vfs s3)).
    assert (E : d_fsdata s3 = d_fsdata b1 /\ vfs s3 = vfs b1) by (by rewrite <-(proj1 H3)). destruct E as [E Ev].
    exists ld, mp, (set_vfs v3 b1). split_and!; [simpl; by rewrite E| |done|].
    + apply (owes_update (fun s => set_vfs v3 s) [ODentry ld]); [done|done|done|]. intros o _. unfold owned. simpl. by rewrite Ev.
    + apply wf_with_vfs; [done|unfold v3; simpl; by rewrite Ev|unfold v3; simpl; by rewrite Ev].
  - rewrite decide_False by tauto. apply wp_ret. left. pose proof (interposed_attached K _ _ _ _ _ _ P) as Hops. destruct P.
    assert (Hi : k_inode K (lower s2) ld = k_inode K l' ld).
    { change (k_inode K (lower (base s2)) ld = k_inode K l' ld). by rewrite (holds_base _ _ _ H2), ip_lower, Hlo. }
    split_and!; [| |lia|by rewrite Hdots; intros [?|?]].
    + exists b2. split_and!; [done|by rewrite ip_locks|]. by apply (wf_attach K b1 b2 u i (k_inode K l' ld)).
    + intros _ _. exists lp, mp. fold ld l'. cbn zeta. rewrite Hi, decide_False by done.
      assert (E : lower s2 = lower b2 /\ d_fsdata s2 = d_fsdata b2 /\ d_inode s2 = d_inode b2 /\
        inode_info s2 = inode_info b2 /\ attr_of s2 i = attr_of b2 i /\ vfs s2 = vfs b2).
      { rewrite <-(holds_base _ _ _ H2). by split_and!. }
      destruct E as (E1 & E2 & E3 & E4 & E5 & E6). destruct ip_vfs as [_ Vh _].
      split_and!; [done|by rewrite E1, ip_lower|by rewrite E2, ip_fsdata|rewrite E6, Vh; set_solver|].
      exists i. rewrite E3, E4, E5, E1, ip_d_inode, ip_info, !lookup_insert_eq, ip_lower.
      split_and!; try done; by rewrite Hlo.
Qed.

Lemma wp_lookup dir u parent sb lsb name lp mp : d_fsdata b !! parent = Some (lp, mp) -> d_fsdata b !! u = None ->
  k_inode K (lower b) lp <> NULL -> dir <> NULL -> sb_info b !! sb = Some lsb ->
  wp (dazukofs_lookup K dir u parent sb name) (lookup_post u parent name) s.
Proof.
  intros Hp Hu Hpi Hd Hsb. unfold dazukofs_lookup. destruct (is_dots name) eqn:Edots.
  { apply wp_bind. eapply wp_d_drop; [exact H|]. intros s1 H1. apply wp_ret. left.
    split; [by eapply good_dropped|]. rewrite Edots. split; [done|]. split; [lia|].
    intros _. rewrite (vfs_base _ _ _ H1). apply not_hashed. }
  pose proof (wf_dentry K b W parent lp mp Hp) as Hlp. destruct (law_lookup K laws (lower b) name lp) as [Hld Hsame].
  apply wp_bind. eapply wp_upd_vfs; [exact H|done|]. intros s0 H0. set (v := set_d_op _ _) in H0.
  assert (W0 : wf K (set_vfs v b)) by (apply wf_with_vfs; [done|done|unfold v; simpl; set_solver]).
  eapply wp_with_lower; [exact H0|exact Hp|]. apply wp_bind. eapply wp_lower_d_inode; [exact H0|done|].
  apply wp_bind. eapply wp_mutex_lock; [exact H0|done|simpl; rewrite Hl; apply not_elem_of_nil|]. intros s1 H1. simpl in H1. rewrite Hl in H1.
  apply wp_bind. eapply wp_call; [exact H1|simpl; set_solver|]. intros s2 H2. simpl in H2. cbn [lower set_locks set_vfs].
  set (ld := (k_call K (Lookup_one name lp) (lower b)).1) in *. set (l' := (k_call K (Lookup_one name lp) (lower b)).2) in *.
  apply wp_bind. eapply wp_lower_d_inode; [exact H2|done|]. simpl. rewrite Hsame.
  apply wp_bind. eapply (wp_mutex_unlock _ []); [exact H2|done|apply not_elem_of_nil|]. intros s3 H3.
  assert (Hb3 : set_locks [] (set_lower l' (set_locks [k_inode K (lower b) lp] (set_vfs v b))) = set_lower l' (set_vfs v b))
    by (rewrite <-Hl; by destruct b).
  rewrite Hb3 in H3.
  assert (Hfail : forall (r : Z) s', (r < 0)%Z -> holds [] (set_lower l' (set_vfs v b)) s' ->
    wp (do! d_drop u in sret r) (lookup_post u parent name) s').
  { intros r s' Hr H'. apply wp_bind. eapply wp_d_drop; [exact H'|]. intros s4 H4. apply wp_ret. left. split_and!; [|lia| |].
    - eapply (good_same K (set_vfs v b)); [exact H4|by repeat split|done|done].
    - intros _. change (d_fsdata (base s4) !! u = None). by rewrite (holds_base _ _ _ H4).
    - intros _. rewrite (vfs_base _ _ _ H4). apply not_hashed. }
  case_decide as Herr; [by apply Hfail|].
  apply wp_bind. eapply wp_get_ref; [exact H3|]. intros s4 H4. apply wp_bind. eapply wp_zalloc; [exact H4|].
  intros ok s5 H5. destruct ok; cbn [negb].
  2:{ apply wp_bind. eapply wp_put_ref; [exact H5|]. intros s6 H6. by apply Hfail. }
  apply wp_bind, wp_modify. apply (holds_new_info u) in H5; [|done].
  apply wp_bind. eapply wp_lower_d_inode; [exact H5|done|]. simpl. rewrite Hsame.
  apply wp_bind. eapply wp_copy; [exact H5|done|done|]. intros s6 H6.
  apply wp_bind. eapply wp_get_lower_mnt; [exact H6| |].
  { simpl. rewrite lookup_insert_ne; [exact Hp|congruence]. }
  apply wp_bind. eapply wp_get_ref; [exact H6|]. intros s7 H7.
  apply wp_bind. eapply wp_set_lower_dentry; [exact H7|simpl; by rewrite lookup_insert_eq|]. intros s8 H8.
  eapply (wp_lookup_interpose u parent sb lsb name lp mp _ v); [exact H8|exact Hp|done|done|done|done|done|].
  simpl. by rewrite insert_insert_eq.
Qed.

(** [dazukofs_put_link] *)
Lemma wp_put_link nd buf text : nd_link (vfs b) !! nd = Some (buf, text) ->
  wp (dazukofs_put_link nd) (fun _ s' => good K s' /\ nd_link (vfs s') = delete nd (nd_link (vfs b))) s.
Proof.
  intros Hn. apply wp_bind. eapply wp_read; [exact H|done|]. rewrite Hn.
  apply wp_bind. eapply wp_put_owned; [by apply holds_owes|]. intros s1 H1. apply wp_modify.
  assert (E : vfs s1 = vfs b) by (by rewrite <-(proj1 H1)). rewrite E. split; [|done].
  set (v := set_nd_link _ _). exists (set_vfs v b). split_and!; [apply owes_holds|exact Hl|].
  - apply (owes_update (fun s => set_vfs v s) [OBuf buf] [] b s1 H1); [done|done|].
    intros o _. unfold owned. simpl. rewrite (mcount_delete _ (nd_link (vfs b)) nd (buf, text)), times_in_cons by done.
    cbn [fst]. lia.
  - by apply wf_with_vfs.
Qed.

(** [dput_last] *)
Definition freed (u : ptr) (b : fstate L) : fstate L :=
  set_vfs (set_hashed (hashed (vfs b) ∖ {[ u ]}) (set_d_op (d_op (vfs b) ∖ {[ u ]}) (vfs b)))
    (set_fsdata (delete u (d_fsdata b)) (set_d_inode (delete u (d_inode b)) b)).

Lemma wp_dput_last u ds b' s' : owes ds b' s' -> (is_Some (d_fsdata b' !! u) -> u ∈ d_op (vfs b')) ->
  wp (dput_last u) (fun _ s'' => owes ds (freed u b') s'') s'.
Proof.
  intros H0 Hu. apply wp_bind, wp_modify. assert (E : d_inode s' = d_inode b') by (by rewrite <-(proj1 H0)). rewrite E.
  apply (owes_update (fun s => set_d_inode (delete u (d_inode b')) s) ds ds) in H0; [|done|done|by intros o _; unfold owned].
  apply wp_bind. eapply owes_read; [exact H0|done|]. simpl. apply wp_bind.
  eapply (wp_mono _ (fun _ s'' => owes ds (set_fsdata (delete u (d_fsdata b')) (set_d_inode (delete u (d_inode b')) b')) s'')).
  { case_bool_decide as Hd; [by apply (wp_d_release_owes u ds (set_d_inode (delete u (d_inode b')) b'))|]. apply wp_ret.
    destruct (d_fsdata b' !! u) eqn:Eu; [destruct Hd; by apply Hu|]. rewrite delete_id by done. exact H0. }
  intros [] s1 H1. apply wp_bind, wp_modify. assert (E1 : d_fsdata s1 = delete u (d_fsdata b')) by (change (d_fsdata (base s1) = delete u (d_fsdata b')); by rewrite (proj1 H1)).
  rewrite E1, delete_delete_eq.
  apply (owes_update (fun s => set_fsdata (delete u (d_fsdata b')) s) ds ds) in H1; [|done|done|by intros o _; unfold owned].
  apply wp_modify. set (s2 := set_fsdata _ s1) in *. assert (Ev : vfs s2 = vfs b') by (change (vfs (base s2) = vfs b'); by rewrite (proj1 H1)). rewrite Ev.
  by apply (owes_update (fun s => set_vfs (set_hashed (hashed (vfs b') ∖ {[ u ]}) (set_d_op (d_op (vfs b') ∖ {[ u ]}) (vfs b'))) s) ds ds) in H1;
    [|done|done|intros o _; unfold owned].
Qed.

Lemma wf_freed u b' : wf K b' -> wf K (freed u b').
Proof.
  clear b s H Hl W. intros []. split; simpl; try done.
  - intros v d m [_ Hv]%lookup_delete_Some. eauto.
  - intros v i [_ Hv]%lookup_delete_Some. eauto.
  - intros v [Hne Hv]%lookup_delete_is_Some. specialize (wf_dops v Hv). set_solver.
Qed.
End ops.

(** ** Mounting, before Linux 2.6.39 *)

Section mount.
Context (sb root pd pm : ptr).

(** The super block and its root with the table of operations [v], the private data
    [lsb] and [x]. *)
Definition with_root (v : vfs_fields) (lsb : ptr) (x : ptr * ptr) (b : fstate L) : fstate L :=
  set_sb_info (<[sb := lsb]> (sb_info b)) (set_fsdata (<[root := x]> (d_fsdata b)) (set_vfs v b)).

(** The fields [fill_super] sets. *)
Record root_vfs (v v0 : vfs_fields) : Prop := {
  rv_dops : d_op v = {[ root ]} ∪ d_op v0;
  rv_ino : i_ino v = i_ino v0;
  rv_link : nd_link v = nd_link v0;
  rv_root : s_root v !! sb = Some root
}.

(** Once its root is freed and its private data is, nothing is left of a mount. *)
Lemma wf_given_up v lsb x b : wf K b -> d_fsdata b !! root = None -> sb_info b !! sb = None -> root_vfs v (vfs b) ->
  let b' := set_sb_info (delete sb (sb_info (with_root v lsb x b))) (freed root (with_root v lsb x b)) in
  wf K b' /\ locks b' = locks b /\ d_fsdata b' !! root = None.
Proof.
  intros W Hr Hs [E1 E2 _ _] b'. split; [|split; [done|simpl; apply lookup_delete_eq]]. unfold b', freed, with_root. destruct W. split; simpl.
  - intros u d m. rewrite delete_insert_eq. intros [_ Hu]%lookup_delete_Some. eauto.
  - done.
  - intros u i [_ Hu]%lookup_delete_Some. eauto.
  - done.
  - done.
  - intros u. rewrite delete_insert_eq, E1. intros [Hne Hu]%lookup_delete_is_Some. specialize (wf_dops u Hu). set_solver.
  - by rewrite E2.
Qed.

(** [dazukofs_fill_super] leaves a root without a lower dentry. *)
Lemma wp_fill_super b s : holds [] b s -> locks b = [] -> wf K b -> d_fsdata b !! root = None -> sb_info b !! sb = None ->
  wp (dazukofs_fill_super sb root) (fun r s' =>
    (r = (- ENOMEM)%Z /\ good K s' /\ d_fsdata s' !! root = None) \/
    (r = 0%Z /\ exists v, root_vfs v (vfs b) /\ holds [] (with_root v NULL (NULL, NULL) b) s')) s.
Proof.
  intros H Hl W Hr Hs. assert (Hlink : forall s', holds [] b s' -> good K s' /\ d_fsdata s' !! root = None).
  { intros s' H'. split; [by eapply (good_same K b)|]. by rewrite <-(holds_base _ _ _ H') in Hr. }
  apply wp_bind. eapply wp_zalloc; [exact H|]. intros ok s1 H1.
  destruct ok; cbn [negb]; [|apply wp_ret; left; split; [done|by apply Hlink]].
  case_decide; [apply wp_ret; left; split; [done|by apply Hlink]|].
  apply wp_bind. eapply wp_upd_vfs; [exact H1|done|]. intros s2 H2. apply wp_bind. eapply wp_upd_vfs; [exact H2|done|].
  intros s3 H3. simpl in H3. set (v := set_d_op _ _) in H3.
  assert (Hv : root_vfs v (vfs b)) by (split; [done|done|done|simpl; apply lookup_insert_eq]).
  change (holds [] (set_vfs v b) s3) in H3. apply wp_bind. eapply wp_zalloc; [exact H3|]. intros ok s4 H4.
  destruct ok; cbn [negb].
  2:{ apply wp_bind. eapply wp_mono; [eapply (wp_dput_last root []); [by apply holds_owes|simpl; rewrite Hr; by intros [? ?]]|].
      intros [] s5 H5. apply wp_ret. left. split; [done|]. split.
      - exists (freed root (set_vfs v b)). split_and!; [by apply owes_holds|done|].
        apply wf_freed, wf_with_vfs; [done|done|]. rewrite (rv_dops _ _ Hv). set_solver.
      - change (d_fsdata (base s5) !! root = None). rewrite (proj1 H5). simpl. apply lookup_delete_eq. }
  apply wp_bind, wp_modify. apply (holds_new_info root) in H4; [|done]. apply wp_bind, wp_modify, wp_ret. right.
  split; [done|]. exists v. split; [done|].
  assert (E : sb_info (set_fsdata (<[root:=(NULL, NULL)]> (d_fsdata s4)) s4) = sb_info b)
    by (change (sb_info (base (set_fsdata (<[root:=(NULL, NULL)]> (d_fsdata s4)) s4)) = sb_info b); by rewrite (holds_base _ _ _ H4)).
  rewrite E. by apply (holds_same (fun s => set_sb_info (<[sb := NULL]> (sb_info b)) s)).
Qed.

(** [path_put], with the references to give back in front. *)
Lemma wp_put_path (r : Z) hs b s : holds (OMnt pm :: ODentry pd :: hs) b s ->
  wp (do! put_ref (ODentry pd) in do! put_ref (OMnt pm) in sret r) (fun r' s' => r' = r /\ holds hs b s') s.
Proof.
  intros H. apply wp_bind. eapply wp_put_ref; [eapply fs_holds_perm; [apply perm_swap|exact H]|].
  intros s1 H1. apply wp_bind. eapply wp_put_ref; [exact H1|]. intros s2 H2. by apply wp_ret.
Qed.

(** The state in which the root lies over the lower root. *)
Definition rooted (b : fstate L) : fstate L :=
  let lsb := k_dentry_sb K (lower b) pd in
  set_fsdata (<[root := (pd, pm)]> (d_fsdata b))
    (set_vfs (set_maxbytes (<[sb := k_maxbytes K (lower b) lsb]> (s_maxbytes (vfs b))) (vfs b))
      (set_sb_info (<[sb := lsb]> (sb_info b)) b)).

Definition read_super_post (b : fstate L) (r : Z) (s' : fstate L) : Prop :=
  ((r < 0)%Z /\ ((pd < 0)%Z \/ r ∉ interpose_errors) /\ holds [] b s') \/
  ((0 <= pd)%Z /\ r ∈ interpose_errors /\ owes [OMnt pm; ODentry pd] (rooted b) s') \/
  (r = 0%Z /\ k_inode K (lower b) pd <> NULL /\ exists i b', holds [] b' s' /\
    interposed K (k_inode K (lower b) pd) root i false (rooted b) b').

Lemma wp_read_super b s : holds [] b s -> pd <> NULL -> d_fsdata b !! root = Some (NULL, NULL) ->
  is_Some (sb_info b !! sb) -> s_root (vfs b) !! sb = Some root -> wp (dazukofs_read_super K sb pd pm) (read_super_post b) s.
Proof.
  intros H Hpd Hr [lsb0 Hsb] Hroot. unfold dazukofs_read_super. case_decide as Hneg; [apply wp_ret; left; split_and!; by auto|].
  do 4 (apply wp_bind; eapply wp_get_ref; [exact H|]; clear s H; intros s H).
  apply wp_bind. eapply wp_lower_d_inode; [exact H|done|].
  apply wp_bind. eapply wp_read; [exact H|done|]. apply wp_bind.
  assert (Hback : forall (r : Z) s', (r < 0)%Z -> r ∉ interpose_errors -> holds [OMnt pm; ODentry pd; OMnt pm; ODentry pd] b s' ->
    wp (do! (if decide (r <> 0%Z) then do! put_ref (ODentry pd) in put_ref (OMnt pm) else sret tt) in
        do! put_ref (ODentry pd) in do! put_ref (OMnt pm) in sret r) (read_super_post b) s').
  { intros r s' Hr' Hre H'. rewrite decide_True by lia.
    apply wp_bind, wp_bind. eapply wp_put_ref; [eapply fs_holds_perm; [apply perm_swap|exact H']|].
    intros s1 H1. eapply wp_put_ref; [exact H1|]. intros s2 H2. eapply wp_mono; [by apply wp_put_path|].
    intros r' s'' [-> H'']. left. by auto. }
  assert (Hother : (- ENOENT)%Z ∉ interpose_errors /\ (- EINVAL)%Z ∉ interpose_errors)
    by (split; apply (bool_decide_unpack _); vm_compute; exact I).
  case_decide as Hi; [apply wp_ret, Hback; [unfold ENOENT; lia|apply Hother|done]|].
  destruct (s_isdir K _); [|apply wp_ret, Hback; [unfold EINVAL; lia|apply Hother|done]].
  apply wp_bind. eapply wp_read; [exact H|done|]. set (lsb := k_dentry_sb K (lower b) pd).
  apply wp_bind, wp_modify. assert (E : sb_info s = sb_info b) by (by rewrite <-(holds_base _ _ _ H)). rewrite E.
  apply (holds_same (fun s => set_sb_info (<[sb := lsb]> (sb_info b)) s)) in H; [|done..].
  apply wp_bind. eapply wp_read; [exact H|done|]. apply wp_bind. eapply wp_upd_vfs; [exact H|done|]. intros s4 H4.
  apply wp_bind. unfold wp at 1, get_s_root. rewrite (vfs_base _ _ _ H4). simpl. rewrite Hroot.
  apply wp_bind. eapply wp_set_lower_dentry; [exact H4|exact Hr|]. intros s5 H5. change (holds [OMnt pm; ODentry pd] (rooted b) s5) in H5.
  eapply wp_mono; [apply wp_returns; [apply (interpose_result K laws pd root sb false)|
    apply (wp_interpose K laws pd root sb lsb false _ _ _ H5); [done|done|simpl; apply lookup_insert_eq]]|].
  intros r s6 [[[Hneg' H6]|(-> & i & b' & H6 & P)] Hres].
  - destruct Hres as [->|Hres]; [lia|]. rewrite decide_True by lia. apply wp_bind, wp_bind.
    eapply wp_put_ref; [eapply fs_holds_perm; [apply perm_swap|exact H6]|]. intros s7 H7.
    eapply wp_put_ref; [exact H7|]. intros s8 H8. apply holds_owes in H8.
    apply wp_bind. eapply wp_put_owned; [exact H8|]. intros s9 H9. apply wp_bind. eapply wp_put_owned; [exact H9|].
    intros s10 H10. apply wp_ret. right. left. split_and!; [lia|done|done].
  - rewrite decide_False by tauto. apply wp_bind, wp_ret. eapply wp_mono; [by apply wp_put_path|].
    intros r' s7 [-> H7]. right. right. split; [done|]. split; [done|]. by exists i, b'.
Qed.

(** Giving the super block up: the root goes with what it owns, and the private
    data of the super block. *)
Lemma wp_give_up (r : Z) ds v lsb x b s : owes ds (with_root v lsb x b) s -> root_vfs v (vfs b) ->
  wp (let! root := get_s_root sb in do! dput_last root in do! dazukofs_put_super sb in sret r) (fun r' s' => r' = r /\
    owes ds (set_sb_info (delete sb (sb_info (with_root v lsb x b))) (freed root (with_root v lsb x b))) s') s.
Proof.
  intros H [E1 _ _ E4]. set (b1 := with_root v lsb x b) in *.
  apply wp_bind. unfold wp at 1, get_s_root. assert (Ev : vfs s = v) by (change (vfs (base s) = v); by rewrite (proj1 H)).
  rewrite Ev, E4. apply wp_bind. eapply wp_mono; [eapply wp_dput_last; [exact H|]|].
  { intros _. simpl. rewrite E1. set_solver. }
  intros [] s1 H1. apply wp_bind, wp_bind. eapply owes_read; [exact H1|done|]. simpl. rewrite lookup_insert_eq.
  apply wp_modify, wp_ret. split; [done|].
  assert (E : sb_info s1 = sb_info b1) by (change (sb_info (base s1) = sb_info b1); by rewrite (proj1 H1)). rewrite E.
  by apply (owes_update (fun s => set_sb_info (delete sb (sb_info b1)) s) ds _ (freed root b1)).
Qed.

(** A mount that succeeds leaves a root over the lower root.  One that fails
    leaves nothing, except that it puts the lower root and its mount once more
    when interposing fails. *)
Lemma wp_get_sb b s : holds [] b s -> locks b = [] -> wf K b -> pd <> NULL -> d_fsdata b !! root = None -> sb_info b !! sb = None ->
  wp (dazukofs_get_sb K false sb root pd pm) (fun r s' =>
    (r = 0%Z /\ good K s' /\ d_fsdata s' !! root = Some (pd, pm) /\ is_Some (d_inode s' !! root) /\
      sb_info s' !! sb = Some (k_dentry_sb K (lower b) pd)) \/
    ((r < 0)%Z /\ ((pd < 0)%Z \/ r ∉ interpose_errors) /\ d_fsdata s' !! root = None /\ good K s') \/
    ((0 <= pd)%Z /\ r ∈ interpose_errors /\ d_fsdata s' !! root = None /\ exists b', owes [OMnt pm; ODentry pd] b' s' /\ locks b' = [] /\ wf K b')) s.
Proof.
  intros H Hl W Hpd Hr Hsb. apply wp_bind. eapply wp_mono; [by apply wp_fill_super|].
  intros r s1 [(-> & G1 & Hr1)|(-> & v & Hv & H1)].
  { rewrite decide_True by done. apply wp_ret. right. left. split_and!; [done| |done|done]. right.
    apply (bool_decide_unpack _). vm_compute. exact I. }
  rewrite decide_False by tauto. apply wp_bind, wp_ret. rewrite decide_False by tauto.
  set (lsb := k_dentry_sb K (lower b) pd). set (b1 := with_root v NULL (NULL, NULL) b) in H1.
  set (v2 := set_maxbytes (<[sb := k_maxbytes K (lower b) lsb]> (s_maxbytes v)) v).
  assert (Hv2 : root_vfs v2 (vfs b)) by (by destruct Hv).
  assert (E : rooted b1 = with_root v2 lsb (pd, pm) b).
  { unfold rooted, b1, with_root. simpl. by rewrite !insert_insert_eq. }
  assert (Hback : forall (r : Z) ds v x y s', (r < 0)%Z -> root_vfs v (vfs b) -> owes ds (with_root v y x b) s' ->
    wp (if decide (r <> 0%Z) then let! root := get_s_root sb in do! dput_last root in do! dazukofs_put_super sb in sret r else sret 0%Z)
      (fun r' s' => r' = r /\ d_fsdata s' !! root = None /\ exists b', owes ds b' s' /\ locks b' = [] /\ wf K b') s').
  { intros r ds v' x y s' Hneg Hv' H'. rewrite decide_True by lia.
    eapply wp_mono; [by eapply wp_give_up|]. intros r' s'' [-> H''].
    destruct (wf_given_up v' y x b W Hr Hsb Hv') as (Wb & Lb & Nb). split; [done|]. rewrite <-(proj1 H'') in Nb. split; [exact Nb|].
    eexists. split_and!; [exact H''|by rewrite Lb|exact Wb]. }
  apply wp_bind. eapply wp_mono; [apply (wp_read_super b1 s1 H1 Hpd); simpl; [apply lookup_insert_eq|rewrite lookup_insert_eq; by eexists|apply Hv]|].
  intros r s2 [(Hneg & Hre & H2)|[(Hge & Hre & H2)|(-> & Hi & i & b2 & H2 & P)]].
  - eapply wp_mono; [eapply Hback; [done|exact Hv|by apply holds_owes]|]. intros r' s3 (-> & Hn' & b' & H3 & Lb & Wb). right. left.
    split_and!; [done|done|done|]. exists b'. split_and!; [by apply owes_holds|done|done].
  - rewrite E in H2. pose proof (interpose_error_neg r Hre) as Hneg.
    eapply wp_mono; [eapply Hback; [done|exact Hv2|exact H2]|]. intros r' s3 (-> & Hn' & Hb'). right. right. by split_and!.
  - rewrite decide_False by tauto. apply wp_ret. left. split; [done|]. pose proof (interposed_attached K _ _ _ _ _ _ P) as Hops. destruct P.
    rewrite E in *. assert (W1 : wf K (with_root v2 lsb (pd, pm) b)).
    { eapply wf_same; [|apply (wf_linked root pd pm (set_vfs v2 b)); [apply wf_with_vfs; [done|apply Hv2|]|done|]].
      - by repeat split.
      - rewrite (rv_dops _ _ Hv2). set_solver.
      - change (root ∈ d_op v2). rewrite (rv_dops _ _ Hv2). set_solver. }
    assert (E' : d_fsdata s2 = d_fsdata b2 /\ d_inode s2 = d_inode b2 /\ sb_info s2 = sb_info b2).
    { rewrite <-(holds_base _ _ _ H2). by split_and!. }
    destruct E' as (E1 & E2 & E3). split_and!.
    + exists b2. split_and!; [done|by rewrite ip_locks|]. eapply (wf_attach K (with_root v2 lsb (pd, pm) b) b2 root i); [exact W1|done|exact Hi|done..].
    + rewrite E1, ip_fsdata. apply lookup_insert_eq.
    + rewrite E2, ip_d_inode, lookup_insert_eq. by eexists.
    + rewrite E3, ip_sb. apply lookup_insert_eq.
Qed.
End mount.
End file.
