(* ===== verification/FsLedger.v ===== *)
(** * The ledger: references that were left behind and references that are missing

    Some operations end with a reference too many on a lower object, others with one
    too few.  A [ledger] lists these; a state is [settled] if on each lower object
    there are as many references as its owners hold, up to the ledger.  No operation
    reads a count ([FsFrame]), so what it does in a settled state is what it does once
    the ledger is cleared ([settle]). *)

From S2P Require Import Prelude EventState FsState FsInode FsSpec FsFile FsFrame FsInodeSpec FsFileSpec.
From stdpp Require Import list gmap.

(** ** Ledgers *)

Abbreviation ledger := (list (obj * Z)).

Fixpoint balance (l : ledger) (o : obj) : Z :=
  match l with
  | [] => 0
  | (x, n) :: l => (if decide (x = o) then n else 0) + balance l o
  end.

(** [n] on each of [hs]. *)
Definition each (n : Z) (hs : list obj) : ledger := (fun o => (o, n)) <$> hs.

Lemma balance_app l l' o : balance (l ++ l') o = (balance l o + balance l' o)%Z.
Proof. induction l as [|[x n] l IH]; simpl; [done|]. rewrite IH. lia. Qed.
Lemma balance_each n hs o : balance (each n hs) o = (n * Z.of_nat (times_in o hs))%Z.
Proof.
  unfold each. induction hs as [|x hs IH]; [cbn; lia|].
  rewrite fmap_cons, times_in_cons. cbn [balance]. rewrite IH. unfold one_if. case_decide; lia.
Qed.

#[export] Instance balance_perm : Proper ((≡ₚ) ==> eq ==> eq) balance.
Proof.
  intros l l' H o ? <-. induction H as [|[x n] ? ? _ IH|[x n] [y n'] ?|? ? ? _ IH1 _ IH2]; simpl; [done|by rewrite IH|lia|by rewrite IH1].
Qed.

Section ledger.
Context {L : Type} (K : fs_kernel L).
Implicit Types (s b : fstate L) (hs : list obj) (l : ledger).

(** ** Settled states *)

(** Between two operations: no mutex is held, the structures are well formed, and the
    references are those of the owners, up to [d]. *)
Record settled (d : obj -> Z) s : Prop := {
  se_refs : forall o, o.2 <> NULL -> refs_at s o = (Z.of_nat (owned s o) + d o)%Z;
  se_locks : locks s = [];
  se_wf : wf K (base s)
}.

Lemma settled_ext d d' s : (forall o, o.2 <> NULL -> d o = d' o) -> settled d s -> settled d' s.
Proof. intros E [R H W]. split; [|done|done]. intros o Ho. rewrite (R o Ho), (E o Ho). done. Qed.

Lemma settled_holds hs b s : holds hs b s -> locks b = [] -> wf K b -> settled (balance (each 1 hs)) s.
Proof.
  intros [<- R] Hl W. split; [|done|done]. intros o Ho. rewrite (R o Ho), balance_each.
  change (owned (base s) o) with (owned s o). lia.
Qed.
Lemma settled_owes ds b s : owes ds b s -> locks b = [] -> wf K b -> settled (balance (each (-1) ds)) s.
Proof.
  intros [<- R] Hl W. split; [|done|done]. intros o Ho. specialize (R o Ho). rewrite balance_each.
  change (owned (base s) o) with (owned s o) in R. lia.
Qed.
Lemma settled_good s : good K s -> settled (balance []) s.
Proof. intros (b & H & Hl & W). exact (settled_holds [] b s H Hl W). Qed.

(** Beside what is in the ledger, the references [hs] are held. *)
Lemma settled_same hs b b' s : holds hs b' s -> same_links b b' -> locks b = [] -> wf K b -> settled (balance (each 1 hs)) s.
Proof. intros H E Hl W. eapply settled_holds; [exact H|by rewrite (proj1 E)|by eapply wf_same]. Qed.

Lemma differ_base d s s0 : differ d s s0 -> base s = base s0.
Proof. intros [E _]. unfold base. change (set_fs_oom [] (set_refs ∅ s) = set_fs_oom [] (set_refs ∅ s0)). by rewrite E. Qed.

Lemma settled_differ d d0 s s0 : differ d s s0 -> settled d0 s0 -> settled (fun o => d0 o + d o)%Z s.
Proof.
  intros D [R H W]. pose proof (differ_base _ _ _ D) as E. split.
  - intros o Ho. rewrite (df_refs _ _ _ D o Ho), (R o Ho). change (owned s o) with (owned (base s) o). rewrite E.
    change (owned (base s0) o) with (owned s0 o). lia.
  - change (locks (base s) = []). by rewrite E.
  - by rewrite E.
Qed.

(** ** Clearing the ledger *)

Fixpoint settle l s : fstate L :=
  match l with
  | [] => s
  | (o, n) :: l => let s' := settle l s in set_refs (<[o := (refs_at s' o - n)%Z]> (refs s')) s'
  end.

Lemma refs_settle l s o : refs_at (settle l s) o = (refs_at s o - balance l o)%Z.
Proof.
  induction l as [|[x n] l IH]; simpl; [lia|]. rewrite refs_at_insert.
  destruct (decide (o = x)) as [->|Hne]; [rewrite decide_True by done; lia|]. rewrite decide_False by congruence. lia.
Qed.
Lemma settle_bare l s : set_refs ∅ (settle l s) = set_refs ∅ s.
Proof. induction l as [|[x n] l IH]; simpl; [done|]. exact IH. Qed.

Lemma settle_differ l s : differ (balance l) s (settle l s).
Proof. split; [symmetry; apply settle_bare|]. intros o _. rewrite refs_settle. lia. Qed.

Lemma settle_holds l hs s : settled (balance (each 1 hs ++ l)) s ->
  holds hs (base s) (settle l s) /\ locks (base s) = [] /\ wf K (base s).
Proof.
  intros [R H W]. split; [|done]. split; [symmetry; eapply differ_base, settle_differ|].
  intros o Ho. rewrite refs_settle, (R o Ho), balance_app, balance_each. change (owned (base s) o) with (owned s o). lia.
Qed.
Lemma settle_good l s : settled (balance l) s -> good K (settle l s).
Proof. intros H. destruct (settle_holds l [] s H) as (H0 & Hl & W). by exists (base s). Qed.

(** A framed computation does beside the ledger what it does without. *)
Lemma wp_beside {A} (m : FM L A) (P : A -> fstate L -> Prop) l s : Framed m -> wp m P (settle l s) ->
  wp m (fun a s' => exists s0', P a s0' /\ differ (balance l) s' s0') s.
Proof.
  intros Hm Hw. specialize (Hm _ _ _ (settle_differ l s)). unfold wp in *.
  destruct (m s), (m (settle l s)); try done. destruct Hm as [-> Hd]. eauto.
Qed.

Lemma run_beside {A} (m : FM L A) l s a s' : Framed m -> m s = Ret a s' ->
  exists s0', m (settle l s) = Ret a s0' /\ differ (balance l) s' s0'.
Proof.
  intros Hm E. specialize (Hm _ _ _ (settle_differ l s)). rewrite E in Hm.
  destruct (m (settle l s)); [|done]. destruct Hm as [-> Hd]. eauto.
Qed.

(** What it adds to a clear ledger it adds to any. *)
Lemma wp_settled {A} (m : FM L A) (x : A -> fstate L -> ledger) l s : Framed m ->
  (forall a s1 s2, set_refs ∅ s1 = set_refs ∅ s2 -> x a s1 = x a s2) ->
  wp m (fun a s' => settled (balance (x a s')) s') (settle l s) -> wp m (fun a s' => settled (balance (x a s' ++ l)) s') s.
Proof.
  intros Hm Hx Hw. eapply wp_mono; [by apply wp_beside|]. intros a s' (s0' & H & D).
  rewrite (Hx a s' s0') by apply D. eapply settled_ext; [|by eapply settled_differ]. intros o _. by rewrite balance_app.
Qed.

Lemma good_holds s : good K s -> holds [] (base s) s /\ locks (base s) = [] /\ wf K (base s).
Proof. intros (b & H & Hl & W). by rewrite (holds_base _ _ _ H). Qed.
End ledger.

(** ** [create] since Linux 3.6 *)

Section create.
Context {L : Type} (K : fs_kernel L) (laws : kernel_laws K).
Implicit Types (s b : fstate L).

(** It gives back two references that it did not take. *)
Lemma wp_create_since_36 dir u sb ld m mode excl b s : holds [] b s -> locks b = [] -> wf K b ->
  d_fsdata b !! u = Some (ld, m) -> make_ok sb dir u b ->
  wp (dazukofs_create K true dir u sb mode excl) (fun r s' => settled K (balance (each (-1) [ODentry ld; OMnt m])) s' /\
    made_post K (fun p => Create p ld mode (Excl excl)) ld u dir b r s') s.
Proof.
  intros H Hl W Hu Hok. set (l := each (-1) [ODentry ld; OMnt m]).
  assert (H0 : holds [ODentry ld; OMnt m] b (settle l s)).
  { split; [rewrite <-(holds_base _ _ _ H); symmetry; eapply differ_base, settle_differ|].
    intros o Ho. unfold l. rewrite refs_settle, (proj2 H o Ho), balance_each. change (times_in o []) with 0. lia. }
  eapply wp_mono; [eapply (wp_beside _ _ l); [apply _|by apply (wp_create_held K laws dir u sb ld m mode excl b)]|].
  intros r s' (s0' & [G Hm] & D). split.
  - eapply settled_ext; [|eapply settled_differ; [exact D|by apply settled_good]]. intros o _. unfold l. simpl. lia.
  - intros Hr. destruct (Hm Hr) as (b' & Hb & N). exists b'. split; [|exact N]. by rewrite (differ_base _ _ _ D).
Qed.
End create.
