(* ===== verification/FsSystem.v ===== *)
(** * The file system as a system of operations

    The operations the VFS calls, as they are compiled for a kernel version, what the
    VFS guarantees when it calls them, and the invariant that every reference is
    accounted for: by an owner, or by the ledger, which says exactly which operations
    leave a reference behind or give one back too much. *)

From S2P Require Import Prelude EventState FsState FsInode FsSpec FsFile FsFrame FsInodeSpec FsFileSpec FsLedger.
From stdpp Require Import list gmap.

(** ** Versions *)

(** [LINUX_VERSION_CODE < KERNEL_VERSION(a, b, c)] *)
Definition KERNEL_VERSION (a b c : Z) : Z := Z.shiftl a 16 + Z.shiftl b 8 + c.
Definition before (v a b c : Z) : bool := bool_decide (v < KERNEL_VERSION a b c)%Z.

(** ** Operations *)

Inductive fs_op :=
| F_lookup (dir dentry parent sb : ptr) (name : list Z)
| F_mknod (dir dentry sb : ptr) (mode dev : Z)
| F_mkdir (dir dentry sb : ptr) (mode : Z)
| F_create (dir dentry sb : ptr) (mode : Z) (excl : bool)
| F_symlink (dir dentry sb : ptr) (symname : Z)
| F_link (old dir dentry sb : ptr)
| F_unlink (dir dentry : ptr)
| F_rmdir (dir dentry : ptr)
| F_rename (old_dir old_dentry new_dir new_dentry : ptr)
| F_readlink (dentry : ptr) (bufsiz : Z)
| F_follow_link (dentry nd buf : ptr)
| F_put_link (nd : ptr)
| F_permission (inode : ptr) (mask : Z)
| F_getattr (dentry : ptr)
| F_setattr (dentry : ptr) (ia_valid : Z)
| F_setxattr (dentry : ptr) (name value size flags : Z)
| F_getxattr (dentry : ptr) (name value size : Z)
| F_listxattr (dentry : ptr) (list size : Z)
| F_removexattr (dentry : ptr) (name : Z)
| F_open (check : Z) (dentry file : ptr) (flags : Z)
| F_release (inode file : ptr)
| F_revalidate (nd : bool) (dentry parent : ptr) (name : list Z)
| F_d_release (dentry : ptr)
| F_evict (inode : ptr)
| F_mount (sb root path_dentry path_mnt : ptr)
| F_put_super (sb : ptr)
| F_statfs (dentry : ptr).

Section system.
Context {L : Type} (K : fs_kernel L) (v : Z).
Implicit Types (s b : fstate L) (l : ledger).

(** The branches of [#if] that the version selects; where it selects no other, a
    nameidata may be given to [d_revalidate].  (The assignments to [i_nlink] before
    Linux 3.2, which misspell the field in two places, are those after.) *)
Definition fs_exec (op : fs_op) : FM L Z :=
  match op with
  | F_lookup dir u parent sb name => dazukofs_lookup K dir u parent sb name
  | F_mknod dir u sb mode dev => dazukofs_mknod K dir u sb mode dev
  | F_mkdir dir u sb mode => dazukofs_mkdir K dir u sb mode
  | F_create dir u sb mode excl => dazukofs_create K (negb (before v 3 6 0)) dir u sb mode excl
  | F_symlink dir u sb symname => dazukofs_symlink K dir u sb symname
  | F_link old dir u sb => dazukofs_link K old dir u sb
  | F_unlink dir u => dazukofs_unlink K dir u
  | F_rmdir dir u => dazukofs_rmdir K dir u
  | F_rename od u nd u2 => dazukofs_rename K od u nd u2
  | F_readlink u n => let! out := dazukofs_readlink K u n in sret out.1
  | F_follow_link u nd buf => dazukofs_follow_link K u nd buf
  | F_put_link nd => do! dazukofs_put_link nd in sret 0%Z
  | F_permission i mask => dazukofs_permission K i mask
  | F_getattr u => let! out := dazukofs_getattr K u in sret out.1
  | F_setattr u v => dazukofs_setattr K u v
  | F_setxattr u n v size flags => dazukofs_setxattr K u n v size flags
  | F_getxattr u n v size => dazukofs_getxattr K u n v size
  | F_listxattr u l size => dazukofs_listxattr K u l size
  | F_removexattr u n => dazukofs_removexattr K u n
  | F_open check u f flags => dazukofs_open K (before v 3 6 0) check u f flags
  | F_release i f => dazukofs_release K i f
  | F_revalidate nd u parent name => dazukofs_d_revalidate K nd u parent name
  | F_d_release u => do! dput_last u in sret 0%Z
  | F_evict i => do! evict_and_destroy i in sret 0%Z
  | F_mount sb root pd pm => dazukofs_get_sb K (negb (before v 2 6 39)) sb root pd pm
  | F_put_super sb => do! dazukofs_put_super sb in sret 0%Z
  | F_statfs u => dazukofs_statfs K u
  end.

(** ** What the VFS guarantees *)

Definition linked s (u : ptr) : Prop := is_Some (d_fsdata s !! u).
Definition has_inode s (u : ptr) : Prop := is_Some (d_inode s !! u).

(** The lower dentry of [u] has an inode. *)
Definition lower_positive s (u : ptr) : Prop :=
  match d_fsdata s !! u with Some (ld, _) => k_inode K (lower s) ld <> NULL | None => False end.
(** That inode is the lower inode of the inode of [u]. *)
Definition lower_coherent s (u : ptr) : Prop :=
  match d_fsdata s !! u, d_inode s !! u with
  | Some (ld, _), Some i => inode_info s !! i = Some (k_inode K (lower s) ld)
  | _, _ => False
  end.
(** The lower [readlink] leaves room for a terminator. *)
Definition room_for_nul s (u : ptr) : Prop :=
  match d_fsdata s !! u with
  | Some (ld, _) => ((k_call K (Readlink ld PAGE_SIZE) (lower s)).1 < PAGE_SIZE)%Z
  | None => False
  end.

Definition can_add s (dir u sb : ptr) : Prop := dir <> NULL /\ is_Some (sb_info s !! sb) /\ linked s u.

Definition legal (op : fs_op) s : Prop :=
  match op with
  | F_lookup dir u parent sb _ =>
      dir <> NULL /\ d_fsdata s !! u = None /\ is_Some (sb_info s !! sb) /\ lower_positive s parent
  | F_mknod dir u sb _ _ | F_mkdir dir u sb _ | F_create dir u sb _ _ | F_symlink dir u sb _ => can_add s dir u sb
  | F_link old dir u sb => can_add s dir u sb /\ linked s old
  | F_unlink dir u | F_rmdir dir u => dir <> NULL /\ linked s u /\ has_inode s u
  | F_rename od u nd u2 => od <> NULL /\ nd <> NULL /\ linked s u /\ linked s u2
  | F_readlink u _ | F_getattr u | F_setxattr u _ _ _ _ => linked s u /\ has_inode s u
  | F_follow_link u nd _ => has_inode s u /\ room_for_nul s u /\ nd_link (vfs s) !! nd = None
  | F_put_link nd => is_Some (nd_link (vfs s) !! nd)
  | F_permission i _ => is_Some (inode_info s !! i)
  | F_setattr u _ => lower_coherent s u
  | F_getxattr u _ _ _ | F_listxattr u _ _ | F_removexattr u _ | F_statfs u => linked s u
  | F_open _ u f _ => linked s u /\ no_file s f
  | F_release i f => is_Some (files s !! f) /\ is_Some (inode_info s !! i)
  | F_revalidate nd u parent _ => linked s u /\ linked s parent /\ (nd = true -> before v 3 6 0 = true)
  | F_d_release _ | F_put_super _ => True
  | F_evict i => is_Some (inode_info s !! i) /\ map_Forall (fun _ j => j <> i) (d_inode s)
  | F_mount sb root pd _ => before v 2 6 39 = true /\ pd <> NULL /\ d_fsdata s !! root = None /\ sb_info s !! sb = None
  end.

#[export] Instance legal_dec op s : Decision (legal op s).
Proof.
  destruct op; simpl; unfold can_add, linked, has_inode, lower_positive, lower_coherent, room_for_nul, no_file;
    repeat case_match; apply _.
Defined.

(** ** What an operation does to the ledger *)

(** One less on the lower dentry after a lookup that failed once the dentry was linked,
    one less on the lower root and its mount after a mount that failed while
    interposing, one more on the lower dentry after [statfs]; and since Linux 3.6 one
    less on the lower dentry and mount after [create], one more on each after an open
    that got as far as [dentry_open]. *)
Definition of_dentry s (u : ptr) (f : ptr -> ptr -> ledger) : ledger :=
  match d_fsdata s !! u with Some (ld, m) => f ld m | None => [] end.
Definition dues op s (r : Z) (s' : fstate L) : ledger :=
  match op with
  | F_lookup _ u _ _ _ => if decide (r < 0)%Z then of_dentry s' u (fun ld _ => each (-1) [ODentry ld]) else []
  | F_create _ u _ _ _ =>
      if before v 3 6 0 then [] else of_dentry s u (fun ld m => each (-1) [ODentry ld; OMnt m])
  | F_open check u _ _ => of_dentry s u (fun ld m => each 1 (left_open (before v 3 6 0) check ld m s))
  | F_mount _ _ pd pm =>
      if decide (0 <= pd /\ r ∈ interpose_errors)%Z then each (-1) [OMnt pm; ODentry pd] else []
  | F_statfs u => of_dentry s u (fun ld _ => each 1 [ODentry ld])
  | _ => []
  end.

(** ** Runs *)

(** Nothing is mounted; [l] is the lower file system, [oom] tells which
    allocations will fail. *)
Definition unmounted (low : L) (oom : list bool) : fstate L := mk_fstate low ∅ [] ∅ ∅ vfs0 ∅ ∅ ∅ ∅ ∅ oom.

(** Where a run starts.  Since Linux 2.6.39 a mount leaves a root that lies over
    nothing, so that no other operation is possible; there the runs start from a
    state that a mount before 2.6.39 has left. *)
Definition fs_start s : Prop :=
  (exists low oom, s = unmounted low oom) \/
  (before v 2 6 39 = false /\ exists low oom sb root pd pm, pd <> NULL /\
     dazukofs_get_sb K false sb root pd pm (unmounted low oom) = Ret 0%Z s).

(** The lower file system may change between two operations. *)
Inductive fs_run : ledger -> fstate L -> Prop :=
| run_init s : fs_start s -> fs_run [] s
| run_op l s op r s' : fs_run l s -> legal op s -> fs_exec op s = Ret r s' -> fs_run (dues op s r s' ++ l) s'
| run_lower l s low : fs_run l s -> fs_run l (set_lower low s).

(** An executable run. *)
Fixpoint fs_execs (ops : list fs_op) l s : option (ledger * fstate L) :=
  match ops with
  | [] => Some (l, s)
  | op :: ops =>
      if decide (legal op s) then
        match fs_exec op s with
        | Ret r s' => fs_execs ops (dues op s r s' ++ l) s'
        | Stuck _ => None
        end
      else None
  end.

Lemma fs_execs_run ops l s l' s' : fs_run l s -> fs_execs ops l s = Some (l', s') -> fs_run l' s'.
Proof.
  revert l s. induction ops as [|op ops IH]; simpl; intros l s Hs; [by intros [= <- <-]|].
  case_decide; [|done]. destruct (fs_exec op s) as [r s1|w] eqn:E; [|done].
  intros. eapply IH; [by eapply run_op|done].
Qed.

(** ** The invariant *)

Context (laws : kernel_laws K).

Lemma wf_positive b u i : wf K b -> d_inode b !! u = Some i -> is_positive b u i.
Proof. intros W Hi. split; [done|by eapply wf_d_inode]. Qed.

Lemma wp_free_dentry u b s : holds [] b s -> locks b = [] -> wf K b -> wp (dput_last u) (fun _ s' => good K s') s.
Proof.
  intros H Hl W. eapply wp_mono; [apply (wp_dput_last u [] b); [by apply holds_owes|apply (wf_dops K b W)]|].
  intros [] s' H'. exists (freed u b). split_and!; [by apply owes_holds|done|by apply wf_freed].
Qed.

Lemma wp_put_super sb b s : holds [] b s -> locks b = [] -> wf K b -> wp (dazukofs_put_super sb) (fun _ s' => good K s') s.
Proof.
  intros H Hl W. apply wp_bind. eapply wp_read; [exact H|done|].
  destruct (sb_info b !! sb); [|apply wp_ret; by eapply (good_same K b)]. apply wp_modify.
  assert (E : sb_info s = sb_info b) by (by rewrite <-(holds_base _ _ _ H)). rewrite E.
  apply (holds_same (fun s => set_sb_info (delete sb (sb_info b)) s)) in H; [|done..].
  eapply (good_same K b); [exact H|by repeat split|done|done].
Qed.

Lemma legal_base op s : legal op s -> legal op (base s).
Proof. by destruct op. Qed.

(** What a legal operation leaves. *)
Definition paid op s (r : Z) s' : Prop := settled K (balance (dues op s r s')) s'.

Lemma wp_paid {A} {Q : A -> fstate L -> Prop} op (m : FM L A) (f : A -> Z) s :
  (forall r s', dues op s r s' = []) -> wp m Q s -> (forall a s', Q a s' -> good K s') ->
  wp (let! a := m in sret (f a)) (paid op s) s.
Proof.
  intros Hd H HQ. apply wp_bind. eapply wp_mono; [exact H|]. intros a s' H'. apply wp_ret. unfold paid. rewrite Hd.
  by eapply settled_good, HQ.
Qed.
Lemma wp_keeps {Q : Z -> fstate L -> Prop} op m s :
  (forall r s', dues op s r s' = []) -> wp m Q s -> (forall r s', Q r s' -> good K s') -> wp m (paid op s) s.
Proof. intros Hd H HQ. eapply wp_mono; [exact H|]. intros r s' H'. unfold paid. rewrite Hd. by eapply settled_good, HQ. Qed.

#[export] Instance framed_exec op : Framed (fs_exec op).
Proof. destruct op; unfold fs_exec; by_parts; apply _. Qed.
Lemma keeps_exec op : (forall check u f flags, op <> F_open check u f flags) -> KeepsFiles (fs_exec op).
Proof. destruct op; intros Hop; try (by destruct (Hop check dentry file flags)); unfold fs_exec; by_parts; apply _. Qed.

Section legal.
Context (b s : fstate L) (H : holds [] b s) (Hl : locks b = []) (W : wf K b).

Lemma of_base u f : of_dentry s u f = of_dentry b u f.
Proof. unfold of_dentry. by rewrite <-(holds_base _ _ _ H). Qed.

Lemma wp_legal_add (m : FM L Z) op dir u sb : can_add b dir u sb -> (forall r s', dues op s r s' = []) ->
  (forall ld mnt, d_fsdata b !! u = Some (ld, mnt) -> make_ok sb dir u b -> exists c, wp m (make_post K c ld u dir b) s) ->
  wp m (paid op s) s.
Proof.
  intros (Hd & Hsb & [[ld mnt] Hu]) Hdues Hm. destruct (Hm ld mnt Hu) as [c Hc]; [by split_and!|].
  eapply wp_keeps; [done|exact Hc|]. by intros r s' [].
Qed.

Lemma wp_legal_create dir u sb mode excl : can_add b dir u sb ->
  wp (fs_exec (F_create dir u sb mode excl)) (paid (F_create dir u sb mode excl) s) s.
Proof.
  intros Hop. unfold fs_exec. destruct (before v 3 6 0) eqn:Ev; cbn [negb].
  - eapply wp_legal_add; [exact Hop|intros r s'; simpl; by rewrite Ev|]. intros ld m Hu Hok. eexists. by eapply wp_create.
  - destruct Hop as (Hd & Hsb & [[ld m] Hu]). eapply wp_mono; [by eapply wp_create_since_36; [..|split_and!; [..|by eexists]]|].
    intros r s' [G _]. unfold paid. cbn [dues]. rewrite Ev, of_base. unfold of_dentry. by rewrite Hu.
Qed.

Lemma wp_legal_lookup dir u parent sb name : legal (F_lookup dir u parent sb name) b ->
  wp (fs_exec (F_lookup dir u parent sb name)) (paid (F_lookup dir u parent sb name) s) s.
Proof.
  intros (Hd & Hn & [lsb Hsb] & Hp). unfold lower_positive in Hp.
  destruct (d_fsdata b !! parent) as [[lp mp]|] eqn:Ep; [|done].
  eapply wp_mono; [by eapply wp_lookup|]. unfold paid. cbn [dues]. intros r s' [(G & _ & Hno & _)|(Hr & _ & ld & m & b' & Hu & H' & Hl' & W')].
  - case_decide as Hr; [unfold of_dentry; rewrite (Hno Hr)|]; by apply settled_good.
  - rewrite decide_True by done. unfold of_dentry. rewrite Hu. by eapply settled_owes.
Qed.

Lemma wp_legal_mount sb root pd pm : legal (F_mount sb root pd pm) b ->
  wp (fs_exec (F_mount sb root pd pm)) (paid (F_mount sb root pd pm) s) s.
Proof.
  intros (Ev & Hpd & Hr & Hsb). unfold fs_exec. rewrite Ev. cbn [negb].
  eapply wp_mono; [by eapply wp_get_sb|]. unfold paid. cbn [dues].
  intros r s' [(-> & G & _)|[(_ & Hno & _ & G)|(Hge & Hre & _ & b' & H' & Hl' & W')]].
  - rewrite decide_False; [by apply settled_good|]. intros [_ Hre]. by apply interpose_error_neg in Hre.
  - rewrite decide_False; [by apply settled_good|]. intros [? ?]. destruct Hno; [lia|done].
  - rewrite decide_True by done. by eapply settled_owes.
Qed.

Lemma wp_legal_open check u f flags : legal (F_open check u f flags) b ->
  wp (fs_exec (F_open check u f flags)) (paid (F_open check u f flags) s) s.
Proof.
  intros [[[ld m] Hu] Hf]. eapply wp_mono; [by eapply wp_open|]. intros r s' ((b' & H' & Hs) & _). unfold paid. cbn [dues].
  rewrite of_base. unfold of_dentry. rewrite Hu. by eapply settled_same.
Qed.

Lemma wp_legal_statfs u : linked b u -> wp (fs_exec (F_statfs u)) (paid (F_statfs u) s) s.
Proof.
  intros [[ld m] Hu]. unfold paid. cbn [dues]. rewrite of_base. unfold of_dentry. rewrite Hu.
  apply wp_bind. eapply wp_get_lower_dentry; [exact H|exact Hu|]. apply wp_bind. eapply wp_get_ref; [exact H|]. intros s1 H1.
  apply wp_bind. eapply wp_read; [exact H1|done|]. destruct (k_has_statfs K _ _); cbn [negb]; [|apply wp_ret; by eapply settled_holds].
  eapply wp_call; [exact H1|simpl; set_solver|]. intros s2 H2. eapply (settled_same K [ODentry ld] b); [exact H2|by repeat split|done|done].
Qed.

Lemma wp_legal_op op : legal op b -> wp (fs_exec op) (paid op s) s.
Proof.
  destruct op; intros Hop; try (by apply wp_legal_lookup); try (by apply wp_legal_create); try (by apply wp_legal_mount);
    try (by apply wp_legal_open); try (by apply wp_legal_statfs); simpl in *.
  - eapply wp_legal_add; [exact Hop|done|]. intros ld m Hu Hok. eexists. by eapply wp_mknod.
  - eapply wp_legal_add; [exact Hop|done|]. intros ld m Hu Hok. eexists. by eapply wp_mkdir.
  - eapply wp_legal_add; [exact Hop|done|]. intros ld m Hu Hok. eexists. by eapply wp_symlink.
  - destruct Hop as [Hop [[lo mo] Ho]].
    eapply wp_legal_add; [exact Hop|done|]. intros ld m Hu Hok. eexists. by eapply wp_link.
  - destruct Hop as (Hd & [[ld m] Hu] & [i Hi]). eapply wp_keeps; [done|by eapply wp_unlink; [..|by eapply wf_positive]|done].
  - destruct Hop as (Hd & [[ld m] Hu] & [i Hi]). eapply wp_keeps; [done|by eapply wp_rmdir; [..|by eapply wf_positive]|done].
  - destruct Hop as (Ho & Hn & [[ld m] Hu] & [[ld2 m2] Hu2]). eapply wp_keeps; [done|by eapply wp_rename|done].
  - destruct Hop as ([[ld m] Hu] & [i Hi]). eapply wp_paid; [done|by eapply wp_readlink; [..|by eapply wf_positive]|].
    intros out s' (b' & H' & R). by eapply link_read_good.
  - destruct Hop as ([i Hi] & Hr & Hnd). unfold room_for_nul in Hr. destruct (d_fsdata b !! dentry) as [[ld m]|] eqn:Hu; [|done].
    eapply wp_keeps; [done|by eapply wp_follow_link; [..|by eapply wf_positive| |]|by intros r s' []].
  - destruct Hop as [[buf text] Hnd]. eapply (wp_paid _ _ (fun _ => 0%Z)); [done|by eapply wp_put_link|by intros ? s' []].
  - eapply wp_keeps; [done|by eapply wp_permission|done].
  - destruct Hop as ([[ld m] Hu] & [i Hi]). eapply wp_paid; [done|by eapply wp_getattr; [..|by eapply wf_positive]|]. by intros out s' [].
  - unfold lower_coherent in Hop. destruct (d_fsdata b !! dentry) as [[ld m]|] eqn:Hu; [|done].
    destruct (d_inode b !! dentry) as [i|] eqn:Hi; [|done].
    eapply wp_keeps; [done|by eapply wp_setattr; [..|split]|by intros r s' []].
  - destruct Hop as ([[ld m] Hu] & [i Hi]). eapply wp_keeps; [done|by eapply wp_setxattr; [..|by eapply wf_positive]|done].
  - destruct Hop as [[ld m] Hu]. eapply wp_keeps; [done|by eapply wp_getxattr|done].
  - destruct Hop as [[ld m] Hu]. eapply wp_keeps; [done|by eapply wp_listxattr|done].
  - destruct Hop as [[ld m] Hu]. eapply wp_keeps; [done|by eapply wp_removexattr|done].
  - destruct Hop as ([lf Hf] & Hi). eapply wp_keeps; [done|by eapply wp_close_file|by intros r s' (_ & G & _)].
  - destruct Hop as ([[ld m] Hu] & [[lp mp] Hp] & _). eapply wp_keeps; [done|by eapply wp_revalidate|done].
  - eapply (wp_paid _ _ (fun _ => 0%Z)); [done|by eapply wp_free_dentry|done].
  - destruct Hop as [Hi Hno]. eapply (wp_paid _ _ (fun _ => 0%Z)); [done|eapply wp_evict; [done..|]|by intros ? s' []].
    intros u Hu. by apply (Hno u inode Hu).
  - eapply (wp_paid _ _ (fun _ => 0%Z)); [done|by eapply wp_put_super|done].
Qed.
End legal.

(** ** Beside a ledger *)

Lemma legal_bare op s1 s2 : set_refs ∅ s1 = set_refs ∅ s2 -> legal op s1 -> legal op s2.
Proof. intros E Hop. assert (Hb : legal op (set_refs ∅ s1)) by (by destruct op). rewrite E in Hb. by destruct op. Qed.
Lemma dues_bare op s1 s2 r s1' s2' : set_refs ∅ s1 = set_refs ∅ s2 -> set_refs ∅ s1' = set_refs ∅ s2' ->
  dues op s1 r s1' = dues op s2 r s2'.
Proof.
  intros E E'. change (dues op (set_refs ∅ s1) r (set_refs ∅ s1') = dues op (set_refs ∅ s2) r (set_refs ∅ s2')).
  by rewrite E, E'.
Qed.

Lemma wp_legal op l s : settled K (balance l) s -> legal op s ->
  wp (fs_exec op) (fun r s' => settled K (balance (dues op s r s' ++ l)) s') s.
Proof.
  intros S Hop. apply (wp_settled K _ (fun r s' => dues op s r s')); [apply _|intros; by apply dues_bare|].
  destruct (good_holds K _ (settle_good K _ _ S)) as (H & Hl & W).
  apply (legal_bare _ _ (settle l s)), legal_base in Hop; [|symmetry; apply settle_bare].
  eapply wp_mono; [by eapply wp_legal_op|]. intros r s' H'. unfold paid in H'.
  by rewrite (dues_bare op s (settle l s) r s' s') by (done || symmetry; apply settle_bare).
Qed.

Lemma good_unmounted low oom : good K (unmounted low oom).
Proof.
  exists (base (unmounted low oom)). split_and!; [|done|by split; simpl; try done; intros ? []].
  split; [done|]. intros o _. unfold owned. simpl. by rewrite !mcount_empty.
Qed.

Lemma settled_lower low d s : settled K d s -> settled K d (set_lower low s).
Proof. intros [R H W]. split; [exact R|exact H|]. eapply wf_same; [|exact W]. by repeat split. Qed.

Lemma start_settled s : fs_start s -> settled K (balance []) s.
Proof.
  intros [(low & oom & ->)|(_ & low & oom & sb & root & pd & pm & Hpd & E)]; [apply settled_good, good_unmounted|].
  destruct (good_holds K _ (good_unmounted low oom)) as (H & Hl & W).
  assert (Hw : wp (dazukofs_get_sb K false sb root pd pm) _ (unmounted low oom)) by (by eapply wp_get_sb).
  unfold wp in Hw. rewrite E in Hw. destruct Hw as [(_ & G & _)|[(Hr & _)|(_ & Hr & _)]]; [by apply settled_good|done|].
  by apply interpose_error_neg in Hr.
Qed.

Lemma fs_run_settled l s : fs_run l s -> settled K (balance l) s.
Proof.
  induction 1 as [s Hs|l s op r s' _ IH Hop E|l s low _ IH]; [by apply start_settled| |by apply settled_lower].
  pose proof (wp_legal op l s IH Hop) as Hw. unfold wp in Hw. by rewrite E in Hw.
Qed.
End system.
