(* ===== verification/FsTables.v ===== *)
(** * The tables of operations ([inode.c], [file.c], [dentry.c], [super.c], [mmap.c])

    The VFS reaches the code only through the tables the source installs in inodes,
    files, dentries, super blocks and mappings.  A table is the list of the
    operations it names; what is missing the VFS refuses or does itself. *)

From S2P Require Import Prelude EventState FsState FsInode FsSpec FsFile FsSystem.
From stdpp Require Import list gmap.

(** ** [struct inode_operations] *)

Inductive inode_method :=
| I_create | I_lookup | I_link | I_unlink | I_symlink | I_mkdir | I_rmdir | I_mknod | I_rename
| I_readlink | I_follow_link | I_put_link
| I_permission | I_getattr | I_setattr | I_setxattr | I_getxattr | I_listxattr | I_removexattr.
#[export] Instance inode_method_eq_dec : EqDecision inode_method.
Proof. solve_decision. Defined.

Definition dazukofs_symlink_iops : list inode_method :=
  [I_readlink; I_follow_link; I_put_link; I_permission; I_getattr; I_setattr; I_setxattr; I_getxattr; I_listxattr;
   I_removexattr].
Definition dazukofs_dir_iops : list inode_method :=
  [I_create; I_lookup; I_link; I_unlink; I_symlink; I_mkdir; I_rmdir; I_mknod; I_rename; I_permission; I_getattr;
   I_setattr; I_setxattr; I_getxattr; I_listxattr; I_removexattr].
Definition dazukofs_main_iops : list inode_method :=
  [I_permission; I_getattr; I_setattr; I_setxattr; I_getxattr; I_listxattr; I_removexattr].

Definition iops_table (o : iops) : list inode_method :=
  match o with MainOps => dazukofs_main_iops | SymlinkOps => dazukofs_symlink_iops | DirOps => dazukofs_dir_iops end.

(** ** [struct file_operations] *)

Inductive file_method :=
| M_llseek | M_read | M_write | M_readdir | M_unlocked_ioctl | M_compat_ioctl | M_mmap | M_open | M_flush | M_release
| M_fsync | M_fasync.
#[export] Instance file_method_eq_dec : EqDecision file_method.
Proof. solve_decision. Defined.

(** [compat]: compiled with [CONFIG_COMPAT]. *)
Definition dazukofs_main_fops (compat : bool) : list file_method :=
  [M_llseek; M_read; M_write; M_readdir; M_unlocked_ioctl] ++ (if compat then [M_compat_ioctl] else []) ++
  [M_mmap; M_open; M_flush; M_release; M_fsync; M_fasync].
Definition dazukofs_dir_fops (compat : bool) : list file_method :=
  [M_read; M_readdir; M_unlocked_ioctl] ++ (if compat then [M_compat_ioctl] else []) ++
  [M_mmap; M_open; M_flush; M_release; M_fsync; M_fasync].

(** The operations of special files are not those of DazukoFS. *)
Definition fops_table (compat : bool) (o : fops) : list file_method :=
  match o with MainFops => dazukofs_main_fops compat | DirFops => dazukofs_dir_fops compat | SpecialFops => [] end.

(** ** Dentries, super blocks, mappings *)

Inductive other_method :=
| D_revalidate | D_hash | D_release | D_compare
| S_alloc_inode | S_destroy_inode | S_put_super | S_statfs | S_evict_inode
| A_writepage | A_readpage.
#[export] Instance other_method_eq_dec : EqDecision other_method.
Proof. solve_decision. Defined.

Definition dazukofs_dops : list other_method := [D_revalidate; D_hash; D_release; D_compare].
Definition dazukofs_sops : list other_method :=
  [S_alloc_inode; S_destroy_inode; S_put_super; S_statfs; S_evict_inode].
Definition dazukofs_aops : list other_method := [A_writepage; A_readpage].

(** ** Dispatch *)

(** The inode whose table the VFS consults for an operation, and the entry. *)
Definition by_dentry {L} (s : fstate L) (u : ptr) (m : inode_method) : option (ptr * inode_method) :=
  i ← d_inode s !! u; Some (i, m).
Definition inode_entry {L} (op : fs_op) (s : fstate L) : option (ptr * inode_method) :=
  match op with
  | F_lookup dir _ _ _ _ => Some (dir, I_lookup)
  | F_mknod dir _ _ _ _ => Some (dir, I_mknod)
  | F_mkdir dir _ _ _ => Some (dir, I_mkdir)
  | F_create dir _ _ _ _ => Some (dir, I_create)
  | F_symlink dir _ _ _ => Some (dir, I_symlink)
  | F_link _ dir _ _ => Some (dir, I_link)
  | F_unlink dir _ => Some (dir, I_unlink)
  | F_rmdir dir _ => Some (dir, I_rmdir)
  | F_rename old_dir _ _ _ => Some (old_dir, I_rename)
  | F_readlink u _ => by_dentry s u I_readlink
  | F_follow_link u _ _ => by_dentry s u I_follow_link
  | F_permission i _ => Some (i, I_permission)
  | F_getattr u => by_dentry s u I_getattr
  | F_setattr u _ => by_dentry s u I_setattr
  | F_setxattr u _ _ _ _ => by_dentry s u I_setxattr
  | F_getxattr u _ _ _ => by_dentry s u I_getxattr
  | F_listxattr u _ _ => by_dentry s u I_listxattr
  | F_removexattr u _ => by_dentry s u I_removexattr
  | _ => None
  end.

(** The VFS finds the entry. *)
Definition dispatched {L} (op : fs_op) (s : fstate L) : Prop :=
  match inode_entry op s with Some (i, m) => m ∈ iops_table (ops_at (i_op s) i).1 | None => False end.
#[export] Instance dispatched_dec {L} op (s : fstate L) : Decision (dispatched op s).
Proof. unfold dispatched. destruct (inode_entry op s) as [[i m]|]; apply _. Defined.

(** ** What a kind of inode supports *)

(** The operations on names and on links. *)
Definition of_dirs (m : inode_method) : bool :=
  match m with
  | I_create | I_lookup | I_link | I_unlink | I_symlink | I_mkdir | I_rmdir | I_mknod | I_rename => true
  | _ => false
  end.
Definition of_links (m : inode_method) : bool :=
  match m with I_readlink | I_follow_link | I_put_link => true | _ => false end.

(** The operations of DazukoFS that the comment above [dazukofs_dir_fops] calls unused. *)
Definition unused_by_dirs : list file_method := [M_llseek; M_read; M_write].

Section kinds.
Context {L : Type} (K : fs_kernel L).

(** A lower inode of this mode supports the operation. *)
Definition supports (mode : Z) (m : inode_method) : bool :=
  if of_links m then s_islnk K mode
  else if of_dirs m then negb (s_islnk K mode) && s_isdir K mode
  else true.
(** All but what the comment above the table lists as unused, if the inode is a
    directory; of that list [read] is installed all the same. *)
Definition file_supports (compat : bool) (mode : Z) (m : file_method) : bool :=
  negb (special_file K mode) && (compat || bool_decide (m <> M_compat_ioctl)) &&
  (negb (s_isdir K mode) || bool_decide (m ∉ unused_by_dirs \/ m = M_read)).

Lemma iops_of_kind mode m : m ∈ iops_table (kind_ops K mode).1 <-> supports mode m = true.
Proof.
  rewrite <-(bool_decide_eq_true (m ∈ _)). unfold supports, kind_ops, new_ops.
  destruct (s_islnk K mode), (s_isdir K mode), (special_file K mode); by destruct m.
Qed.

Lemma fops_of_kind compat mode m : m ∈ fops_table compat (kind_ops K mode).2 <-> file_supports compat mode m = true.
Proof.
  rewrite <-(bool_decide_eq_true (m ∈ _)). unfold file_supports, kind_ops, new_ops.
  destruct (s_islnk K mode), (s_isdir K mode), (special_file K mode), compat; by destruct m.
Qed.
End kinds.
