(* ===== verification/Guard.v ===== *)
(** * The guarded file system: opens that wait for their access check

    [dazukofs_open] ([file.c]) takes references to the lower dentry and mount, calls
    [dazukofs_check_access] ([event.c]), and goes on with its result.  Here both
    layers run together, as compiled for any kernel version: an open starts a task of
    the event layer and ends with what the task returns; meanwhile other tasks run,
    other operations of the file system are called, and other opens wait.  The event
    layer runs orderly ([EventTasks]); what its tasks can be seen to do, and which
    references the file system leaves behind or misses, is recorded. *)

From S2P Require Import Prelude EventState EventOps EventInv GroupReg EventFlow EventPost.
From S2P Require Import EventTasks EventConc EventMask EventSteps EventRegSteps EventSafe.
From S2P Require Import Vote EventStill EventVote EventVoteSteps.
From S2P Require Import FsState FsInode FsSpec FsFile FsFrame FsInodeSpec FsFileSpec FsLedger FsSystem.
From stdpp Require Import list gmap strings.
Import Vote.

(** ** State *)

(** What became of an access check: nothing was decided yet; it returned at once,
    for want of groups or because the process is ignored; there was no memory for
    the event; the event was posted; or the open is one that a registered process
    makes for an event, while it is masked. *)
Inductive seen :=
| Unseen
| Exempt (groups ign : Z)
| NoMemory
| Posted (evt : loc)
| Masked.

(** An open that waits: its dentry and file, the lower dentry and mount it holds. *)
Record waiting_open := mk_waiting {
  o_dentry : ptr;
  o_file : ptr;
  o_flags : Z;
  o_lower : ptr * ptr;
  o_seen : seen
}.
(** An open that has returned. *)
Record opened := mk_opened { e_file : ptr; e_dentry : ptr; e_seen : seen; e_result : Z }.

(** Both layers, the waiting opens by the task of their check, all opens that have
    returned, what could be seen of the event layer, and the ledger of the file
    system; the last three with the latest first. *)
Record gstate (L : Type) := mk_guard {
  g_ev : sys;
  g_fs : fstate L;
  g_opens : gmap positive waiting_open;
  g_log : list opened;
  g_acts : list act;
  g_ledger : ledger
}.
Arguments mk_guard {L}. Arguments g_ev {L}. Arguments g_fs {L}. Arguments g_opens {L}. Arguments g_log {L}.
Arguments g_acts {L}. Arguments g_ledger {L}.

(** ** Steps *)

(** What a step of the check from [p] to [p'] decides. *)
Definition note (s : kstate) (env : env) (cur : ptr) (p p' : pc) (x : seen) : seen :=
  match p, p' with
  | CA_enter _ _, Done _ _ => Exempt (group_count s) (e_ign env cur)
  | CA_alloc _ _, Done _ _ => NoMemory
  | CA_alloc _ _, CA_assign evt _ => Posted evt
  | _, _ => x
  end.
Definition with_seen (x : seen) (o : waiting_open) : waiting_open :=
  mk_waiting (o_dentry o) (o_file o) (o_flags o) (o_lower o) x.
Definition noted (t : positive) (env : env) (σ σ' : sys) (opens : gmap positive waiting_open) : gmap positive waiting_open :=
  match tasks σ !! t, tasks σ' !! t with
  | Some (cur, p), Some (_, p') => alter (fun o => with_seen (note (mem σ) env cur p p' (o_seen o)) o) t opens
  | _, _ => opens
  end.

(** The dentry of the event in a container, which [open_file] opens. *)
Definition event_dentry (s : kstate) (ec : loc) : option ptr :=
  match containers s !! ec with
  | Some C =>
      match ec_event C with
      | Some evt => match events s !! evt with Some e => Some (evt_dentry e) | None => None end
      | None => None
      end
  | None => None
  end.
(** [dentry_open] went on to [dazukofs_open] and returned what that did. *)
Definition dentry_opened (oe : open_env) (file : ptr) (r : Z) : Prop :=
  oe_checks_access oe = true /\ oe_dentry_open oe = (if decide (r = 0%Z) then file else r).
#[export] Instance dentry_opened_dec oe file r : Decision (dentry_opened oe file r).
Proof. unfold dentry_opened. apply _. Defined.

(** What happens next: a task of the event layer runs, starts or ends; the VFS opens
    a file, or its open goes on after the check; [open_file] opens the file of an
    event for a registered process, which is masked; the VFS calls another operation;
    the lower file system changes. *)
Inductive gcmd (L : Type) :=
| G_run (t : positive) (env : env)
| G_spawn (t : positive) (cur : ptr) (p : pc)
| G_exit (t : positive)
| G_open (t : positive) (cur u mnt file flags : ptr)
| G_opened (t : positive)
| G_nested (t : positive) (file flags : ptr)
| G_fs (op : fs_op)
| G_lower (l : L).
Arguments G_run {L}. Arguments G_spawn {L}. Arguments G_exit {L}. Arguments G_open {L}. Arguments G_opened {L}.
Arguments G_nested {L}. Arguments G_fs {L}. Arguments G_lower {L}.

Section guard.
Context {L : Type} (K : fs_kernel L) (v : Z).
Implicit Types (S : gstate L).

Definition is_check (p : pc) : bool := match p with CA_enter _ _ => true | _ => false end.
Definition is_open (op : fs_op) : bool := match op with F_open _ _ _ _ => true | _ => false end.

(** The VFS opens a new file on a dentry of DazukoFS. *)
Definition may_open S (u file : ptr) : Prop :=
  linked (g_fs S) u /\ no_file (g_fs S) file /\ map_Forall (fun _ o => o_file o <> file) (g_opens S).
#[export] Instance may_open_dec S u file : Decision (may_open S u file).
Proof. unfold may_open, linked, no_file. apply _. Defined.

Definition gexec1 (c : gcmd L) S : option (gstate L) :=
  match c with
  | G_run t env =>
      match oexec1 (Run t env) (g_ev S) with
      | Some σ' =>
          Some (mk_guard σ' (g_fs S) (noted t env (g_ev S) σ' (g_opens S)) (g_log S)
                  (seen_in (Run t env) (g_ev S) ++ g_acts S) (g_ledger S))
      | None => None
      end
  | G_spawn t cur p =>
      if is_check p then None
      else match oexec1 (Spawn t cur p) (g_ev S) with
           | Some σ' => Some (mk_guard σ' (g_fs S) (g_opens S) (g_log S) (g_acts S) (g_ledger S))
           | None => None
           end
  | G_exit t =>
      if decide (g_opens S !! t = None) then
        match oexec1 (Exit t) (g_ev S) with
        | Some σ' => Some (mk_guard σ' (g_fs S) (g_opens S) (g_log S) (g_acts S) (g_ledger S))
        | None => None
        end
      else None
  | G_open t cur u mnt file flags =>
      if decide (may_open S u file) then
        match oexec1 (Spawn t cur (CA_enter u mnt)) (g_ev S), open_before u (g_fs S) with
        | Some σ', Ret lw fs' =>
            Some (mk_guard σ' fs' (<[t := mk_waiting u file flags lw Unseen]> (g_opens S)) (g_log S) (g_acts S) (g_ledger S))
        | _, _ => None
        end
      else None
  | G_opened t =>
      match g_opens S !! t, tasks (g_ev S) !! t with
      | Some o, Some (_, Done err _) =>
          let takes_over := before v 3 6 0 in
          let lw := o_lower o in
          match oexec1 (Exit t) (g_ev S), open_after K takes_over err lw.1 lw.2 (o_file o) (o_flags o) (g_fs S) with
          | Some σ', Ret r fs' =>
              Some (mk_guard σ' fs' (delete t (g_opens S)) (mk_opened (o_file o) (o_dentry o) (o_seen o) r :: g_log S)
                      (g_acts S) (each 1 (left_open takes_over err lw.1 lw.2 (g_fs S)) ++ g_ledger S))
          | _, _ => None
          end
      | _, _ => None
      end
  | G_nested t file flags =>
      match tasks (g_ev S) !! t with
      | Some (_, GE_end _ ec _ oe) =>
          match event_dentry (mem (g_ev S)) ec with
          | Some u =>
              if decide (may_open S u file) then
                let op := F_open 0 u file flags in
                match fs_exec K v op (g_fs S) with
                | Ret r fs' =>
                    if decide (dentry_opened oe file r) then
                      Some (mk_guard (g_ev S) fs' (g_opens S) (mk_opened file u Masked r :: g_log S) (g_acts S)
                              (dues v op (g_fs S) r fs' ++ g_ledger S))
                    else None
                | Stuck _ => None
                end
              else None
          | None => None
          end
      | _ => None
      end
  | G_fs op =>
      if is_open op then None
      else if decide (legal K v op (g_fs S)) then
        match fs_exec K v op (g_fs S) with
        | Ret r fs' =>
            Some (mk_guard (g_ev S) fs' (g_opens S) (g_log S) (g_acts S) (dues v op (g_fs S) r fs' ++ g_ledger S))
        | Stuck _ => None
        end
      else None
  | G_lower l => Some (mk_guard (g_ev S) (set_lower l (g_fs S)) (g_opens S) (g_log S) (g_acts S) (g_ledger S))
  end.

Fixpoint gexec (cs : list (gcmd L)) S : option (gstate L) :=
  match cs with [] => Some S | c :: cs => match gexec1 c S with Some S' => gexec cs S' | None => None end end.

Definition guard_init (fs : fstate L) : gstate L := mk_guard init_sys fs ∅ [] [] [].
Definition guarded S : Prop := exists fs cs, fs_start K v fs /\ gexec cs (guard_init fs) = Some S.
End guard.

(** ** What an access check has decided *)

(** The event is gone for good. *)
Definition closed (s : kstate) (evt : loc) : Prop := events s !! evt = None /\ (evt < next s)%positive.

(** In a history of the event layer: some registered process answered the event with
    DENY; the event was posted, and every group it was posted to has answered it or
    was deleted. *)
Definition denied_by (acts : list act) (evt : loc) : Prop := exists g, Answer evt g true ∈ since evt acts.
Definition finished (acts : list act) (evt : loc) : Prop :=
  (exists gs, Post evt gs ∈ acts) /\
  forall g, g ∈ asked evt acts -> Withdraw g ∈ since evt acts \/ exists d, Answer evt g d ∈ since evt acts.

(** A check with the outcome [x] returned [err]. *)
Definition verdict_ok (acts : list act) (s : kstate) (x : seen) (err : Z) : Prop :=
  match x with
  | Unseen => False
  | Exempt n ign => err = 0%Z /\ (n = 0%Z \/ ign = 0%Z)
  | NoMemory => err = (- ENOMEM)%Z
  | Posted evt => closed s evt /\ finished acts evt /\
      (err = (- EPERM)%Z /\ denied_by acts evt \/ err = 0%Z /\ ~ denied_by acts evt)
  | Masked => err = 0%Z
  end.

Definition access_ok (acts : list act) (s : kstate) (p : pc) (x : seen) : Prop :=
  match p with
  | CA_enter _ _ | CA_alloc _ _ => x = Unseen
  | CA_assign evt _ | CA_wait evt | CA_sleep evt | CA_verdict evt | CA_release evt _ => x = Posted evt
  | Done err _ => verdict_ok acts s x err
  | _ => False
  end.

(** What is still to be seen does not touch an event that is gone. *)
Definition spares (s : kstate) (new : list act) : Prop :=
  forall e a, events s !! e = None -> a ∈ new -> ~ posts e a /\ forall g d, a <> Answer e g d.

Lemma denied_by_app acts new evt : (forall a, a ∈ new -> ~ posts evt a /\ forall g d, a <> Answer evt g d) ->
  denied_by (new ++ acts) evt <-> denied_by acts evt.
Proof.
  intros H. unfold denied_by. rewrite since_app by (intros a Ha; by apply H).
  split; intros [g Hg]; exists g; [|by apply elem_of_app; right].
  apply elem_of_app in Hg as [Hg|Hg]; [|done]. by destruct (proj2 (H _ Hg) g true).
Qed.
Lemma finished_app acts new evt : (forall a, a ∈ new -> ~ posts evt a) -> finished acts evt -> finished (new ++ acts) evt.
Proof.
  intros H [[gs Hp] Hf]. split; [exists gs; by apply elem_of_app; right|]. rewrite since_app, asked_app by done.
  intros g Hg. destruct (Hf g Hg) as [?|[d ?]]; [left|right; exists d]; by apply elem_of_app; right.
Qed.

Lemma verdict_ok_frame y s s' acts new x err : ev_frame y s s' -> spares s new -> verdict_ok acts s x err -> verdict_ok (new ++ acts) s' x err.
Proof.
  intros [_ B (calls & E & Hr & _) N] Hs. destruct x as [| | |evt|]; try done. intros ([Hn Hlt] & Hf & Hv).
  assert (Hsp : forall a, a ∈ new -> ~ posts evt a /\ forall g d, a <> Answer evt g d) by (intros a; by apply Hs).
  split_and!; [|apply finished_app; [intros a Ha; by apply Hsp|done]|by rewrite denied_by_app].
  split; [|lia]. destruct (events s' !! evt) eqn:Ee; [|done]. destruct (B evt) as [[? ?]|?]; [by eexists|congruence|lia].
Qed.

(** ** Steps of the event layer *)

(** What a step of a task does, as a run can see it. *)
Record ran (acts : list act) (t : positive) (env : env) (σ σ' : sys) (cur : ptr) (p p' : pc) (s' : kstate) : Prop := {
  rn_task : tasks σ !! t = Some (cur, p);
  rn_enabled : enabled (tasks σ) p env;
  rn_orderly : orderly (tasks σ) (mem σ) p;
  rn_action : action cur env p (set_oom (e_oom env) (mem σ)) = Ret p' s';
  rn_ok : step_ok (tasks σ) t cur p (set_oom (e_oom env) (mem σ)) p' s';
  rn_next : σ' = mk_sys (wake (new_calls (mem σ) s') <$> <[t:=(cur, p')]> (tasks σ)) s';
  rn_seen : seen_in (Run t env) σ = shows (mem σ) s' p p';
  rn_spares : spares (mem σ) (shows (mem σ) s' p p')
}.

Lemma oexec1_ran acts t env σ σ' : traced orderly acts σ -> oexec1 (Run t env) σ = Some σ' ->
  exists cur p p' s', ran acts t env σ σ' cur p p' s'.
Proof.
  intros H [Ho E]%oexec1_exec1. pose proof (inv_reachable σ (traced_reachable _ _ _ H)) as V. simpl in Ho, E. unfold run in E.
  destruct (tasks σ !! t) as [[cur p]|] eqn:Ht; [|done]. case_decide as En; [|done].
  set (s := set_oom (e_oom env) (mem σ)) in *. destruct (action cur env p s) as [p' s'|w] eqn:Ea; [|done]. injection E as <-.
  exists cur, p, p', s'. split; try done.
  - assert (Hwp : wp (action cur env p) (step_ok (tasks σ) t cur p s) s).
    { apply action_ok; try done; [by apply sys_inv_oom|]. intros g ec Hu.
      destruct (containers s !! ec) as [C|] eqn:HC; [done|]. by rewrite (action_freed cur s env p g ec) in Ea. }
    unfold wp in Hwp. by rewrite Ea in Hwp.
  - unfold seen_in. rewrite Ht. fold s. by rewrite Ea.
  - intros e a He Ha. by eapply (traced_gone acts σ t cur p env p' s').
Qed.

Lemma oexec1_traced c acts σ σ' : traced orderly acts σ -> oexec1 c σ = Some σ' -> traced orderly (seen_in c σ ++ acts) σ'.
Proof. intros H E. pose proof (watch_traced [c] acts σ σ' H) as W. simpl in W. rewrite E in W. by apply W. Qed.

(** The positions of an access check are not changed by its own wake-up, but for
    falling asleep. *)
Lemma access_wake acts s new cur p x : access_ok acts s p x -> access_ok acts s (wake new (cur, p)).2 x.
Proof. destruct p; try done. unfold wake. simpl. by case_match. Qed.

Lemma precheck_exempt T s t cur d m ign n :
  sys_inv T s -> T !! t = Some (cur, CA_enter d m) ->
  wp (check_access_precheck ign cur n) (fun r _ => r <> 0%Z -> n = 0%Z \/ ign cur = 0%Z) s.
Proof.
  intros V Ht. unfold check_access_precheck. case_decide as Hn; [apply wp_ret; auto|].
  apply wp_bind. eapply wp_mono; [by eapply (wp_check_recursion_absent T s t cur (CA_enter d m)); [apply V|..]|].
  intros r s' (-> & _). rewrite decide_False by done. case_decide; apply wp_ret; auto. done.
Qed.

(** The end of a check that was put to a vote. *)
Lemma closed_vote acts σ t cur evt err s' l : traced orderly acts σ -> tasks σ !! t = Some (cur, CA_release evt err) ->
  (forall a, a ∈ l -> ~ posts evt a /\ forall g d, a <> Answer evt g d) -> closed s' evt ->
  verdict_ok (l ++ acts) s' (Posted evt) err.
Proof.
  intros H Ht Hl Hc. destruct (traced_decision acts σ t cur evt err H Ht) as (Hv & _ & Hg). split_and!; [done| |].
  - apply finished_app; [intros a Ha; by apply Hl|]. split; [|intros g; apply Hg].
    eapply traced_posted; [exact H|]. by exists t, (cur, CA_release evt err).
  - rewrite denied_by_app by done. destruct Hv as [[? ?]|[? Hn]]; [by left|right]. split; [done|]. intros [g Hg']. by eapply Hn.
Qed.

(** The step of the check itself. *)
Lemma access_step acts t env σ σ' cur p p' s' x : traced orderly acts σ -> ran acts t env σ σ' cur p p' s' ->
  access_ok acts (mem σ) p x -> access_ok (shows (mem σ) s' p p' ++ acts) s' p' (note (mem σ) env cur p p' x).
Proof.
  intros H [Ht En _ E _ _ _ _] Hx. pose proof (inv_reachable σ (traced_reachable _ _ _ H)) as V.
  apply (sys_inv_oom _ _ (e_oom env)) in V. set (s := set_oom (e_oom env) (mem σ)) in *. change (group_count (mem σ)) with (group_count s).
  destruct p; try done; simpl in Hx; cbn in E.
  - pose proof (precheck_exempt _ s t cur dentry mnt (e_ign env) (group_count s) V Ht) as Hw. unfold wp in Hw.
    unfold sbind, sget in E. destruct (check_access_precheck _ _ _ _) as [r s1|]; [|done]. injection E as <- <-.
    case_decide as Hr; [|done]. simpl. split; [done|]. by apply Hw.
  - unfold sbind in E. destruct (check_access_alloc _ _ _ _) as [[[evt ecs]|] s1|]; [| |done]; by injection E as <- <-.
  - unfold sbind in E. destruct (assign_event_to_groups _ _ _) as [[] s1|]; [|done]. by injection E as <- <-.
  - unfold sbind in E. destruct (event_assigned _ _) as [n s1|]; [|done]. injection E as <- <-. by case_decide.
  - unfold sbind in E. destruct (check_access_verdict _ _) as [n s1|]; [|done]. by injection E as <- <-.
  - destruct (si_pc _ _ V t _ Ht) as (ev & He & Ha & Herr).
    destruct (m_bounded _ _ (proj1 (si_grp _ _ V))) as (_ & _ & Hb). specialize (Hb evt ltac:(by eexists)).
    unfold sbind in E. rewrite (run_release_owner evt ev s He Ha) in E. injection E as <- <-. subst x.
    eapply closed_vote; [exact H|exact Ht| |split; [simpl; apply lookup_delete_eq|exact Hb]].
    intros a ->%list_elem_of_singleton. split; [by intros []|done].
Qed.

Lemma access_ok_frame y acts new s s' p x : ev_frame y s s' -> spares s new -> access_ok acts s p x -> access_ok (new ++ acts) s' p x.
Proof. intros F Hn. destruct p; try done. by apply (verdict_ok_frame y). Qed.

(** One step of the event layer, for all waiting opens. *)
Definition checks_ok (acts : list act) (σ : sys) (opens : gmap positive waiting_open) : Prop := forall t o, opens !! t = Some o ->
  exists cur p, tasks σ !! t = Some (cur, p) /\ access_ok acts (mem σ) p (o_seen o).

Lemma step_ev_frame T t cur p s p' s' : step_ok T t cur p s p' s' -> exists y, ev_frame y s s'.
Proof. intros K. eexists. apply (so_frame _ _ _ _ _ _ _ K). Qed.

Lemma checks_run acts t env σ σ' opens : traced orderly acts σ -> oexec1 (Run t env) σ = Some σ' -> checks_ok acts σ opens ->
  let acts' := seen_in (Run t env) σ ++ acts in
  checks_ok acts' σ' (noted t env σ σ' opens) /\
  (forall x err, verdict_ok acts (mem σ) x err -> verdict_ok acts' (mem σ') x err).
Proof.
  intros H E C. destruct (oexec1_ran acts t env σ σ' H E) as (cur & p & p' & s' & R).
  pose proof (rn_task _ _ _ _ _ _ _ _ _ R) as Ht. pose proof (rn_ok _ _ _ _ _ _ _ _ _ R) as Hs.
  pose proof (rn_next _ _ _ _ _ _ _ _ _ R) as ->. pose proof (rn_spares _ _ _ _ _ _ _ _ _ R) as Hn.
  rewrite (rn_seen _ _ _ _ _ _ _ _ _ R). cbv zeta. set (new := new_calls (mem σ) s').
  destruct (step_ev_frame _ _ _ _ _ _ _ Hs) as [y F0]. assert (F : ev_frame y (mem σ) s') by (destruct F0; by split).
  split; [|intros x err Hv; by apply (verdict_ok_frame y (mem σ) s')].
  assert (Hother : forall t' o, t' <> t -> opens !! t' = Some o -> exists cur' q,
    (wake new <$> <[t:=(cur, p')]> (tasks σ)) !! t' = Some (cur', q) /\ access_ok (shows (mem σ) s' p p' ++ acts) s' q (o_seen o)).
  { intros t' o Hne Ho. destruct (C t' o Ho) as (c & q & Hq & Hx). exists (wake new (c, q)).1, (wake new (c, q)).2.
    rewrite lookup_fmap, lookup_insert_ne, Hq by congruence. split; [simpl; by rewrite <-surjective_pairing|].
    apply access_wake. by apply (access_ok_frame y acts _ (mem σ)). }
  intros t' o'. unfold noted. simpl. rewrite Ht, lookup_fmap, lookup_insert_eq. simpl.
  destruct (wake new (cur, p')) as [c0 q0] eqn:Ew. destruct (decide (t' = t)) as [->|Hne].
  - rewrite lookup_alter_eq. destruct (opens !! t) as [o|] eqn:Ho; simpl; [|done]. intros [= <-].
    destruct (C t o Ho) as (c & q & Hq & Hx). rewrite Ht in Hq. injection Hq as <- <-. exists c0, q0.
    rewrite lookup_fmap, lookup_insert_eq. simpl. rewrite Ew. split; [done|].
    pose proof (access_step acts t env σ _ cur p p' s' (o_seen o) H R Hx) as Hstep.
    pose proof (access_wake _ s' new cur p' _ Hstep) as Hw. rewrite Ew in Hw. simpl in Hw.
    assert (En : note (mem σ) env cur p q0 (o_seen o) = note (mem σ) env cur p p' (o_seen o)).
    { assert (q0 = (wake new (cur, p')).2) as -> by (by rewrite Ew).
      destruct p, p'; try done; unfold wake; simpl; try done; by destruct (wakes _ _). }
    by rewrite En.
  - rewrite lookup_alter_ne by done. by apply Hother.
Qed.
