(* ===== verification/GuardInv.v ===== *)
(** * The guarded file system: invariant

    What waiting opens hold, what became of their checks and which files are open, in
    every state that the product of the event layer and the file system reaches. *)

From S2P Require Import Prelude EventState EventOps EventInv GroupReg EventFlow EventPost EventTasks EventConc EventMask EventSteps EventRegSteps EventSafe Vote EventStill EventVote EventVoteSteps FsState FsInode FsSpec FsFile FsFrame FsInodeSpec FsFileSpec FsLedger FsSystem Guard.
From stdpp Require Import list gmap strings.
Import Vote.

(** ** What waiting opens hold *)

Definition held_by (o : waiting_open) : list obj := [OMnt (o_lower o).2; ODentry (o_lower o).1].
Definition waiting_refs (opens : gmap positive waiting_open) : list obj := map_to_list opens ≫= (fun x => held_by x.2).

Lemma waiting_refs_cons t o opens l : map_to_list opens ≡ₚ (t, o) :: l ->
  waiting_refs opens ≡ₚ held_by o ++ l ≫= (fun x => held_by x.2).
Proof. intros E. unfold waiting_refs. by rewrite E. Qed.

Lemma waiting_insert t o opens : opens !! t = None -> waiting_refs (<[t := o]> opens) ≡ₚ held_by o ++ waiting_refs opens.
Proof. intros Ho. by apply (waiting_refs_cons t), map_to_list_insert. Qed.

Lemma waiting_delete t o opens : opens !! t = Some o -> waiting_refs opens ≡ₚ held_by o ++ waiting_refs (delete t opens).
Proof. intros Ho. apply (waiting_refs_cons t). symmetry. by apply map_to_list_delete. Qed.

Lemma waiting_alter f t opens : (forall o, held_by (f o) = held_by o) -> waiting_refs (alter f t opens) ≡ₚ waiting_refs opens.
Proof.
  intros Hf. destruct (opens !! t) as [o|] eqn:Ho.
  - rewrite (waiting_delete t o opens), (waiting_delete t (f o)) by (by rewrite ?lookup_alter_eq, ?Ho).
    by rewrite delete_alter_eq, Hf.
  - by rewrite alter_id by (intros x; congruence).
Qed.

Lemma noted_lookup t env σ σ' opens t' o' : noted t env σ σ' opens !! t' = Some o' ->
  exists o, opens !! t' = Some o /\ o_file o' = o_file o /\ o_lower o' = o_lower o.
Proof.
  unfold noted. intros H. assert (Hold : opens !! t' = Some o' -> exists o, opens !! t' = Some o /\ o_file o' = o_file o /\ o_lower o' = o_lower o)
    by eauto.
  repeat case_match; auto. apply lookup_alter_Some in H as [(<- & o & Ho & ->)|[_ Ho]]; eauto.
Qed.
Lemma waiting_noted t env σ σ' opens : waiting_refs (noted t env σ σ' opens) ≡ₚ waiting_refs opens.
Proof. unfold noted. repeat case_match; try done. by apply waiting_alter. Qed.

(** ** The files *)

Section files.
Context {L : Type} (K : fs_kernel L) (v : Z) (laws : kernel_laws K).
Implicit Types (s fs : fstate L) (opens : gmap positive waiting_open) (log : list opened) (led : ledger).

(** The open that returned last for a file. *)
Definition last_open log (f : ptr) : option opened := head (filter (fun e => e_file e = f) log).

Lemma last_open_cons log e f : last_open (e :: log) f = if decide (e_file e = f) then Some e else last_open log f.
Proof. unfold last_open. by case_decide as He; [rewrite filter_cons_True|rewrite filter_cons_False]. Qed.

Lemma last_open_elem log f e : last_open log f = Some e -> e ∈ log.
Proof.
  induction log as [|x log IH]; [done|]. rewrite last_open_cons. case_decide; [intros [= ->]; left|]. intros He. right. by apply IH.
Qed.

(** The file system beside waiting opens: they hold references, and so do those the
    ledger says were left behind. *)
Record files_inv fs opens log led : Prop := {
  fi_good : settled K (balance (each 1 (waiting_refs opens) ++ led)) fs;
  fi_free : forall t o, opens !! t = Some o -> no_file fs (o_file o);
  fi_inj : forall t o t' o', opens !! t = Some o -> opens !! t' = Some o' -> o_file o = o_file o' -> t = t';
  fi_open : forall f lf, files fs !! f = Some lf -> lf <> NULL -> exists e, last_open log f = Some e /\ e_result e = 0%Z
}.

Lemma no_file_subseteq fs fs' f : files fs' ⊆ files fs -> no_file fs f -> no_file fs' f.
Proof.
  unfold no_file. intros Hs Hf. destruct (files fs' !! f) as [lf|] eqn:E; [|done].
  by rewrite (lookup_weaken _ _ _ _ E Hs) in Hf.
Qed.

(** What keeps the files keeps the invariant. *)
Lemma fi_keep fs fs' opens log led led' : files_inv fs opens log led ->
  settled K (balance (each 1 (waiting_refs opens) ++ led')) fs' -> files fs' ⊆ files fs -> files_inv fs' opens log led'.
Proof.
  intros [G F I O] G' Hs. split; [done| |done|].
  - intros t o Ho. by eapply no_file_subseteq, F.
  - intros f lf Hf. apply (O f). by eapply lookup_weaken.
Qed.

Lemma settled_perm l l' fs : l ≡ₚ l' -> settled K (balance l) fs -> settled K (balance l') fs.
Proof. intros E. apply settled_ext. intros o _. by rewrite E. Qed.

Lemma fi_noted t env σ σ' fs opens log led : files_inv fs opens log led -> files_inv fs (noted t env σ σ' opens) log led.
Proof.
  intros [G F I O]. split; [|..|done].
  - eapply settled_perm; [|exact G]. unfold each. by rewrite waiting_noted.
  - intros t' o' (o & Ho & -> & _)%noted_lookup. by eapply F.
  - intros t1 o1 t2 o2 (o & Ho & -> & _)%noted_lookup (o' & Ho' & -> & _)%noted_lookup. by eapply I.
Qed.

(** What [hs] more are held before and [hs'] after, beside a ledger. *)
Lemma beside_holds {A} (m : FM L A) (Q : A -> fstate L -> Prop) (hs' : A -> list obj) l fs : Framed m ->
  wp m (fun a s' => Q a (set_refs ∅ s') /\ exists b', holds (hs' a) b' s' /\ locks b' = [] /\ wf K b') (settle l fs) ->
  wp m (fun a s' => Q a (set_refs ∅ s') /\ settled K (balance (each 1 (hs' a) ++ l)) s') fs.
Proof.
  intros Hm Hw. eapply wp_mono; [by apply wp_beside|]. intros a s' (s0' & (HQ & b' & H' & Hl & W) & D).
  split; [by rewrite (df_base _ _ _ D)|]. eapply settled_ext; [|eapply settled_differ; [exact D|by eapply settled_holds]].
  intros o _. by rewrite balance_app.
Qed.

Lemma fi_before t u file flags x lw fs fs' opens log led : files_inv fs opens log led -> opens !! t = None -> linked fs u ->
  no_file fs file -> map_Forall (fun _ o => o_file o <> file) opens -> open_before u fs = Ret lw fs' ->
  files_inv fs' (<[t := mk_waiting u file flags lw x]> opens) log led /\ files fs' = files fs.
Proof.
  intros [G F I O] Ht [[ld m] Hu] Hf Hn E. destruct (settle_holds K led (waiting_refs opens) fs G) as (H & Hl & W).
  assert (Hw : wp (open_before u) (fun r s' => (r = (ld, m) /\ files s' = files fs) /\
    settled K (balance (each 1 (OMnt m :: ODentry ld :: waiting_refs opens) ++ led)) s') fs).
  { apply (beside_holds (open_before u) (fun r s' => r = (ld, m) /\ files s' = files fs)
      (fun _ => OMnt m :: ODentry ld :: waiting_refs opens)); [apply _|].
    eapply wp_mono; [by eapply (wp_open_before (base fs)); [exact H|]|]. intros r s' [-> H'].
    split; [split; [done|]|by exists (base fs)]. change (files (base s') = files fs). by rewrite (holds_base _ _ _ H'). }
  unfold wp in Hw. rewrite E in Hw. destruct Hw as [[-> Ef] G'].
  split; [|done]. split; unfold no_file; rewrite ?Ef; [|..|done].
  - eapply settled_perm; [|exact G']. unfold each. by rewrite (waiting_insert t).
  - intros t' o [[<- <-]|[_ Ho]]%lookup_insert_Some; [done|by eapply F].
  - intros t1 o1 t2 o2 [[<- <-]|[? H1]]%lookup_insert_Some [[<- <-]|[? H2]]%lookup_insert_Some; simpl; [done|..|by eapply I].
    + intros Hx. by destruct (Hn t2 o2 H2).
    + intros Hx. by destruct (Hn t1 o1 H1).
Qed.

(** What an open does after its check, beside other opens and the ledger. *)
Definition opened_post (takes_over : bool) (check : Z) (o : waiting_open) fs opens led (r : Z) fs' : Prop :=
  ((check <> 0%Z -> r = check) /\
   (r <> 0%Z -> files fs' = files fs \/ files fs' = <[o_file o := NULL]> (files fs)) /\
   (r = 0%Z -> exists lf, files fs' = <[o_file o := lf]> (files fs))) /\
  settled K (balance (each 1 (left_open takes_over check (o_lower o).1 (o_lower o).2 fs ++ waiting_refs opens) ++ led)) fs'.

Lemma wp_after takes_over t o check fs opens log led : files_inv fs opens log led -> opens !! t = Some o ->
  wp (open_after K takes_over check (o_lower o).1 (o_lower o).2 (o_file o) (o_flags o))
    (opened_post takes_over check o fs (delete t opens) led) fs.
Proof.
  intros [G F _ _] Ho.
  assert (G1 : settled K (balance (each 1 (held_by o ++ waiting_refs (delete t opens)) ++ led)) fs).
  { eapply settled_perm; [|exact G]. unfold each. by rewrite (waiting_delete t o). }
  destruct (settle_holds K led _ fs G1) as (H & Hl & W).
  apply (beside_holds _ (fun r s' => (check <> 0%Z -> r = check) /\
    (r <> 0%Z -> files s' = files fs \/ files s' = <[o_file o := NULL]> (files fs)) /\
    (r = 0%Z -> exists lf, files s' = <[o_file o := lf]> (files fs)))
    (fun _ => left_open takes_over check (o_lower o).1 (o_lower o).2 fs ++ waiting_refs (delete t opens))); [apply _|].
  eapply wp_mono; [apply (wp_open_after K (base fs) takes_over check _ _ (o_file o) (o_flags o) _ _ H); by apply (F t)|].
  intros r s' ((b' & H' & Hsame & Ef) & Hc & Hbad & Hok). split.
  - split_and!; [intros Hne; by apply Hc|exact Hbad|]. intros Hr. destruct (Hok Hr) as (lf & E & _). by exists lf.
  - exists b'. split_and!; [|by rewrite (proj1 Hsame)|by eapply wf_same].
    assert (Eo : next_fails (settle led fs) = next_fails fs).
    { change (next_fails (set_refs ∅ (settle led fs)) = next_fails (set_refs ∅ fs)). by rewrite settle_bare. }
    unfold left_open in H' |- *. by rewrite Eo in H'.
Qed.

Lemma fi_after takes_over t o check r d x fs fs' opens log led : files_inv fs opens log led -> opens !! t = Some o ->
  open_after K takes_over check (o_lower o).1 (o_lower o).2 (o_file o) (o_flags o) fs = Ret r fs' ->
  files_inv fs' (delete t opens) (mk_opened (o_file o) d x r :: log)
    (each 1 (left_open takes_over check (o_lower o).1 (o_lower o).2 fs) ++ led) /\ (check <> 0%Z -> r = check).
Proof.
  intros V Ho E. pose proof (wp_after takes_over t o check fs opens log led V Ho) as Hw. unfold wp in Hw. rewrite E in Hw.
  destruct V as [_ F I O], Hw as [(Hc & Hbad & Hok) G]. split; [|done]. pose proof (F t o Ho) as Hf.
  assert (Hother : forall f, f <> o_file o -> files fs' !! f = files fs !! f).
  { intros f Hne. destruct (decide (r = 0%Z)) as [Hr|Hr].
    - destruct (Hok Hr) as (lf & ->). by rewrite lookup_insert_ne by done.
    - destruct (Hbad Hr) as [->| ->]; by rewrite ?lookup_insert_ne by done. }
  split.
  - eapply settled_perm; [|exact G]. unfold each. rewrite fmap_app. solve_Permutation.
  - intros t' o' [Hne Ho']%lookup_delete_Some. unfold no_file. rewrite Hother; [by eapply F|]. intros Hx. by eapply Hne, I.
  - intros t1 o1 t2 o2 [_ H1]%lookup_delete_Some [_ H2]%lookup_delete_Some. by eapply I.
  - intros f lf Hlf Hnn. rewrite last_open_cons. simpl. case_decide as Hx; [subst f|rewrite Hother in Hlf by done; by eapply O].
    eexists. split; [done|]. simpl. destruct (decide (r = 0%Z)) as [|Hr]; [done|]. exfalso. apply Hnn.
    destruct (Hbad Hr) as [Ex|Ex]; rewrite Ex in Hlf; [|rewrite lookup_insert_eq in Hlf; by injection Hlf].
    unfold no_file in Hf. by rewrite Hlf in Hf.
Qed.

Lemma fi_nested u file flags r fs fs' opens log led : files_inv fs opens log led -> linked fs u -> no_file fs file ->
  map_Forall (fun _ o => o_file o <> file) opens -> fs_exec K v (F_open 0 u file flags) fs = Ret r fs' ->
  files_inv fs' opens (mk_opened file u Masked r :: log) (dues v (F_open 0 u file flags) fs r fs' ++ led).
Proof.
  intros V Hu Hf Hn E. simpl in E. unfold dazukofs_open, sbind in E.
  destruct (open_before u fs) as [lw fs1|] eqn:E1; [|done]. set (t := fresh (dom opens)).
  assert (Ht : opens !! t = None) by (apply not_elem_of_dom, is_fresh).
  destruct (fi_before t u file flags Masked lw fs fs1 opens log led V Ht Hu Hf Hn E1) as [V1 _].
  assert (El : dues v (F_open 0 u file flags) fs r fs' = each 1 (left_open (before v 3 6 0) 0 lw.1 lw.2 fs1)).
  { assert (Elw : d_fsdata fs !! u = Some lw).
    { revert E1. unfold open_before, sbind, get_lower_dentry, get_lower_mnt, get_ref, smodify, sret.
      destruct (d_fsdata fs !! u) as [[ld m]|] eqn:Eu; [|done]. repeat (case_decide || (simpl; rewrite ?Eu)); by intros [= <- _]. }
    cbn [dues]. unfold of_dentry, left_open, next_fails. rewrite Elw, (open_before_oom _ _ _ _ E1). by destruct lw. }
  rewrite El, <-(delete_insert_id opens t (mk_waiting u file flags lw Masked)) by done.
  eapply (fi_after (before v 3 6 0) t (mk_waiting u file flags lw Masked) 0); [exact V1|apply lookup_insert_eq|exact E].
Qed.

Lemma fi_op op r fs fs' opens log led : files_inv fs opens log led -> is_open op = false -> legal K v op fs ->
  fs_exec K v op fs = Ret r fs' -> files_inv fs' opens log (dues v op fs r fs' ++ led).
Proof.
  intros V Ho Hop E. pose proof (wp_legal K v laws op _ fs (fi_good _ _ _ _ V) Hop) as Hw. unfold wp in Hw.
  rewrite E in Hw. eapply fi_keep; [exact V| |].
  - eapply settled_perm; [|exact Hw]. solve_Permutation.
  - eapply (keeps_exec K v op); [|exact E]. by destruct op.
Qed.

Lemma fi_lower l fs opens log led : files_inv fs opens log led -> files_inv (set_lower l fs) opens log led.
Proof. intros V. eapply fi_keep; [exact V|by eapply settled_lower, fi_good|done]. Qed.

Lemma fi_init fs : fs_start K v fs -> files_inv fs ∅ [] [].
Proof.
  intros Hs. split; [by apply (start_settled K v)|done|done|]. intros f lf.
  assert (E : files fs = ∅); [|by rewrite E, lookup_empty].
  destruct Hs as [(low & oom & ->)|(_ & low & oom & sb & root & pd & pm & _ & E)]; [done|].
  assert (Hk : KeepsFiles (dazukofs_get_sb K false sb root pd pm)) by (by_parts; apply _).
  pose proof (Hk _ _ _ E) as Hsub. by apply (anti_symm (⊆)); [exact Hsub|apply map_empty_subseteq].
Qed.
End files.

(** ** Both layers *)

Section guard.
Context {L : Type} (K : fs_kernel L) (v : Z) (laws : kernel_laws K).
Implicit Types (S : gstate L).

(** An open ends with the error of its check, if that has one. *)
Definition entry_ok (acts : list act) (s : kstate) (e : opened) : Prop :=
  exists err, verdict_ok acts s (e_seen e) err /\ (err <> 0%Z -> e_result e = err).

Record guard_inv S : Prop := {
  gi_ev : traced orderly (g_acts S) (g_ev S);
  gi_checks : checks_ok (g_acts S) (g_ev S) (g_opens S);
  gi_files : files_inv K (g_fs S) (g_opens S) (g_log S) (g_ledger S);
  gi_log : forall e, e ∈ g_log S -> entry_ok (g_acts S) (mem (g_ev S)) e
}.

Lemma oexec1_spawn t cur p σ σ' : oexec1 (Spawn t cur p) σ = Some σ' -> tasks σ !! t = None /\ σ' = spawn t cur p σ.
Proof. intros [_ E]%oexec1_exec1. simpl in E. repeat case_decide; try done. destruct (entry_point p); [|done]. by injection E as <-. Qed.
Lemma oexec1_exit t σ σ' : oexec1 (Exit t) σ = Some σ' -> σ' = mk_sys (delete t (tasks σ)) (mem σ).
Proof. intros [_ E]%oexec1_exec1. simpl in E. destruct (tasks σ !! t) as [[cur []]|]; try done. by injection E as <-. Qed.

Lemma checks_spawn acts t cur p σ opens : tasks σ !! t = None -> checks_ok acts σ opens -> checks_ok acts (spawn t cur p σ) opens.
Proof.
  intros Ht C t' o Ho. destruct (C t' o Ho) as (c & q & Hq & Hx). exists c, q. split; [|done].
  simpl. rewrite lookup_insert_ne; [done|]. congruence.
Qed.
Lemma checks_exit acts t σ opens : checks_ok acts σ opens -> checks_ok acts (mk_sys (delete t (tasks σ)) (mem σ)) (delete t opens).
Proof.
  intros C t' o [Hne Ho]%lookup_delete_Some. destruct (C t' o Ho) as (c & q & Hq & Hx). exists c, q. split; [|done].
  simpl. by rewrite lookup_delete_ne.
Qed.
Lemma checks_fresh acts t σ opens : checks_ok acts σ opens -> tasks σ !! t = None -> opens !! t = None.
Proof.
  intros C Ht. destruct (opens !! t) as [o|] eqn:Ho; [|done]. destruct (C t o Ho) as (c & q & Hq & _). congruence.
Qed.

Lemma guard_step c S S' : guard_inv S -> gexec1 K v c S = Some S' -> guard_inv S'.
Proof.
  intros [R C V E]. destruct c as [t env|t cur p|t|t cur u mnt file flags|t|t file flags|op|l]; cbn [gexec1]; intros Hx.
  - destruct (oexec1 (Run t env) (g_ev S)) as [σ'|] eqn:Ex; [|done]. injection Hx as <-.
    destruct (checks_run _ t env _ _ _ R Ex C) as [C' Hv].
    split; cbn [g_acts g_ev g_opens g_fs g_log g_ledger]; [exact (oexec1_traced _ _ _ _ R Ex)|done|by apply fi_noted|].
    intros e He. destruct (E e He) as (err & Hok & Hr). exists err. auto.
  - destruct (is_check p); [done|]. destruct (oexec1 (Spawn t cur p) (g_ev S)) as [σ'|] eqn:Ex; [|done]. injection Hx as <-.
    pose proof (oexec1_traced _ _ _ _ R Ex) as R'.
    destruct (oexec1_spawn _ _ _ _ _ Ex) as [Ht ->]. split; simpl; [done|by apply checks_spawn|done..].
  - case_decide as Ho; [|done]. destruct (oexec1 (Exit t) (g_ev S)) as [σ'|] eqn:Ex; [|done]. injection Hx as <-.
    pose proof (oexec1_traced _ _ _ _ R Ex) as R'. rewrite (oexec1_exit _ _ _ Ex) in R' |- *. split; simpl; [done| |done..].
    rewrite <-(delete_id _ _ Ho). by apply checks_exit.
  - case_decide as Hmay; [|done]. destruct Hmay as (Hu & Hf & Hn).
    destruct (oexec1 (Spawn t cur (CA_enter u mnt)) (g_ev S)) as [σ'|] eqn:Ex; [|done].
    destruct (open_before u (g_fs S)) as [lw fs'|] eqn:Eb; [|done]. injection Hx as <-.
    pose proof (oexec1_traced _ _ _ _ R Ex) as R'.
    destruct (oexec1_spawn _ _ _ _ _ Ex) as [Ht ->]. pose proof (checks_fresh _ _ _ _ C Ht) as Ho.
    destruct (fi_before K t u file flags Unseen lw _ _ _ _ _ V Ho Hu Hf Hn Eb) as [V' _]. split; simpl; [done| |done..].
    intros t' o [[<- <-]|[Hne Ho']]%lookup_insert_Some; [|by apply (checks_spawn _ t cur (CA_enter u mnt) _ _ Ht C)].
    exists cur, (CA_enter u mnt). split; [simpl; apply lookup_insert_eq|done].
  - destruct (g_opens S !! t) as [o|] eqn:Ho; [|done].
    destruct (tasks (g_ev S) !! t) as [[cur []]|] eqn:Ht; try done. cbv zeta in Hx.
    destruct (oexec1 (Exit t) (g_ev S)) as [σ'|] eqn:Ex; [|done].
    destruct (open_after _ _ _ _ _ _ _ _) as [r fs'|] eqn:Ea; [|done]. injection Hx as <-.
    destruct (fi_after K (before v 3 6 0) t o _ r (o_dentry o) (o_seen o) _ _ _ _ _ V Ho Ea) as [V' Hr].
    destruct (C t o Ho) as (c & q & Hq & Hok). rewrite Ht in Hq. injection Hq as <- <-.
    pose proof (oexec1_traced _ _ _ _ R Ex) as R'. rewrite (oexec1_exit _ _ _ Ex) in R' |- *.
    split; simpl; [done|by apply checks_exit|done|].
    intros e [->|He]%elem_of_cons; [|by apply E]. eexists. by split.
  - destruct (tasks (g_ev S) !! t) as [[cur []]|] eqn:Ht; try done. destruct (event_dentry _ _) as [u|]; [|done].
    case_decide as Hmay; [|done]. destruct Hmay as (Hu & Hf & Hn). cbv zeta in Hx.
    destruct (fs_exec K v _ (g_fs S)) as [r fs'|] eqn:Ef; [|done]. case_decide; [|done]. injection Hx as <-.
    split; cbn [g_acts g_ev g_opens g_fs g_log g_ledger]; [done..|by eapply fi_nested|].
    intros e [->|He]%elem_of_cons; [|by apply E]. by exists 0%Z.
  - destruct (is_open op) eqn:Eo; [done|]. case_decide as Hop; [|done].
    destruct (fs_exec K v op (g_fs S)) as [r fs'|] eqn:Ef; [|done]. injection Hx as <-.
    split; cbn [g_acts g_ev g_opens g_fs g_log g_ledger]; [done..|by eapply fi_op|done].
  - injection Hx as <-. split; simpl; [done..|by apply fi_lower|done].
Qed.

Lemma guard_inv_init fs : fs_start K v fs -> guard_inv (guard_init fs).
Proof.
  intros Hs. split; simpl; [constructor|done|by eapply fi_init|]. intros e He. by apply not_elem_of_nil in He.
Qed.

Lemma gexec_inv cs S S' : guard_inv S -> gexec K v cs S = Some S' -> guard_inv S'.
Proof.
  revert S. induction cs as [|c cs IH]; simpl; intros S V E; [by injection E as <-|].
  destruct (gexec1 K v c S) as [S1|] eqn:E1; [|done]. by eapply IH; [eapply guard_step|].
Qed.

Lemma guarded_inv S : guarded K v S -> guard_inv S.
Proof. intros (fs & cs & Hs & E). eapply gexec_inv; [by apply guard_inv_init|exact E]. Qed.
End guard.
