(* ===== verification/FsRw.v ===== *)
(** * Reading, writing and mapping files ([file.c], [mmap.c])

    The operations on an open file are forwarded to its lower file; positions,
    read-ahead states and attributes are copied, and the pages of the upper file
    are kept beside those of the lower one. *)

From S2P Require Import Prelude EventState FsState FsInode.
From stdpp Require Import list gmap.

Definition ENOIOCTLCMD : Z := 515.
Definition PAGE_SHIFT : Z := 12.

(** ** Files and pages *)

(** The fields of a [struct file] that are copied. *)
Record filp := mk_filp { f_pos : Z; f_ra : Z; f_version : Z }.
Definition filp0 : filp := mk_filp 0 0 0.
Definition with_pos (n : Z) (f : filp) : filp := mk_filp n (f_ra f) (f_version f).
Definition with_ra (n : Z) (f : filp) : filp := mk_filp (f_pos f) n (f_version f).
Definition with_version (n : Z) (f : filp) : filp := mk_filp (f_pos f) (f_ra f) n.

(** A page of an upper file: its references, its flags, its kernel mappings and
    its contents. *)
Record page := mk_page { pg_count : Z; pg_locked : bool; pg_uptodate : bool; pg_maps : Z; pg_data : list Z }.
Definition with_count (n : Z) (p : page) : page := mk_page n (pg_locked p) (pg_uptodate p) (pg_maps p) (pg_data p).
Definition with_locked (x : bool) (p : page) : page := mk_page (pg_count p) x (pg_uptodate p) (pg_maps p) (pg_data p).
Definition with_uptodate (x : bool) (p : page) : page := mk_page (pg_count p) (pg_locked p) x (pg_maps p) (pg_data p).
Definition with_maps (n : Z) (p : page) : page := mk_page (pg_count p) (pg_locked p) (pg_uptodate p) n (pg_data p).
Definition with_data (d : list Z) (p : page) : page := mk_page (pg_count p) (pg_locked p) (pg_uptodate p) (pg_maps p) d.

(** A reference to a lower page. *)
Definition OPage (p : ptr) : obj := (4%N, p).

(** File operations of a lower file that may be missing. *)
Inductive fop := Fop_read | Fop_write | Fop_llseek | Fop_unlocked_ioctl | Fop_compat_ioctl | Fop_flush | Fop_fsync
               | Fop_fasync | Fop_mmap.

(** Calls on a lower file that touch none of the copied fields. *)
Inductive fcall :=
| Unlocked_ioctl (file : ptr) (cmd arg : Z)
| Compat_ioctl (file : ptr) (cmd arg : Z)
| Flush (file : ptr) (owner : Z)
| Fsync (file : ptr) (datasync : Z)
| Fsync_range (file : ptr) (start last datasync : Z)
| Fasync (fd : Z) (file : ptr) (flag : Z)
| Generic_mmap (file : ptr) (vm : Z).

(** What the code calls on lower files and pages.  [io_llseek] is the operation
    of the file or the generic one; reads and writes take and return the
    position; a page is a pointer, [page_data] and [page_write] reach its
    contents, and [page_dirty] marks it. *)
Record io_kernel (L : Type) := mk_io {
  io_has : L -> ptr -> fop -> bool;
  io_inode : L -> ptr -> ptr;
  io_llseek : bool -> ptr -> Z -> Z -> filp -> L -> Z * filp * L;
  io_read : ptr -> Z -> Z -> filp -> L -> Z * list Z * Z * filp * L;
  io_write : ptr -> list Z -> Z -> Z -> filp -> L -> Z * Z * filp * L;
  io_readdir : ptr -> filp -> L -> Z * list Z * filp * L;
  io_call : fcall -> L -> Z * L;
  read_cache_page : ptr -> Z -> ptr -> L -> Z * L;
  grab_cache_page : ptr -> Z -> L -> ptr * L;
  page_data : L -> ptr -> list Z;
  page_write : ptr -> list Z -> L -> L;
  page_dirty : ptr -> L -> L
}.
Arguments io_has {L}. Arguments io_inode {L}. Arguments io_llseek {L}. Arguments io_read {L}. Arguments io_write {L}.
Arguments io_readdir {L}. Arguments io_call {L}. Arguments read_cache_page {L}. Arguments grab_cache_page {L}.
Arguments page_data {L}. Arguments page_write {L}. Arguments page_dirty {L}.

(** ** State *)

(** [io_fs] is the state of [FsState]; [filps] and [lower_filps] are the open
    files and their lower files, [f_dentry] the dentry of a file, [pages] the
    cached pages of the upper inodes by inode and index; [i_mutex] are the upper
    mutexes held, [page_locks] the lower pages locked and [lower_maps] those
    mapped. *)
Record iostate (L : Type) := mk_iostate {
  io_fs : fstate L;
  filps : gmap ptr filp;
  lower_filps : gmap ptr filp;
  f_dentry : gmap ptr ptr;
  pages : gmap (ptr * Z) page;
  i_mutex : list ptr;
  page_locks : list ptr;
  lower_maps : list ptr
}.
Arguments mk_iostate {L}. Arguments io_fs {L}. Arguments filps {L}. Arguments lower_filps {L}. Arguments f_dentry {L}.
Arguments pages {L}. Arguments i_mutex {L}. Arguments page_locks {L}. Arguments lower_maps {L}.

Section setters.
Context {L : Type}.
Implicit Types s : iostate L.
Definition set_io_fs (x : fstate L) s := mk_iostate x (filps s) (lower_filps s) (f_dentry s) (pages s) (i_mutex s) (page_locks s) (lower_maps s).
Definition set_filps x s := mk_iostate (io_fs s) x (lower_filps s) (f_dentry s) (pages s) (i_mutex s) (page_locks s) (lower_maps s).
Definition set_lower_filps x s := mk_iostate (io_fs s) (filps s) x (f_dentry s) (pages s) (i_mutex s) (page_locks s) (lower_maps s).
Definition set_pages x s := mk_iostate (io_fs s) (filps s) (lower_filps s) (f_dentry s) x (i_mutex s) (page_locks s) (lower_maps s).
Definition set_i_mutex x s := mk_iostate (io_fs s) (filps s) (lower_filps s) (f_dentry s) (pages s) x (page_locks s) (lower_maps s).
Definition set_page_locks x s := mk_iostate (io_fs s) (filps s) (lower_filps s) (f_dentry s) (pages s) (i_mutex s) x (lower_maps s).
Definition set_lower_maps x s := mk_iostate (io_fs s) (filps s) (lower_filps s) (f_dentry s) (pages s) (i_mutex s) (page_locks s) x.
End setters.

Abbreviation IO L := (SM (iostate L)) (only parsing).

Section rw.
Context {L : Type} (K : fs_kernel L) (F : io_kernel L).
Implicit Types s : iostate L.

(** ** Primitives *)

Definition in_fs {A} (m : FM L A) : IO L A :=
  fun s => match m (io_fs s) with Ret a x => Ret a (set_io_fs x s) | Stuck w => Stuck w end.

Definition low s : L := lower (io_fs s).
Definition set_low (l : L) s : iostate L := set_io_fs (set_lower l (io_fs s)) s.

Definition filp_of s (file : ptr) : filp := default filp0 (filps s !! file).
Definition lower_filp_of s (file : ptr) : filp := default filp0 (lower_filps s !! file).
Definition upd_filp (file : ptr) (f : filp -> filp) : IO L unit :=
  smodify (fun s => set_filps (<[file := f (filp_of s file)]> (filps s)) s).
Definition upd_lower_filp (file : ptr) (f : filp -> filp) : IO L unit :=
  smodify (fun s => set_lower_filps (<[file := f (lower_filp_of s file)]> (lower_filps s)) s).

(** [file->f_dentry->d_inode], also the host of [file->f_mapping]. *)
Definition file_inode (file : ptr) : IO L ptr :=
  let! d := sget (fun s => default NULL (f_dentry s !! file)) in
  in_fs (upper_inode d).

Definition has (lower_file : ptr) (op : fop) : IO L bool := sget (fun s => io_has F (low s) lower_file op).

Definition inode_lock (i : ptr) : IO L unit :=
  fun s => if decide (i = NULL) then Stuck NullDeref
           else if decide (i ∈ i_mutex s) then Stuck LockMisuse
           else Ret tt (set_i_mutex (i :: i_mutex s) s).
Definition inode_unlock (i : ptr) : IO L unit :=
  fun s => if decide (i ∈ i_mutex s) then Ret tt (set_i_mutex (filter (fun x => x <> i) (i_mutex s)) s)
           else Stuck LockMisuse.

(** ** Positions *)

(** [dazukofs_llseek] *)
Definition dazukofs_llseek (file : ptr) (offset origin : Z) : IO L Z :=
  let! lower_file := in_fs (get_lower_file file) in
  let! pos := sget (fun s => f_pos (filp_of s file)) in
  do! upd_lower_filp lower_file (with_pos pos) in
  let! ra := sget (fun s => f_ra (filp_of s file)) in
  do! upd_lower_filp lower_file (with_ra ra) in
  let! own := has lower_file Fop_llseek in
  let! out := sget (fun s => io_llseek F own lower_file offset origin (lower_filp_of s lower_file) (low s)) in
  let '(retval, fp, l) := out in
  do! smodify (set_low l) in
  do! upd_lower_filp lower_file (fun _ => fp) in
  do! (if decide (0 <= retval)%Z then
         do! upd_filp file (with_pos (f_pos fp)) in
         upd_filp file (with_version (f_version fp))
       else sret tt) in
  sret retval.

(** [fsstack_copy_attr_atime(file->f_dentry->d_inode, lower_file->f_dentry->d_inode)] *)
Definition copy_atime (file lower_file : ptr) : IO L unit :=
  let! inode := file_inode file in
  let! lower_inode := sget (fun s => io_inode F (low s) lower_file) in
  in_fs (copy K (copy_attr_atime K) inode lower_inode).

(** [dazukofs_read]: the result (an [int]), the data and the new [*ppos]. *)
Definition dazukofs_read (file : ptr) (count ppos : Z) : IO L (Z * list Z * Z) :=
  let! lower_file := in_fs (get_lower_file file) in
  let! ok := has lower_file Fop_read in
  if negb ok then sret ((- EINVAL)%Z, [], ppos)
  else
    let! out := sget (fun s => io_read F lower_file count ppos (lower_filp_of s lower_file) (low s)) in
    let '(ret, buf, pos_copy, fp, l) := out in
    do! smodify (set_low l) in
    do! upd_lower_filp lower_file (fun _ => fp) in
    let err := int_wrap ret in
    do! upd_lower_filp lower_file (with_pos pos_copy) in
    do! (if decide (0 <= err)%Z then copy_atime file lower_file else sret tt) in
    let! ra := sget (fun s => f_ra (lower_filp_of s lower_file)) in
    do! upd_filp file (with_ra ra) in
    sret (err, buf, pos_copy).

(** ** Writing *)

(** [find_lock_page]: a cached page, locked and with a reference; waiting for a
    page that stays locked would be a deadlock. *)
Definition find_lock_page (k : ptr * Z) : IO L bool :=
  fun s => match pages s !! k with
           | None => Ret false s
           | Some p =>
               if pg_locked p then Stuck LockMisuse
               else Ret true (set_pages (<[k := with_locked true (with_count (pg_count p + 1) p)]> (pages s)) s)
           end.
Definition upd_page (k : ptr * Z) (f : page -> page) : IO L unit :=
  fun s => match pages s !! k with
           | None => Stuck UseAfterFree
           | Some p => Ret tt (set_pages (<[k := f p]> (pages s)) s)
           end.
Definition unlock_page (k : ptr * Z) : IO L unit :=
  fun s => match pages s !! k with
           | None => Stuck UseAfterFree
           | Some p => if pg_locked p then Ret tt (set_pages (<[k := with_locked false p]> (pages s)) s)
                       else Stuck LockMisuse
           end.

(** The loop [for (i = start; i <= last; i++)]. *)
Fixpoint mark_loop (fuel : nat) (mapping : ptr) (i last : Z) : IO L unit :=
  match fuel with
  | O => sfail OutOfFuel
  | S fuel' =>
      if decide (i <= last)%Z then
        let! found := find_lock_page (mapping, i) in
        do! (if found : bool then
               do! upd_page (mapping, i) (with_uptodate false) in
               unlock_page (mapping, i)
             else sret tt) in
        mark_loop fuel' mapping (ulong_wrap (i + 1)) last
      else sret tt
  end.

Definition mark_start (pos : Z) : Z := ulong_wrap (Z.shiftr pos PAGE_SHIFT).
Definition mark_last (count pos : Z) : Z := Z.shiftr (ulong_wrap (pos + count)) PAGE_SHIFT.
Definition mark_pages_outdated (file : ptr) (count pos : Z) : IO L unit :=
  if decide (count = 0%Z) then sret tt
  else
    let start := mark_start pos in
    let last := mark_last count pos in
    let! mapping := file_inode file in
    mark_loop (Z.to_nat (last - start) + 2) mapping start last.

(** [dazukofs_write]: the result and the new [*ppos]. *)
Definition dazukofs_write (file : ptr) (buf : list Z) (count ppos : Z) : IO L (Z * Z) :=
  let! lower_file := in_fs (get_lower_file file) in
  let! inode := file_inode file in
  let! lower_inode := in_fs (get_lower_inode inode) in
  let! ok := has lower_file Fop_write in
  if negb ok then sret ((- EINVAL)%Z, ppos)
  else
    do! inode_lock inode in
    let! out := sget (fun s => io_write F lower_file buf count ppos (lower_filp_of s lower_file) (low s)) in
    let '(ret, pos_copy, fp, l) := out in
    do! smodify (set_low l) in
    do! upd_lower_filp lower_file (fun _ => fp) in
    do! upd_lower_filp lower_file (with_pos pos_copy) in
    do! (if decide (0 <= ret)%Z then
           do! mark_pages_outdated file ret (pos_copy - ret) in
           in_fs (copy K (copy_attr_atime K) inode lower_inode)
         else sret tt) in
    let! ra := sget (fun s => f_ra (lower_filp_of s lower_file)) in
    do! upd_filp file (with_ra ra) in
    do! in_fs (copy K (fun a l => FsState.set_size (a_size l) a) inode lower_inode) in
    do! inode_unlock inode in
    sret (ret, pos_copy).

(** ** Other operations *)

(** [dazukofs_readdir]: the result and the entries. *)
Definition dazukofs_readdir (file : ptr) : IO L (Z * list Z) :=
  let! lower_file := in_fs (get_lower_file file) in
  let! pos := sget (fun s => f_pos (filp_of s file)) in
  do! upd_lower_filp lower_file (with_pos pos) in
  let! out := sget (fun s => io_readdir F lower_file (lower_filp_of s lower_file) (low s)) in
  let '(err, entries, fp, l) := out in
  do! smodify (set_low l) in
  do! upd_lower_filp lower_file (fun _ => fp) in
  do! upd_filp file (with_pos (f_pos fp)) in
  do! (if decide (0 <= err)%Z then copy_atime file lower_file else sret tt) in
  sret (err, entries).

(** Operations that are forwarded as they are, or answered with [missing]. *)
Definition forward (file : ptr) (op : fop) (missing : Z) (c : ptr -> fcall) : IO L Z :=
  let! lower_file := in_fs (get_lower_file file) in
  let! ok := has lower_file op in
  if negb ok then sret missing
  else
    let! out := sget (fun s => io_call F (c lower_file) (low s)) in
    let '(r, l) := out in
    do! smodify (set_low l) in sret r.

Definition dazukofs_unlocked_ioctl (file : ptr) (cmd arg : Z) : IO L Z :=
  forward file Fop_unlocked_ioctl (- ENOTTY) (fun lf => Unlocked_ioctl lf cmd arg).
Definition dazukofs_compat_ioctl (file : ptr) (cmd arg : Z) : IO L Z :=
  forward file Fop_compat_ioctl (- ENOIOCTLCMD) (fun lf => Compat_ioctl lf cmd arg).
Definition dazukofs_flush (file : ptr) (td : Z) : IO L Z := forward file Fop_flush 0 (fun lf => Flush lf td).
Definition dazukofs_fsync_range (file : ptr) (start last datasync : Z) : IO L Z :=
  forward file Fop_fsync (- EINVAL) (fun lf => Fsync_range lf start last datasync).
Definition dazukofs_fsync (file : ptr) (datasync : Z) : IO L Z :=
  forward file Fop_fsync (- EINVAL) (fun lf => Fsync lf datasync).
Definition dazukofs_fasync (fd : Z) (file : ptr) (flag : Z) : IO L Z :=
  forward file Fop_fasync 0 (fun lf => Fasync fd lf flag).
(** The mapping is that of the upper file. *)
Definition dazukofs_mmap (file : ptr) (vm : Z) : IO L Z :=
  forward file Fop_mmap (- ENODEV) (fun _ => Generic_mmap file vm).

(** ** Pages *)

(** [kmap] of an upper and of a lower page, and [kunmap]. *)
Definition kmap_upper (k : ptr * Z) : IO L bool :=
  let! ok := in_fs zalloc in
  if (ok : bool) then do! upd_page k (fun p => with_maps (pg_maps p + 1) p) in sret true else sret false.
Definition kunmap_upper (k : ptr * Z) : IO L unit := upd_page k (fun p => with_maps (pg_maps p - 1) p).
Definition kmap_lower (lp : ptr) : IO L bool :=
  let! ok := in_fs zalloc in
  if (ok : bool) then do! smodify (fun s => set_lower_maps (lp :: lower_maps s) s) in sret true else sret false.
Definition kunmap_lower (lp : ptr) : IO L unit :=
  smodify (fun s => set_lower_maps (filter (fun x => x <> lp) (lower_maps s)) s).

(** [dazukofs_readpage]: the page [index] of the inode of [file]. *)
Definition dazukofs_readpage (file : ptr) (index : Z) : IO L Z :=
  let! lower_file := in_fs (get_lower_file file) in
  let! inode := file_inode file in
  let! lower_inode := in_fs (get_lower_inode inode) in
  let k := (inode, index) in
  let! out := sget (fun s => read_cache_page F lower_inode index lower_file (low s)) in
  let '(lower_page, l) := out in
  do! smodify (set_low l) in
  let! err :=
    (if decide (lower_page < 0)%Z then sret lower_page
     else
       do! in_fs (get_ref (OPage lower_page)) in
       let! page_data' := kmap_upper k in
       let! err :=
         (if negb page_data' then sret (- ENOMEM)%Z
          else
            let! lower_page_data := kmap_lower lower_page in
            if negb lower_page_data then sret (- ENOMEM)%Z
            else
              let! d := sget (fun s => page_data F (low s) lower_page) in
              do! upd_page k (with_data d) in
              do! kunmap_lower lower_page in
              do! kunmap_upper k in
              sret 0%Z) in
       do! in_fs (put_ref (OPage lower_page)) in
       sret err) in
  do! upd_page k (with_uptodate (bool_decide (err = 0%Z))) in
  do! unlock_page k in
  sret err.

Definition lock_lower_page (lp : ptr) : IO L unit := smodify (fun s => set_page_locks (lp :: page_locks s) s).
Definition unlock_lower_page (lp : ptr) : IO L unit :=
  fun s => if decide (lp ∈ page_locks s) then Ret tt (set_page_locks (filter (fun x => x <> lp) (page_locks s)) s)
           else Stuck LockMisuse.

(** [dazukofs_writepage]: the page [index] of [inode].  [grab_cache_page] returns
    a locked page with a reference, or NULL. *)
Definition dazukofs_writepage (inode : ptr) (index : Z) : IO L Z :=
  let! lower_inode := in_fs (get_lower_inode inode) in
  let k := (inode, index) in
  let! out := sget (fun s => grab_cache_page F lower_inode index (low s)) in
  let '(lower_page, l) := out in
  do! smodify (set_low l) in
  let! err :=
    (if decide (lower_page = NULL) then sret (- ENOMEM)%Z
     else
       do! in_fs (get_ref (OPage lower_page)) in
       do! lock_lower_page lower_page in
       let! page_data' := kmap_upper k in
       if negb page_data' then do! unlock_lower_page lower_page in sret (- ENOMEM)%Z
       else
         let! lower_page_data := kmap_lower lower_page in
         if negb lower_page_data then
           do! kunmap_upper k in
           do! unlock_lower_page lower_page in sret (- ENOMEM)%Z
         else
           let! d := sget (fun s => match pages s !! k with Some p => pg_data p | None => [] end) in
           do! smodify (fun s => set_low (page_write F lower_page d (low s)) s) in
           do! kunmap_upper k in
           do! kunmap_lower lower_page in
           do! smodify (fun s => set_low (page_dirty F lower_page (low s)) s) in
           do! unlock_lower_page lower_page in
           do! upd_page k (with_uptodate true) in
           sret 0%Z) in
  do! unlock_page k in
  sret err.
End rw.
