(* ===== verification/FsRwSpec.v ===== *)
(** * What reading and writing a stacked file does

    Rules for the operations of [FsRw]: which parts of the state they change,
    and the pages a write outdates. *)

From S2P Require Import Prelude EventState FsState FsInode FsRw.
From stdpp Require Import list gmap.

Section rw.
Context {L : Type} (K : fs_kernel L) (F : io_kernel L).
Implicit Types s : iostate L.

(** ** Primitives *)

Lemma set_io_fs_self s : set_io_fs (io_fs s) s = s.
Proof. by destruct s. Qed.

Lemma wp_in_fs {A} (m : FM L A) Q s : wp m (fun a x => Q a (set_io_fs x s)) (io_fs s) -> wp (in_fs m) Q s.
Proof. unfold wp, in_fs. by destruct (m (io_fs s)). Qed.

Lemma wp_lower_file file lf Q s : files (io_fs s) !! file = Some lf -> Q lf s -> wp (in_fs (get_lower_file file)) Q s.
Proof.
  intros Hf HQ. apply wp_in_fs. unfold wp, get_lower_file. rewrite Hf. by rewrite set_io_fs_self.
Qed.

Lemma wp_file_inode file u i Q s : f_dentry s !! file = Some u -> d_inode (io_fs s) !! u = Some i -> Q i s ->
  wp (file_inode file) Q s.
Proof.
  intros Hd Hi HQ. apply wp_bind, wp_get. rewrite Hd. apply wp_in_fs, wp_get. simpl. rewrite Hi.
  by rewrite set_io_fs_self.
Qed.

Lemma wp_lower_inode i li Q s : inode_info (io_fs s) !! i = Some li -> Q li s -> wp (in_fs (get_lower_inode i)) Q s.
Proof. intros Hi HQ. apply wp_in_fs, wp_get. rewrite Hi. by rewrite set_io_fs_self. Qed.

Lemma wp_copy_io f i li Q s : i <> NULL -> li <> NULL ->
  (let x := io_fs s in
   Q tt (set_io_fs (set_i_attr (<[i := f (attr_of x i) (k_attr K (lower x) li)]> (i_attr x)) x) s)) ->
  wp (in_fs (copy K f i li)) Q s.
Proof.
  intros Hi Hli HQ. apply wp_in_fs, wp_bind, wp_get. rewrite decide_False by done.
  unfold wp, upd_attr. by rewrite decide_False.
Qed.

Lemma wp_inode_lock i Q s : i <> NULL -> i_mutex s = [] -> Q tt (set_i_mutex [i] s) -> wp (inode_lock i) Q s.
Proof.
  intros Hi Hm HQ. unfold wp, inode_lock. rewrite decide_False by done. rewrite Hm, decide_False by apply not_elem_of_nil. done.
Qed.
Lemma wp_inode_unlock i Q s : i_mutex s = [i] -> Q tt (set_i_mutex [] s) -> wp (inode_unlock i) Q s.
Proof.
  intros Hm HQ. unfold wp, inode_unlock. rewrite Hm, decide_True by apply list_elem_of_here.
  by rewrite filter_cons, decide_False by tauto.
Qed.

(** ** Outdating pages *)

Definition outdated (p : page) : page := with_uptodate false (with_count (pg_count p + 1) p).

(** The pages [a] to [b] of an inode lose their flag and gain a reference. *)
Definition outdate (i : ptr) (a b : Z) (m : gmap (ptr * Z) page) : gmap (ptr * Z) page :=
  map_imap (fun k p => Some (if decide (k.1 = i /\ a <= k.2 <= b)%Z then outdated p else p)) m.

Lemma lookup_outdate i a b m k :
  outdate i a b m !! k = (fun p => if decide (k.1 = i /\ a <= k.2 <= b)%Z then outdated p else p) <$> m !! k.
Proof. unfold outdate. rewrite map_lookup_imap. by destruct (m !! k). Qed.

Lemma outdate_none i a b m : (b < a)%Z -> outdate i a b m = m.
Proof.
  intros Hab. apply map_eq. intros k. rewrite lookup_outdate. destruct (m !! k); [simpl|done].
  by rewrite decide_False by lia.
Qed.

Definition unlocked (m : gmap (ptr * Z) page) : Prop := map_Forall (fun _ p => pg_locked p = false) m.

Lemma unlocked_outdate i a b m : unlocked m -> unlocked (outdate i a b m).
Proof.
  intros Hm k p. rewrite lookup_outdate. intros (q & Hq & ->)%fmap_Some. specialize (Hm k q Hq). by case_decide.
Qed.

(** The first page, then the others. *)
Lemma outdate_step i a b m p : (a <= b)%Z -> m !! (i, a) = Some p ->
  outdate i (a + 1) b (<[(i, a) := outdated p]> m) = outdate i a b m.
Proof.
  intros Hab Hp. apply map_eq. intros [j n]. rewrite !lookup_outdate. destruct (decide ((j, n) = (i, a))) as [[= -> ->]|Hne].
  - rewrite lookup_insert_eq, Hp. simpl. by rewrite decide_False, decide_True by lia.
  - rewrite lookup_insert_ne by congruence. destruct (m !! (j, n)); simpl; [f_equal|done].
    assert (j <> i \/ n <> a) as Hne' by (destruct (decide (j = i)); [subst; right; congruence|by left]).
    apply decide_ext. lia.
Qed.
Lemma outdate_skip i a b m : m !! (i, a) = None -> outdate i (a + 1) b m = outdate i a b m.
Proof.
  intros Hp. apply map_eq. intros [j n]. rewrite !lookup_outdate. destruct (m !! (j, n)) as [q|] eqn:E; simpl; [f_equal|done].
  apply decide_ext. split; [lia|]. intros [-> ?]. split; [done|]. destruct (decide (n = a)); [subst; congruence|lia].
Qed.

Lemma mark_loop_run fuel i a b s : unlocked (pages s) -> (0 <= a)%Z -> (b < 2 ^ 63)%Z -> (b - a + 1 < Z.of_nat fuel)%Z -> (0 < fuel) ->
  mark_loop fuel i a b s = Ret tt (set_pages (outdate i a b (pages s)) s).
Proof.
  revert a s. induction fuel as [|fuel IH]; intros a s Hu Ha Hb Hfuel Hpos; [lia|]. simpl.
  case_decide as Hab; [|rewrite outdate_none by lia; by destruct s].
  assert (Hw : ulong_wrap (a + 1) = (a + 1)%Z) by (apply ulong_wrap_small; lia).
  unfold sbind, find_lock_page. destruct (pages s !! (i, a)) as [p|] eqn:Ep.
  - rewrite (Hu _ _ Ep). unfold upd_page. simpl. rewrite lookup_insert_eq. unfold unlock_page. simpl.
    rewrite lookup_insert_eq. simpl. rewrite !insert_insert_eq, Hw.
    assert (Hnew : with_locked false (with_uptodate false (with_locked true (with_count (pg_count p + 1) p))) = outdated p).
    { unfold outdated, with_locked, with_uptodate. simpl. by rewrite (Hu _ _ Ep). }
    rewrite Hnew. rewrite IH; simpl; [|..|lia].
    + by rewrite outdate_step.
    + apply map_Forall_insert_2; [|done]. unfold outdated. simpl. by apply (Hu _ _ Ep).
    + lia.
    + done.
    + lia.
  - simpl. rewrite Hw, IH; [|done|lia|done|lia|lia]. by rewrite outdate_skip.
Qed.

Lemma shiftr_bounds x n : (0 <= x < 2 ^ 64)%Z -> (0 <= n)%Z -> (0 <= Z.shiftr x n < 2 ^ 64)%Z.
Proof.
  intros Hx Hn. rewrite Z.shiftr_div_pow2 by done. assert (0 < 2 ^ n)%Z by (by apply Z.pow_pos_nonneg).
  split; [apply Z.div_pos; lia|]. apply Z.div_lt_upper_bound; [done|]. nia.
Qed.
Lemma mark_start_range pos : (0 <= mark_start pos < 2 ^ 64)%Z.
Proof. apply Z.mod_pos_bound. lia. Qed.
Lemma mark_last_range count pos : (0 <= mark_last count pos < 2 ^ 63)%Z.
Proof.
  unfold mark_last, PAGE_SHIFT. rewrite Z.shiftr_div_pow2 by lia.
  assert (H : (0 <= ulong_wrap (pos + count) < 2 ^ 64)%Z) by (apply Z.mod_pos_bound; lia).
  split; [apply Z.div_pos; lia|]. apply Z.div_lt_upper_bound; lia.
Qed.

(** For every position and count, the loop ends and does this. *)
Lemma wp_mark_pages file count pos u i Q s : f_dentry s !! file = Some u -> d_inode (io_fs s) !! u = Some i ->
  unlocked (pages s) ->
  Q tt (if decide (count = 0%Z) then s
        else set_pages (outdate i (mark_start pos) (mark_last count pos) (pages s)) s) ->
  wp (mark_pages_outdated file count pos) Q s.
Proof.
  intros Hd Hi Hu HQ. unfold mark_pages_outdated. case_decide; [by apply wp_ret|]. cbv zeta.
  apply wp_bind. eapply wp_file_inode; [done|done|]. eapply wp_of_run; [|exact HQ].
  pose proof (mark_start_range pos). pose proof (mark_last_range count pos). apply mark_loop_run; [done|lia..].
Qed.

(** ** Open files *)

(** [file] is open on the dentry [u] with the inode [i]; [lf] and [li] lie below. *)
Record opened (file lf u i li : ptr) s : Prop := {
  op_file : files (io_fs s) !! file = Some lf;
  op_dentry : f_dentry s !! file = Some u;
  op_inode : d_inode (io_fs s) !! u = Some i;
  op_lower : inode_info (io_fs s) !! i = Some li;
  op_null : i <> NULL /\ li <> NULL;
  op_lower_inode : forall l, io_inode F l lf <> NULL;
  op_mutex : i_mutex s = [];
  op_pages : unlocked (pages s)
}.

(** What the operations leave alone: all but the lower file system, attributes,
    the copied fields of files, and the pages. *)
Definition io_frame s s' : Prop :=
  (exists l m, io_fs s' = set_i_attr m (set_lower l (io_fs s))) /\ f_dentry s' = f_dentry s /\
  i_mutex s' = i_mutex s /\ page_locks s' = page_locks s /\ lower_maps s' = lower_maps s.

Lemma opened_frame file lf u i li s s' : io_frame s s' -> unlocked (pages s') ->
  opened file lf u i li s -> opened file lf u i li s'.
Proof.
  intros ((l & m & E1) & E2 & E3 & _) Hp [].
  split; rewrite ?E1, ?E2, ?E3; done.
Qed.

(** A change that nothing outside [io_frame] sees. *)
Lemma io_frame_intro l m s s' : io_fs s' = set_i_attr m (set_lower l (io_fs s)) ->
  f_dentry s' = f_dentry s -> i_mutex s' = i_mutex s -> page_locks s' = page_locks s -> lower_maps s' = lower_maps s ->
  io_frame s s'.
Proof. intros E ? ? ? ?. split_and!; try done. by exists l, m. Qed.

Lemma filp_of_set file f m s : filp_of (set_filps (<[file := f]> m) s) file = f.
Proof. unfold filp_of. simpl. by rewrite lookup_insert_eq. Qed.
Lemma lower_filp_of_set file f m s : lower_filp_of (set_lower_filps (<[file := f]> m) s) file = f.
Proof. unfold lower_filp_of. simpl. by rewrite lookup_insert_eq. Qed.

Section ops.
Context (file lf u i li : ptr) (s : iostate L) (O : opened file lf u i li s).

Lemma wp_copy_atime Q s0 : io_frame s s0 ->
  (forall m, Q tt (set_io_fs (set_i_attr m (io_fs s0)) s0)) -> wp (copy_atime K F file lf) Q s0.
Proof.
  intros ((l & m & E1) & E2 & _) HQ. destruct O, op_null0. apply wp_bind. eapply wp_file_inode; [by rewrite E2|by rewrite E1|].
  apply wp_bind, wp_get. apply wp_copy_io; [done|done|]. apply HQ.
Qed.

(** [dazukofs_read] *)
Lemma wp_read_file count pos : io_has F (low s) lf Fop_read = true ->
  let '(ret, buf, pos', fp, l) := io_read F lf count pos (lower_filp_of s lf) (low s) in
  wp (dazukofs_read K F file count pos) (fun out s' => out = (int_wrap ret, buf, pos') /\
    io_frame s s' /\ pages s' = pages s /\ low s' = l /\
    lower_filp_of s' lf = with_pos pos' fp /\ filp_of s' file = with_ra (f_ra fp) (filp_of s file)) s.
Proof.
  intros Hr. destruct (io_read F lf count pos (lower_filp_of s lf) (low s)) as [[[[ret buf] pos'] fp] l] eqn:E.
  apply wp_bind. eapply wp_lower_file; [by eapply op_file|]. apply wp_bind, wp_get. rewrite Hr. simpl.
  apply wp_bind, wp_get. rewrite E. apply wp_bind, wp_modify, wp_bind, wp_modify, wp_bind, wp_modify, wp_bind.
  rewrite lower_filp_of_set. set (s1 := set_lower_filps _ _).
  assert (E1 : io_frame s s1) by (by apply (io_frame_intro l (i_attr (io_fs s)))).
  assert (Hend : forall m, wp
    (let! ra := sget (fun s => f_ra (lower_filp_of s lf)) in
     do! upd_filp file (with_ra ra) in sret (int_wrap ret, buf, pos'))
    (fun out s' => out = (int_wrap ret, buf, pos') /\ io_frame s s' /\ pages s' = pages s /\ low s' = l /\
      lower_filp_of s' lf = with_pos pos' fp /\ filp_of s' file = with_ra (f_ra fp) (filp_of s file))
    (set_io_fs (set_i_attr m (io_fs s1)) s1)).
  { intros m. apply wp_bind, wp_get, wp_bind, wp_modify, wp_ret. unfold filp_of, lower_filp_of. simpl.
    rewrite !lookup_insert_eq. simpl. split_and!; try done. by apply (io_frame_intro l m). }
  case_decide.
  - apply wp_copy_atime; [done|exact Hend].
  - apply wp_ret. specialize (Hend (i_attr (io_fs s1))). by destruct s1 as [[] ? ? ? ? ? ? ?].
Qed.

(** [dazukofs_write] *)
Lemma wp_write_file buf count pos : io_has F (low s) lf Fop_write = true ->
  let '(ret, pos', fp, l) := io_write F lf buf count pos (lower_filp_of s lf) (low s) in
  wp (dazukofs_write K F file buf count pos) (fun out s' => out = (ret, pos') /\
    io_frame s s' /\ low s' = l /\
    pages s' = (if decide (0 < ret)%Z then outdate i (mark_start (pos' - ret)) (mark_last ret (pos' - ret)) (pages s) else pages s) /\
    a_size (attr_of (io_fs s') i) = a_size (k_attr K l li) /\
    lower_filp_of s' lf = with_pos pos' fp /\ filp_of s' file = with_ra (f_ra fp) (filp_of s file)) s.
Proof.
  intros Hw. destruct (io_write F lf buf count pos (lower_filp_of s lf) (low s)) as [[[ret pos'] fp] l] eqn:E.
  pose proof O as [O1 O2 O3 O4 [O5 O6] O7 O8 O9].
  apply wp_bind. eapply wp_lower_file; [done|]. apply wp_bind. eapply wp_file_inode; [done|done|].
  apply wp_bind. eapply wp_lower_inode; [done|]. apply wp_bind, wp_get. rewrite Hw. simpl.
  apply wp_bind. eapply wp_inode_lock; [done|done|]. apply wp_bind, wp_get.
  change (lower_filp_of (set_i_mutex [i] s) lf) with (lower_filp_of s lf). change (low (set_i_mutex [i] s)) with (low s). rewrite E.
  apply wp_bind, wp_modify, wp_bind, wp_modify, wp_bind, wp_modify, wp_bind.
  rewrite lower_filp_of_set. set (pgs := if decide (0 < ret)%Z then _ else _).
  assert (Hend : forall m s1, s1 = set_pages pgs (set_lower_filps (<[lf := with_pos pos' fp]> (lower_filps s))
      (set_i_mutex [i] (set_io_fs (set_i_attr m (set_lower l (io_fs s))) s))) -> wp
    (let! ra := sget (fun s => f_ra (lower_filp_of s lf)) in
     do! upd_filp file (with_ra ra) in
     do! in_fs (copy K (fun a l => FsState.set_size (a_size l) a) i li) in
     do! inode_unlock i in sret (ret, pos'))
    (fun out s' => out = (ret, pos') /\ io_frame s s' /\ low s' = l /\ pages s' = pgs /\
      a_size (attr_of (io_fs s') i) = a_size (k_attr K l li) /\
      lower_filp_of s' lf = with_pos pos' fp /\ filp_of s' file = with_ra (f_ra fp) (filp_of s file)) s1).
  { intros m s1 ->. apply wp_bind, wp_get, wp_bind, wp_modify, wp_bind, wp_copy_io; [done|done|]. cbv zeta.
    apply wp_bind. eapply wp_inode_unlock; [done|]. apply wp_ret. unfold filp_of, lower_filp_of, attr_of. simpl.
    rewrite !lookup_insert_eq. simpl. split_and!; try done. by eapply (io_frame_intro l). }
  case_decide as Hret.
  - set (at1 := <[i := copy_attr_atime K (attr_of (set_lower l (io_fs s)) i) (k_attr K l li)]> (i_attr (io_fs s))).
    apply wp_bind. eapply wp_mark_pages; [done|done|done|].
    case_decide as Hz; (apply wp_copy_io; [done|done|]); cbv zeta; apply (Hend at1); unfold pgs.
    + rewrite decide_False by lia. simpl. by rewrite insert_insert_eq.
    + rewrite decide_True by lia. simpl. by rewrite insert_insert_eq.
  - apply wp_ret. apply (Hend (i_attr (io_fs s))). unfold pgs. rewrite decide_False by lia.
    simpl. rewrite insert_insert_eq. by destruct s as [[] ? ? ? ? ? ? ?].
Qed.

(** [dazukofs_llseek] *)
Lemma wp_llseek_file offset origin :
  let '(ret, fp, l) := io_llseek F (io_has F (low s) lf Fop_llseek) lf offset origin
    (with_ra (f_ra (filp_of s file)) (with_pos (f_pos (filp_of s file)) (lower_filp_of s lf))) (low s) in
  wp (dazukofs_llseek F file offset origin) (fun r s' => r = ret /\ io_frame s s' /\ pages s' = pages s /\ low s' = l /\
    lower_filp_of s' lf = fp /\
    filp_of s' file = if decide (0 <= ret)%Z then with_version (f_version fp) (with_pos (f_pos fp) (filp_of s file)) else filp_of s file) s.
Proof.
  set (fp0 := with_ra _ _). destruct (io_llseek F _ lf offset origin fp0 (low s)) as [[ret fp] l] eqn:E.
  apply wp_bind. eapply wp_lower_file; [by eapply op_file|].
  apply wp_bind, wp_get, wp_bind, wp_modify, wp_bind, wp_get, wp_bind, wp_modify, wp_bind, wp_get, wp_bind, wp_get.
  match goal with |- context [io_llseek F ?o lf offset origin ?x ?y] =>
    assert (Ex : io_llseek F o lf offset origin x y = (ret, fp, l)) end.
  { rewrite <-E. unfold lower_filp_of, low. simpl. by rewrite !lookup_insert_eq. }
  rewrite Ex. apply wp_bind, wp_modify, wp_bind, wp_modify, wp_bind.
  case_decide as Hret.
  - apply wp_bind, wp_modify, wp_modify, wp_ret. unfold filp_of, lower_filp_of. simpl. rewrite !lookup_insert_eq. simpl.
    split_and!; try done. by apply (io_frame_intro l (i_attr (io_fs s))).
  - apply wp_ret, wp_ret. unfold filp_of, lower_filp_of. simpl. rewrite !lookup_insert_eq. simpl.
    split_and!; try done. by apply (io_frame_intro l (i_attr (io_fs s))).
Qed.
End ops.
End rw.
