(* ===== verification/FsSession.v ===== *)
(** * Transparency: a session on a stacked file

    The system calls on an open DazukoFS file, as the VFS makes them, beside the
    same calls made directly on the lower file. *)

From S2P Require Import Prelude EventState FsState FsInode FsRw FsRwSpec.
From stdpp Require Import list gmap.

(** What a process does with its open file. *)
Inductive user_op :=
| U_read (count : Z)
| U_write (buf : list Z) (count : Z)
| U_seek (offset origin : Z).

Section session.
Context {L : Type} (K : fs_kernel L) (F : io_kernel L) (file lf : ptr).
Implicit Types s : iostate L.

(** [sys_read], [sys_write] and [sys_lseek]: the VFS passes the position of the
    file and stores the new one. *)
Definition user_exec (op : user_op) : IO L (Z * list Z) :=
  let! pos := sget (fun s => f_pos (filp_of s file)) in
  match op with
  | U_read count =>
      let! out := dazukofs_read K F file count pos in
      do! upd_filp file (with_pos out.2) in sret out.1
  | U_write buf count =>
      let! out := dazukofs_write K F file buf count pos in
      do! upd_filp file (with_pos out.2) in sret (out.1, [])
  | U_seek offset origin =>
      let! r := dazukofs_llseek F file offset origin in sret (r, [])
  end.

Fixpoint user_run (ops : list user_op) : IO L (list (Z * list Z)) :=
  match ops with
  | [] => sret []
  | op :: ops =>
      let! r := user_exec op in
      let! rs := user_run ops in
      sret (r :: rs)
  end.

(** The same calls on the lower file itself. *)
Definition direct_exec (op : user_op) (x : filp * L) : (Z * list Z) * (filp * L) :=
  let '(fp, l) := x in
  match op with
  | U_read count =>
      let '(ret, buf, pos, fp', l') := io_read F lf count (f_pos fp) fp l in ((ret, buf), (with_pos pos fp', l'))
  | U_write buf count =>
      let '(ret, pos, fp', l') := io_write F lf buf count (f_pos fp) fp l in ((ret, []), (with_pos pos fp', l'))
  | U_seek offset origin =>
      let '(ret, fp', l') := io_llseek F (io_has F l lf Fop_llseek) lf offset origin fp l in ((ret, []), (fp', l'))
  end.

Fixpoint direct_run (ops : list user_op) (x : filp * L) : list (Z * list Z) * (filp * L) :=
  match ops with
  | [] => ([], x)
  | op :: ops =>
      let '(r, x') := direct_exec op x in
      let '(rs, x'') := direct_run ops x' in
      (r :: rs, x'')
  end.

(** What the code relies on: the lower file can be read and written, a read
    returns a count that fits an [int], a seek keeps the read-ahead state and
    changes nothing when it fails. *)
Record file_laws : Prop := {
  law_can_read l : io_has F l lf Fop_read = true;
  law_can_write l : io_has F l lf Fop_write = true;
  law_read_int count pos fp l : let '(ret, _, _, _, _) := io_read F lf count pos fp l in (- 4095 <= ret < 2 ^ 31)%Z;
  law_seek own offset origin fp l : let '(ret, fp', _) := io_llseek F own lf offset origin fp l in f_ra fp' = f_ra fp /\ ((ret < 0)%Z -> fp' = fp)
}.

Definition in_sync s : Prop :=
  f_pos (filp_of s file) = f_pos (lower_filp_of s lf) /\ f_ra (filp_of s file) = f_ra (lower_filp_of s lf).

Definition below s : filp * L := (lower_filp_of s lf, low s).

Context (laws : file_laws).

Lemma sync_filp s : in_sync s -> with_ra (f_ra (filp_of s file)) (with_pos (f_pos (filp_of s file)) (lower_filp_of s lf)) = lower_filp_of s lf.
Proof. intros [-> ->]. by destruct (lower_filp_of s lf). Qed.

Lemma opened_set_pos u i li f s : opened F file lf u i li s -> opened F file lf u i li (set_filps f s).
Proof. by intros []. Qed.

Lemma wp_user_exec u i li op s : opened F file lf u i li s -> in_sync s ->
  wp (user_exec op) (fun r s' => (r, below s') = direct_exec op (below s) /\ in_sync s' /\ opened F file lf u i li s') s.
Proof.
  intros O Hs. unfold below. pose proof Hs as [Hp Hra]. destruct op as [count|buf count|offset origin]; apply wp_bind, wp_get, wp_bind; cbn [direct_exec].
  - rewrite <-Hp. pose proof (wp_read_file K F _ _ _ _ _ s O count (f_pos (filp_of s file)) (law_can_read laws _)) as Hw.
    pose proof (law_read_int laws count (f_pos (filp_of s file)) (lower_filp_of s lf) (low s)) as Hint.
    destruct (io_read _ _ _ _ _ _) as [[[[ret b] pos'] fp] l]. eapply wp_mono; [exact Hw|].
    intros out s' (-> & Hf & Hpg & <- & Hl & Hu). apply wp_bind, wp_modify, wp_ret. rewrite int_wrap_small by lia.
    change (lower_filp_of (set_filps _ s') lf) with (lower_filp_of s' lf). rewrite Hl. split_and!; [done| |].
    + unfold in_sync. change (lower_filp_of (set_filps _ s') lf) with (lower_filp_of s' lf). by rewrite filp_of_set, Hl, Hu.
    + apply opened_set_pos. eapply opened_frame; [exact Hf|rewrite Hpg; apply O|exact O].
  - rewrite <-Hp. pose proof (wp_write_file K F _ _ _ _ _ s O buf count (f_pos (filp_of s file)) (law_can_write laws _)) as Hw.
    destruct (io_write _ _ _ _ _ _ _) as [[[ret pos'] fp] l]. eapply wp_mono; [exact Hw|].
    intros out s' (-> & Hf & <- & Hpg & _ & Hl & Hu). apply wp_bind, wp_modify, wp_ret.
    change (lower_filp_of (set_filps _ s') lf) with (lower_filp_of s' lf). rewrite Hl. split_and!; [done| |].
    + unfold in_sync. change (lower_filp_of (set_filps _ s') lf) with (lower_filp_of s' lf). by rewrite filp_of_set, Hl, Hu.
    + apply opened_set_pos. eapply opened_frame; [exact Hf| |exact O].
      rewrite Hpg. case_decide; [apply unlocked_outdate, O|apply O].
  - pose proof (wp_llseek_file F _ _ _ _ _ s O offset origin) as Hw. rewrite sync_filp in Hw by done.
    pose proof (law_seek laws (io_has F (low s) lf Fop_llseek) offset origin (lower_filp_of s lf) (low s)) as Hneg.
    destruct (io_llseek _ _ _ _ _ _ _) as [[ret fp] l]. destruct Hneg as [Hkeep Hneg]. eapply wp_mono; [exact Hw|].
    intros r s' (-> & Hf & Hpg & <- & Hl & Hu). apply wp_ret. rewrite Hl. split_and!; [done| |].
    + unfold in_sync. rewrite Hl, Hu. case_decide; [split; [done|by simpl; rewrite Hkeep]|]. by rewrite Hneg by lia.
    + eapply opened_frame; [exact Hf|rewrite Hpg; apply O|exact O].
Qed.

Lemma wp_user_run u i li ops s : opened F file lf u i li s -> in_sync s ->
  wp (user_run ops) (fun rs s' => (rs, below s') = direct_run ops (below s)) s.
Proof.
  revert s. induction ops as [|op ops IH]; intros s O Hs; [by apply wp_ret|]. cbn [user_run direct_run].
  apply wp_bind. eapply wp_mono; [by apply wp_user_exec|]. intros r s1 (<- & Hs1 & O1).
  apply wp_bind. eapply wp_mono; [by apply IH|]. intros rs s2 <-. by apply wp_ret.
Qed.
End session.
