(* ===== verification/FsPages.v ===== *)
(** * Pages of stacked files

    What [readpage] and [writepage] do, and that no page of an upper file that
    counts as up to date differs from the lower file, unless it was written to
    through a mapping. *)

From S2P Require Import Prelude EventState FsState FsInode FsSpec FsRw FsRwSpec.
From stdpp Require Import list gmap.

Definition PAGE_CACHE_SIZE : Z := 4096.

Section pages.
Context {L : Type} (K : fs_kernel L) (F : io_kernel L).
Implicit Types s : iostate L.

(** ** Primitives *)

(** Allocations and references come and go; [fs_like] states agree otherwise. *)
Definition fs_like (x y : fstate L) : Prop := base x = base y.

Lemma wp_kmap k p Q s : pages s !! k = Some p ->
  (forall x, base x = base (io_fs s) -> refs x = refs (io_fs s) ->
    Q true (set_pages (<[k := with_maps (pg_maps p + 1) p]> (pages s)) (set_io_fs x s)) /\ Q false (set_io_fs x s)) ->
  wp (kmap_upper k) Q s.
Proof.
  intros Hp HQ. apply wp_bind, wp_in_fs. unfold wp at 1, zalloc. destruct (fs_oom (io_fs s)) as [|[] o] eqn:E.
  - apply wp_bind. unfold wp at 1, upd_page. simpl. rewrite Hp. apply wp_ret. by apply (HQ (io_fs s)).
  - apply wp_ret. by apply (HQ (set_fs_oom o (io_fs s))).
  - apply wp_bind. unfold wp at 1, upd_page. simpl. rewrite Hp. apply wp_ret. by apply (HQ (set_fs_oom o (io_fs s))).
Qed.

Lemma wp_kmap_lower lp Q s :
  (forall x, base x = base (io_fs s) -> refs x = refs (io_fs s) ->
    Q true (set_lower_maps (lp :: lower_maps s) (set_io_fs x s)) /\ Q false (set_io_fs x s)) ->
  wp (kmap_lower lp) Q s.
Proof.
  intros HQ. apply wp_bind, wp_in_fs. unfold wp at 1, zalloc. destruct (fs_oom (io_fs s)) as [|[] o] eqn:E.
  - apply wp_bind, wp_modify, wp_ret. by apply (HQ (io_fs s)).
  - apply wp_ret. by apply (HQ (set_fs_oom o (io_fs s))).
  - apply wp_bind, wp_modify, wp_ret. by apply (HQ (set_fs_oom o (io_fs s))).
Qed.

Lemma wp_upd_page k p f Q s : pages s !! k = Some p -> Q tt (set_pages (<[k := f p]> (pages s)) s) -> wp (upd_page k f) Q s.
Proof. intros Hp HQ. unfold wp, upd_page. by rewrite Hp. Qed.

Lemma wp_unlock_page k p Q s : pages s !! k = Some p -> pg_locked p = true ->
  Q tt (set_pages (<[k := with_locked false p]> (pages s)) s) -> wp (unlock_page k) Q s.
Proof. intros Hp Hl HQ. unfold wp, unlock_page. by rewrite Hp, Hl. Qed.

Lemma wp_get_page_ref lp Q s : lp <> NULL ->
  Q tt (set_io_fs (set_refs (<[OPage lp := (refs_at (io_fs s) (OPage lp) + 1)%Z]> (refs (io_fs s))) (io_fs s)) s) ->
  wp (in_fs (get_ref (OPage lp))) Q s.
Proof. intros Hn HQ. apply wp_in_fs. unfold get_ref. by rewrite decide_False. Qed.
Lemma wp_put_page_ref lp Q s : lp <> NULL ->
  Q tt (set_io_fs (set_refs (<[OPage lp := (refs_at (io_fs s) (OPage lp) - 1)%Z]> (refs (io_fs s))) (io_fs s)) s) ->
  wp (in_fs (put_ref (OPage lp))) Q s.
Proof. intros Hn HQ. apply wp_in_fs. unfold put_ref. by rewrite decide_False. Qed.

(** ** [readpage] *)

(** The page [k] becomes [p']; nothing else changes but the lower state. *)
Definition page_done (k : ptr * Z) (p' : page) (l : L) (s s' : iostate L) : Prop :=
  pages s' = <[k := p']> (pages s) /\ base (io_fs s') = base (set_lower l (io_fs s)) /\
  page_locks s' = page_locks s /\ i_mutex s' = i_mutex s.

(** The page [k], [p] before, is unlocked; it is up to date exactly when the result
    is 0, and then holds what the lower page [lp] holds.  All references are given
    back. *)
Definition page_read (k : ptr * Z) (p : page) (lp : ptr) (l : L) s (r : Z) s' : Prop :=
  (exists p', page_done k p' l s s' /\ pg_locked p' = false /\ pg_count p' = pg_count p /\
    pg_uptodate p' = bool_decide (r = 0%Z) /\
    (r = 0%Z -> (0 <= lp)%Z /\ pg_maps p' = pg_maps p /\ pg_data p' = page_data F l lp)) /\
  forall o, refs_at (io_fs s') o = refs_at (io_fs s) o.

Lemma wp_readpage file lf u i li idx p s :
  files (io_fs s) !! file = Some lf -> f_dentry s !! file = Some u -> d_inode (io_fs s) !! u = Some i ->
  inode_info (io_fs s) !! i = Some li -> pages s !! (i, idx) = Some p -> pg_locked p = true ->
  let '(lp, l) := read_cache_page F li idx lf (low s) in lp <> NULL ->
  wp (dazukofs_readpage F file idx) (page_read (i, idx) p lp l s) s.
Proof.
  intros Hf Hd Hi Hli Hp Hlk. destruct (read_cache_page F li idx lf (low s)) as [lp l] eqn:E. intros Hlp.
  apply wp_bind. eapply wp_lower_file; [done|]. apply wp_bind. eapply wp_file_inode; [done|done|].
  apply wp_bind. eapply wp_lower_inode; [done|]. cbv zeta. apply wp_bind, wp_get. rewrite E. apply wp_bind, wp_modify, wp_bind.
  set (s1 := set_low l s).
  (* the end of the function *)
  assert (Hend : forall (r : Z) q s2, pages s2 = <[(i, idx) := q]> (pages s) -> pg_locked q = true -> pg_count q = pg_count p ->
    base (io_fs s2) = base (io_fs s1) -> page_locks s2 = page_locks s -> i_mutex s2 = i_mutex s ->
    (forall o, refs_at (io_fs s2) o = refs_at (io_fs s) o) ->
    (r = 0%Z -> (0 <= lp)%Z /\ pg_maps q = pg_maps p /\ pg_data q = page_data F l lp) ->
    wp (do! upd_page (i, idx) (with_uptodate (bool_decide (r = 0%Z))) in do! unlock_page (i, idx) in sret r)
      (page_read (i, idx) p lp l s) s2).
  { intros r q s2 Hq Hql Hqc Hb Hpl Him Hrefs Hr. apply wp_bind. eapply wp_upd_page; [by rewrite Hq, lookup_insert_eq|].
    apply wp_bind. eapply wp_unlock_page; [apply lookup_insert_eq|done|]. apply wp_ret. split; [|done].
    eexists. unfold page_done. simpl. rewrite Hq, !insert_insert_eq. split_and!; try done; naive_solver. }
  case_decide as Hneg.
  { apply wp_ret. eapply (Hend lp p); try done; by rewrite insert_id. }
  apply wp_bind. eapply wp_get_page_ref; [done|]. set (s2 := set_io_fs _ s1).
  assert (Hput : forall (r : Z) q s3, pages s3 = <[(i, idx) := q]> (pages s) -> pg_locked q = true -> pg_count q = pg_count p ->
    base (io_fs s3) = base (io_fs s1) -> page_locks s3 = page_locks s -> i_mutex s3 = i_mutex s ->
    refs (io_fs s3) = refs (io_fs s2) -> (r = 0%Z -> (0 <= lp)%Z /\ pg_maps q = pg_maps p /\ pg_data q = page_data F l lp) ->
    wp (do! in_fs (put_ref (OPage lp)) in sret r) (fun r s' => wp
      (do! upd_page (i, idx) (with_uptodate (bool_decide (r = 0%Z))) in do! unlock_page (i, idx) in sret r)
      (page_read (i, idx) p lp l s) s') s3).
  { intros r q s3 Hq Hql Hqc Hb Hpl Him Hrefs Hr. apply wp_bind. eapply wp_put_page_ref; [done|]. apply wp_ret.
    eapply Hend; try done. intros o. unfold set_io_fs. simpl. rewrite refs_at_insert. case_decide as Ho.
    - subst o. unfold refs_at at 1. rewrite Hrefs. unfold s2. simpl. rewrite lookup_insert_eq. simpl. unfold refs_at, s1. simpl. lia.
    - unfold refs_at. rewrite Hrefs. unfold s2. simpl. by rewrite lookup_insert_ne. }
  (* the pages are mapped and copied *)
  apply wp_bind. eapply wp_kmap; [exact Hp|]. intros x Hx Hrx. split.
  2:{ apply wp_bind, wp_ret. eapply (Hput _ p); try done. by rewrite insert_id. }
  apply wp_bind. cbn [negb]. apply wp_bind, wp_kmap_lower. intros y Hy Hry. split.
  2:{ apply wp_ret. eapply Hput; try done; [etrans; [exact Hy|exact Hx]|etrans; [exact Hry|exact Hrx]]. }
  cbn [negb]. apply wp_bind, wp_get, wp_bind. eapply wp_upd_page; [simpl; by rewrite lookup_insert_eq|].
  apply wp_bind, wp_modify, wp_bind. eapply wp_upd_page; [simpl; by rewrite lookup_insert_eq|]. apply wp_ret.
  simpl. rewrite !insert_insert_eq. eapply Hput; try done; [etrans; [exact Hy|exact Hx]|etrans; [exact Hry|exact Hrx]|].
  intros _. split_and!; [lia|simpl; lia|]. simpl. f_equal.
  change (lower (base y) = l). etrans; [apply (f_equal lower), (eq_trans Hy Hx)|done].
Qed.

(** ** [writepage] *)

(** The page [k] is unlocked.  When the result is 0 its contents [pg_data p] have
    gone to the lower page [lp], which is marked dirty, and it is up to date; the
    reference to the lower page is never given back. *)
Definition page_written (k : ptr * Z) (p : page) (lp : ptr) (l : L) s (r : Z) s' : Prop :=
  (exists p', page_done k p' (if decide (r = 0%Z) then page_dirty F lp (page_write F lp (pg_data p) l) else l) s s' /\
    pg_locked p' = false /\ pg_data p' = pg_data p /\ pg_count p' = pg_count p /\ pg_maps p' = pg_maps p /\
    pg_uptodate p' = bool_decide (r = 0%Z) || pg_uptodate p) /\ (r = 0%Z -> lp <> NULL) /\
  forall o, o.2 <> NULL -> refs_at (io_fs s') o = (refs_at (io_fs s) o + if decide (o = OPage lp) then 1 else 0)%Z.

Lemma filter_ne_cons_not_in lp (l : list ptr) : lp ∉ l -> filter (fun x => x <> lp) (lp :: l) = l.
Proof. intros Hn. rewrite filter_cons, decide_False by tauto. by rewrite filter_all by (by intros x Hx ->). Qed.

Lemma wp_unlock_lower lp ls Q s : page_locks s = lp :: ls -> lp ∉ ls -> Q tt (set_page_locks ls s) ->
  wp (unlock_lower_page lp) Q s.
Proof.
  intros Hl Hn HQ. unfold wp, unlock_lower_page. rewrite Hl, decide_True by apply list_elem_of_here.
  by rewrite filter_ne_cons_not_in.
Qed.

Lemma wp_writepage i li idx p s :
  inode_info (io_fs s) !! i = Some li -> pages s !! (i, idx) = Some p -> pg_locked p = true ->
  let '(lp, l) := grab_cache_page F li idx (low s) in lp ∉ page_locks s ->
  wp (dazukofs_writepage F i idx) (page_written (i, idx) p lp l s) s.
Proof.
  intros Hli Hp Hlk. destruct (grab_cache_page F li idx (low s)) as [lp l] eqn:E. intros Hlp.
  apply wp_bind. eapply wp_lower_inode; [done|]. cbv zeta. apply wp_bind, wp_get. rewrite E. apply wp_bind, wp_modify, wp_bind.
  set (s1 := set_low l s).
  assert (Hend : forall (r : Z) q l' s2, pages s2 = <[(i, idx) := q]> (pages s) -> pg_locked q = true -> pg_count q = pg_count p ->
    pg_data q = pg_data p -> pg_maps q = pg_maps p -> pg_uptodate q = bool_decide (r = 0%Z) || pg_uptodate p ->
    base (io_fs s2) = base (set_lower l' (io_fs s)) -> page_locks s2 = page_locks s -> i_mutex s2 = i_mutex s ->
    l' = (if decide (r = 0%Z) then page_dirty F lp (page_write F lp (pg_data p) l) else l) -> (r = 0%Z -> lp <> NULL) ->
    (forall o, o.2 <> NULL -> refs_at (io_fs s2) o = (refs_at (io_fs s) o + if decide (o = OPage lp) then 1 else 0)%Z) ->
    wp (do! unlock_page (i, idx) in sret r) (page_written (i, idx) p lp l s) s2).
  { intros r q l' s2 Hq Hql Hqc Hqd Hqm Hqu Hb Hpl Him -> Hnn Hrefs. apply wp_bind.
    eapply wp_unlock_page; [by rewrite Hq, lookup_insert_eq|done|]. apply wp_ret. split; [|by split].
    eexists. unfold page_done. simpl. rewrite Hq, !insert_insert_eq. by split_and!. }
  case_decide as Hnull.
  { apply wp_ret. eapply (Hend _ p l); try done; [by rewrite insert_id|].
    intros o Ho. rewrite decide_False by (intros ->; done). rewrite Z.add_0_r. done. }
  apply wp_bind. eapply wp_get_page_ref; [done|]. apply wp_bind, wp_modify, wp_bind. set (s2 := set_page_locks _ _).
  assert (Hrefs : forall x : fstate L, refs x = refs (io_fs s2) -> forall o, o.2 <> NULL ->
    refs_at x o = (refs_at (io_fs s) o + if decide (o = OPage lp) then 1 else 0)%Z).
  { intros x Hx o _. unfold refs_at at 1. rewrite Hx. unfold s2. simpl. case_decide as Ho.
    - subst. by rewrite lookup_insert_eq.
    - rewrite lookup_insert_ne by done. unfold refs_at. lia. }
  eapply wp_kmap; [exact Hp|]. intros x Hx Hrx. split; cbn [negb].
  2:{ apply wp_bind. eapply wp_unlock_lower; [done|done|]. apply wp_ret. eapply (Hend _ p l); try done.
      - symmetry. by apply insert_id.
      - by apply Hrefs. }
  apply wp_bind, wp_kmap_lower. intros y Hy Hry. split; cbn [negb].
  2:{ apply wp_bind. eapply wp_upd_page; [simpl; by rewrite lookup_insert_eq|].
      apply wp_bind. eapply wp_unlock_lower; [done|done|]. apply wp_ret. simpl. rewrite insert_insert_eq.
      eapply (Hend _ _ l); try done; simpl; [lia|exact (eq_trans Hy Hx)|apply Hrefs, (eq_trans Hry Hrx)]. }
  apply wp_bind, wp_get, wp_bind, wp_modify, wp_bind. simpl. rewrite lookup_insert_eq.
  eapply wp_upd_page; [simpl; by rewrite lookup_insert_eq|]. apply wp_bind, wp_modify, wp_bind, wp_modify.
  apply wp_bind. eapply wp_unlock_lower; [done|done|]. apply wp_bind. eapply wp_upd_page; [simpl; by rewrite lookup_insert_eq|].
  apply wp_ret. simpl. rewrite !insert_insert_eq. 
  assert (Hb : base y = base (set_lower l (io_fs s))) by exact (eq_trans Hy Hx).
  eapply (Hend _ _ (page_dirty F lp (page_write F lp (pg_data p) l))); try done.
  - simpl. lia.
  - change (set_lower (page_dirty F lp (page_write F lp (pg_data p) (lower (base y)))) (base y) =
      base (set_lower (page_dirty F lp (page_write F lp (pg_data p) l)) (io_fs s))). by rewrite Hb.
  - intros o Ho. by apply (Hrefs y (eq_trans Hry Hrx)).
Qed.

(** ** Coherence *)

(** [file_page l i n] is the page [n] of the file of the lower inode [i]. *)
Record page_laws (file_page : L -> ptr -> Z -> list Z) : Prop := {
  (** Reading a page into the cache yields it, and changes no file. *)
  law_page_read i n lf l : let '(lp, l') := read_cache_page F i n lf l in
    lp <> NULL /\ (forall j m, file_page l' j m = file_page l j m) /\ ((0 <= lp)%Z -> page_data F l' lp = file_page l' i n);
  (** What is written to a page that was grabbed is that page of the file. *)
  law_page_grab i n l : let '(lp, l') := grab_cache_page F i n l in
    (forall j m, file_page l' j m = file_page l j m) /\
    (lp <> NULL -> forall d j m, file_page (page_dirty F lp (page_write F lp d l')) j m =
      if decide ((j, m) = (i, n)) then d else file_page l' j m);
  (** A write of [ret] bytes that ends at [pos'] changes no page outside. *)
  law_page_write lf buf count pos fp l : let '(ret, pos', _, l') := io_write F lf buf count pos fp l in
    ((0 <= ret)%Z -> (ret <= pos' < 2 ^ 63)%Z) /\
    forall j n, (j <> io_inode F l lf \/ ret <= 0 \/ (n + 1) * PAGE_CACHE_SIZE <= pos' - ret \/ pos' <= n * PAGE_CACHE_SIZE)%Z ->
      file_page l' j n = file_page l j n
}.

Context (file_page : L -> ptr -> Z -> list Z) (plaws : page_laws file_page).

(** Apart from the pages in [D], each page that counts as up to date holds what
    the lower file holds. *)
Definition coherent_but (D : gset (ptr * Z)) s : Prop :=
  forall i n p li, pages s !! (i, n) = Some p -> (i, n) ∉ D -> pg_uptodate p = true -> inode_info (io_fs s) !! i = Some li ->
    pg_data p = file_page (low s) li n.

(** No two inodes lie over the same one. *)
Definition unique_lower (i li : ptr) s : Prop := forall j, inode_info (io_fs s) !! j = Some li -> j = i.

Lemma base_info (x y : fstate L) : base x = base y -> inode_info x = inode_info y /\ lower x = lower y.
Proof. intros E. split; [exact (f_equal inode_info E)|exact (f_equal lower E)]. Qed.

Lemma coherent_write D file lf u i li buf count pos s : opened F file lf u i li s -> unique_lower i li s ->
  (forall l, io_inode F l lf = li) -> io_has F (low s) lf Fop_write = true -> coherent_but D s ->
  wp (dazukofs_write K F file buf count pos) (fun _ s' => coherent_but D s') s.
Proof.
  intros O Hu Hli Hw Hc. pose proof (wp_write_file K F _ _ _ _ _ s O buf count pos Hw) as Hrun.
  pose proof (law_page_write _ plaws lf buf count pos (lower_filp_of s lf) (low s)) as Hlaw. rewrite Hli in Hlaw.
  destruct (io_write _ _ _ _ _ _ _) as [[[ret pos'] fp] l]. eapply wp_mono; [exact Hrun|].
  intros out s' (_ & ((l0 & m & Ef) & _) & Hl & Hpg & _). destruct Hlaw as [Hpos Hsame].
  assert (Hinfo : inode_info (io_fs s') = inode_info (io_fs s)) by (by rewrite Ef).
  intros j n p lj Hp Hn Hup Hlj. rewrite Hinfo in Hlj. rewrite Hl.
  assert (Hback : pages s !! (j, n) = Some p -> (lj <> li \/ ret <= 0 \/ (n + 1) * PAGE_CACHE_SIZE <= pos' - ret \/
      pos' <= n * PAGE_CACHE_SIZE)%Z -> pg_data p = file_page l lj n).
  { intros Hp' Hout. rewrite Hsame by done. by apply (Hc j n p lj). }
  rewrite Hpg in Hp. case_decide as Hret; [|apply Hback; [done|right; left; lia]].
  rewrite lookup_outdate in Hp. destruct (pages s !! (j, n)) as [q|] eqn:Hq; [|done]. simpl in Hp.
  case_decide as Hin; injection Hp as <-; [done|]. apply Hback; [done|].
  destruct (decide (lj = li)) as [->|]; [|by left]. assert (j = i) as -> by (by apply Hu).
  assert (Hr : (0 <= ret)%Z) by lia. specialize (Hpos Hr). unfold mark_start, mark_last, PAGE_SHIFT, PAGE_CACHE_SIZE in *.
  replace (pos' - ret + ret)%Z with pos' in Hin by lia. rewrite !Z.shiftr_div_pow2 in Hin by lia.
  rewrite (ulong_wrap_small pos') in Hin by lia. rewrite ulong_wrap_small in Hin.
  2:{ change (2 ^ 12)%Z with 4096%Z. split; [apply Z.div_pos; lia|]. apply Z.div_lt_upper_bound; lia. }
  change (2 ^ 12)%Z with 4096%Z in Hin. right. right. simpl in Hin.
  assert (n < (pos' - ret) / 4096 \/ pos' / 4096 < n)%Z as [?|?] by (destruct (decide (n < (pos' - ret) / 4096)%Z); [by left|right; lia]).
  - left. pose proof (Z.mul_div_le (pos' - ret) 4096 ltac:(lia)). nia.
  - right. pose proof (Z.mul_succ_div_gt pos' 4096 ltac:(lia)). nia.
Qed.

Lemma coherent_readpage D file lf u i li n p s :
  files (io_fs s) !! file = Some lf -> f_dentry s !! file = Some u -> d_inode (io_fs s) !! u = Some i ->
  inode_info (io_fs s) !! i = Some li -> pages s !! (i, n) = Some p -> pg_locked p = true -> coherent_but D s ->
  wp (dazukofs_readpage F file n) (fun _ s' => coherent_but (D ∖ {[(i, n)]}) s') s.
Proof.
  intros Hf Hd Hi Hli Hp Hlk Hc. pose proof (wp_readpage file lf u i li n p s Hf Hd Hi Hli Hp Hlk) as Hrun.
  pose proof (law_page_read _ plaws li n lf (low s)) as Hlaw.
  destruct (read_cache_page _ _ _ _ _) as [lp l]. destruct Hlaw as (Hlp & Hsame & Hdata).
  eapply wp_mono; [by apply Hrun|]. intros r s' [(p' & (Hpg & Hb & _) & _ & _ & Hup & Hread) _].
  apply base_info in Hb as [Hinfo Hlow]. intros j m q lj Hq Hn Hq' Hlj. rewrite Hinfo in Hlj. simpl in Hlj.
  unfold low. rewrite Hlow. simpl. rewrite Hpg in Hq. apply lookup_insert_Some in Hq as [[[= <- <-] <-]|[Hne Hq]].
  - rewrite Hup in Hq'. apply bool_decide_eq_true in Hq'. destruct (Hread Hq') as (Hge & _ & ->).
    simplify_eq. by apply Hdata.
  - rewrite Hsame. apply (Hc j m q lj); try done. set_solver.
Qed.

Lemma coherent_writepage D i li n p s : unique_lower i li s ->
  inode_info (io_fs s) !! i = Some li -> pages s !! (i, n) = Some p -> pg_locked p = true -> page_locks s = [] ->
  coherent_but D s ->
  wp (dazukofs_writepage F i n) (fun r s' => if decide (r = 0%Z) then coherent_but (D ∖ {[(i, n)]}) s' else coherent_but D s') s.
Proof.
  intros Hu Hli Hp Hlk Hpl Hc. pose proof (wp_writepage i li n p s Hli Hp Hlk) as Hrun.
  pose proof (law_page_grab _ plaws li n (low s)) as Hlaw.
  destruct (grab_cache_page _ _ _ _) as [lp l]. destruct Hlaw as (Hsame & Hwr). rewrite Hpl in Hrun.
  eapply wp_mono; [apply Hrun, not_elem_of_nil|]. intros r s' [(p' & (Hpg & Hb & _) & _ & Hd & _ & _ & Hup) [Hnn _]].
  apply base_info in Hb as [Hinfo Hlow]. simpl in Hinfo.
  assert (Hlow' : low s' = if decide (r = 0%Z) then page_dirty F lp (page_write F lp (pg_data p) l) else l) by exact Hlow.
  (* a page other than [k] *)
  assert (Hother : forall j m q lj, pages s !! (j, m) = Some q -> (j, m) <> (i, n) -> (j, m) ∉ D -> pg_uptodate q = true ->
    inode_info (io_fs s) !! j = Some lj -> pg_data q = file_page (low s') lj m).
  { intros j m q lj Hq Hne Hn Hq' Hlj. rewrite Hlow'. rewrite (Hc j m q lj) by done. case_decide as Hr; [|by rewrite Hsame].
    rewrite Hwr by auto. rewrite decide_False; [by rewrite Hsame|]. intros [= -> ->]. apply Hne. f_equal. by apply Hu. }
  assert (Hall : forall X, (forall q : page, q = p' -> (i, n) ∉ X -> pg_uptodate q = true -> pg_data q = file_page (low s') li n) ->
    (forall k, k ∉ X -> k <> (i, n) -> k ∉ D) -> coherent_but X s').
  { intros X Hk HX j m q lj Hq Hn Hq' Hlj. rewrite Hinfo in Hlj. rewrite Hpg in Hq.
    apply lookup_insert_Some in Hq as [[[= <- <-] <-]|[Hne Hq]].
    - simplify_eq. by apply Hk.
    - apply (Hother j m q lj); try done. by apply HX. }
  case_decide as Hr; apply Hall.
  - intros q -> _ _. rewrite Hd, Hlow'. rewrite Hwr by auto. by rewrite decide_True.
  - set_solver.
  - intros q -> Hn. rewrite Hup, bool_decide_eq_false_2 by done. simpl. intros Hq'.
    rewrite Hd, Hlow', Hsame. by apply (Hc i n p li).
  - done.
Qed.
End pages.
