(* ===== verification/FsModel.v ===== *)
(** * A small lower file system

    An instance of the interfaces of [FsState] and [FsRw] that has the laws the
    theorems rely on, to run the code on. *)

From S2P Require Import Prelude EventState FsState FsInode FsSpec FsRw FsSession FsPages.
From stdpp Require Import list gmap.

(** The inodes of its dentries and the pages of its files. *)
Record lower_fs := mk_lower { l_ino : gmap ptr ptr; l_pages : gmap (ptr * Z) (list Z) }.
Definition empty_fs : lower_fs := mk_lower ∅ ∅.

(** The dentry 100 is the root, with the inode 1, and the parent of all. *)
Definition small_inode (l : lower_fs) (d : ptr) : ptr := if decide (d = 100%Z) then 1%Z else default NULL (l_ino l !! d).
Definition small_make (d : ptr) (l : lower_fs) : lower_fs := mk_lower (<[d := (500 + Z.abs d)%Z]> (l_ino l)) (l_pages l).

(** A cached inode that passes the test, or a new one. *)
Definition small_iget5 (cached : gset ptr) (test : ptr -> bool) : option ptr :=
  match filter (fun i => test i = true) (elements cached) with
  | i :: _ => if decide (i = NULL) then None else Some i
  | [] => Some (fresh (cached ∪ {[ NULL ]}))
  end.

Definition small_call (c : lcall) (l : lower_fs) : Z * lower_fs :=
  match c with
  | Lookup_one name _ => ((200 + Z.of_nat (length name))%Z, l)
  | Mknod _ d _ _ | Mkdir _ d _ | Create _ d _ _ | Symlink _ d _ | Link _ _ d => (0%Z, small_make d l)
  | Dentry_open d _ _ => ((2000 + Z.abs d)%Z, l)
  | Readlink _ bufsiz => ((bufsiz `min` 2)%Z, l)
  | _ => (0%Z, l)
  end.

(** [grab] tells for which inodes [igrab] succeeds. *)
Definition small_kernel_with (grab : ptr -> bool) : fs_kernel lower_fs := {|
  k_parent _ _ := 100%Z;
  k_inode := small_inode;
  k_sb _ _ := 7%Z;
  k_dentry_sb _ _ := 7%Z;
  k_attr _ i := mk_attr (if decide (i = 1%Z) then 16877 else 33188) 1 (0, 0)%Z 0 i i i 0 0;
  k_ino _ i := i;
  k_maxbytes _ _ := (2 ^ 63 - 1)%Z;
  k_link _ d := [47; d]%Z;
  k_stat _ _ d := mk_attr 33188 1 (0, 0)%Z 0 d d d 0 0;
  k_igrab _ := grab;
  k_has _ _ _ := true;
  k_has_revalidate _ _ := false;
  k_has_statfs _ _ := true;
  k_d_hash _ _ := None;
  k_d_compare _ _ := None;
  k_call := small_call;
  k_iget5 := small_iget5;
  s_isdir m := bool_decide (Z.land m 61440 = 16384)%Z;
  s_islnk m := bool_decide (Z.land m 61440 = 40960)%Z;
  special_file m := bool_decide (Z.land m 61440 ∈ [8192; 24576; 4096; 49152])%Z;
  copy_attr_all x y := mk_attr (a_mode y) (a_nlink y) (a_owner y) (a_rdev y) (a_atime y) (a_mtime y) (a_ctime y) (a_size x) (a_blocks x);
  copy_attr_times x y := mk_attr (a_mode x) (a_nlink x) (a_owner x) (a_rdev x) (a_atime y) (a_mtime y) (a_ctime y) (a_size x) (a_blocks x);
  copy_attr_atime x y := mk_attr (a_mode x) (a_nlink x) (a_owner x) (a_rdev x) (a_atime y) (a_mtime x) (a_ctime x) (a_size x) (a_blocks x);
  copy_inode_size x y := mk_attr (a_mode x) (a_nlink x) (a_owner x) (a_rdev x) (a_atime x) (a_mtime x) (a_ctime x) (a_size y) (a_blocks y)
|}.
Definition small_kernel : fs_kernel lower_fs := small_kernel_with (fun _ => true).

Lemma small_iget5_ok cached test i : small_iget5 cached test = Some i ->
  i <> NULL /\ ((i ∈ cached /\ test i = true) \/ (i ∉ cached /\ forall j, j ∈ cached -> test j = false)).
Proof.
  unfold small_iget5. destruct (filter _ _) as [|j xs] eqn:E.
  - intros [= <-]. pose proof (is_fresh (cached ∪ {[ NULL ]})) as Hf. split; [set_solver|].
    right. split; [set_solver|]. intros j Hj. apply not_true_is_false. intros Ht.
    assert (Hin : j ∈ filter (fun i => test i = true) (elements cached)) by (by apply list_elem_of_filter; split; [|apply elem_of_elements]).
    rewrite E in Hin. by apply not_elem_of_nil in Hin.
  - case_decide; [done|]. intros [= <-]. split; [done|]. left.
    assert (Hin : j ∈ filter (fun i => test i = true) (elements cached)) by (rewrite E; left).
    apply list_elem_of_filter in Hin as [Hj Hin]. split; [by apply elem_of_elements|done].
Qed.

Lemma small_laws_with grab : kernel_laws (small_kernel_with grab).
Proof.
  split; try done.
  - apply small_iget5_ok.
  - intros c l d Hc _. unfold small_kernel_with, k_inode, k_call, small_inode. case_decide; [done|].
    destruct c; simplify_eq/=; rewrite lookup_insert_eq; simpl; lia.
  - intros l n p. split; [simpl; lia|done].
  - by intros [] [].
Qed.

Definition small_laws : kernel_laws small_kernel := small_laws_with (fun _ => true).

(** ** Its files *)

(** A page is the pointer that encodes its file and index; the inode of a lower
    file has the number of the file; one byte is written at a time. *)
Definition small_page (l : lower_fs) (i : ptr) (n : Z) : list Z := default [] (l_pages l !! (i, n)).
Definition page_ptr (i : ptr) (n : Z) : ptr := Z.pos (encode (i, n)).
Definition of_page (lp : ptr) : ptr * Z := default (0, 0)%Z (decode (Z.to_pos lp)).
Definition small_set_page (k : ptr * Z) (d : list Z) (l : lower_fs) : lower_fs := mk_lower (l_ino l) (<[k := d]> (l_pages l)).

Definition small_io : io_kernel lower_fs := {|
  io_has _ _ _ := true;
  io_inode _ lf := lf;
  io_llseek _ _ offset _ fp l := if decide (0 <= offset)%Z then (offset, with_pos offset fp, l) else ((- EINVAL)%Z, fp, l);
  io_read lf count pos fp l := (1%Z, small_page l lf (pos / 4096)%Z, (pos + 1)%Z, fp, l);
  io_write lf buf count pos fp l :=
    if decide (0 <= pos < 2 ^ 62)%Z then (1%Z, (pos + 1)%Z, fp, small_set_page (lf, pos / 4096)%Z buf l)
    else ((- EINVAL)%Z, pos, fp, l);
  io_readdir _ fp l := (0%Z, [], fp, l);
  io_call _ l := (0%Z, l);
  read_cache_page i n _ l := (page_ptr i n, l);
  grab_cache_page i n l := (page_ptr i n, l);
  page_data l lp := small_page l (of_page lp).1 (of_page lp).2;
  page_write lp d l := small_set_page (of_page lp) d l;
  page_dirty _ l := l
|}.

Lemma of_page_ptr i n : of_page (page_ptr i n) = (i, n).
Proof. unfold of_page, page_ptr. simpl. by rewrite decode_encode. Qed.

Lemma small_file_laws lf : file_laws small_io lf.
Proof.
  split; try done. intros own offset origin fp l. simpl. case_decide; [|done].
  split; [done|lia].
Qed.

Lemma small_page_laws : page_laws small_io small_page.
Proof.
  split.
  - intros i n lf l. simpl. split_and!; try done. intros _. by rewrite of_page_ptr.
  - intros i n l. simpl. split; [done|]. intros _ d j m. rewrite of_page_ptr. unfold small_page. simpl.
    case_decide as E; [by rewrite E, lookup_insert_eq|by rewrite lookup_insert_ne].
  - intros lf buf count pos fp l. simpl. case_decide as Hp; [|split; [unfold EINVAL; lia|done]].
    split; [lia|]. intros j n Hout. unfold small_page. simpl. rewrite lookup_insert_ne; [done|].
    intros [= <- <-]. unfold PAGE_CACHE_SIZE in Hout.
    pose proof (Z.mul_div_le pos 4096 ltac:(lia)). pose proof (Z.mul_succ_div_gt pos 4096 ltac:(lia)). lia.
Qed.
