(* ===== verification/FsThms.v ===== *)
(** * What the stacked file system guarantees

    The theorems on [inode.c], [file.c], [dentry.c], [super.c] and [mmap.c], and
    what the code compiled for newer kernels does otherwise. *)

From S2P Require Import Prelude EventState FsState FsInode FsSpec FsFile FsFrame FsInodeSpec FsFileSpec FsLedger FsSystem FsTables FsRw FsRwSpec FsSession FsPages FsModel.
From stdpp Require Import list gmap.

Definition runs {S A} (m : SM S A) (s : S) : Prop := exists r s', m s = Ret r s'.

(** ** Runs on the small file system *)

(** The kernel the README names, and the first that no longer has a nameidata. *)
Definition v2636 : Z := KERNEL_VERSION 2 6 36.
Definition v36 : Z := KERNEL_VERSION 3 6 0.

Definition run_pair (K : fs_kernel lower_fs) (v : Z) (s : fstate lower_fs) (ops : list fs_op) : ledger * fstate lower_fs :=
  default ([], s) (fs_execs K v ops [] s).

Lemma run_pair_run K v s ops : fs_start K v s -> bool_decide (is_Some (fs_execs K v ops [] s)) = true ->
  fs_run K v (run_pair K v s ops).1 (run_pair K v s ops).2.
Proof.
  intros Hs H. apply bool_decide_eq_true in H as [[l s'] E]. unfold run_pair. rewrite E. simpl.
  eapply fs_execs_run; [by apply run_init|exact E].
Qed.

(** Runs from the unmounted file system, as compiled for 2.6.36. *)
Definition run_state_of (K : fs_kernel lower_fs) (low : lower_fs) (ops : list fs_op) : fstate lower_fs :=
  (run_pair K v2636 (unmounted low []) ops).2.
Definition run_state (ops : list fs_op) : fstate lower_fs := run_state_of small_kernel empty_fs ops.

Lemma run_state_run K low ops : bool_decide (is_Some (fs_execs K v2636 ops [] (unmounted low []))) = true ->
  fs_run K v2636 (run_pair K v2636 (unmounted low []) ops).1 (run_state_of K low ops).
Proof. intros H. apply run_pair_run; [|exact H]. left. by exists low, []. Qed.

(** The result of an operation, to be computed. *)
Definition result_of {S A} (m : SM S A) (s : S) : option A := match m s with Ret r _ => Some r | Stuck _ => None end.
Lemma result_of_run {S A} (m : SM S A) s r : result_of m s = Some r -> exists s', m s = Ret r s'.
Proof. unfold result_of. destruct (m s) as [r' s'|w]; [|done]. intros [= ->]. by exists s'. Qed.

(** A mount of the lower root (dentry 100 of the mount 3) as super block 9 with the
    root dentry 1, and a lookup that finds no inode. *)
Definition mounted_ops : list fs_op := [F_mount 9 1 100 3].
Definition lookup_op : fs_op := F_lookup 1 2 1 9 [97%Z].
Definition named_ops : list fs_op := mounted_ops ++ [lookup_op].

(** Runs from a root that an older kernel has mounted, as compiled for 3.6. *)
Definition rooted_state : fstate lower_fs := run_state mounted_ops.
Lemma rooted_start : fs_start small_kernel v36 rooted_state.
Proof.
  right. split; [reflexivity|]. exists empty_fs, [], 9%Z, 1%Z, 100%Z, 3%Z. split; [done|].
  assert (E : result_of (dazukofs_get_sb small_kernel false 9 1 100 3) (unmounted empty_fs []) = Some 0%Z) by (vm_compute; reflexivity).
  apply result_of_run in E as [s' E]. rewrite E. f_equal. unfold rooted_state, run_state, run_state_of, run_pair, mounted_ops.
  cbn [fs_execs]. rewrite decide_True by (apply (bool_decide_unpack _); vm_compute; exact I).
  unfold fs_exec. change (negb (before v2636 2 6 39)) with false. by rewrite E.
Qed.
Definition run36 (ops : list fs_op) : ledger * fstate lower_fs := run_pair small_kernel v36 rooted_state ops.
Lemma run36_run ops : bool_decide (is_Some (fs_execs small_kernel v36 ops [] rooted_state)) = true ->
  fs_run small_kernel v36 (run36 ops).1 (run36 ops).2.
Proof. apply run_pair_run, rooted_start. Qed.

(** ** References *)

(** C6.  Compiled for any kernel version, after any sequence of operations of the VFS,
    failed ones included, no mutex is held, and the references DazukoFS has taken on
    each lower dentry, mount, inode and file are exactly as many as its dentries,
    inodes, open files and followed links own, plus the balance of the ledger; and as
    long as that is missing none, no operation the VFS may make next faults.  The
    ledger ([dues]) has one more on the lower dentry for each [statfs]; one less on it
    for a lookup that failed once the dentry was linked, one less on the lower root and
    its mount for a mount that failed while interposing; and since Linux 3.6 one more
    on the lower dentry and mount for every open that reaches [dentry_open], one less on
    each for every [create].  (Since Linux 2.6.39 a mount leaves a root over nothing: of
    these kernels the runs start from a root that an older one has mounted.) *)
Theorem references_balanced {L} (K : fs_kernel L) v l s : kernel_laws K -> fs_run K v l s ->
  (forall o, o.2 <> NULL -> refs_at s o = Z.of_nat (owned s o) + balance l o)%Z /\ locks s = [] /\
  ((forall o, 0 <= balance l o)%Z -> forall op, legal K v op s -> runs (fs_exec K v op) s).
Proof.
  intros laws Hs. pose proof (fs_run_settled K v laws l s Hs) as S. split_and!; [apply S|apply S|].
  intros _ op Hop. destruct (wp_run _ _ _ (wp_legal K v laws op l s S Hop)) as (r & s' & E & _). by exists r, s'.
Qed.
Definition ops36 : list fs_op := [lookup_op; F_create 1 2 9 33188 true; F_open 0 2 50 0; F_statfs 2; F_open 0 2 51 0].
Lemma references_balanced_witness :
  (refs_at (run36 ops36).2 (ODentry 201) = 3 /\ refs_at (run36 ops36).2 (OMnt 3) = 3)%Z /\ locks (run36 ops36).2 = [] /\
  runs (fs_exec small_kernel v36 (F_release 1 50)) (run36 ops36).2.
Proof.
  assert (Hrun : fs_run small_kernel v36 (run36 ops36).1 (run36 ops36).2) by (apply run36_run; vm_compute; reflexivity).
  destruct (references_balanced small_kernel v36 _ _ small_laws Hrun) as (Hrefs & Hlk & Hrun').
  split; [rewrite !Hrefs by done; split; vm_compute; reflexivity|]. split; [exact Hlk|].
  apply Hrun'; [|apply (bool_decide_unpack _); vm_compute; exact I].
  intros o. assert (El : (run36 ops36).1 = [(OMnt 3, 1); (ODentry 201, 1); (ODentry 201, 1); (OMnt 3, 1); (ODentry 201, 1); (ODentry 201, -1); (OMnt 3, -1)]%Z)
    by (vm_compute; reflexivity).
  rewrite El. cbn [balance]. repeat case_decide; lia.
Defined.

(** ** Names *)

(** The call an operation that adds a name makes for a lower directory: with the
    directory and the dentry of the name. *)
Definition adds {L} (v : Z) (op : fs_op) (s : fstate L) : option (ptr * ptr * (ptr -> ptr -> lcall)) :=
  match op with
  | F_mknod dir u sb mode dev => Some (dir, u, fun p ld => Mknod p ld mode dev)
  | F_mkdir dir u sb mode => Some (dir, u, fun p ld => Mkdir p ld mode)
  | F_create dir u sb mode excl =>
      match d_fsdata s !! u with
      | Some (_, m) => Some (dir, u, fun p ld => Create p ld mode (if before v 3 6 0 then Nd ld m else Excl excl))
      | None => None
      end
  | F_symlink dir u sb symname => Some (dir, u, fun p ld => Symlink p ld symname)
  | F_link old dir u sb =>
      match d_fsdata s !! old with Some (lo, _) => Some (dir, u, fun p ld => Link lo p ld) | None => None end
  | _ => None
  end.

Lemma adds_made {L} (K : fs_kernel L) v op s dir u c ld m : kernel_laws K -> good K s -> legal K v op s ->
  adds v op s = Some (dir, u, c) -> d_fsdata s !! u = Some (ld, m) ->
  wp (fs_exec K v op) (made_post K (fun p => c p ld) ld u dir (base s)) s.
Proof.
  intros laws (H & Hl & W)%good_holds Hop Ha Hu.
  assert (Hok : forall dir sb v, can_add s dir v sb -> make_ok sb dir v (base s)) by (intros d sb w (? & ? & ?); by split_and!).
  assert (Hmake : forall (x : FM L Z) c, wp x (make_post K c ld u dir (base s)) s -> wp x (made_post K c ld u dir (base s)) s).
  { intros x c' Hw. eapply wp_mono; [exact Hw|]. by intros r s' []. }
  change (d_fsdata (base s) !! u = Some (ld, m)) in Hu.
  destruct op; simplify_eq/=; try (simpl in Hop; specialize (Hok _ _ _ Hop)).
  - apply Hmake. by eapply wp_mknod.
  - apply Hmake. by eapply wp_mkdir.
  - change (d_fsdata s) with (d_fsdata (base s)) in Ha. destruct (d_fsdata (base s) !! dentry) as [[ld' m']|] eqn:Ho; simplify_eq.
    change (d_fsdata (base s) !! u = Some (ld, m)) in Hu. rewrite Hu in Ho. injection Ho as <- <-.
    destruct (before v 3 6 0); cbn [negb]; [apply Hmake; by eapply wp_create|].
    eapply wp_mono; [by eapply wp_create_since_36|]. by intros r s' [_ ?].
  - apply Hmake. by eapply wp_symlink.
  - destruct Hop as [Hop _]. specialize (Hok _ _ _ Hop). change (d_fsdata s) with (d_fsdata (base s)) in Ha.
    destruct (d_fsdata (base s) !! old) as [[lo mo]|] eqn:Ho; simplify_eq. apply Hmake. by eapply wp_link.
Qed.

(** C13.  When mknod, mkdir, create, symlink or link succeeds, compiled for any kernel
    version, the new name has an inode over the one the lower file system has just
    made, which shows all of its attributes, and the directory shows the times and the
    size of the lower directory. *)
Theorem made_name_shows_lower {L} (K : fs_kernel L) v l op s s' dir u c ld m : kernel_laws K -> fs_run K v l s -> legal K v op s ->
  adds v op s = Some (dir, u, c) -> d_fsdata s !! u = Some (ld, m) -> fs_exec K v op s = Ret 0%Z s' ->
  let p := k_inode K (lower s) (k_parent K (lower s) ld) in
  let l' := (k_call K (c p ld) (lower s)).2 in
  let li := k_inode K l' ld in
  lower s' = l' /\ li <> NULL /\
  (exists i, d_inode s' !! u = Some i /\ inode_info s' !! i = Some li /\ (i <> dir -> attr_of s' i = k_attr K l' li)) /\
  a_mtime (attr_of s' dir) = a_mtime (k_attr K l' p) /\ a_ctime (attr_of s' dir) = a_ctime (k_attr K l' p) /\
  a_size (attr_of s' dir) = a_size (k_attr K l' p).
Proof.
  intros laws Hs Hop Ha Hu E p l' li. pose proof (settle_bare l s) as Eb. pose proof (settle_differ l s) as D.
  destruct (run_beside _ l s _ _ (framed_exec K v op) E) as (s0' & E0 & D0).
  assert (Hw : wp (fs_exec K v op) (made_post K (fun p => c p ld) ld u dir (base (settle l s))) (settle l s)).
  { apply (adds_made K v op (settle l s) dir u c ld m); [done|by eapply settle_good, fs_run_settled|by eapply legal_bare| |].
    - assert (Ea : forall s1 : fstate L, adds v op (set_refs ∅ s1) = adds v op s1) by (by destruct op).
      by rewrite <-Ea, Eb, Ea.
    - change (d_fsdata (set_refs ∅ (settle l s)) !! u = Some (ld, m)). by rewrite Eb. }
  unfold wp in Hw. rewrite E0 in Hw. destruct (Hw eq_refl) as (b' & Hb & N).
  rewrite <-(differ_base _ _ _ D0) in Hb. rewrite <-(differ_base _ _ _ D) in N.
  destruct N as [N1 _ _ _ N5 (i & Hi & Hd & Hinfo & _ & _ & Hattr) [N7 N8] N9].
  change (lower (base s)) with (lower s) in *. rewrite <-Hb in *. fold p l' in N1, N5, Hinfo, Hattr, N7, N8, N9.
  simpl in *. split_and!; try done.
  exists i. rewrite Hd, Hinfo, !lookup_insert_eq. by split_and!.
Qed.
Lemma made_name_shows_lower_witness :
  let s := run_state named_ops in
  exists s', fs_exec small_kernel v2636 (F_create 1 2 9 33188 true) s = Ret 0%Z s' /\
  exists i, d_inode s' !! 2%Z = Some i /\ inode_info s' !! i = Some 701%Z.
Proof.
  cbv zeta. set (s := run_state named_ops).
  assert (Hrun : fs_run small_kernel v2636 _ s) by (apply run_state_run; vm_compute; reflexivity).
  assert (Hop : legal small_kernel v2636 (F_create 1 2 9 33188 true) s) by (apply (bool_decide_unpack _); vm_compute; exact I).
  assert (E : exists s', fs_exec small_kernel v2636 (F_create 1 2 9 33188 true) s = Ret 0%Z s') by (apply result_of_run; vm_compute; reflexivity).
  destruct E as [s' E]. exists s'. split; [exact E|].
  destruct (made_name_shows_lower small_kernel v2636 _ (F_create 1 2 9 33188 true) s s' 1 2
    (fun p ld => Create p ld 33188 (if before v2636 3 6 0 then Nd ld 3 else Excl true)) 201 3
    small_laws Hrun Hop ltac:(vm_compute; reflexivity) ltac:(vm_compute; reflexivity) E) as (_ & _ & (i & Hd & Hi & _) & _).
  exists i. split; [exact Hd|]. rewrite Hi. f_equal.
Defined.

(** C12.  A successful lookup hashes the dentry and lays it over what the lower
    lookup found, with an inode over the inode of that, or none if there is none.
    After a failed one, and for the names "." and "..", the dentry is not hashed.
    A lookup that fails after the dentry was linked has put the lower dentry once more than it
    took it: one reference is missing. *)
Theorem lookup_mirrors_lower {L} (K : fs_kernel L) v l dir u parent sb name s r s' : kernel_laws K -> fs_run K v l s ->
  legal K v (F_lookup dir u parent sb name) s -> dazukofs_lookup K dir u parent sb name s = Ret r s' ->
  (r = 0%Z -> is_dots name = false -> looked_up K (base s) u parent name s') /\
  ((r < 0)%Z \/ is_dots name = true -> u ∉ hashed (vfs s')) /\
  (forall ld m, (r < 0)%Z -> d_fsdata s' !! u = Some (ld, m) ->
    forall o, o.2 <> NULL -> (refs_at s' o + (if decide (o = ODentry ld) then 1 else 0) = Z.of_nat (owned s' o) + balance l o)%Z).
Proof.
  intros laws Hs Hop E. pose proof (settle_bare l s) as Eb.
  destruct (good_holds K _ (settle_good K _ _ (fs_run_settled K v laws l s Hs))) as (H & Hl & W).
  apply (legal_bare K v _ _ (settle l s)), legal_base in Hop; [|done]. destruct Hop as (Hd & Hn & [lsb Hsb] & Hp).
  unfold lower_positive in Hp. destruct (d_fsdata (base (settle l s)) !! parent) as [[lp mp]|] eqn:Ep; [|done].
  assert (Hw : wp (dazukofs_lookup K dir u parent sb name) (lookup_post K (base (settle l s)) u parent name) (settle l s)) by (by eapply wp_lookup).
  destruct (run_beside _ l s _ _ _ E) as (s0' & E0 & D).
  unfold wp in Hw. rewrite E0 in Hw. rewrite <-(differ_base _ _ _ (settle_differ l s)) in Hw. pose proof (df_base _ _ _ D) as Ed.
  assert (Hh : u ∉ hashed (vfs s0') -> u ∉ hashed (vfs s')).
  { change (u ∉ hashed (vfs (set_refs ∅ s0')) -> u ∉ hashed (vfs (set_refs ∅ s'))). by rewrite Ed. }
  destruct Hw as [(_ & Hok & Hno & Hh0)|(Hr & Hh0 & ld & m & b' & Hu & [Hb Hrefs] & _)].
  - split; [|split; [auto|]].
    + intros Hr Hdots. specialize (Hok Hr Hdots). change (looked_up K (base s) u parent name (set_refs ∅ s')). by rewrite Ed.
    + intros ld m Hr Hu. specialize (Hno Hr). change (d_fsdata (set_refs ∅ s') !! u = Some (ld, m)) in Hu. rewrite Ed in Hu. simpl in Hu. congruence.
  - split; [lia|]. split; [auto|]. intros ld' m' _ Hu' o Ho.
    change (d_fsdata (set_refs ∅ s') !! u = Some (ld', m')) in Hu'. rewrite Ed in Hu'. simpl in Hu'. rewrite Hu in Hu'. injection Hu' as <- <-.
    rewrite (df_refs _ _ _ D o Ho). specialize (Hrefs o Ho). change (owned s' o) with (owned (set_refs ∅ s') o). rewrite Ed.
    rewrite <-Hb in Hrefs. change (owned (base s0') o) with (owned (set_refs ∅ s0') o) in Hrefs.
    rewrite times_in_cons in Hrefs. unfold one_if, times_in in Hrefs. simpl in Hrefs.
    destruct (decide (o = ODentry ld)); [rewrite decide_True in Hrefs by done; lia|].
    rewrite decide_False in Hrefs by congruence. lia.
Qed.

(** The inode of the name cannot be grabbed. *)
Definition stale_kernel : fs_kernel lower_fs := small_kernel_with (fun i => bool_decide (i = 1%Z)).
Definition one_file : lower_fs := mk_lower {[ 201%Z := 701%Z ]} ∅.

Lemma lookup_mirrors_lower_witness :
  let s := run_state_of stale_kernel one_file mounted_ops in
  exists s', dazukofs_lookup stale_kernel 1 2 1 9 [97%Z] s = Ret (- ESTALE)%Z s' /\
  (refs_at s' (ODentry 201) + 1 = Z.of_nat (owned s' (ODentry 201)))%Z.
Proof.
  cbv zeta. set (s := run_state_of stale_kernel one_file mounted_ops).
  assert (Hrun : fs_run stale_kernel v2636 [] s).
  { change (fs_run stale_kernel v2636 (run_pair stale_kernel v2636 (unmounted one_file []) mounted_ops).1 s). apply run_state_run. vm_compute. reflexivity. }
  assert (Hop : legal stale_kernel v2636 lookup_op s) by (apply (bool_decide_unpack _); vm_compute; exact I).
  assert (E : exists s', dazukofs_lookup stale_kernel 1 2 1 9 [97%Z] s = Ret (- ESTALE)%Z s') by (apply result_of_run; vm_compute; reflexivity).
  destruct E as [s' E]. exists s'. split; [exact E|].
  assert (Hf : match dazukofs_lookup stale_kernel 1 2 1 9 [97%Z] s with Ret _ s' => d_fsdata s' !! 2%Z | Stuck _ => None end = Some (201, 3)%Z)
    by (vm_compute; reflexivity).
  rewrite E in Hf.
  rewrite <-(Z.add_0_r (Z.of_nat _)).
  exact (proj2 (proj2 (lookup_mirrors_lower stale_kernel v2636 [] 1 2 1 9 [97%Z] s (- ESTALE)%Z s' (small_laws_with _) Hrun Hop E)) 201%Z 3%Z eq_refl Hf
    (ODentry 201) ltac:(done)).
Defined.

(** C11.  Every inode of DazukoFS has in its tables exactly the operations its kind
    supports: those on names for a lower directory, those on links for a lower
    symbolic link, the file operations (and with them the access check of every
    open) unless the lower inode is a special file; it has the number of its lower
    inode, and no other inode lies over that.  Every dentry that lies over a lower
    one has the table through which its references are given back.  No operation,
    failed or not, changes that as long as lower inodes keep their kind and number. *)
Theorem inodes_have_their_operations {L} (K : fs_kernel L) v l compat s : kernel_laws K -> kinds_stable K ->
  (forall low low' li, k_ino K low li = k_ino K low' li) -> fs_run K v l s ->
  (forall i li, inode_info s !! i = Some li ->
    let mode := a_mode (k_attr K (lower s) li) in
    (forall m, m ∈ iops_table (ops_at (i_op s) i).1 <-> supports K mode m = true) /\
    (forall m, m ∈ fops_table compat (ops_at (i_op s) i).2 <-> file_supports K compat mode m = true) /\
    i_ino (vfs s) !! i = Some (k_ino K (lower s) li) /\
    forall j, inode_info s !! j = Some li -> j = i) /\
  (forall u, linked s u -> u ∈ d_op (vfs s)).
Proof.
  intros laws Hst Hno Hs. pose proof (se_wf _ _ _ (fs_run_settled K v laws l s Hs)) as W. set (b := base s) in *.
  change (inode_info s) with (inode_info b). change (i_op s) with (i_op b). change (vfs s) with (vfs b).
  split; [|apply (wf_dops K b W)].
  intros i li Hi. rewrite (wf_ops K b W Hst i li (lower s) Hi). split_and!.
  - intros m. apply iops_of_kind.
  - intros m. apply fops_of_kind.
  - destruct (wf_ino K b W i li Hi) as [low ->]. by rewrite (Hno low (lower s)).
  - intros j Hj. by apply (wf_unique K b W j i li).
Qed.
Lemma inodes_have_their_operations_witness :
  exists i, d_inode (run_state mounted_ops) !! 1%Z = Some i /\
    I_mkdir ∈ iops_table (ops_at (i_op (run_state mounted_ops)) i).1 /\ i_ino (vfs (run_state mounted_ops)) !! i = Some 1%Z.
Proof.
  assert (Hrun : fs_run small_kernel v2636 _ (run_state mounted_ops)) by (apply run_state_run; vm_compute; reflexivity).
  exists 1%Z. split; [vm_compute; reflexivity|].
  destruct (inodes_have_their_operations small_kernel v2636 _ true (run_state mounted_ops) small_laws ltac:(by intros l l' li)
    ltac:(by intros l l' li) Hrun) as [Hi _].
  destruct (Hi 1%Z 1%Z ltac:(vm_compute; reflexivity)) as (Ht & _ & Hn & _). split; [|exact Hn].
  apply Ht. vm_compute. reflexivity.
Defined.

(** ** Access control *)

Lemma wp_open_denied {L} (K : fs_kernel L) takes_over check u f flags b s : holds [] b s -> linked b u -> check <> 0%Z ->
  wp (dazukofs_open K takes_over check u f flags) (fun r s' => r = check /\ holds [] b s') s.
Proof.
  intros H [[ld m] Hu] Hc. apply wp_bind. eapply wp_mono; [by apply (wp_open_before b)|]. intros [? ?] s1 [[= -> ->] H1].
  unfold open_after. rewrite decide_True by done. by apply wp_put_both.
Qed.

(** C21.  Whatever kernel the code is compiled for: an open that
    [dazukofs_check_access] denies, with any result other than 0, fails with that result
    and opens nothing: the lower file system is not asked and nothing changes.  An open
    that is allowed succeeds only with the file the lower file system opened for the
    lower dentry and mount. *)
Theorem denied_open_is_refused {L} (K : fs_kernel L) v l check u f flags s : kernel_laws K -> fs_run K v l s ->
  linked s u -> no_file s f ->
  (check <> 0%Z -> forall takes_over, exists s', dazukofs_open K takes_over check u f flags s = Ret check s' /\
    base s' = base s /\ forall o, o.2 <> NULL -> refs_at s' o = refs_at s o) /\
  (forall takes_over s', dazukofs_open K takes_over 0 u f flags s = Ret 0%Z s' -> exists ld m lf, d_fsdata s !! u = Some (ld, m) /\
    lf = (k_call K (Dentry_open ld m flags) (lower s)).1 /\ files s' !! f = Some lf /\ (0 <= lf)%Z).
Proof.
  intros laws Hs Hu Hf. destruct (good_holds K _ (settle_good K _ _ (fs_run_settled K v laws l s Hs))) as (H & Hl & W).
  pose proof (settle_differ l s) as D. rewrite <-(differ_base _ _ _ D) in H, W. split.
  - intros Hc takes_over.
    destruct (wp_run _ _ _ (wp_beside (dazukofs_open K takes_over check u f flags) _ l s _ (wp_open_denied K takes_over check u f flags (base s) _ H Hu Hc)))
      as (r & s' & E & s0' & (-> & [Hb Hrefs]) & D').
    exists s'. split; [exact E|]. split; [by rewrite (differ_base _ _ _ D')|]. intros o Ho.
    rewrite (df_refs _ _ _ D' o Ho), (Hrefs o Ho), (df_refs _ _ _ D o Ho). f_equal. symmetry. by apply H.
  - intros takes_over s' E. destruct Hu as [[ld m] Hu]. destruct (run_beside _ l s _ _ _ E) as (s0' & E0 & D').
    pose proof (wp_open K (base s) _ H takes_over 0%Z u ld m f flags Hu Hf) as Hw. unfold wp in Hw. rewrite E0 in Hw.
    destruct Hw as (_ & _ & Hok). destruct (Hok eq_refl) as (lf & Hlf & Hge & Hc). exists ld, m, lf. split_and!; try done.
    change (files (set_refs ∅ s') !! f = Some lf). by rewrite (df_base _ _ _ D').
Qed.
Lemma denied_open_is_refused_witness :
  let s := run_state named_ops in
  exists s', dazukofs_open small_kernel false (- EPERM) 2 50 0 s = Ret (- EPERM)%Z s' /\ base s' = base s.
Proof.
  cbv zeta. set (s := run_state named_ops).
  assert (Hrun : fs_run small_kernel v2636 _ s) by (apply run_state_run; vm_compute; reflexivity).
  assert (Hu : linked s 2) by (apply (bool_decide_unpack _); vm_compute; exact I).
  destruct (denied_open_is_refused small_kernel v2636 _ (- EPERM) 2 50 0 s small_laws Hrun Hu ltac:(vm_compute; reflexivity)) as [Hd _].
  destruct (Hd ltac:(done) false) as (s' & E & Hb & _). exists s'. split; [exact E|exact Hb].
Defined.

(** ** Symbolic links *)

(** Buffers are owned by the nameidatas they are left in, and by nothing else. *)
Lemma refs_of_buffer {L} (K : fs_kernel L) s s0 buf : good K s -> good K s0 -> buf <> NULL ->
  refs_at s (OBuf buf) = (refs_at s0 (OBuf buf) +
    (Z.of_nat (mcount (fun l => one_if (OBuf l.1 = OBuf buf)) (nd_link (vfs s))) -
     Z.of_nat (mcount (fun l => one_if (OBuf l.1 = OBuf buf)) (nd_link (vfs s0)))))%Z.
Proof.
  assert (Hown : forall s, good K s -> buf <> NULL ->
    refs_at s (OBuf buf) = Z.of_nat (mcount (fun l => one_if (OBuf l.1 = OBuf buf)) (nd_link (vfs s)))); [|intros G G0 Hb; rewrite !Hown by done; lia].
  clear s s0. intros s (b & [Hb Hr] & _) Hn. rewrite (Hr (OBuf buf) Hn), <-Hb. unfold owned, times_in. simpl.
  rewrite (mcount_zero _ (d_fsdata s)), (mcount_zero _ (inode_info s)), (mcount_zero _ (files s)) by done. lia.
Qed.

(** Following a link, and then putting it. *)
Definition followed {L} (K : fs_kernel L) (nd buf ld : ptr) (s : fstate L) (r : Z) (s' : fstate L) : Prop :=
  let out := k_call K (Readlink ld PAGE_SIZE) (lower s) in
  (r = 0%Z -> nd_link (vfs s') !! nd = Some (buf, take (Z.to_nat out.1) (k_link K out.2 ld)) /\
     exists s'', dazukofs_put_link nd s' = Ret tt s'' /\ nd_link (vfs s'') = nd_link (vfs s) /\
       refs_at s'' (OBuf buf) = refs_at s (OBuf buf) /\ refs_at s' (OBuf buf) = (refs_at s (OBuf buf) + 1)%Z) /\
  (r <> 0%Z -> (r < 0)%Z /\ nd_link (vfs s') = nd_link (vfs s) /\ refs_at s' (OBuf buf) = refs_at s (OBuf buf)).

Lemma wp_followed {L} (K : fs_kernel L) v u nd buf ld m s : kernel_laws K -> good K s -> d_fsdata s !! u = Some (ld, m) ->
  legal K v (F_follow_link u nd buf) s -> buf <> NULL -> wp (dazukofs_follow_link K u nd buf) (followed K nd buf ld s) s.
Proof.
  intros laws G Hu Hop Hbuf. pose proof (good_holds K s G) as (H & Hl & W). unfold followed.
  destruct Hop as ([i Hi] & Hroom & Hnd). unfold room_for_nul in Hroom. rewrite Hu in Hroom.
  assert (Hi' : is_positive (base s) u i) by (by apply wf_positive with (K := K)).
  eapply wp_mono; [eapply wp_and; [apply (wp_follow_link K laws u ld m i nd buf _ s H Hl W Hu Hi' Hnd Hroom)|
    apply (wp_ran _ (fun _ _ => True)); by eapply wp_mono; [apply (wp_follow_link K laws u ld m i nd buf _ s H Hl W Hu Hi' Hnd Hroom)|]]|].
  intros r s' [(G' & Hok & Hbad) [_ E]]. change (vfs (base s)) with (vfs s) in Hok, Hbad. split.
  - intros Hr. rewrite (Hok Hr). split; [apply lookup_insert_eq|].
    pose proof (good_holds K s' G') as (H' & Hl' & W').
    assert (Hn' : nd_link (vfs s') !! nd = Some (buf, take (Z.to_nat (k_call K (Readlink ld PAGE_SIZE) (lower s)).1)
      (k_link K (k_call K (Readlink ld PAGE_SIZE) (lower s)).2 ld))) by (rewrite (Hok Hr); apply lookup_insert_eq).
    destruct (wp_run _ _ _ (wp_put_link K (base s') s' H' Hl' W' nd buf _ Hn')) as ([] & s'' & E2 & G2 & Hd).
    change (vfs (base s')) with (vfs s') in Hd. rewrite (Hok Hr), delete_insert_id in Hd by done. exists s''. split; [exact E2|]. split; [exact Hd|].
    rewrite (refs_of_buffer K s'' s buf G2 G Hbuf), (refs_of_buffer K s' s buf G' G Hbuf), Hd, (Hok Hr).
    change (lower (base s)) with (lower s). rewrite mcount_insert_fresh by done. cbn [fst]. unfold one_if at 3. rewrite decide_True by done. lia.
  - intros Hr. destruct (Hbad Hr) as [Hneg Hd]. rewrite Hd. split_and!; [done|done|].
    rewrite (refs_of_buffer K s' s buf G' G Hbuf), Hd. lia.
Qed.

(** C27.  Following a link leaves in the nameidata the buffer with the text the lower
    [readlink] wrote, cut to the length it returned, as long as that is less than a
    page, and [put_link] frees it; a failure leaves the nameidata alone and frees the
    buffer at once. *)
Theorem followed_link_is_the_lower_text {L} (K : fs_kernel L) v l u nd buf s : kernel_laws K -> fs_run K v l s ->
  linked s u -> legal K v (F_follow_link u nd buf) s -> buf <> NULL ->
  exists ld m r s', d_fsdata s !! u = Some (ld, m) /\ dazukofs_follow_link K u nd buf s = Ret r s' /\
    let out := k_call K (Readlink ld PAGE_SIZE) (lower s) in
    (r = 0%Z -> nd_link (vfs s') !! nd = Some (buf, take (Z.to_nat out.1) (k_link K out.2 ld)) /\
       exists s'', dazukofs_put_link nd s' = Ret tt s'' /\ nd_link (vfs s'') = nd_link (vfs s) /\
         refs_at s'' (OBuf buf) = refs_at s (OBuf buf) /\ refs_at s' (OBuf buf) = (refs_at s (OBuf buf) + 1)%Z) /\
    (r <> 0%Z -> (r < 0)%Z /\ nd_link (vfs s') = nd_link (vfs s) /\ refs_at s' (OBuf buf) = refs_at s (OBuf buf)).
Proof.
  intros laws Hs [[ld m] Hu] Hop Hbuf. pose proof (settle_bare l s) as Eb. pose proof (settle_differ l s) as D.
  assert (Hw : wp (dazukofs_follow_link K u nd buf) (followed K nd buf ld (settle l s)) (settle l s)).
  { apply (wp_followed K v u nd buf ld m); [done|by eapply settle_good, fs_run_settled| |by eapply legal_bare|done].
    change (d_fsdata (set_refs ∅ (settle l s)) !! u = Some (ld, m)). by rewrite Eb. }
  destruct (wp_run _ _ _ (wp_beside (dazukofs_follow_link K u nd buf) _ l s _ Hw)) as (r & s' & E & s0' & [Hok Hbad] & D').
  exists ld, m, r, s'. split; [exact Hu|]. split; [exact E|]. cbv zeta.
  assert (Ev : vfs (settle l s) = vfs s /\ lower (settle l s) = lower s).
  { change (vfs (set_refs ∅ (settle l s)) = vfs s /\ lower (set_refs ∅ (settle l s)) = lower s). by rewrite Eb. }
  destruct Ev as [Ev El]. rewrite Ev, El in *.
  assert (Ev' : vfs s' = vfs s0') by (change (vfs (set_refs ∅ s') = vfs (set_refs ∅ s0')); by rewrite (df_base _ _ _ D')). rewrite Ev'.
  rewrite (df_refs _ _ _ D' (OBuf buf) Hbuf), (df_refs _ _ _ D (OBuf buf) Hbuf). split.
  - intros Hr. destruct (Hok Hr) as [Hn (s2 & E2 & Hn2 & Hr2 & Hr1)]. split; [exact Hn|].
    pose proof (framed_put_link nd _ _ _ D') as F. rewrite E2 in F. destruct (dazukofs_put_link nd s') as [[] s''|]; [|done].
    destruct F as [_ D2]. exists s''. split; [done|]. rewrite (df_refs _ _ _ D2 (OBuf buf) Hbuf), Hr2, Hr1. split_and!; [|done|lia].
    assert (E3 : vfs s'' = vfs s2) by (change (vfs (set_refs ∅ s'') = vfs (set_refs ∅ s2)); by rewrite (df_base _ _ _ D2)). by rewrite E3.
  - intros Hr. destruct (Hbad Hr) as (Hneg & Hn & Hr0). split_and!; [done|done|by rewrite Hr0].
Qed.
Lemma followed_link_is_the_lower_text_witness :
  let s := run_state (named_ops ++ [F_symlink 1 2 9 0]) in
  exists s', dazukofs_follow_link small_kernel 2 70 80 s = Ret 0%Z s' /\ nd_link (vfs s') !! 70%Z = Some (80%Z, [47; 201]%Z).
Proof.
  cbv zeta. set (s := run_state (named_ops ++ [F_symlink 1 2 9 0])).
  assert (Hrun : fs_run small_kernel v2636 _ s) by (apply run_state_run; vm_compute; reflexivity).
  assert (Hu : linked s 2) by (apply (bool_decide_unpack _); vm_compute; exact I).
  assert (Hop : legal small_kernel v2636 (F_follow_link 2 70 80) s) by (apply (bool_decide_unpack _); vm_compute; exact I).
  assert (Er : result_of (dazukofs_follow_link small_kernel 2 70 80) s = Some 0%Z) by (vm_compute; reflexivity).
  assert (Ed : d_fsdata s !! 2%Z = Some (201%Z, 3%Z)) by (vm_compute; reflexivity).
  destruct (followed_link_is_the_lower_text small_kernel v2636 _ 2 70 80 s small_laws Hrun Hu Hop ltac:(done)) as (ld & m & r & s' & Hd & E & Hok & _).
  rewrite Ed in Hd. injection Hd as <- <-. unfold result_of in Er. rewrite E in Er. injection Er as ->.
  exists s'. split; [exact E|]. exact (proj1 (Hok eq_refl)).
Defined.

(** ** Reading and writing *)

(** The file 50 with the dentry 2 and the inode 5, over the file 30; the first page
    is cached. *)
Definition one_page (locked : bool) : gmap (ptr * Z) page := {[ (5, 0)%Z := mk_page 1 locked true 0 [] ]}.
Definition open_state (locked : bool) : iostate lower_fs :=
  mk_iostate (mk_fstate empty_fs ∅ [] {[ 2%Z := (201, 3)%Z ]} {[ 2%Z := 5%Z ]} vfs0 {[ 5%Z := 30%Z ]} ∅ ∅ {[ 50%Z := 30%Z ]} ∅ [])
    ∅ ∅ {[ 50%Z := 2%Z ]} (one_page locked) [] [] [].

Lemma open_state_page locked k p : pages (open_state locked) !! k = Some p -> k = (5, 0)%Z /\ p = mk_page 1 locked true 0 [].
Proof. unfold open_state, one_page. simpl. by intros [<- <-]%lookup_singleton_Some. Qed.
Lemma open_state_lower locked j lj : inode_info (io_fs (open_state locked)) !! j = Some lj -> j = 5%Z /\ lj = 30%Z.
Proof. unfold open_state. simpl. by intros [<- <-]%lookup_singleton_Some. Qed.

Lemma open_state_opened : opened small_io 50 30 2 5 30 (open_state false).
Proof. split; try done. by intros k p [_ ->]%open_state_page. Qed.

(** C22.  Any sequence of reads, writes and seeks on an open DazukoFS file gives the
    results, the data, the position and the lower file system that the same calls on
    the lower file give. *)
Theorem session_is_transparent {L} (K : fs_kernel L) (F : io_kernel L) file lf u i li ops s : file_laws F lf ->
  opened F file lf u i li s -> in_sync file lf s ->
  exists rs s', user_run K F file ops s = Ret rs s' /\ (rs, below lf s') = direct_run F lf ops (below lf s).
Proof.
  intros laws O Hs. destruct (wp_run _ _ _ (wp_user_run K F file lf laws u i li ops s O Hs)) as (rs & s' & E & H).
  by exists rs, s'.
Qed.
Lemma session_is_transparent_witness :
  let ops := [U_write [1; 2]%Z 2; U_seek 0 0; U_read 1] in
  exists rs s', user_run small_kernel small_io 50 ops (open_state false) = Ret rs s' /\ rs = [(1, []); (0, []); (1, [1; 2])]%Z.
Proof.
  cbv zeta. destruct (session_is_transparent small_kernel small_io 50 30 2 5 30 [U_write [1; 2]%Z 2; U_seek 0 0; U_read 1]
    (open_state false) (small_file_laws 30) open_state_opened ltac:(by split)) as (rs & s' & E & H).
  exists rs, s'. split; [exact E|]. apply (f_equal fst) in H. simpl in H. rewrite H. vm_compute. reflexivity.
Defined.

(** C23.  A write through DazukoFS leaves no stale page: apart from the pages in [D],
    written to through a mapping, a cached page that counts as up to date still
    holds what the lower file holds, wherever the write ended. *)
Theorem write_leaves_no_stale_page {L} (K : fs_kernel L) (F : io_kernel L) file_page D file lf u i li buf count pos s :
  page_laws F file_page -> opened F file lf u i li s -> unique_lower i li s -> (forall l, io_inode F l lf = li) ->
  io_has F (low s) lf Fop_write = true -> coherent_but file_page D s ->
  exists out s', dazukofs_write K F file buf count pos s = Ret out s' /\ coherent_but file_page D s' /\ i_mutex s' = [].
Proof.
  intros plaws O Hu Hli Hw Hc. pose proof (coherent_write K F file_page plaws D file lf u i li buf count pos s O Hu Hli Hw Hc) as H1.
  assert (H2 : wp (dazukofs_write K F file buf count pos) (fun _ s' => i_mutex s' = []) s).
  { pose proof (wp_write_file K F _ _ _ _ _ s O buf count pos Hw) as Hr. destruct (io_write _ _ _ _ _ _ _) as [[[ret pos'] fp] l].
    eapply wp_mono; [exact Hr|]. intros out s' (_ & (_ & _ & -> & _) & _). apply O. }
  destruct (wp_run _ _ _ (wp_and _ _ _ _ H1 H2)) as (out & s' & E & H). by exists out, s'.
Qed.
Lemma write_leaves_no_stale_page_witness :
  exists out s', dazukofs_write small_kernel small_io 50 [1; 2]%Z 2 0 (open_state false) = Ret out s' /\ coherent_but small_page ∅ s' /\ i_mutex s' = [].
Proof.
  apply (write_leaves_no_stale_page small_kernel small_io small_page ∅ 50 30 2 5 30 [1; 2]%Z 2 0 (open_state false) small_page_laws open_state_opened).
  - by intros j [-> _]%open_state_lower.
  - done.
  - done.
  - intros i n p li [[= -> ->] ->]%open_state_page _ _ [_ ->]%open_state_lower. reflexivity.
Defined.

(** C24.  [readpage] unlocks the page and gives back its references.  If it succeeds
    the page is up to date and holds what the lower file holds, otherwise it is
    not up to date. *)
Theorem readpage_brings_the_lower_page {L} (F : io_kernel L) file_page file lf u i li n p s :
  page_laws F file_page -> files (io_fs s) !! file = Some lf -> f_dentry s !! file = Some u ->
  d_inode (io_fs s) !! u = Some i -> inode_info (io_fs s) !! i = Some li -> pages s !! (i, n) = Some p -> pg_locked p = true ->
  exists r s' p', dazukofs_readpage F file n s = Ret r s' /\ pages s' = <[(i, n) := p']> (pages s) /\
    pg_locked p' = false /\ pg_count p' = pg_count p /\ (forall o, refs_at (io_fs s') o = refs_at (io_fs s) o) /\
    (if decide (r = 0%Z) then pg_uptodate p' = true /\ pg_data p' = file_page (low s') li n /\ pg_maps p' = pg_maps p
     else pg_uptodate p' = false).
Proof.
  intros plaws Hf Hd Hi Hli Hp Hlk. pose proof (wp_readpage F file lf u i li n p s Hf Hd Hi Hli Hp Hlk) as Hw.
  pose proof (law_page_read F _ plaws li n lf (low s)) as Hlaw. destruct (read_cache_page F li n lf (low s)) as [lp l].
  destruct Hlaw as (Hlp & _ & Hdata). destruct (wp_run _ _ _ (Hw Hlp)) as (r & s' & E & (p' & (Hpg & Hb & _) & Hl & Hc & Hup & Hok) & Hrefs).
  apply base_info in Hb as [_ Hlow]. exists r, s', p'. split_and!; try done. case_decide as Hr.
  - destruct (Hok Hr) as (Hge & Hm & ->). split_and!; [by rewrite Hup, bool_decide_true| |done].
    unfold low. rewrite Hlow. by apply Hdata.
  - by rewrite Hup, bool_decide_false.
Qed.
Lemma readpage_brings_the_lower_page_witness :
  exists r s' p', dazukofs_readpage small_io 50 0 (open_state true) = Ret r s' /\ pages s' = <[(5, 0)%Z := p']> (one_page true) /\
    pg_locked p' = false.
Proof.
  destruct (readpage_brings_the_lower_page small_io small_page 50 30 2 5 30 0 (mk_page 1 true true 0 [])
    (open_state true) small_page_laws eq_refl eq_refl eq_refl eq_refl eq_refl eq_refl) as (r & s' & p' & E & Hp & Hl & _).
  exists r, s', p'. split; [exact E|]. split; [exact Hp|exact Hl].
Defined.

(** C25.  When [writepage] succeeds the lower file holds the contents of the page and
    is otherwise unchanged, and the page is up to date and unlocked; but on every
    path that got a lower page the reference to it is kept for ever. *)
Theorem writepage_hands_the_page_down {L} (F : io_kernel L) file_page i li n p s :
  page_laws F file_page -> inode_info (io_fs s) !! i = Some li -> pages s !! (i, n) = Some p -> pg_locked p = true ->
  page_locks s = [] ->
  let lp := (grab_cache_page F li n (low s)).1 in
  exists r s' p', dazukofs_writepage F i n s = Ret r s' /\ pages s' = <[(i, n) := p']> (pages s) /\
    pg_locked p' = false /\ pg_data p' = pg_data p /\ page_locks s' = [] /\
    (forall j m, file_page (low s') j m = if decide (r = 0%Z /\ (j, m) = (li, n)) then pg_data p else file_page (low s) j m) /\
    (r = 0%Z -> pg_uptodate p' = true) /\
    (lp <> NULL -> refs_at (io_fs s') (OPage lp) = refs_at (io_fs s) (OPage lp) + 1)%Z.
Proof.
  intros plaws Hli Hp Hlk Hpl lp. pose proof (wp_writepage F i li n p s Hli Hp Hlk) as Hw.
  pose proof (law_page_grab F _ plaws li n (low s)) as Hlaw. unfold lp. clear lp.
  destruct (grab_cache_page F li n (low s)) as [lp l]. destruct Hlaw as (Hsame & Hwr). rewrite Hpl in Hw. cbn [fst].
  destruct (wp_run _ _ _ (Hw (not_elem_of_nil lp))) as (r & s' & E & (p' & (Hpg & Hb & Hpl' & _) & Hl & Hd & _ & _ & Hup) & Hnn & Hrefs).
  apply base_info in Hb as [_ Hlow]. change (lower (io_fs s')) with (low s') in Hlow. cbn [lower set_lower] in Hlow.
  exists r, s', p'. split_and!; try done; [by rewrite Hpl'| | |].
  - intros j m. rewrite Hlow. destruct (decide (r = 0%Z)) as [Hr|Hr].
    + rewrite Hwr by auto. destruct (decide ((j, m) = (li, n))); [by rewrite decide_True|].
      rewrite decide_False by tauto. apply Hsame.
    + rewrite decide_False by tauto. apply Hsame.
  - intros Hr. by rewrite Hup, bool_decide_true.
  - intros Hnull. rewrite Hrefs by done. by rewrite decide_True.
Qed.
Lemma writepage_hands_the_page_down_witness :
  exists r s' p', dazukofs_writepage small_io 5 0 (open_state true) = Ret r s' /\ pages s' = <[(5, 0)%Z := p']> (one_page true) /\
    (refs_at (io_fs s') (OPage (page_ptr 30 0)) = 1)%Z.
Proof.
  destruct (writepage_hands_the_page_down small_io small_page 5 30 0 (mk_page 1 true true 0 []) (open_state true) small_page_laws
    eq_refl eq_refl eq_refl eq_refl) as (r & s' & p' & E & Hp & _ & _ & _ & _ & _ & Hr).
  exists r, s', p'. split; [exact E|]. split; [exact Hp|]. exact (Hr ltac:(done)).
Defined.

(** C26.  Whatever the position and the count, the loop that outdates the pages of
    the upper file ends: on a file whose cached pages are unlocked it clears the
    flag of exactly the pages from the first to the last one written, and takes a
    reference on each that is never given back. *)
Theorem outdating_ends {L} file count pos u i (s : iostate L) : f_dentry s !! file = Some u ->
  d_inode (io_fs s) !! u = Some i -> unlocked (pages s) -> count <> 0%Z ->
  mark_pages_outdated file count pos s = Ret tt (set_pages
    (map_imap (fun k p => Some (if decide (k.1 = i /\ mark_start pos <= k.2 <= mark_last count pos)%Z
       then with_uptodate false (with_count (pg_count p + 1) p) else p)) (pages s)) s).
Proof.
  intros Hd Hi Hu Hc.
  assert (Hw : wp (mark_pages_outdated file count pos) (fun r s' => s' = set_pages (outdate i (mark_start pos) (mark_last count pos) (pages s)) s) s).
  { eapply wp_mark_pages; [exact Hd|exact Hi|exact Hu|]. by rewrite decide_False. }
  destruct (wp_run _ _ _ Hw) as ([] & s' & E & ->). exact E.
Qed.
Lemma outdating_ends_witness :
  exists s', mark_pages_outdated 50 10 (2 ^ 64 - 5) (open_state false) = Ret tt s' /\
  pages s' = map_imap (fun k p => Some (if decide (k.1 = 5%Z /\ mark_start (2 ^ 64 - 5) <= k.2 <= mark_last 10 (2 ^ 64 - 5))%Z
    then with_uptodate false (with_count (pg_count p + 1) p) else p)) (one_page false).
Proof.
  eexists. split; [apply (outdating_ends 50 10 (2 ^ 64 - 5) 2 5 (open_state false)); [reflexivity|reflexivity| |done]|reflexivity].
  by intros k p [_ ->]%open_state_page.
Defined.

(** ** Names *)

Lemma memcmp_differs n a b s : n <= length a -> n <= length b ->
  memcmp n a b s = Ret (negb (bool_decide (take n a = take n b))) s.
Proof.
  revert a b. induction n as [|n IH]; intros [|x a] [|y b] Ha Hb; simpl in *; try lia; try done.
  case_decide as E.
  - subst. rewrite IH by lia. f_equal. f_equal. apply bool_decide_ext. split; [by intros ->|by intros [= ->]].
  - unfold sret. f_equal. rewrite bool_decide_false; [done|]. by intros [= ? _].
Qed.

(** C28.  On names that lie in memory with their lengths, [d_compare] returns 0
    exactly when they are the same bytes: always since Linux 3.6, and before
    unless the lower dentry has a comparison of its own, which then decides. *)
Theorem d_compare_is_equality lower_compare (str name : list Z) len name_len s : len <= length str -> name_len <= length name ->
  dazukofs_d_compare len str name_len name s = Ret (if decide (take len str = take name_len name) then 0%Z else 1%Z) s /\
  dazukofs_d_compare_lower lower_compare len str name_len name s =
    Ret (match lower_compare with
         | Some f => f (take len str) (take name_len name)
         | None => if decide (take len str = take name_len name) then 0%Z else 1%Z
         end) s.
Proof.
  intros Hs Hn. assert (E : dazukofs_d_compare len str name_len name s = Ret (if decide (take len str = take name_len name) then 0%Z else 1%Z) s).
  { unfold dazukofs_d_compare. case_decide as Hl.
    - rewrite decide_False; [done|]. intros E. apply Hl. apply (f_equal length) in E. rewrite !length_take in E. lia.
    - assert (name_len = len) as -> by (destruct (decide (name_len = len)); [done|by destruct Hl]).
      unfold sbind. rewrite memcmp_differs by lia. case_decide as Ht.
      + by rewrite bool_decide_true.
      + by rewrite bool_decide_false. }
  split; [exact E|]. destruct lower_compare; [done|exact E].
Qed.
Lemma d_compare_is_equality_witness :
  dazukofs_d_compare 1 [97; 98]%Z 1 [97; 99]%Z tt = Ret 0%Z tt.
Proof.
  exact (proj1 (d_compare_is_equality None [97; 98]%Z [97; 99]%Z 1 1 tt ltac:(simpl; lia) ltac:(simpl; lia))).
Defined.

(** ** Newer kernels *)

(** The references to an object that it has no owner for. *)
Definition unowned {L} (s : fstate L) (o : obj) : Z := (refs_at s o - Z.of_nat (owned s o))%Z.

(** C29.  Compiled for Linux 3.6 or later, after any sequence of operations: every open
    that gets past the access check and the allocation, and so to [dentry_open], which
    takes no references over there, leaves one reference more to the lower dentry and one
    more to the lower mount than it finds, with no owner, whether it succeeds or not. *)
Theorem open_leaks_since_36 {L} (K : fs_kernel L) v l u f flags ld m s : kernel_laws K -> before v 3 6 0 = false ->
  fs_run K v l s -> d_fsdata s !! u = Some (ld, m) -> no_file s f -> next_fails s = false ->
  exists r s', dazukofs_open K false 0 u f flags s = Ret r s' /\
    fs_run K v ((OMnt m, 1%Z) :: (ODentry ld, 1%Z) :: l) s' /\
    unowned s' (ODentry ld) = (unowned s (ODentry ld) + 1)%Z /\
    (m <> NULL -> unowned s' (OMnt m) = (unowned s (OMnt m) + 1)%Z).
Proof.
  intros laws Hv Hs Hu Hf Ho. pose proof (fs_run_settled K v laws l s Hs) as S.
  assert (Hop : legal K v (F_open 0 u f flags) s) by (split; [by eexists|done]).
  destruct (wp_run _ _ _ (wp_legal K v laws _ l s S Hop)) as (r & s' & E & _).
  pose proof (run_op K v l s _ r s' Hs Hop E) as Hs'.
  assert (El : dues v (F_open 0 u f flags) s r s' = [(OMnt m, 1%Z); (ODentry ld, 1%Z)]).
  { simpl. unfold of_dentry, left_open. by rewrite Hu, Hv, Ho. }
  rewrite El in Hs'. pose proof (fs_run_settled K v laws _ s' Hs') as S'. exists r, s'.
  split; [by simpl in E; rewrite Hv in E|]. split; [exact Hs'|]. pose proof (wf_dentry K _ (se_wf _ _ _ S) u ld m Hu) as Hld.
  unfold unowned. split; [|intros Hm]; rewrite (se_refs _ _ _ S), (se_refs _ _ _ S') by done; cbn [app balance].
  - rewrite (decide_False (P := OMnt m = ODentry ld)) by done. rewrite (decide_True (P := ODentry ld = ODentry ld)) by done. lia.
  - rewrite (decide_True (P := OMnt m = OMnt m)) by done. rewrite (decide_False (P := ODentry ld = OMnt m)) by done. lia.
Qed.
Lemma open_leaks_since_36_witness :
  exists r s', dazukofs_open small_kernel false 0 2 51 0 (run36 [lookup_op; F_open 0 2 50 0]).2 = Ret r s' /\
  unowned s' (ODentry 201) = 2%Z.
Proof.
  set (s := (run36 [lookup_op; F_open 0 2 50 0]).2).
  assert (Hrun : fs_run small_kernel v36 (run36 [lookup_op; F_open 0 2 50 0]).1 s) by (apply run36_run; vm_compute; reflexivity).
  destruct (open_leaks_since_36 small_kernel v36 _ 2 51 0 201 3 s small_laws eq_refl Hrun ltac:(vm_compute; reflexivity)
    ltac:(vm_compute; reflexivity) ltac:(vm_compute; reflexivity)) as (r & s' & E & _ & H & _).
  exists r, s'. split; [exact E|]. rewrite H. vm_compute. reflexivity.
Defined.

(** Since Linux 3.6 create puts a reference to the lower mount and one to the lower
    dentry that it has not taken: here both are gone while the dentry still lies
    over them. *)
Theorem create_puts_too_much_since_36 :
  match dazukofs_create small_kernel true 1 2 9 33188 false (run_state named_ops) with
  | Ret r s' => (r = 0 /\ d_fsdata s' !! 2 = Some (201, 3) /\ refs_at s' (ODentry 201) = 0 /\
      refs_at s' (OMnt 3) + 1 = Z.of_nat (owned s' (OMnt 3)))%Z
  | Stuck _ => False
  end.
Proof. vm_compute. done. Qed.

(** Since Linux 2.6.39 a mount that succeeds leaves a root without a lower dentry,
    so that the first lookup follows a NULL pointer. *)
Theorem mount_has_no_root_since_39 {L} (K : fs_kernel L) sb root pd pm s s' :
  dazukofs_get_sb K true sb root pd pm s = Ret 0%Z s' ->
  d_fsdata s' !! root = Some (NULL, NULL) /\
  forall dir u sb' name, is_dots name = false -> dazukofs_lookup K dir u root sb' name s' = Stuck NullDeref.
Proof.
  intros E. assert (Hr : d_fsdata s' !! root = Some (NULL, NULL)).
  { revert E. unfold dazukofs_get_sb, dazukofs_fill_super, sbind. destruct (zalloc s) as [[] s1|]; [|done|done]. simpl.
    case_decide; [done|]. unfold set_dops, upd_vfs, smodify. destruct (zalloc _) as [[] s2|]; [| |done].
    - simpl. intros [= <-]. simpl. apply lookup_insert_eq.
    - simpl. by destruct (dput_last root s2). }
  split; [exact Hr|]. intros dir u sb' name Hd. unfold dazukofs_lookup. rewrite Hd.
  unfold sbind, set_dops, upd_vfs, smodify, get_lower_dentry. simpl. by rewrite Hr.
Qed.
