(* ===== verification/GuardThms.v ===== *)
(** * What the guarded file system guarantees

    The theorems on the event layer and the file system together, and runs of both. *)

From stdpp Require Import list gmap strings.
From S2P Require Import Prelude EventState EventOps EventInv GroupReg EventFlow EventPost EventTasks EventConc EventMask EventSteps EventRegSteps EventSafe Vote EventStill EventVote EventVoteSteps EventThms FsState FsInode FsSpec FsFile FsFrame FsInodeSpec FsFileSpec FsLedger FsSystem Guard GuardInv FsModel FsThms.
Import Vote.

(** ** Runs *)

(** A script of the event layer as one of both layers. *)
Definition lift_cmd (c : cmd) : gcmd lower_fs :=
  match c with Spawn t cur p => G_spawn t cur p | Run t env => G_run t env | Exit t => G_exit t end.
Definition lift (cs : list cmd) : list (gcmd lower_fs) := lift_cmd <$> cs.

(** A file system with the file 2, and a group; task 2 opens the file as file 50 and
    sleeps. *)
Definition opening (ops : list fs_op) : list (gcmd lower_fs) :=
  map G_fs (ops ++ [F_create 1 2 9 33188 true]) ++ lift (add_script "g" false) ++ G_open 2 20 2 3 50 0 :: lift (EventThms.runs 2 4).
(** A registered process claims the event and opens the file for itself, as file 100. *)
Definition reading (ops : list fs_op) : list (gcmd lower_fs) :=
  opening ops ++ lift (claim_script ++ EventThms.runs 3 2) ++ [G_nested 3 100 0].
(** Its answer, with which the open ends. *)
Definition answering (ops : list fs_op) (d : dazukofs_response_t) : list (gcmd lower_fs) :=
  reading ops ++ lift (EventThms.runs 3 3 ++ Spawn 4 40 (RE_enter 0 1 d) :: EventThms.runs 4 3 ++ EventThms.runs 2 3).
Definition finishing (ops : list fs_op) (d : dazukofs_response_t) : list (gcmd lower_fs) := answering ops d ++ [G_opened 2].

Definition gstate_from (v : Z) (fs : fstate lower_fs) (cs : list (gcmd lower_fs)) : gstate lower_fs :=
  default (guard_init fs) (gexec small_kernel v cs (guard_init fs)).
Lemma gstate_from_guarded v fs cs : fs_start small_kernel v fs ->
  bool_decide (is_Some (gexec small_kernel v cs (guard_init fs))) = true -> guarded small_kernel v (gstate_from v fs cs).
Proof.
  intros Hs H. apply bool_decide_eq_true in H as [S HS]. unfold gstate_from. rewrite HS. by exists fs, cs.
Qed.

(** From nothing mounted, compiled for 2.6.36; from a root an older kernel has mounted,
    compiled for 3.6. *)
Definition gstate_of (cs : list fs_op -> list (gcmd lower_fs)) : gstate lower_fs :=
  gstate_from v2636 (unmounted empty_fs []) (cs named_ops).
Definition gstate_36 (cs : list fs_op -> list (gcmd lower_fs)) : gstate lower_fs := gstate_from v36 rooted_state (cs [lookup_op]).
Lemma unmounted_start v : fs_start small_kernel v (unmounted empty_fs []).
Proof. left. by exists empty_fs, []. Qed.

(** ** Open files were allowed *)

(** An access that a check with this outcome lets through: there was no group, or the
    process is ignored; nobody answered the event with DENY; or the file is opened
    for a registered process, to look at it. *)
Definition allowed (acts : list act) (s : kstate) (x : seen) : Prop :=
  match x with
  | Exempt groups ign => groups = 0%Z \/ ign = 0%Z
  | Posted evt => closed s evt /\ finished acts evt /\ ~ denied_by acts evt
  | Masked => True
  | Unseen | NoMemory => False
  end.

Lemma verdict_allowed acts s x err : verdict_ok acts s x err -> err = 0%Z -> allowed acts s x.
Proof.
  intros H ->. destruct x; simpl in *; [done|tauto|by unfold ENOMEM in H| |done].
  destruct H as (Hc & Hf & [[? _]|[_ Hd]]); [done|by split_and!].
Qed.

(** C1.  Compiled for any kernel version, in every state the file system reaches
    together with an orderly run of the event layer, with any interleaving of accesses,
    of groups and their answers, and of the other operations of the file system, failed
    ones included: a file that is open was opened by an open that returned 0, whose
    access was exempt; or for which an event was posted that every group it was posted
    to has answered, unless it was deleted, and no registered process answered with
    DENY; or which was made for a registered process while it is masked.  An open whose
    event a registered process answered with DENY has failed with [-EPERM].  (In an
    orderly run no tracked file of a group that is gone is closed while another group
    has its id, and none that is the last of its group while a group is being counted.
    For Linux 2.6.39 and later, where a mount leaves a root over nothing, the runs
    start from a root that an older kernel has mounted.) *)
Theorem open_files_were_allowed {L} (K : fs_kernel L) v S : kernel_laws K -> guarded K v S ->
  (forall f lf, files (g_fs S) !! f = Some lf -> lf <> NULL ->
     exists e, last_open (g_log S) f = Some e /\ e_result e = 0%Z /\ allowed (g_acts S) (mem (g_ev S)) (e_seen e)) /\
  (forall e evt, e ∈ g_log S -> e_seen e = Posted evt -> denied_by (g_acts S) evt -> e_result e = (- EPERM)%Z).
Proof.
  intros laws HS. destruct (guarded_inv K v laws S HS) as [_ _ V E]. split.
  - intros f lf Hf Hn. destruct (fi_open _ _ _ _ _ V f lf Hf Hn) as (e & He & Hr). exists e. split_and!; [done..|].
    destruct (E e (last_open_elem _ _ _ He)) as (err & Hok & Herr). apply (verdict_allowed _ _ _ err Hok).
    destruct (decide (err = 0%Z)) as [|Hne]; [done|]. by rewrite <-(Herr Hne).
  - intros e evt He Hx Hd. destruct (E e He) as (err & Hok & Herr). rewrite Hx in Hok.
    destruct Hok as (_ & _ & [[-> _]|[_ Hn]]); [by apply Herr|done].
Qed.
Lemma open_files_were_allowed_witness :
  (let S := gstate_of (fun ops => finishing ops ALLOW) in
   exists e, last_open (g_log S) 50 = Some e /\ e_result e = 0%Z /\ allowed (g_acts S) (mem (g_ev S)) (e_seen e)) /\
  e_result (mk_opened 50 2 (Posted 2) (-1)) = (- EPERM)%Z.
Proof.
  assert (HA : guarded small_kernel v2636 (gstate_of (fun ops => finishing ops ALLOW)))
    by (apply gstate_from_guarded; [apply unmounted_start|vm_compute; reflexivity]).
  assert (HD : guarded small_kernel v36 (gstate_36 (fun ops => finishing ops DENY)))
    by (apply gstate_from_guarded; [apply rooted_start|vm_compute; reflexivity]).
  split.
  - apply (proj1 (open_files_were_allowed small_kernel v2636 _ small_laws HA) 50%Z 2201%Z); [vm_compute; reflexivity|done].
  - apply (proj2 (open_files_were_allowed small_kernel v36 _ small_laws HD) (mk_opened 50 2 (Posted 2) (-1)) 2%positive).
    + assert (El : g_log (gstate_36 (fun ops => finishing ops DENY)) = [mk_opened 50 2 (Posted 2) (-1); mk_opened 100 2 Masked 0])
        by (vm_compute; reflexivity).
      rewrite El. left.
    + reflexivity.
    + exists 1%positive. apply (bool_decide_unpack _). vm_compute. exact I.
Defined.

(** ** Waiting opens *)

(** C5.  Compiled for any kernel version, together with an orderly run of the event
    layer: while opens wait for their checks, no mutex is held, and on each lower
    object DazukoFS holds exactly the references its dentries, inodes, open files and
    followed links own, those the waiting opens have taken, and those of the ledger,
    which has what finished operations have left behind or given back too much (for an
    open since Linux 3.6 two: [open_leaks_since_36]).  If it misses none, no operation
    the VFS may make in the meantime faults; and an open whose check has ended goes on
    without a fault, adding to the ledger what it leaves behind. *)
Theorem waiting_opens_are_accounted {L} (K : fs_kernel L) v S : kernel_laws K -> guarded K v S ->
  (forall o, o.2 <> NULL -> refs_at (g_fs S) o =
     Z.of_nat (owned (g_fs S) o + times_in o (waiting_refs (g_opens S))) + balance (g_ledger S) o)%Z /\
  locks (g_fs S) = [] /\
  ((forall o, 0 <= balance (g_ledger S) o)%Z -> forall op, legal K v op (g_fs S) -> runs (fs_exec K v op) (g_fs S)) /\
  (forall t o cur err fields, g_opens S !! t = Some o -> tasks (g_ev S) !! t = Some (cur, Done err fields) ->
     exists S', gexec1 K v (G_opened t) S = Some S' /\
       g_ledger S' = each 1 (left_open (before v 3 6 0) err (o_lower o).1 (o_lower o).2 (g_fs S)) ++ g_ledger S).
Proof.
  intros laws HS. destruct (guarded_inv K v laws S HS) as [_ _ V _]. pose proof (fi_good _ _ _ _ _ V) as G. split_and!.
  - intros o Ho. rewrite (se_refs _ _ _ G o Ho), balance_app, balance_each. lia.
  - apply G.
  - intros _ op Hop. destruct (wp_run _ _ _ (wp_legal K v laws op _ _ G Hop)) as (r & s' & E & _). by exists r, s'.
  - intros t o cur err fields Ho Ht. cbn [gexec1]. rewrite Ho, Ht. unfold oexec1. rewrite decide_True by done. simpl. rewrite Ht.
    destruct (wp_run _ _ _ (wp_after K (before v 3 6 0) t o err _ _ _ _ V Ho)) as (r & s' & -> & _). by eexists.
Qed.
Lemma waiting_opens_are_accounted_witness :
  let S := gstate_36 reading in
  (refs_at (g_fs S) (ODentry 201) = 2)%Z /\ locks (g_fs S) = [] /\
  runs (fs_exec small_kernel v2636 (F_unlink 1 2)) (g_fs (gstate_of opening)) /\
  exists S', gexec1 small_kernel v36 (G_opened 2) (gstate_36 (fun ops => answering ops ALLOW)) = Some S' /\
    balance (g_ledger S') (ODentry 201) = 1%Z.
Proof.
  cbv zeta.
  assert (HS : guarded small_kernel v36 (gstate_36 reading)) by (apply gstate_from_guarded; [apply rooted_start|vm_compute; reflexivity]).
  assert (HO : guarded small_kernel v2636 (gstate_of opening)) by (apply gstate_from_guarded; [apply unmounted_start|vm_compute; reflexivity]).
  assert (HA : guarded small_kernel v36 (gstate_36 (fun ops => answering ops ALLOW)))
    by (apply gstate_from_guarded; [apply rooted_start|vm_compute; reflexivity]).
  destruct (waiting_opens_are_accounted small_kernel v36 _ small_laws HS) as (Hr & Hl & _).
  destruct (waiting_opens_are_accounted small_kernel v2636 _ small_laws HO) as (_ & _ & Hops & _).
  destruct (waiting_opens_are_accounted small_kernel v36 _ small_laws HA) as (_ & _ & _ & Hend).
  split_and!; [rewrite Hr by done; vm_compute; reflexivity|exact Hl| |].
  - apply Hops; [|apply (bool_decide_unpack _); vm_compute; exact I].
    intros o. assert (El : g_ledger (gstate_of opening) = []) by (vm_compute; reflexivity). by rewrite El.
  - destruct (Hend 2%positive (mk_waiting 2 50 0 (201, 3)%Z (Posted 2)) 20%Z 0%Z None) as (S' & E & El);
      [vm_compute; reflexivity..|].
    exists S'. split; [exact E|]. rewrite El. vm_compute. reflexivity.
Defined.
