(* ===== verification/Flaws.v ===== *)
(** * Flaws of the code on concrete paths

    Where the code does not do what it means to and no property of the other files
    says so: each theorem runs one path of the model into the flaw. *)

From stdpp Require Import strings list gmap.
From S2P Require Import Prelude EventState EventOps EventInv GroupReg EventTasks CText GroupText GroupDev.
From S2P Require Import FsState FsInode FsSpec FsFile FsSystem FsRw FsModel FsThms.
From Stdlib Require Import Ascii.

(** ** Texts *)

(** [group_read] gives [snprintf] one byte less than the buffer has, but compares the
    length with that of the buffer: of a text of 42 characters the user gets a
    terminator instead of the newline, and no error. *)
Theorem event_text_cut_unnoticed return_event s :
  let t := event_text 18446744073709551615 10 4194000 in
  group_read (fun fd => kcall_ (KSysClose fd)) (sret (inr (18446744073709551615, 10, 4194000)%Z)) return_event 43 0 false s =
    Ret (42%Z, 42%Z, take 41 t ++ [NUL]) s /\ length t = 42.
Proof. vm_compute. done. Qed.

(** [dazukofs_get_groups] reserves one digit for the id of a group: with the id 10,
    which a race of the closing of group files can give a group, the line of the next
    group overwrites the newline, so that two groups become one line. *)
Definition two_digits : kstate :=
  set_group_list [1; 2]%positive (set_groups {[ 1%positive := mk_group "scan" 4 10 [] [] 0 0 0 0;
    2%positive := mk_group "log" 3 1 [] [] 0 0 0 0 ]} init_state).
Theorem two_digit_group_runs_into_next :
  match dazukofs_get_groups 1 two_digits with
  | Ret (r, Some buf) _ => r = 0%Z /\ cstr buf = txt "10:scan1:log" ++ [NL]
  | _ => False
  end.
Proof. vm_compute. done. Qed.

(** ** The file system *)

Section fs.
Context {L : Type} (K : fs_kernel L).
Implicit Types (s : fstate L).

(** [dazukofs_readlink] copies the times only when the lower [readlink] returned 0, not
    when it returned the length of a text: then nothing but the lower file system
    changes. *)
Theorem readlink_copies_no_times u n ld m s : d_fsdata s !! u = Some (ld, m) -> ld <> NULL ->
  let i := k_inode K (lower s) ld in let out := k_call K (Readlink ld n) (lower s) in
  i <> NULL -> k_has K (lower s) i Op_readlink = true -> out.1 <> 0%Z ->
  dazukofs_readlink K u n s = Ret (out.1, k_link K out.2 ld) (set_lower out.2 s).
Proof.
  intros Hu Hld i out Hi Hh Ho. unfold dazukofs_readlink, sbind, get_lower_dentry, lower_d_inode, call. rewrite Hu.
  rewrite (decide_False (P := ld = NULL)) by done. unfold sget. fold i. rewrite (decide_False (P := i = NULL)) by done.
  rewrite Hh. cbn [negb must_hold]. rewrite decide_True by set_solver. fold out. destruct out as [r l]. simpl in *.
  by rewrite decide_True.
Qed.

(** When the lower text fills the page, [dazukofs_follow_link] stores the terminator
    behind the buffer. *)
Theorem follow_link_overruns u nd buf ld m s : buf <> NULL -> d_fsdata s !! u = Some (ld, m) -> ld <> NULL ->
  let i := k_inode K (lower s) ld in
  i <> NULL -> k_has K (lower s) i Op_readlink = true ->
  (k_call K (Readlink ld PAGE_SIZE) (lower s)).1 = PAGE_SIZE -> dazukofs_follow_link K u nd buf s = Stuck OutOfBounds.
Proof.
  intros Hb Hu Hld i Hi Hh Ho. unfold dazukofs_follow_link, get_ref. rewrite !decide_False by done.
  unfold sbind at 1. unfold smodify. unfold sbind. erewrite readlink_copies_no_times; [|exact Hu|done..|by simpl; rewrite Ho].
  simpl. rewrite Ho. done.
Qed.

(** [dazukofs_d_revalidate] returns an error number, neither 1 nor 0, when the path of
    the lower dentry is not found. *)
Theorem revalidate_returns_error u parent name ld m lp mp s : d_fsdata s !! u = Some (ld, m) ->
  d_fsdata s !! parent = Some (lp, mp) -> k_has_revalidate K (lower s) ld = true ->
  let out := k_call K (Path_lookup lp mp name) (lower s) in (out.1 < 0)%Z ->
  dazukofs_d_revalidate K false u parent name s = Ret (- EINVAL)%Z (set_lower out.2 s).
Proof.
  intros Hu Hp Hr out Ho. unfold dazukofs_d_revalidate, revalidate_path, sbind, get_lower_dentry, get_lower_mnt, sget, call.
  rewrite Hu, Hr. cbn [negb]. rewrite Hp, Hp. cbn [must_hold]. rewrite decide_True by set_solver. fold out. destruct out as [r l].
  simpl in *. by rewrite decide_True.
Qed.

(** When [dentry_open] fails, [dazukofs_open] leaves the file with its private data,
    which nobody frees: a file that was not opened is not released. *)
Theorem failed_open_keeps_private_data ld m file flags s : fs_oom s = [] ->
  ((k_call K (Dentry_open ld m flags) (lower s)).1 < 0)%Z ->
  exists s', open_after K true 0 ld m file flags s = Ret (k_call K (Dentry_open ld m flags) (lower s)).1 s' /\
    files s' !! file = Some NULL.
Proof.
  intros Ho Hr. unfold open_after, set_file_private, set_files, smodify, call, sbind, zalloc, put_ref. rewrite decide_False by tauto.
  rewrite Ho. cbn [negb must_hold]. rewrite decide_True by set_solver. simpl. destruct (k_call K _ _) as [r l]. simpl in *.
  destruct (decide (ld = NULL)), (decide (m = NULL)); unfold sret; rewrite (decide_True (P := (r < 0)%Z)) by done;
    eexists; (split; [done|apply lookup_insert_eq]).
Qed.
End fs.

(** When the lower root cannot be interposed, [dazukofs_read_super] puts the lower
    root and its mount although the root dentry lies over them, and puts them again:
    one reference too many is gone for good. *)
Theorem failed_mount_puts_too_much :
  match dazukofs_get_sb (small_kernel_with (fun _ => false)) false 9 1 100 3 (unmounted empty_fs []) with
  | Ret r s' => (r < 0 /\ refs_at s' (ODentry 100) = -1 /\ refs_at s' (OMnt 3) = -1)%Z
  | Stuck _ => False
  end.
Proof. vm_compute. done. Qed.

(** Without memory for the private data of the root, [dazukofs_fill_super] frees the
    root but leaves it in the super block. *)
Theorem freed_root_stays :
  match dazukofs_fill_super 9 1 (unmounted empty_fs [false; true]) with
  | Ret r s' => r = (- ENOMEM)%Z /\ s_root (vfs s') !! 9%Z = Some 1%Z
  | Stuck _ => False
  end.
Proof. vm_compute. done. Qed.

(** When the lower page cannot be mapped, [dazukofs_readpage] leaves the upper page
    mapped. *)
Theorem page_stays_mapped :
  let s := set_io_fs (set_fs_oom [false; true] (io_fs (open_state true))) (open_state true) in
  match dazukofs_readpage small_io 50 0 s with
  | Ret r s' => r = (- ENOMEM)%Z /\ pg_maps <$> pages s' !! (5, 0)%Z = Some 1%Z
  | Stuck _ => False
  end.
Proof. vm_compute. done. Qed.
